(** * couchclaude: the terminal-screen monitoring and relay engine

    A shallow embedding of [poll.py], [notify.py], [config.py] and the
    parts of [tmux_utils.py] and [telegram_api.py] they call, followed
    by the properties of the relay that the specification states and by
    further properties of the code.

    Python [str] values are sequences of Unicode code points; they are
    modelled as [list N].  Python integers are [Z]. *)

From Stdlib Require Import String Ascii.
From Stdlib Require Import ZArith NArith List Bool Lia Sorted.
Import ListNotations.

Set Implicit Arguments.
Local Open Scope Z_scope.

(* ================================================================== *)
(** * Python strings *)
(* ================================================================== *)

Module Py.

Definition str := list N.

Definition str_eqb (a b : str) : bool :=
  if list_eq_dec N.eq_dec a b then true else false.

(** An ASCII literal of the source, as code points. *)
Fixpoint lit (s : string) : str :=
  match s with
  | EmptyString => []
  | String a s' => N_of_ascii a :: lit s'
  end.

Definition len (s : str) : Z := Z.of_nat (length s).

(** [s[:i]] and [s[i:]]: a negative index counts from the end, and both
    are clamped to the string. *)
Definition norm_index (s : str) (i : Z) : nat :=
  if i <? 0 then Z.to_nat (Z.max 0 (len s + i))
  else Z.to_nat (Z.min i (len s)).

Definition slice_to (s : str) (i : Z) : str := firstn (norm_index s i) s.
Definition slice_from (s : str) (i : Z) : str := skipn (norm_index s i) s.

(** [str.isspace] on one character, which is also the class [\s] of [re]
    on [str] patterns. *)
Definition is_space (c : N) : bool :=
  ((9 <=? c) && (c <=? 13) || (28 <=? c) && (c <=? 32)
   || (c =? 133) || (c =? 160) || (c =? 5760)
   || (8192 <=? c) && (c <=? 8202)
   || (c =? 8232) || (c =? 8233) || (c =? 8239) || (c =? 8287)
   || (c =? 12288))%N.

Fixpoint lstrip_by (p : N -> bool) (s : str) : str :=
  match s with
  | [] => []
  | c :: s' => if p c then lstrip_by p s' else s
  end.

Definition rstrip_by (p : N -> bool) (s : str) : str :=
  rev (lstrip_by p (rev s)).

Definition strip (s : str) : str := rstrip_by is_space (lstrip_by is_space s).

(** [sep.join(parts)] *)
Fixpoint join (sep : str) (parts : list str) : str :=
  match parts with
  | [] => []
  | [p] => p
  | p :: ps => p ++ sep ++ join sep ps
  end.

(** Line boundaries of [str.splitlines]. *)
Definition is_linebreak (c : N) : bool :=
  ((10 <=? c) && (c <=? 13) || (28 <=? c) && (c <=? 30)
   || (c =? 133) || (c =? 8232) || (c =? 8233))%N.

(** [str.splitlines()]: [cur] is the line being read, in reverse. *)
Fixpoint splitlines_aux (cur : str) (s : str) : list str :=
  match s with
  | [] => match cur with [] => [] | _ => [rev cur] end
  | c :: s' =>
      if is_linebreak c then
        match c, s' with
        | 13%N, 10%N :: s'' => rev cur :: splitlines_aux [] s''
        | _, _ => rev cur :: splitlines_aux [] s'
        end
      else splitlines_aux (c :: cur) s'
  end.

Definition splitlines (s : str) : list str := splitlines_aux [] s.

(** Decimal text of a non-negative integer ([str(n)], [f"{n}"]). *)
Fixpoint digits_of_uint (d : Decimal.uint) : str :=
  match d with
  | Decimal.Nil => []
  | Decimal.D0 d => 48%N :: digits_of_uint d
  | Decimal.D1 d => 49%N :: digits_of_uint d
  | Decimal.D2 d => 50%N :: digits_of_uint d
  | Decimal.D3 d => 51%N :: digits_of_uint d
  | Decimal.D4 d => 52%N :: digits_of_uint d
  | Decimal.D5 d => 53%N :: digits_of_uint d
  | Decimal.D6 d => 54%N :: digits_of_uint d
  | Decimal.D7 d => 55%N :: digits_of_uint d
  | Decimal.D8 d => 56%N :: digits_of_uint d
  | Decimal.D9 d => 57%N :: digits_of_uint d
  end.

Definition str_of_Z (z : Z) : str :=
  if z <? 0 then 45%N :: digits_of_uint (N.to_uint (Z.to_N (- z)))
  else digits_of_uint (N.to_uint (Z.to_N z)).

Definition startswith (p s : str) : bool := str_eqb (firstn (length p) s) p.

End Py.

Import Py.

(* ================================================================== *)
(** * notify.py: truncate_message, and the ceiling of poll.py *)
(* ================================================================== *)

(** ["\n\n… [truncated] …\n\n"] *)
Definition marker : str :=
  [10; 10; 8230]%N ++ lit " [truncated] " ++ [8230; 10; 10]%N.

(** [truncate_message(text, max_length)] of notify.py. *)
Definition truncate_message (text : str) (max_length : Z) : str :=
  if len text <=? max_length then text
  else
    let available := max_length - len marker in
    let head := available * 2 / 3 in
    let tail := available - head in
    slice_to text head ++ marker ++ slice_from text (- tail).

(** poll.py, in both classifiers:
    [if len(msg) > 4000: msg = msg[:4000]]. *)
Definition clip_4000 (msg : str) : str :=
  if 4000 <? len msg then slice_to msg 4000 else msg.

(* ================================================================== *)
(** * The Unicode character database *)
(* ================================================================== *)

(** [unicodedata], [re] and [str.lower] read tables that belong to the
    Python build, not to this repository.  The Latin-1 rows are fixed
    once and for all and are written out below; the rows above them are
    a parameter of the development. *)
Class UCD := {
  (** [unicodedata.category(ch).startswith("C")] for [ch >= U+0100] *)
  ucd_C : N -> bool;
  (** [ch] has category [Nd] (a decimal digit, class [\d]), for
      [ch >= U+0100] *)
  ucd_Nd : N -> bool;
  (** [ch.lower()] for [ch >= U+0080] *)
  ucd_lower : N -> str
}.

Section Unicode.
Context `{U : UCD}.

(** Cc is U+0000..U+001F and U+007F..U+009F; the only other Latin-1
    character of a C category is the soft hyphen U+00AD (Cf). *)
Definition category_C (ch : N) : bool :=
  (if ch <? 256 then (ch <? 32) || (127 <=? ch) && (ch <=? 159) || (ch =? 173)
   else ucd_C ch)%N.

Definition is_digit (ch : N) : bool :=
  (if ch <? 256 then (48 <=? ch) && (ch <=? 57) else ucd_Nd ch)%N.

Definition lower_char (ch : N) : str :=
  (if ch <? 128 then
     if (65 <=? ch) && (ch <=? 90) then [ch + 32] else [ch]
   else ucd_lower ch)%N.

Definition lower (s : str) : str := flat_map lower_char s.

End Unicode.

(* ================================================================== *)
(** * Regular expressions, as [re] runs them *)
(* ================================================================== *)

Module Re.

(** What one position of a pattern accepts. *)
Inductive item :=
| Lit (c : N)          (** a literal character *)
| Range (lo hi : N)    (** [lo-hi] inside a set *)
| Space                (** [\s] *)
| Digit                (** [\d] *)
| Dot.                 (** [.], without DOTALL *)

(** A set [[...]], or a single item. *)
Definition cclass := list item.

(** Every quantifier of the patterns of this program applies to a single
    character position, and every alternation is at the top of its
    pattern; so a pattern is a list of alternatives, each a sequence of
    nodes. *)
Inductive node :=
| One (c : cclass)
| Rep (c : cclass) (lo : nat) (hi : option nat) (greedy : bool)
| Bol                  (** [^], without MULTILINE *)
| Eol                  (** [$], without MULTILINE *)
| Mark.                (** a group boundary: records the position *)

Record regex := { alts : list (list node); ignorecase : bool }.

(** The lower-casing of [re.IGNORECASE], on the characters it sends to an
    ASCII letter: the ASCII capitals, U+0130 and the Kelvin sign.  Every
    literal of an IGNORECASE pattern of poll.py is ASCII, so no other
    row of the table is consulted. *)
Definition sre_lower (c : N) : N :=
  (if (65 <=? c) && (c <=? 90) then c + 32
   else if c =? 304 then 105
   else if c =? 8490 then 107
   else c)%N.

(** The extra equivalences of [re] for a lowered literal: i ~ U+0131 and
    s ~ U+017F. *)
Definition sre_fix (lo c : N) : bool :=
  ((lo =? 105) && (c =? 305) || (lo =? 115) && (c =? 383))%N.

Section Matching.
Context `{U : UCD}.

Definition item_match (ic : bool) (it : item) (c : N) : bool :=
  match it with
  | Lit p =>
      (c =? p)%N
      || ic && ((sre_lower c =? sre_lower p)%N || sre_fix (sre_lower p) c)
  | Range lo hi => ((lo <=? c) && (c <=? hi))%N
  | Space => is_space c
  | Digit => is_digit c
  | Dot => negb (c =? 10)%N
  end.

Definition class_match (ic : bool) (cl : cclass) (c : N) : bool :=
  existsb (fun it => item_match ic it c) cl.

Fixpoint first_some {A B : Type} (f : A -> option B) (l : list A)
  : option B :=
  match l with
  | [] => None
  | a :: l' => match f a with Some b => Some b | None => first_some f l' end
  end.

(** Length of the longest run of characters of [s] accepted by [p], not
    beyond [cap]. *)
Fixpoint run_length (p : N -> bool) (cap : option nat) (s : str) : nat :=
  match s with
  | [] => O
  | c :: s' =>
      if p c then
        match cap with
        | None => S (run_length p None s')
        | Some O => O
        | Some (S k) => S (run_length p (Some k) s')
        end
      else O
  end.

(** The repetition counts a quantifier tries, in the order it tries
    them: longest first when greedy, shortest first when lazy. *)
Definition counts (lo n : nat) (greedy : bool) : list nat :=
  let up := seq lo (S n - lo) in
  if greedy then rev up else up.

Definition at_eol (s : str) : bool :=
  match s with
  | [] => true
  | [c] => (c =? 10)%N
  | _ => false
  end.

(** Backtracking match of a sequence at the head of [s]; [bol] says
    whether [s] is the whole subject.  Returns the positions recorded by
    the marks, and what is left of the subject. *)
Fixpoint exec (ic : bool) (ns : list node) (bol : bool) (s : str)
  : option (list str * str) :=
  match ns with
  | [] => Some ([], s)
  | One cl :: ns' =>
      match s with
      | c :: s' => if class_match ic cl c then exec ic ns' false s' else None
      | [] => None
      end
  | Rep cl lo hi greedy :: ns' =>
      let n := run_length (class_match ic cl) hi s in
      first_some
        (fun j => exec ic ns' (bol && Nat.eqb j 0) (skipn j s))
        (counts lo n greedy)
  | Bol :: ns' => if bol then exec ic ns' bol s else None
  | Eol :: ns' => if at_eol s then exec ic ns' bol s else None
  | Mark :: ns' =>
      match exec ic ns' bol s with
      | Some (ms, rest) => Some (s :: ms, rest)
      | None => None
      end
  end.

Definition match_at (r : regex) (bol : bool) (s : str)
  : option (list str * str) :=
  first_some (fun ns => exec (ignorecase r) ns bol s) (alts r).

(** [r.match(s)] *)
Definition re_match (r : regex) (s : str) : option (list str * str) :=
  match_at r true s.

(** [r.search(s)]: the leftmost match; the result also carries the
    subject from the start of the match. *)
Fixpoint search_from (r : regex) (bol : bool) (s : str)
  : option (str * list str * str) :=
  match match_at r bol s with
  | Some (ms, rest) => Some (s, ms, rest)
  | None =>
      match s with
      | [] => None
      | _ :: s' => search_from r false s'
      end
  end.

Definition search (r : regex) (s : str) : option (str * list str * str) :=
  search_from r true s.

Definition found (r : regex) (s : str) : bool :=
  match search r s with Some _ => true | None => false end.

(** The text between two positions of one subject. *)
Definition between (from to : str) : str :=
  firstn (length from - length to) from.

(** [r.sub("", s)]; [skip] counts the characters of a match still to be
    dropped. *)
Fixpoint sub_del (r : regex) (bol : bool) (skip : nat) (s : str) : str :=
  match s with
  | [] => []
  | c :: s' =>
      match skip with
      | S k => sub_del r false k s'
      | O =>
          match match_at r bol s with
          | Some (_, rest) =>
              match (length s - length rest)%nat with
              | O => c :: sub_del r false O s'
              | S k => sub_del r false k s'
              end
          | None => c :: sub_del r false O s'
          end
      end
  end.

Definition sub_empty (r : regex) (s : str) : str := sub_del r true O s.

End Matching.

(** A run of literal characters. *)
Definition chars (s : string) : list node :=
  map (fun c => One [Lit c]) (lit s).

Definition any_star : node := Rep [Dot] 0 None true.

End Re.

Import Re.

(* ================================================================== *)
(** * poll.py: patterns and the text functions *)
(* ================================================================== *)

Definition ESC : N := 27.
Definition BEL : N := 7.
Definition NL : N := 10.
Definition TAB : N := 9.

(** [\x1b\[[0-9;]*[a-zA-Z]|\x1b\].*?\x07|\x1b[()][0-9A-B]] *)
Definition ANSI_RE : regex :=
  {| alts :=
       [ [One [Lit ESC]; One [Lit 91]; Rep [Range 48 57; Lit 59] 0 None true;
          One [Range 97 122; Range 65 90]];
         [One [Lit ESC]; One [Lit 93]; Rep [Dot] 0 None false; One [Lit BEL]];
         [One [Lit ESC]; One [Lit 40; Lit 41];
          One [Range 48 57; Range 65 66]] ];
     ignorecase := false |}.

Definition chrome_alts : list (list node) :=
  [ chars "Enter to select" ++ [any_star] ++ chars "to navigate"
      ++ [any_star] ++ chars "Esc to cancel";
    chars "Enter to confirm" ++ [any_star] ++ chars "Esc to cancel";
    chars "Esc to cancel" ++ [any_star] ++ chars "Tab to amend" ].

Definition PROMPT_DETECT_RE : regex :=
  {| alts := chrome_alts ++ [chars "Do you want to allow"];
     ignorecase := true |}.

Definition SELECTOR_RE : regex :=
  {| alts := chrome_alts; ignorecase := true |}.

(** [^[\s❯>]*(\d+)\.\s+(.+)$]; the four marks delimit groups 1 and 2. *)
Definition OPTION_RE : regex :=
  {| alts :=
       [ [Bol; Rep [Space; Lit 10095; Lit 62] 0 None true;
          Mark; Rep [Digit] 1 None true; Mark;
          One [Lit 46]; Rep [Space] 1 None true;
          Mark; Rep [Dot] 1 None true; Mark; Eol] ];
     ignorecase := false |}.

Definition RATELIMIT_RE : regex :=
  {| alts :=
       [ chars "hit your limit"; chars "usage limit reached";
         chars "limit will reset"; chars "/upgrade to increase" ];
     ignorecase := true |}.

(** [(resets?\s+.{5,50}?\)|reset at\s+.{3,30}?\))] *)
Definition RESET_TIME_RE : regex :=
  {| alts :=
       [ chars "reset" ++
           [Rep [Lit 115] 0 (Some 1%nat) true; Rep [Space] 1 None true;
            Rep [Dot] 5 (Some 50%nat) false; One [Lit 41]];
         chars "reset at" ++
           [Rep [Space] 1 None true; Rep [Dot] 3 (Some 30%nat) false;
            One [Lit 41]] ];
     ignorecase := true |}.

(** [^[❓❯>?\s]+] *)
Definition QUESTION_LEAD_RE : regex :=
  {| alts := [ [Bol; Rep [Lit 10067; Lit 10095; Lit 62; Lit 63; Space]
                       1 None true] ];
     ignorecase := false |}.

(** [^[└│├─\s]+] *)
Definition CHROME_LEAD_RE : regex :=
  {| alts := [ [Bol; Rep [Lit 9492; Lit 9474; Lit 9500; Lit 9472; Space]
                       1 None true] ];
     ignorecase := false |}.

Definition is_some {A : Type} (o : option A) : bool :=
  match o with Some _ => true | None => false end.

(** [not l], for a string or a list. *)
Definition is_empty {A : Type} (l : list A) : bool :=
  match l with [] => true | _ => false end.

Section TextFunctions.
Context `{U : UCD}.

Definition sanitize_text (text : str) : str :=
  let text := sub_empty ANSI_RE text in
  filter (fun ch => (ch =? NL)%N || (ch =? TAB)%N || negb (category_C ch)) text.

(** [c in "─━─-_"] *)
Definition is_rule_char (c : N) : bool :=
  ((c =? 9472) || (c =? 9473) || (c =? 45) || (c =? 95))%N.

(** [not stripped or all(c in "─━─-_" for c in stripped)] *)
Definition blank_or_rule (stripped : str) : bool :=
  is_empty stripped || forallb is_rule_char stripped.

(** Groups 1 and 2 of a match of [OPTION_RE]. *)
Definition option_groups (line : str) : option (str * str) :=
  match re_match OPTION_RE line with
  | Some ([m1; m2; m3; m4], _) => Some (between m1 m2, between m3 m4)
  | _ => None
  end.

Definition enumerate {A : Type} (l : list A) : list (nat * A) :=
  combine (seq 0 (length l)) l.

(** One turn of the first loop of [parse_prompt_parts], on the pair
    [(options, first_option_idx)]. *)
Definition scan_line (acc : list str * option nat) (il : nat * str)
  : list str * option nat :=
  let '(options, first_option_idx) := acc in
  let '(i, line) := il in
  let stripped := strip line in
  if blank_or_rule stripped then acc
  else if found SELECTOR_RE stripped then acc
  else
    match option_groups line with
    | Some (g1, g2) =>
        (options ++ [g1 ++ lit ". " ++ strip g2],
         match first_option_idx with
         | None => Some i
         | Some _ => first_option_idx
         end)
    | None => acc
    end.

(** The second loop, over [lines[first_option_idx - 1]] down to
    [lines[0]]. *)
Fixpoint find_question (above : list str) : option str :=
  match above with
  | [] => None
  | line :: above' =>
      let stripped := strip line in
      if blank_or_rule stripped then find_question above'
      else if is_some (re_match OPTION_RE line) then find_question above'
      else
        let cleaned := strip (sub_empty QUESTION_LEAD_RE stripped) in
        if negb (is_empty cleaned) && (5 <? len cleaned) then Some cleaned
        else find_question above'
  end.

Record prompt_parts := { question : option str; options : list str }.

Definition parse_prompt_parts (screen : str) : option prompt_parts :=
  let lines := splitlines (sanitize_text screen) in
  let '(options, first_option_idx) :=
    fold_left scan_line (enumerate lines) ([], None) in
  match options with
  | [] => None
  | _ =>
      let question :=
        match first_option_idx with
        | Some i => find_question (rev (firstn i lines))
        | None => None
        end in
      Some {| question := question; options := options |}
  end.

Definition parse_prompt (screen : str) : option str :=
  match parse_prompt_parts screen with
  | None => None
  | Some parsed =>
      let parts :=
        match question parsed with
        | Some q => if is_empty q then [] else [q]
        | None => []
        end ++ [join [NL] (options parsed)] in
      Some (join [NL; NL] parts)
  end.

End TextFunctions.

(* ================================================================== *)
(** * The outside world: Telegram, tmux, the clock *)
(* ================================================================== *)

Record button := { btn_text : str; callback_data : str }.

Record session_info := { si_session : str; si_cwd : str; si_command : str }.

(** Telegram updates, with the fields poll.py reads.  An absent ["text"]
    or ["caption"] reads as the empty string, as [msg.get(k, "")] does. *)
Record photo_size := { photo_file_id : str }.

Record document := { doc_file_id : str; doc_file_name : option str }.

Record message := {
  msg_chat_id : option Z;
  msg_photo : list photo_size;
  msg_document : option document;
  msg_text : str;
  msg_caption : str
}.

Record callback_query := {
  cb_id : str;
  cb_data : str;
  cb_chat_id : option Z
}.

Record update := {
  update_id : Z;
  upd_callback_query : option callback_query;
  upd_message : option message
}.

(** Every call that leaves the process. *)
Inductive call :=
| CapturePane (session : str) (lines : Z)
| SendKeys (session text : str)
| SendEscape (session : str)
| WaitForInput (session : str) (timeout : Z)
| SaveSnapshot (session : str)
| GetSessionInfo (session : str)
| Sleep (milliseconds : Z)
| Time
| SendMessage (chat : Z) (text : str) (parse_mode : option str)
| SendMessageWithButtons (chat : Z) (text : str) (buttons : list button)
                         (parse_mode : option str)
| AnswerCallbackQuery (query_id text : str)
| GetFile (file_id : str)
| DownloadFile (file_path dest_path : str)
| GetUpdates (offset : option Z) (timeout : Z).

(** The result of a call that may raise: a value, or the text of the
    exception. *)
Inductive res (A : Type) :=
| Ok (a : A)
| Raise (e : str).
Arguments Ok {A} a.
Arguments Raise {A} e.

(** The world answers each call from the history of calls so far, the
    call being answered last.  [wait_for_input] and [save_snapshot] of
    tmux_utils.py catch every exception themselves, and [time.sleep]
    and [time.time] do not raise. *)
Record world := {
  w_capture_pane : list call -> res str;
  w_send_keys : list call -> res unit;
  w_send_escape : list call -> res unit;
  w_wait_for_input : list call -> bool;
  w_get_session_info : list call -> res (option session_info);
  w_time : list call -> Z;
  w_send_message : list call -> res unit;
  w_send_message_with_buttons : list call -> res unit;
  w_answer_callback_query : list call -> res unit;
  w_get_file : list call -> res str;
  w_download_file : list call -> res unit;
  w_get_updates : list call -> res (list update);
  (** the flag [running], as the signal handlers have left it *)
  w_running : list call -> bool
}.

(** ** hashlib

    MD5 (RFC 1321) over the UTF-8 bytes of a text.  [encode] is total on
    the texts it is given here: they derive from pane captures, which
    [subprocess] decodes strictly, so they hold no lone surrogate for it
    to reject. *)
Module MD5.

(** [s.encode()]: UTF-8, as a list of bytes. *)
Definition utf8_char (c : Z) : list Z :=
  if c <? 128 then [c]
  else if c <? 2048 then [192 + c / 64; 128 + c mod 64]
  else if c <? 65536 then
    [224 + c / 4096; 128 + (c / 64) mod 64; 128 + c mod 64]
  else
    [240 + c / 262144; 128 + (c / 4096) mod 64; 128 + (c / 64) mod 64;
     128 + c mod 64].

Definition utf8 (s : str) : list Z :=
  flat_map (fun c => utf8_char (Z.of_N c)) s.

Definition word (x : Z) : Z := x mod 4294967296.

Definition rotl (x : Z) (n : Z) : Z :=
  word (Z.lor (Z.shiftl x n) (Z.shiftr x (32 - n))).

Definition lnot32 (x : Z) : Z := 4294967295 - x.

Definition K : list Z :=
  [3614090360; 3905402710; 606105819; 3250441966; 4118548399; 1200080426;
   2821735955; 4249261313; 1770035416; 2336552879; 4294925233; 2304563134;
   1804603682; 4254626195; 2792965006; 1236535329; 4129170786; 3225465664;
   643717713; 3921069994; 3593408605; 38016083; 3634488961; 3889429448;
   568446438; 3275163606; 4107603335; 1163531501; 2850285829; 4243563512;
   1735328473; 2368359562; 4294588738; 2272392833; 1839030562; 4259657740;
   2763975236; 1272893353; 4139469664; 3200236656; 681279174; 3936430074;
   3572445317; 76029189; 3654602809; 3873151461; 530742520; 3299628645;
   4096336452; 1126891415; 2878612391; 4237533241; 1700485571; 2399980690;
   4293915773; 2240044497; 1873313359; 4264355552; 2734768916; 1309151649;
   4149444226; 3174756917; 718787259; 3951481745].

Definition shifts : list Z :=
  [7; 12; 17; 22; 7; 12; 17; 22; 7; 12; 17; 22; 7; 12; 17; 22;
   5; 9; 14; 20; 5; 9; 14; 20; 5; 9; 14; 20; 5; 9; 14; 20;
   4; 11; 16; 23; 4; 11; 16; 23; 4; 11; 16; 23; 4; 11; 16; 23;
   6; 10; 15; 21; 6; 10; 15; 21; 6; 10; 15; 21; 6; 10; 15; 21].

(** The message with its padding: a [0x80] byte, zeros up to 56 modulo
    64, and the length in bits on 8 bytes, least significant first. *)
Fixpoint le_bytes (n : nat) (x : Z) : list Z :=
  match n with
  | O => []
  | S n' => x mod 256 :: le_bytes n' (x / 256)
  end.

Definition pad (msg : list Z) : list Z :=
  let l := Z.of_nat (length msg) in
  let zeros := Z.to_nat ((55 - l) mod 64) in
  msg ++ [128] ++ repeat 0 zeros
  ++ le_bytes 8 ((l * 8) mod 18446744073709551616).

Fixpoint le_words (n : nat) (bytes : list Z) : list Z :=
  match n with
  | O => []
  | S n' =>
      match bytes with
      | b0 :: b1 :: b2 :: b3 :: rest =>
          (b0 + 256 * b1 + 65536 * b2 + 16777216 * b3) :: le_words n' rest
      | _ => []
      end
  end.

Definition round (M : list Z) (st : Z * Z * Z * Z) (i : nat)
  : Z * Z * Z * Z :=
  let '(A, B, C, D) := st in
  let iz := Z.of_nat i in
  let '(F, g) :=
    if iz <? 16 then (Z.lor (Z.land B C) (Z.land (lnot32 B) D), iz)
    else if iz <? 32 then
      (Z.lor (Z.land D B) (Z.land (lnot32 D) C), (5 * iz + 1) mod 16)
    else if iz <? 48 then (Z.lxor B (Z.lxor C D), (3 * iz + 5) mod 16)
    else (Z.lxor C (Z.lor B (lnot32 D)), (7 * iz) mod 16) in
  let F := word (F + A + nth i K 0 + nth (Z.to_nat g) M 0) in
  (D, word (B + rotl F (nth i shifts 0)), B, C).

Definition block (st : Z * Z * Z * Z) (M : list Z) : Z * Z * Z * Z :=
  let '(a0, b0, c0, d0) := st in
  let '(A, B, C, D) := fold_left (round M) (seq 0 64) st in
  (word (a0 + A), word (b0 + B), word (c0 + C), word (d0 + D)).

Fixpoint blocks (n : nat) (bytes : list Z) (st : Z * Z * Z * Z)
  : Z * Z * Z * Z :=
  match n with
  | O => st
  | S n' => blocks n' (skipn 64 bytes) (block st (le_words 16 bytes))
  end.

Definition hex_digit (d : Z) : N :=
  Z.to_N (if d <? 10 then 48 + d else 87 + d).

Definition hex_byte (b : Z) : str := [hex_digit (b / 16); hex_digit (b mod 16)].

Definition hexdigest (s : str) : str :=
  let bytes := pad (utf8 s) in
  let '(a, b, c, d) :=
    blocks (length bytes / 64) bytes
           (1732584193, 4023233417, 2562383102, 271733878) in
  flat_map hex_byte
    (le_bytes 4 a ++ le_bytes 4 b ++ le_bytes 4 c ++ le_bytes 4 d).

End MD5.

(** [hashlib.md5(s.encode()).hexdigest()] *)
Definition md5_hexdigest (s : str) : str := MD5.hexdigest s.

(** What [main] reads once at startup. *)
Record config := {
  telegram_chat_id : Z;
  tmux_session : str;
  poll_interval : Z;
  start_time : Z;
  DOWNLOAD_DIR : str
}.

(** The module globals of poll.py, the locals of [main] that live across
    loop turns, and the history of calls. *)
Record machine := {
  last_prompt_hash : option str;
  last_ratelimit_hash : option str;
  ratelimit_waiting : bool;
  offset : option Z;
  pending_files : list (str * str);
  last_screen_check : Z;
  trace : list call
}.

Definition set_last_prompt_hash (v : option str) (m : machine) : machine :=
  {| last_prompt_hash := v; last_ratelimit_hash := last_ratelimit_hash m;
     ratelimit_waiting := ratelimit_waiting m; offset := offset m;
     pending_files := pending_files m;
     last_screen_check := last_screen_check m; trace := trace m |}.

Definition set_last_ratelimit_hash (v : option str) (m : machine) : machine :=
  {| last_prompt_hash := last_prompt_hash m; last_ratelimit_hash := v;
     ratelimit_waiting := ratelimit_waiting m; offset := offset m;
     pending_files := pending_files m;
     last_screen_check := last_screen_check m; trace := trace m |}.

Definition set_ratelimit_waiting (v : bool) (m : machine) : machine :=
  {| last_prompt_hash := last_prompt_hash m;
     last_ratelimit_hash := last_ratelimit_hash m;
     ratelimit_waiting := v; offset := offset m;
     pending_files := pending_files m;
     last_screen_check := last_screen_check m; trace := trace m |}.

Definition set_offset (v : option Z) (m : machine) : machine :=
  {| last_prompt_hash := last_prompt_hash m;
     last_ratelimit_hash := last_ratelimit_hash m;
     ratelimit_waiting := ratelimit_waiting m; offset := v;
     pending_files := pending_files m;
     last_screen_check := last_screen_check m; trace := trace m |}.

Definition set_pending_files (v : list (str * str)) (m : machine) : machine :=
  {| last_prompt_hash := last_prompt_hash m;
     last_ratelimit_hash := last_ratelimit_hash m;
     ratelimit_waiting := ratelimit_waiting m; offset := offset m;
     pending_files := v;
     last_screen_check := last_screen_check m; trace := trace m |}.

Definition set_last_screen_check (v : Z) (m : machine) : machine :=
  {| last_prompt_hash := last_prompt_hash m;
     last_ratelimit_hash := last_ratelimit_hash m;
     ratelimit_waiting := ratelimit_waiting m; offset := offset m;
     pending_files := pending_files m;
     last_screen_check := v; trace := trace m |}.

Definition set_trace (v : list call) (m : machine) : machine :=
  {| last_prompt_hash := last_prompt_hash m;
     last_ratelimit_hash := last_ratelimit_hash m;
     ratelimit_waiting := ratelimit_waiting m; offset := offset m;
     pending_files := pending_files m;
     last_screen_check := last_screen_check m; trace := v |}.

(** The state of [main] when it enters its loop. *)
Definition startup : machine :=
  {| last_prompt_hash := None; last_ratelimit_hash := None;
     ratelimit_waiting := false; offset := None; pending_files := [];
     last_screen_check := 0; trace := [] |}.

(* ------------------------------------------------------------------ *)
(** ** Computations: state, calls and exceptions *)

Definition M (A : Type) : Type := machine -> machine * res A.

Definition ret {A : Type} (a : A) : M A := fun m => (m, Ok a).

Definition bind {A B : Type} (x : M A) (f : A -> M B) : M B :=
  fun m =>
    match x m with
    | (m', Ok a) => f a m'
    | (m', Raise e) => (m', Raise e)
    end.

Definition raise {A : Type} (e : str) : M A := fun m => (m, Raise e).

(** [try: body  except Exception as e: handler(e)] *)
Definition try_except {A : Type} (body : M A) (handler : str -> M A) : M A :=
  fun m =>
    match body m with
    | (m', Raise e) => handler e m'
    | r => r
    end.

Definition get : M machine := fun m => (m, Ok m).

Definition modify (f : machine -> machine) : M unit := fun m => (f m, Ok tt).

(** Make a call and take the world's answer to it. *)
Definition perform {A : Type} (c : call) (answer : list call -> res A) : M A :=
  fun m => let t := trace m ++ [c] in (set_trace t m, answer t).

Declare Scope M_scope.
Delimit Scope M_scope with M.
Notation "x <- e ;; k" := (bind e (fun x => k))
  (at level 61, e at next level, right associativity) : M_scope.
Notation "e ;; k" := (bind e (fun _ => k))
  (at level 61, right associativity) : M_scope.
Notation "'pass'" := (ret tt) : M_scope.

(** A [for] loop whose body can raise. *)
Fixpoint for_each {A : Type} (body : A -> M unit) (l : list A) : M unit :=
  match l with
  | [] => ret tt
  | a :: l' => bind (body a) (fun _ => for_each body l')
  end.

Local Open Scope M_scope.

(* ================================================================== *)
(** * poll.py: the relay *)
(* ================================================================== *)

(** [os.path], as far as poll.py uses it. *)
Fixpoint take_while (p : N -> bool) (s : str) : str :=
  match s with
  | [] => []
  | c :: s' => if p c then c :: take_while p s' else []
  end.

(** [s[s.rfind(c) + 1:]] *)
Definition after_last (c : N) (s : str) : str :=
  rev (take_while (fun x => negb (x =? c)%N) (rev s)).

(** [os.path.splitext(p)[1]] *)
Definition splitext_ext (p : str) : str :=
  let base := after_last 47 p in
  let rest := lstrip_by (fun x => (x =? 46)%N) base in
  if existsb (fun x => (x =? 46)%N) rest then 46%N :: after_last 46 rest
  else [].

(** [os.path.join(a, b)] *)
Definition path_join (a b : str) : str :=
  if startswith [47%N] b then b
  else if is_empty a || startswith [47%N] (rev a) then a ++ b
  else a ++ [47%N] ++ b.

(** [text.split(None, 1)] on a stripped text: the first word, and what
    follows the white space after it. *)
Definition first_word (s : str) : str :=
  take_while (fun c => negb (is_space c)) s.

Definition after_first_word (s : str) : str :=
  lstrip_by is_space (lstrip_by (fun c => negb (is_space c)) s).

Definition opt_Z_eqb (a : option Z) (b : Z) : bool :=
  match a with
  | Some x => x =? b
  | None => false
  end.

Section Relay.
Context `{U : UCD}.
Variable W : world.
Variable cfg : config.

(** tmux_utils.py and telegram_api.py, at their interface. *)
Definition capture_pane (session : str) (lines : Z) : M str :=
  perform (CapturePane session lines) (w_capture_pane W).

Definition send_keys (session text : str) : M unit :=
  perform (SendKeys session text) (w_send_keys W).

Definition send_escape (session : str) : M unit :=
  perform (SendEscape session) (w_send_escape W).

(** [wait_for_input] polls the pane until the wall clock passes its
    deadline; it is kept at its interface: a call that takes the timeout
    and answers whether the input prompt was seen. *)
Definition wait_for_input (session : str) (timeout : Z) : M bool :=
  perform (WaitForInput session timeout) (fun t => Ok (w_wait_for_input W t)).

Definition save_snapshot (session : str) : M unit :=
  perform (SaveSnapshot session) (fun _ => Ok tt).

Definition get_session_info (session : str) : M (option session_info) :=
  perform (GetSessionInfo session) (w_get_session_info W).

Definition sleep (milliseconds : Z) : M unit :=
  perform (Sleep milliseconds) (fun _ => Ok tt).

Definition time : M Z := perform Time (fun t => Ok (w_time W t)).

Definition HTML : option str := Some (lit "HTML").
Definition Markdown : option str := Some (lit "Markdown").

Definition send_message (chat : Z) (text : str) (parse_mode : option str)
  : M unit :=
  perform (SendMessage chat text parse_mode) (w_send_message W).

Definition send_message_with_buttons
    (chat : Z) (text : str) (buttons : list button) (parse_mode : option str)
  : M unit :=
  perform (SendMessageWithButtons chat text buttons parse_mode)
          (w_send_message_with_buttons W).

Definition answer_callback_query (query_id text : str) : M unit :=
  perform (AnswerCallbackQuery query_id text) (w_answer_callback_query W).

Definition get_file (file_id : str) : M str :=
  perform (GetFile file_id) (w_get_file W).

Definition download_file (file_path dest_path : str) : M unit :=
  perform (DownloadFile file_path dest_path) (w_download_file W).

Definition get_updates (off : option Z) (timeout : Z) : M (list update) :=
  perform (GetUpdates off timeout) (w_get_updates W).

(* ------------------------------------------------------------------ *)
(** ** The rate-limit classifier *)

(** The lines of [clean] that carry a limit phrase, without their
    leading box-drawing prefix. *)
Definition relevant_lines (clean : str) : list str :=
  flat_map
    (fun line =>
       let stripped := strip line in
       if negb (is_empty stripped) && found RATELIMIT_RE stripped then
         let cleaned := strip (sub_empty CHROME_LEAD_RE stripped) in
         if is_empty cleaned then [] else [cleaned]
       else [])
    (splitlines clean).

(** ["\n⏰ " + reset_text], or the empty string. *)
Definition reset_info (clean : str) : str :=
  match search RESET_TIME_RE clean with
  | Some (from, _, rest) =>
      let reset_text :=
        rstrip_by (fun c => (c =? 46)%N) (strip (between from rest)) in
      [NL; 9200%N] ++ lit " " ++ reset_text
  | None => []
  end.

(** ["🛑 *Rate limit reached*\n\n" + content + reset_info] *)
Definition ratelimit_message (content clean : str) : str :=
  clip_4000 ([128721%N] ++ lit " *Rate limit reached*" ++ [NL; NL]
             ++ content ++ reset_info clean).

(** ["✅ Rate limit reset — Claude is ready again!"] *)
Definition recovery_text : str :=
  [9989%N] ++ lit " Rate limit reset " ++ [8212%N]
  ++ lit " Claude is ready again!".

Definition hash_is (h : str) (stored : option str) : bool :=
  match stored with
  | Some h' => str_eqb h h'
  | None => false
  end.

(** [try: screen = capture_pane(session, lines=20)
    except Exception: return] *)
Definition try_capture (session : str) : M (option str) :=
  try_except (screen <- capture_pane session 20 ;; ret (Some screen))
             (fun _ => ret None).

Definition check_for_ratelimit (chat_id : Z) (session : str) : M unit :=
  captured <- try_capture session ;;
  match captured with
  | None => pass
  | Some screen =>
      let clean := strip (sanitize_text screen) in
      if is_empty clean then pass
      else if negb (found RATELIMIT_RE clean) then
        m <- get ;;
        (if ratelimit_waiting m then
           modify (set_ratelimit_waiting false) ;;
           try_except (send_message chat_id recovery_text HTML)
                      (fun _ => pass)
         else pass) ;;
        modify (set_last_ratelimit_hash None)
      else
        let relevant := relevant_lines clean in
        if is_empty relevant then pass
        else
          let content := join [NL] relevant in
          let h := md5_hexdigest content in
          m <- get ;;
          if hash_is h (last_ratelimit_hash m) then pass
          else
            modify (set_last_ratelimit_hash (Some h)) ;;
            let msg := ratelimit_message content clean in
            modify (set_ratelimit_waiting true) ;;
            try_except (send_message chat_id msg Markdown)
              (fun _ =>
                 try_except (send_message chat_id msg None) (fun _ => pass))
  end.

(* ------------------------------------------------------------------ *)
(** ** The prompt classifier *)

(** [opt.split(".")[0]] and [opt.split(".", 1)[1]] *)
Fixpoint before_dot (s : str) : str :=
  match s with
  | [] => []
  | c :: s' => if (c =? 46)%N then [] else c :: before_dot s'
  end.

Fixpoint after_dot (s : str) : option str :=
  match s with
  | [] => None
  | c :: s' => if (c =? 46)%N then Some s' else after_dot s'
  end.

Definition btn_emojis : list str :=
  [ [9989]; [128260]; [9997; 65039]; [128172];
    [11088]; [128279]; [128295]; [9881; 65039] ]%N.

(** [num] and [label] of an option, as the button loop reads them:
    [opt.split(".")[0].strip()] and
    [opt.split(".", 1)[1].strip() if "." in opt else opt]. *)
Definition option_pair (opt : str) : str * str :=
  (strip (before_dot opt),
   match after_dot opt with Some l => strip l | None => opt end).

Definition make_button (io : nat * str) : button :=
  let '(i, opt) := io in
  let '(num, label) := option_pair opt in
  let emoji := nth i btn_emojis [9654; 65039]%N in
  {| btn_text := emoji ++ lit " " ++ label; callback_data := num |}.

Definition make_buttons (screen : str) : list button :=
  match parse_prompt_parts screen with
  | Some parsed => map make_button (enumerate (options parsed))
  | None => []
  end.

(** ["❓ *Prompt*\n\n" + prompt_text], capped *)
Definition prompt_message (prompt_text : str) : str :=
  clip_4000 ([10067%N] ++ lit " *Prompt*" ++ [NL; NL] ++ prompt_text).

(** ["❓ Prompt\n\n" + prompt_text] *)
Definition prompt_message_plain (prompt_text : str) : str :=
  [10067%N] ++ lit " Prompt" ++ [NL; NL] ++ prompt_text.

Definition check_for_prompts (chat_id : Z) (session : str) : M unit :=
  captured <- try_capture session ;;
  match captured with
  | None => pass
  | Some screen =>
      let screen := strip screen in
      if is_empty screen then pass
      else if negb (found PROMPT_DETECT_RE screen) then
        modify (set_last_prompt_hash None)
      else
        match parse_prompt screen with
        | None => pass
        | Some prompt_text =>
            if is_empty prompt_text then pass
            else
              let h := md5_hexdigest prompt_text in
              m <- get ;;
              if hash_is h (last_prompt_hash m) then pass
              else
                modify (set_last_prompt_hash (Some h)) ;;
                let buttons := make_buttons screen in
                let msg := prompt_message prompt_text in
                try_except
                  (if is_empty buttons then send_message chat_id msg Markdown
                   else send_message_with_buttons chat_id msg buttons Markdown)
                  (fun _ =>
                     try_except
                       (send_message chat_id
                          (prompt_message_plain prompt_text) None)
                       (fun _ => pass))
        end
  end.

(* ------------------------------------------------------------------ *)
(** ** Commands, attachments and button presses *)

Definition DASH : str := [8212%N].
Definition CROSS : str := [10060%N].

Definition format_uptime : M str :=
  now <- time ;;
  let elapsed := now - start_time cfg in
  let hours := elapsed / 3600 in
  let remainder := elapsed mod 3600 in
  let minutes := remainder / 60 in
  let seconds := remainder mod 60 in
  if negb (hours =? 0) then
    ret (str_of_Z hours ++ lit "h " ++ str_of_Z minutes ++ lit "m "
         ++ str_of_Z seconds ++ lit "s")
  else if negb (minutes =? 0) then
    ret (str_of_Z minutes ++ lit "m " ++ str_of_Z seconds ++ lit "s")
  else ret (str_of_Z seconds ++ lit "s").

Definition help_text : str :=
  lit "<b>couchclaude commands</b>" ++ [NL; NL]
  ++ lit "/ping " ++ DASH ++ lit " Check if online" ++ [NL]
  ++ lit "/status " ++ DASH ++ lit " Session status" ++ [NL]
  ++ lit "/view or /screen " ++ DASH
  ++ lit " Current terminal (last 50 lines)" ++ [NL]
  ++ lit "/esc " ++ DASH
  ++ lit " Send Escape key (exit menus, cancel prompts)" ++ [NL]
  ++ lit "/cd &lt;path&gt; " ++ DASH ++ lit " Change directory" ++ [NL]
  ++ lit "/cmd &lt;command&gt; " ++ DASH ++ lit " Run shell command" ++ [NL]
  ++ lit "/help " ++ DASH ++ lit " This message" ++ [NL; NL]
  ++ [128247%N] ++ lit " Send a photo or file to forward it to Claude".

Definition error_text (e : str) : str := CROSS ++ lit " Error: " ++ e.

(** Handle [/commands] from Telegram; returns [True] if handled. *)
Definition handle_command (chat_id : Z) (text : str) : M bool :=
  let stripped := strip text in
  if is_empty stripped then raise (lit "list index out of range")
  else
    let cmd := lower (first_word stripped) in
    let arg := after_first_word stripped in
    let session := tmux_session cfg in
    if str_eqb cmd (lit "/ping") then
      up <- format_uptime ;;
      send_message chat_id (lit "pong " ++ DASH ++ lit " uptime: " ++ up)
                   HTML ;;
      ret true
    else if str_eqb cmd (lit "/esc") then
      try_except
        (send_escape session ;;
         send_message chat_id ([9167; 65039]%N ++ lit " Escape sent") HTML)
        (fun e => send_message chat_id (error_text e) HTML) ;;
      ret true
    else if str_eqb cmd (lit "/help") then
      send_message chat_id help_text HTML ;;
      ret true
    else if str_eqb cmd (lit "/status") then
      info <- get_session_info session ;;
      msg <- match info with
             | Some i =>
                 up <- format_uptime ;;
                 ret ([128994%N] ++ lit " Session: <code>" ++ si_session i
                      ++ lit "</code>" ++ [NL]
                      ++ [128194%N] ++ lit " CWD: <code>" ++ si_cwd i
                      ++ lit "</code>" ++ [NL]
                      ++ [9881; 65039]%N ++ lit " Command: <code>"
                      ++ si_command i ++ lit "</code>" ++ [NL]
                      ++ [9201%N] ++ lit " Uptime: " ++ up)
             | None =>
                 ret ([128308%N] ++ lit " tmux session <code>" ++ session
                      ++ lit "</code> not found")
             end ;;
      send_message chat_id msg HTML ;;
      ret true
    else if str_eqb cmd (lit "/view") || str_eqb cmd (lit "/screen") then
      try_except
        (content <- capture_pane session 50 ;;
         let content := strip (sanitize_text content) in
         let content :=
           if is_empty content then lit "(empty screen)" else content in
         let content :=
           if 3900 <? len content then slice_from content (-3900)
           else content in
         send_message chat_id content None)
        (fun e => send_message chat_id (error_text e) HTML) ;;
      ret true
    else if str_eqb cmd (lit "/cd") && negb (is_empty arg) then
      try_except
        (send_keys session (lit "cd " ++ arg) ;;
         sleep 500 ;;
         save_snapshot session ;;
         send_message chat_id ([128232%N] ++ lit " Sent: cd " ++ arg) HTML)
        (fun e => send_message chat_id (error_text e) HTML) ;;
      ret true
    else if str_eqb cmd (lit "/cmd") && negb (is_empty arg) then
      try_except
        (send_keys session arg ;;
         sleep 500 ;;
         save_snapshot session ;;
         send_message chat_id ([128232%N] ++ lit " Sent: " ++ arg) HTML)
        (fun e => send_message chat_id (error_text e) HTML) ;;
      ret true
    else ret false.

(** Returns [(local_path, caption)]. *)
Definition download_photo (msg : message) : M (option str * str) :=
  match rev (msg_photo msg) with
  | [] => ret (None, [])
  | photo :: _ =>
      file_path <- get_file (photo_file_id photo) ;;
      let ext :=
        let e := splitext_ext file_path in
        if is_empty e then lit ".jpg" else e in
      now <- time ;;
      let local_name :=
        lit "photo_" ++ str_of_Z now ++ lit "_"
        ++ slice_from (photo_file_id photo) (-6) ++ ext in
      let local_path := path_join (DOWNLOAD_DIR cfg) local_name in
      download_file file_path local_path ;;
      ret (Some local_path, msg_caption msg)
  end.

Definition download_document (doc : document) (msg : message)
  : M (option str * str) :=
  file_path <- get_file (doc_file_id doc) ;;
  let file_name :=
    match doc_file_name doc with Some n => n | None => lit "file" end in
  let local_path := path_join (DOWNLOAD_DIR cfg) file_name in
  download_file file_path local_path ;;
  ret (Some local_path, msg_caption msg).

Definition str_of_nat (n : nat) : str := str_of_Z (Z.of_nat n).

(** The text [send_files_to_claude] types into the terminal. *)
Definition files_prompt (files : list (str * str)) : str :=
  let paths := map fst files in
  let captions := filter (fun c => negb (is_empty c)) (map snd files) in
  let file_list := join (lit " and ") paths in
  if negb (is_empty captions) then
    let caption_text := join (lit " | ") captions in
    if (length paths =? 1)%nat then
      caption_text ++ [NL; NL]
      ++ lit "(Image attached from Telegram, saved at: "
      ++ nth 0 paths [] ++ lit ")"
    else
      caption_text ++ [NL; NL] ++ lit "(" ++ str_of_nat (length paths)
      ++ lit " files attached from Telegram, saved at: " ++ file_list
      ++ lit ")"
  else
    if (length paths =? 1)%nat then
      lit "The user sent a file from Telegram. View it at: " ++ nth 0 paths []
    else
      lit "The user sent " ++ str_of_nat (length paths)
      ++ lit " files from Telegram. View them at: " ++ file_list.

Definition wait_warning : str :=
  [9888; 65039]%N
  ++ lit " Claude not at input prompt, file may need manual Enter".

(** Send one or more downloaded files to Claude as a single message. *)
Definition send_files_to_claude
    (chat_id : Z) (session : str) (files : list (str * str)) : M unit :=
  let prompt := files_prompt files in
  ready <- wait_for_input session 30 ;;
  (if negb ready then send_message chat_id wait_warning None else pass) ;;
  send_keys session prompt ;;
  sleep 500 ;;
  save_snapshot session ;;
  let count := length files in
  let label :=
    if (count =? 1)%nat then lit "Photo"
    else str_of_nat count ++ lit " files" in
  send_message chat_id ([128247%N] ++ lit " " ++ label ++ lit " sent to Claude")
               None.

(** Inline button presses: inject the selected option into tmux. *)
Definition handle_callback (cb : callback_query) : M unit :=
  let session := tmux_session cfg in
  let data := cb_data cb in
  let query_id := cb_id cb in
  try_except
    (send_keys session data ;;
     sleep 500 ;;
     save_snapshot session ;;
     answer_callback_query query_id (lit "Sent: " ++ data))
    (fun e => answer_callback_query query_id (lit "Error: " ++ e)).

(* ------------------------------------------------------------------ *)
(** ** The poll loop *)

Definition add_pending (downloaded : option str * str) : M unit :=
  match downloaded with
  | (Some path, caption) =>
      if is_empty path then pass
      else modify (fun m =>
                     set_pending_files (pending_files m ++ [(path, caption)]) m)
  | (None, _) => pass
  end.

(** The body of [for update in updates:]. *)
Definition handle_update (upd : update) : M unit :=
  let chat_id := telegram_chat_id cfg in
  let session := tmux_session cfg in
  modify (set_offset (Some (update_id upd + 1))) ;;
  match upd_callback_query upd with
  | Some cb =>
      if opt_Z_eqb (cb_chat_id cb) chat_id then
        try_except (handle_callback cb) (fun _ => pass)
      else pass
  | None =>
      match upd_message upd with
      | None => pass
      | Some msg =>
          if negb (opt_Z_eqb (msg_chat_id msg) chat_id) then pass
          else if negb (is_empty (msg_photo msg)) then
            try_except
              (downloaded <- download_photo msg ;; add_pending downloaded)
              (fun e =>
                 send_message chat_id (CROSS ++ lit " Photo error: " ++ e) None)
          else
            match msg_document msg with
            | Some doc =>
                try_except
                  (downloaded <- download_document doc msg ;;
                   add_pending downloaded)
                  (fun e =>
                     send_message chat_id (CROSS ++ lit " File error: " ++ e)
                                  None)
            | None =>
                let text :=
                  if is_empty (msg_text msg) then msg_caption msg
                  else msg_text msg in
                if is_empty text then pass
                else if startswith (lit "/") text then
                  try_except (_ <- handle_command chat_id text ;; pass)
                             (fun _ => pass)
                else
                  try_except
                    (send_keys session text ;;
                     sleep 500 ;;
                     save_snapshot session ;;
                     send_message chat_id
                       ([128232%N] ++ lit " Sent to Claude") HTML)
                    (fun e =>
                       send_message chat_id
                         (CROSS ++ lit " Could not send: " ++ e) HTML)
            end
      end
  end.

(** [try: updates = api.get_updates(offset=offset, timeout=5)]; on an
    exception the loop sleeps and goes on to its next turn. *)
Definition poll : M (option (list update)) :=
  m <- get ;;
  try_except (updates <- get_updates (offset m) 5 ;; ret (Some updates))
             (fun _ => sleep (poll_interval cfg * 1000) ;; ret None).

(** One turn of [while running:]. *)
Definition main_turn : M unit :=
  let chat_id := telegram_chat_id cfg in
  let session := tmux_session cfg in
  polled <- poll ;;
  match polled with
  | None => pass
  | Some updates =>
      now <- time ;;
      m <- get ;;
      (if 5 <=? now - last_screen_check m then
         modify (set_last_screen_check now) ;;
         check_for_prompts chat_id session ;;
         check_for_ratelimit chat_id session
       else pass) ;;
      modify (set_pending_files []) ;;
      for_each handle_update updates ;;
      m <- get ;;
      if is_empty (pending_files m) then pass
      else
        try_except
          (send_files_to_claude chat_id session (pending_files m))
          (fun e =>
             send_message chat_id (CROSS ++ lit " File send error: " ++ e) None)
  end.

(** The loop, for at most [turns] turns. *)
Fixpoint main_loop (turns : nat) : M unit :=
  match turns with
  | O => pass
  | S n =>
      m <- get ;;
      if w_running W (trace m) then main_turn ;; main_loop n else pass
  end.

Definition main (turns : nat) : M unit :=
  let chat_id := telegram_chat_id cfg in
  try_except
    (send_message chat_id ([128994%N] ++ lit " couchclaude online") HTML)
             (fun _ => pass) ;;
  modify (set_offset None) ;;
  modify (set_last_screen_check 0) ;;
  main_loop turns ;;
  try_except
    (send_message chat_id ([128308%N] ++ lit " couchclaude offline") HTML)
             (fun _ => pass).

End Relay.

Local Close Scope M_scope.

(* ================================================================== *)
(** * tmux_utils.py, below its interface *)
(* ================================================================== *)

(** [s.split(sep, maxsplit)] for a one-character separator; [cur] is
    the field being read, in reverse. *)
Fixpoint split_on (sep : N) (maxsplit : nat) (cur : str) (s : str)
  : list str :=
  match maxsplit with
  | O => [rev cur ++ s]
  | S k =>
      match s with
      | [] => [rev cur]
      | c :: s' =>
          if (c =? sep)%N then rev cur :: split_on sep k [] s'
          else split_on sep maxsplit (c :: cur) s'
      end
  end.

(** What [get_session_info] makes of the output of [tmux
    display-message]: the three fields of
    [result.stdout.strip().split(" ", 2)], with their defaults. *)
Definition session_info_of_output (session_name stdout : str) : session_info :=
  let parts := split_on 32 2 [] (strip stdout) in
  {| si_session := nth 0 parts session_name;
     si_cwd := nth 1 parts (lit "unknown");
     si_command := nth 2 parts (lit "unknown") |}.

(** [l[-n:]] for a positive [n]. *)
Definition last_n {A : Type} (n : nat) (l : list A) : list A :=
  skipn (length l - n) l.

(** [load_snapshot()]: the lines of the snapshot file, no line when the
    file does not exist. *)
Definition load_snapshot (file : option str) : list str :=
  match file with
  | None => []
  | Some content => splitlines content
  end.

(** The body of [get_new_content] below its capture: [current] is the
    pane now, [old_lines] the snapshot. *)
Definition new_content (current : str) (old_lines : list str) : str :=
  let current_lines := splitlines current in
  if is_empty old_lines then strip current
  else
    let old_stripped :=
      map (rstrip_by is_space)
          (filter (fun l => negb (is_empty (strip l))) old_lines) in
    if is_empty old_stripped then strip current
    else
      let last_old := last old_stripped [] in
      let best :=
        fold_left
          (fun best il =>
             if str_eqb (rstrip_by is_space (snd il)) last_old
             then Z.of_nat (fst il) else best)
          (enumerate current_lines) (-1) in
      let fallback := strip (join [NL] (last_n 30 current_lines)) in
      if (0 <=? best) && (best <? Z.of_nat (length current_lines) - 1) then
        let new_lines := skipn (Z.to_nat (best + 1)) current_lines in
        let result := strip (join [NL] new_lines) in
        if is_empty result then fallback else result
      else fallback.

(** ** [re.MULTILINE]

    With this flag [^] also matches just after a newline and [$] just
    before one; [prev] is the character before the position, if any. *)
Definition at_bol_ml (prev : option N) : bool :=
  match prev with
  | None => true
  | Some c => (c =? 10)%N
  end.

Definition at_eol_ml (s : str) : bool :=
  match s with
  | [] => true
  | c :: _ => (c =? 10)%N
  end.

(** The character before the position reached by consuming [consumed]. *)
Definition prev_after (prev : option N) (consumed : str) : option N :=
  match rev consumed with
  | c :: _ => Some c
  | [] => prev
  end.

Section MatchingMultiline.
Context `{U : UCD}.

Fixpoint exec_ml (ic : bool) (ns : list node) (prev : option N) (s : str)
  : option (list str * str) :=
  match ns with
  | [] => Some ([], s)
  | One cl :: ns' =>
      match s with
      | c :: s' =>
          if class_match ic cl c then exec_ml ic ns' (Some c) s' else None
      | [] => None
      end
  | Rep cl lo hi greedy :: ns' =>
      let n := run_length (class_match ic cl) hi s in
      first_some
        (fun j => exec_ml ic ns' (prev_after prev (firstn j s)) (skipn j s))
        (counts lo n greedy)
  | Bol :: ns' => if at_bol_ml prev then exec_ml ic ns' prev s else None
  | Eol :: ns' => if at_eol_ml s then exec_ml ic ns' prev s else None
  | Mark :: ns' =>
      match exec_ml ic ns' prev s with
      | Some (ms, rest) => Some (s :: ms, rest)
      | None => None
      end
  end.

Definition match_at_ml (r : regex) (prev : option N) (s : str) : bool :=
  is_some (first_some (fun ns => exec_ml (ignorecase r) ns prev s) (alts r)).

(** [bool(r.search(s))] for a pattern compiled with [re.MULTILINE]. *)
Fixpoint search_ml_from (r : regex) (prev : option N) (s : str) : bool :=
  match_at_ml r prev s
  || match s with
     | [] => false
     | c :: s' => search_ml_from r (Some c) s'
     end.

Definition found_ml (r : regex) (s : str) : bool := search_ml_from r None s.

End MatchingMultiline.

(** [^[\s]*[❯>]\s*$], MULTILINE: the input prompt of Claude Code. *)
Definition INPUT_PROMPT_RE : regex :=
  {| alts := [ [Bol; Rep [Space] 0 None true; One [Lit 10095; Lit 62];
                Rep [Space] 0 None true; Eol] ];
     ignorecase := false |}.

Local Open Scope M_scope.

Section TmuxUtils.
Context `{U : UCD}.
Variable W : world.

(** The loop of [wait_for_input], for at most [fuel] turns; [None] when
    the turns run out before the loop ends. *)
Fixpoint wait_loop (session : str) (deadline : Z) (fuel : nat)
  : M (option bool) :=
  match fuel with
  | O => ret None
  | S k =>
      now <- time W ;;
      if now <? deadline then
        seen <- try_except
                  (screen <- capture_pane W session 5 ;;
                   ret (found_ml INPUT_PROMPT_RE screen))
                  (fun _ => ret false) ;;
        if seen then ret (Some true)
        else sleep 1000 ;; wait_loop session deadline k
      else ret (Some false)
  end.

(** [wait_for_input(session_name, timeout)] *)
Definition wait_for_input_loop (session : str) (timeout : Z) (fuel : nat)
  : M (option bool) :=
  start <- time W ;;
  wait_loop session (start + timeout) fuel.

(** [get_new_content(session_name)]; [file] is the text of the snapshot
    file as [f.read()] returns it, if the file exists. *)
Definition get_new_content (session : str) (file : option str) : M str :=
  current <- capture_pane W session 200 ;;
  ret (new_content current (load_snapshot file)).

End TmuxUtils.

Local Close Scope M_scope.

(* ================================================================== *)
(** * JSON values, as [json] loads them *)
(* ================================================================== *)

(** A float, as [json] loads one: [mantissa * 2 ^ exponent], an
    infinity, or NaN. *)
Inductive float :=
| Finite (mantissa exponent : Z)
| Infinity (negative : bool)
| NaN.

(** [n <= f], for an integer [n] *)
Definition int_le_float (n : Z) (f : float) : bool :=
  match f with
  | Finite m e => if 0 <=? e then n <=? m * 2 ^ e else n * 2 ^ (- e) <=? m
  | Infinity negative => negb negative
  | NaN => false
  end.

(** [JNum] is an [int], [JFloat] a [float]. *)
Unset Elimination Schemes.
Inductive json :=
| JNull
| JBool (b : bool)
| JNum (n : Z)
| JFloat (f : float)
| JStr (s : str)
| JArr (items : list json)
| JObj (fields : list (str * json)).
Set Elimination Schemes.

(** A dictionary with string keys, read by key only: the first binding
    of a key is its value, so that [update] and item assignment put
    their bindings in front. *)
Definition dict := list (str * json).

(** [d.get(k)] *)
Fixpoint dict_get (k : str) (d : dict) : option json :=
  match d with
  | [] => None
  | (k', v) :: d' => if str_eqb k k' then Some v else dict_get k d'
  end.

(** [d[k] = v] and [d.update(other)] *)
Definition dict_set (k : str) (v : json) (d : dict) : dict := (k, v) :: d.

Definition dict_update (d other : dict) : dict := other ++ d.

(** [bool(v)] *)
Definition truthy (v : json) : bool :=
  match v with
  | JNull => false
  | JBool b => b
  | JNum n => negb (n =? 0)
  | JFloat (Finite m _) => negb (m =? 0)
  | JFloat _ => true
  | JStr s => negb (is_empty s)
  | JArr items => negb (is_empty items)
  | JObj fields => negb (is_empty fields)
  end.

(* ================================================================== *)
(** * config.py *)
(* ================================================================== *)

Definition DEFAULTS : dict :=
  [ (lit "max_message_length", JNum 4000);
    (lit "poll_interval", JNum 2);
    (lit "tmux_session", JStr (lit "claude"));
    (lit "log_level", JStr (lit "WARNING")) ].

Section Config.

(** [os.environ.get], and [int] on a string: [None] where Python raises
    [ValueError]. *)
Variable environ : str -> option str.
Variable int_of_str : str -> option Z.

(** [os.environ.get(name)] when it is set and not empty. *)
Definition env_value (name : string) : option str :=
  match environ (lit name) with
  | Some v => if is_empty v then None else Some v
  | None => None
  end.

(** [load_config()] past the reading of config.json: [file] is the
    object read from it, if the file exists and reads as one. *)
Definition load_config (file : option dict) : res dict :=
  let config := DEFAULTS in
  let config :=
    match file with
    | Some stored => dict_update config stored
    | None => config
    end in
  let config :=
    match env_value "COUCHCLAUDE_BOT_TOKEN" with
    | Some v => dict_set (lit "telegram_bot_token") (JStr v) config
    | None => config
    end in
  match
    match env_value "COUCHCLAUDE_CHAT_ID" with
    | Some v =>
        match int_of_str v with
        | Some n => Ok (dict_set (lit "telegram_chat_id") (JNum n) config)
        | None => Raise (lit "invalid literal for int() with base 10")
        end
    | None => Ok config
    end
  with
  | Raise e => Raise e
  | Ok config =>
      let config :=
        match env_value "COUCHCLAUDE_TMUX_SESSION" with
        | Some v => dict_set (lit "tmux_session") (JStr v) config
        | None => config
        end in
      let config :=
        match env_value "COUCHCLAUDE_LOG_LEVEL" with
        | Some v => dict_set (lit "log_level") (JStr v) config
        | None => config
        end in
      Ok config
  end.

(** config.json, as lines 22-25 meet it: the file does not exist;
    [open], [json.load] or [update] raises -- the file cannot be read,
    is not JSON, or holds a value that [update] rejects --; or [update]
    merges [stored] into the configuration, as it does the members of a
    JSON object. *)
Inductive config_file :=
| NoFile
| Unreadable (e : str)
| Holds (stored : dict).

(** [load_config()], from its first line: the file is read before the
    environment, outside any [try]. *)
Definition load_config_file (file : config_file) : res dict :=
  match file with
  | NoFile => load_config None
  | Unreadable e => Raise e
  | Holds stored => load_config (Some stored)
  end.

End Config.

(** [validate_config(config)]: the required fields that are missing. *)
Definition validate_config (config : dict) : list str :=
  filter
    (fun f => match dict_get f config with
              | Some v => negb (truthy v)
              | None => true
              end)
    [lit "telegram_bot_token"; lit "telegram_chat_id"].

(* ================================================================== *)
(** * notify.py *)
(* ================================================================== *)

(** What one line of the transcript is to [extract_last_assistant_text]:
    blank once stripped, text that [json.loads] rejects, or a value. *)
Inductive transcript_line :=
| Blank
| Garbage
| Entry (v : json).

(** [isinstance(block, dict) and block.get("type") == "text"] *)
Definition is_text_block (fields : list (str * json)) : bool :=
  match dict_get (lit "type") fields with
  | Some (JStr t) => str_eqb t (lit "text")
  | _ => false
  end.

(** The loop over the blocks of a content: the texts it gathers, or the
    [KeyError] of a text block without a text. *)
Fixpoint gather_texts (blocks : list json) (texts : list json)
  : res (list json) :=
  match blocks with
  | [] => Ok texts
  | block :: blocks' =>
      match block with
      | JObj fields =>
          if is_text_block fields then
            match dict_get (lit "text") fields with
            | Some v => gather_texts blocks' (texts ++ [v])
            | None => Raise (lit "KeyError")
            end
          else gather_texts blocks' texts
      | JStr s => gather_texts blocks' (texts ++ [JStr s])
      | _ => gather_texts blocks' texts
      end
  end.

(** The strings of a list, when they all are strings: what [str.join]
    accepts. *)
Fixpoint all_strings (texts : list json) : option (list str) :=
  match texts with
  | [] => Some []
  | JStr s :: texts' =>
      match all_strings texts' with
      | Some l => Some (s :: l)
      | None => None
      end
  | _ => None
  end.

(** [for block in content]: the items of a list, the keys of a
    dictionary; nothing else is iterable but a string, which is handled
    before. *)
Definition blocks_of (content : json) : option (list json) :=
  match content with
  | JArr items => Some items
  | JObj fields => Some (map (fun kv => JStr (fst kv)) fields)
  | _ => None
  end.

(** The blocks of a content: [last_text] after them. *)
Definition read_blocks (last_text : option str) (blocks : list json)
  : res (option str) :=
  match gather_texts blocks [] with
  | Raise e => Raise e
  | Ok texts =>
      if is_empty texts then Ok last_text
      else
        match all_strings texts with
        | Some l => Ok (Some (strip (join [NL; NL] l)))
        | None => Raise (lit "TypeError")
        end
  end.

(** One turn of the loop over the lines, on [last_text]. *)
Definition read_entry (last_text : option str) (line : transcript_line)
  : res (option str) :=
  match line with
  | Blank | Garbage => Ok last_text
  | Entry entry =>
      match entry with
      | JObj fields =>
          let msg :=
            match dict_get (lit "message") fields with
            | Some m => m
            | None => entry
            end in
          match msg with
          | JObj mfields =>
              match dict_get (lit "role") mfields with
              | Some (JStr role) =>
                  if str_eqb role (lit "assistant") then
                    let content :=
                      match dict_get (lit "content") mfields with
                      | Some c => c
                      | None => JStr []
                      end in
                    match content with
                    | JStr s =>
                        if is_empty (strip s) then Ok last_text
                        else Ok (Some (strip s))
                    | _ =>
                        match blocks_of content with
                        | None => Raise (lit "TypeError")
                        | Some blocks => read_blocks last_text blocks
                        end
                    end
                  else Ok last_text
              | _ => Ok last_text
              end
          | _ => Raise (lit "AttributeError")
          end
      | _ => Raise (lit "AttributeError")
      end
  end.

Fixpoint read_entries (lines : list transcript_line) (last_text : option str)
  : res (option str) :=
  match lines with
  | [] => Ok last_text
  | line :: lines' =>
      match read_entry last_text line with
      | Ok t => read_entries lines' t
      | Raise e => Raise e
      end
  end.

(** [extract_last_assistant_text(transcript_path)], on the lines of the
    transcript. *)
Definition extract_last_assistant_text (lines : list transcript_line)
  : res (option str) :=
  read_entries lines None.

(** [PREFIXES.get(hook_type, "ℹ️")] *)
Definition hook_prefix (hook_type : str) : str :=
  if str_eqb hook_type (lit "completed") then [9989%N]
  else if str_eqb hook_type (lit "waiting") then [10067%N]
  else if str_eqb hook_type (lit "error") then [10060%N]
  else [8505; 65039]%N.

(** A call of [api.send_message] by the hook; the chat id is whatever
    the configuration holds for it. *)
Record hook_message := {
  hm_chat_id : json;
  hm_text : str;
  hm_parse_mode : option str
}.

(** [truncate_message(text, max_length)] on a [max_length] read from the
    configuration.  [len(text) <= max_length] raises [TypeError] unless
    [max_length] is a number; a [bool] is the integer it counts as; with
    a float, a text within it is returned as it is, and a longer one is
    sliced at float bounds, which raises [TypeError]. *)
Definition truncate_message_by (text : str) (max_length : json) : res str :=
  match max_length with
  | JNum n => Ok (truncate_message text n)
  | JBool b => Ok (truncate_message text (if b then 1 else 0))
  | JFloat f =>
      if int_le_float (len text) f then Ok text else Raise (lit "TypeError")
  | _ => Raise (lit "TypeError")
  end.

Section Notify.
Context `{U : UCD}.

(** [os.environ.get] and [int], for [load_config]. *)
Variable environ : str -> option str.
Variable int_of_str : str -> option Z.

(** The title case of a character above ASCII, from the tables of the
    Python build. *)
Variable title_char : N -> str.

(** What [api.send_message] answers to the last of the messages sent so
    far. *)
Variable send_message_answer : list hook_message -> res unit.

(** [s.capitalize()] *)
Definition capitalize (s : str) : str :=
  match s with
  | [] => []
  | c :: s' =>
      (if (c <? 128)%N then
         if ((97 <=? c) && (c <=? 122))%N then [(c - 32)%N] else [c]
       else title_char c) ++ lower s'
  end.

(** [_run()]: the messages it sends, and how it ends.  [argv] is
    [sys.argv]; [file] is config.json; [latest] is the outcome of
    [find_latest_transcript()] -- it raises, finds no transcript, or
    finds one, which in turn cannot be read or holds lines. *)
Definition notify_run (argv : list str) (file : config_file)
    (latest : res (option (res (list transcript_line))))
  : list hook_message * res unit :=
  let hook_type :=
    match argv with
    | _ :: hook_type :: _ => hook_type
    | _ => lit "completed"
    end in
  match load_config_file environ int_of_str file with
  | Raise e => ([], Raise e)
  | Ok config =>
      if negb (is_empty (validate_config config)) then ([], Ok tt)
      else
        match dict_get (lit "telegram_chat_id") config with
        | None => ([], Raise (lit "KeyError"))
        | Some chat_id =>
            let max_len :=
              match dict_get (lit "max_message_length") config with
              | Some v => v
              | None => JNum 4000
              end in
            match latest with
            | Raise e => ([], Raise e)
            | Ok transcript =>
                let message :=
                  match transcript with
                  | Some (Ok lines) =>
                      match extract_last_assistant_text lines with
                      | Ok m => m
                      | Raise _ => None
                      end
                  | Some (Raise _) => None
                  | None => None
                  end in
                let message :=
                  match message with
                  | Some m => if is_empty m then lit "(no text output)" else m
                  | None => lit "(no text output)"
                  end in
                let prefix := hook_prefix hook_type in
                let label := capitalize hook_type in
                let full :=
                  prefix ++ lit " *" ++ label ++ lit "*" ++ [NL; NL]
                  ++ message in
                match truncate_message_by full max_len with
                | Raise e => ([], Raise e)
                | Ok truncated =>
                    let first :=
                      {| hm_chat_id := chat_id; hm_text := truncated;
                         hm_parse_mode := Markdown |} in
                    match send_message_answer [first] with
                    | Ok _ => ([first], Ok tt)
                    | Raise _ =>
                        let plain :=
                          prefix ++ lit " " ++ label ++ [NL; NL] ++ message in
                        match truncate_message_by plain max_len with
                        | Raise e => ([first], Raise e)
                        | Ok cut =>
                            let second :=
                              {| hm_chat_id := chat_id; hm_text := cut;
                                 hm_parse_mode := None |} in
                            ([first; second],
                             send_message_answer [first; second])
                        end
                    end
                end
            end
        end
  end.

(** [main()]: whatever [_run()] raises is swallowed. *)
Definition notify_main (argv : list str) (file : config_file)
    (latest : res (option (res (list transcript_line))))
  : list hook_message * res unit :=
  let '(sent, _) := notify_run argv file latest in (sent, Ok tt).

End Notify.

(* ================================================================== *)
(** * Sample instances, used to exhibit concrete runs *)
(* ================================================================== *)

(** The surrogates and the private use area are of a C category. *)
Definition sample_ucd : UCD :=
  {| ucd_C := fun c => ((55296 <=? c) && (c <=? 63743))%N;
     ucd_Nd := fun _ => false;
     ucd_lower := fun c => [c] |}.

Definition sample_config : config :=
  {| telegram_chat_id := 42; tmux_session := lit "claude";
     poll_interval := 2; start_time := 0;
     DOWNLOAD_DIR := lit "/home/u/.couchclaude/downloads" |}.

Definition is_capture (c : call) : bool :=
  match c with CapturePane _ _ => true | _ => false end.

(** A world whose successive pane captures show [screens] (the last of
    them from then on), whose transport holds the updates [inbox] and
    answers a poll with those at or above the offset asked for, whose
    chat calls all succeed when [chat_up] and all raise otherwise, and
    whose tmux calls succeed when [tmux_up]. *)
Definition scripted_world
    (screens : list str) (inbox : list update) (chat_up tmux_up : bool)
  : world :=
  let chat := fun _ : list call =>
                if chat_up then Ok tt else Raise (lit "network down") in
  let tmux := fun _ : list call =>
                if tmux_up then Ok tt
                else Raise (lit "tmux send-keys failed: ") in
  {| w_capture_pane :=
       fun t => Ok (nth (pred (length (filter is_capture t))) screens
                        (last screens []));
     w_send_keys := tmux;
     w_send_escape := tmux;
     w_wait_for_input := fun _ => tmux_up;
     w_get_session_info := fun _ => Ok None;
     w_time := fun _ => 0;
     w_send_message := chat;
     w_send_message_with_buttons := chat;
     w_answer_callback_query := chat;
     w_get_file := fun _ => if chat_up then Ok (lit "photos/file_1.jpg")
                            else Raise (lit "network down");
     w_download_file := chat;
     w_get_updates :=
       fun t =>
         if chat_up then
           match last t Time with
           | GetUpdates (Some o) _ =>
               Ok (filter (fun u => o <=? update_id u) inbox)
           | _ => Ok inbox
           end
         else Raise (lit "network down");
     w_running := fun _ => true |}.

(** A plain chat message from the configured chat. *)
Definition hello_update : update :=
  {| update_id := 7;
     upd_callback_query := None;
     upd_message :=
       Some {| msg_chat_id := Some 42; msg_photo := []; msg_document := None;
               msg_text := lit "hello"; msg_caption := [] |} |}.

(** The same message from another chat. *)
Definition foreign_update : update :=
  {| update_id := 8;
     upd_callback_query := None;
     upd_message :=
       Some {| msg_chat_id := Some 666; msg_photo := []; msg_document := None;
               msg_text := lit "/cmd rm -rf ~"; msg_caption := [] |} |}.

(** A pane that shows the limit banner, and an empty pane. *)
Definition limit_screen : str :=
  lit "You've hit your limit " ++ [183%N]
  ++ lit " resets Jan 30 at 12pm (America/Mazatlan)" ++ [NL].

Definition blank_screen : str := [NL; NL; NL].

(** The two lines ["❯ 1. Yes"] and ["  2. No"]. *)
Definition two_options_screen : str :=
  [10095%N] ++ lit " 1. Yes" ++ [NL] ++ lit "  2. No".

(** What the rate-limit classifier extracts from [limit_screen]. *)
Definition limit_content : str :=
  lit "You've hit your limit " ++ [183%N]
  ++ lit " resets Jan 30 at 12pm (America/Mazatlan)".

(** Option-like lines, with and without the chrome of a prompt. *)
Definition bare_options_screen : str :=
  lit "Steps:" ++ [NL] ++ lit "  1. Yes" ++ [NL] ++ lit "  2. No" ++ [NL].

Definition yes_no_screen (label : string) : str :=
  lit "Do you want to allow this command?" ++ [NL; 10095%N]
  ++ lit " 1. " ++ lit label ++ [NL] ++ lit "  2. No" ++ [NL]
  ++ lit "Esc to cancel " ++ [183%N] ++ lit " Enter to confirm" ++ [NL].

(** What the prompt classifier extracts from [yes_no_screen label]. *)
Definition yes_no_content (label : string) : str :=
  lit "Do you want to allow this command?" ++ [NL; NL]
  ++ lit "1. " ++ lit label ++ [NL] ++ lit "2. No".

(** A state that remembers an earlier prompt. *)
Definition stale_state : machine :=
  set_last_prompt_hash (Some (md5_hexdigest (yes_no_content "Yes"))) startup.

(** ** Further instances *)

(** A photo in two sizes with a caption, and a document that carries an
    absolute file name, both from the configured chat. *)
Definition photo_message : message :=
  {| msg_chat_id := Some 42;
     msg_photo := [ {| photo_file_id := lit "AgACAgQAAxkBAAIBsmall" |};
                    {| photo_file_id := lit "AgACAgQAAxkBAAIBlarge" |} ];
     msg_document := None; msg_text := []; msg_caption := lit "look" |}.

Definition absolute_document : document :=
  {| doc_file_id := lit "BQACAgQAAxkBAAIC";
     doc_file_name := Some (lit "/tmp/x.sh") |}.

(** A document whose file name climbs out of the directory it is
    joined to. *)
Definition climbing_document : document :=
  {| doc_file_id := lit "BQACAgQAAxkBAAID";
     doc_file_name := Some (lit "../../.bashrc") |}.

Definition document_message : message :=
  {| msg_chat_id := Some 42; msg_photo := [];
     msg_document := Some absolute_document;
     msg_text := []; msg_caption := [] |}.

(** A photo message as an update. *)
Definition photo_update : update :=
  {| update_id := 9; upd_callback_query := None;
     upd_message := Some photo_message |}.

(** A sleep of a second or more. *)
Definition is_sleep_1s (c : call) : bool :=
  match c with Sleep ms => 1000 <=? ms | _ => false end.

(** A world like [scripted_world] whose clock counts the sleeps of a
    second or more. *)
Definition slept (t : list call) : Z :=
  Z.of_nat (length (filter is_sleep_1s t)).

Definition ticking_world (screens : list str) : world :=
  let w := scripted_world screens [] true true in
  {| w_capture_pane := w_capture_pane w;
     w_send_keys := w_send_keys w;
     w_send_escape := w_send_escape w;
     w_wait_for_input := w_wait_for_input w;
     w_get_session_info := w_get_session_info w;
     w_time := slept;
     w_send_message := w_send_message w;
     w_send_message_with_buttons := w_send_message_with_buttons w;
     w_answer_callback_query := w_answer_callback_query w;
     w_get_file := w_get_file w;
     w_download_file := w_download_file w;
     w_get_updates := w_get_updates w;
     w_running := w_running w |}.

(** A transcript of two turns: a tool call between two texts, then a
    text and a tool call. *)
Definition text_block (s : string) : json :=
  JObj [(lit "type", JStr (lit "text")); (lit "text", JStr (lit s))].

Definition tool_block (command : string) : json :=
  JObj [(lit "type", JStr (lit "tool_use"));
        (lit "input", JObj [(lit "command", JStr (lit command))])].

Definition assistant_line (blocks : list json) : transcript_line :=
  Entry (JObj [(lit "type", JStr (lit "assistant"));
               (lit "message",
                JObj [(lit "role", JStr (lit "assistant"));
                      (lit "content", JArr blocks)])]).

Definition sample_transcript : list transcript_line :=
  [ assistant_line [text_block "Let me look."; tool_block "ls -la"];
    Garbage;
    Entry (JObj [(lit "message",
                  JObj [(lit "role", JStr (lit "user"));
                        (lit "content", JStr (lit "thanks"))])]);
    assistant_line [text_block "All done."; tool_block "rm -rf build";
                    text_block "Anything else?"];
    Blank ].

(** An environment that holds the token and the chat id, and a reading
    of decimal digits. *)
Definition sample_environ (name : str) : option str :=
  if str_eqb name (lit "COUCHCLAUDE_BOT_TOKEN") then Some (lit "1234:secret")
  else if str_eqb name (lit "COUCHCLAUDE_CHAT_ID") then Some (lit "42")
  else None.

Definition sample_int (s : str) : option Z :=
  if forallb (fun c => (48 <=? c) && (c <=? 57))%N s && negb (is_empty s) then
    Some (fold_left (fun acc c => acc * 10 + (Z.of_N c - 48)) s 0)
  else None.

(* ================================================================== *)
(** * Vocabulary of the properties *)
(* ================================================================== *)

Section Vocabulary.
Context `{U : UCD}.
Variable W : world.
Variable cfg : config.
Variables (chat_id : Z) (session : str).

(** What [sanitize_text] keeps of the text left by [ANSI_RE.sub]. *)
Definition printable (ch : N) : bool :=
  (ch =? NL)%N || (ch =? TAB)%N || negb (category_C ch).

Definition succeeded {A : Type} (r : res A) : bool :=
  match r with Ok _ => true | Raise _ => false end.

(** What the next capture of the pane shows, in state [m]. *)
Definition shown (m : machine) : res str :=
  w_capture_pane W (trace m ++ [CapturePane session 20]).

(** The world's answer to the chat call that ends the history [t]. *)
Definition chat_answer (t : list call) : res unit :=
  match last t Time with
  | SendMessage _ _ _ => w_send_message W t
  | SendMessageWithButtons _ _ _ _ => w_send_message_with_buttons W t
  | _ => Ok tt
  end.

(** The calls made between state [m] and a later state [m']. *)
Definition calls_between (m m' : machine) : list call :=
  skipn (length (trace m)) (trace m').

(** The two categories of detection, with the check that serves each,
    the hash each stores, and the content each hashes when a capture
    classifies. *)
Inductive category := Prompt | RateLimit.

Definition check (cat : category) : M unit :=
  match cat with
  | Prompt => check_for_prompts W chat_id session
  | RateLimit => check_for_ratelimit W chat_id session
  end.

Definition stored_hash (cat : category) (m : machine) : option str :=
  match cat with
  | Prompt => last_prompt_hash m
  | RateLimit => last_ratelimit_hash m
  end.

Definition prompt_content (screen : str) : option str :=
  let screen := strip screen in
  if is_empty screen then None
  else if negb (found PROMPT_DETECT_RE screen) then None
  else
    match parse_prompt screen with
    | Some prompt_text =>
        if is_empty prompt_text then None else Some prompt_text
    | None => None
    end.

Definition ratelimit_content (screen : str) : option str :=
  let clean := strip (sanitize_text screen) in
  if is_empty clean then None
  else if negb (found RATELIMIT_RE clean) then None
  else if is_empty (relevant_lines clean) then None
  else Some (join [NL] (relevant_lines clean)).

Definition content (cat : category) (screen : str) : option str :=
  match cat with
  | Prompt => prompt_content screen
  | RateLimit => ratelimit_content screen
  end.

(** [n] checks in a row. *)
Fixpoint rounds (cat : category) (n : nat) : M unit :=
  match n with
  | O => ret tt
  | S k => bind (check cat) (fun _ => rounds cat k)
  end.

(** The announcement of a detected event is the send in Markdown mode,
    with or without buttons; the plain-text send is its fallback. *)
Definition is_announcement (c : call) : bool :=
  match c with
  | SendMessage _ _ (Some mode) => str_eqb mode (lit "Markdown")
  | SendMessageWithButtons _ _ _ _ => true
  | _ => false
  end.

Definition announcements (t : list call) : nat :=
  length (filter is_announcement t).

Definition is_send (c : call) : bool :=
  match c with
  | SendMessage _ _ _ | SendMessageWithButtons _ _ _ _ => true
  | _ => false
  end.

Definition is_wait (c : call) : bool :=
  match c with WaitForInput _ _ => true | _ => false end.

Definition is_poll (c : call) : bool :=
  match c with GetUpdates _ _ => true | _ => false end.

(** The recovery notification, and the rate-limit notice (formatted or
    plain), as they appear in a history. *)
Definition is_recovery (c : call) : bool :=
  match c with
  | SendMessage _ text _ => str_eqb text recovery_text
  | _ => false
  end.

Definition is_limit_notice (c : call) : bool :=
  match c with
  | SendMessage _ (glyph :: _) _ => (glyph =? 128721)%N
  | _ => false
  end.

(** Reading a history as a run of the limited/clear automaton: a limit
    notice enters the limited state, a recovery leaves it, and a
    recovery outside the limited state is an error. *)
Fixpoint replay (limited : bool) (t : list call) : option bool :=
  match t with
  | [] => Some limited
  | c :: t' =>
      if is_recovery c then
        if limited then replay false t' else None
      else if is_limit_notice c then replay true t'
      else replay limited t'
  end.

(** The chat an update comes from: that of the pressed button's message
    for a callback query, that of the message otherwise. *)
Definition origin_chat (upd : update) : option Z :=
  match upd_callback_query upd with
  | Some cb => cb_chat_id cb
  | None =>
      match upd_message upd with
      | Some msg => msg_chat_id msg
      | None => None
      end
  end.

(** Whether [handle_update] lets the update through its chat check. *)
Definition authorized (upd : update) : bool :=
  opt_Z_eqb (origin_chat upd) (telegram_chat_id cfg).

(** Two states that differ at most in the cursor. *)
Definition same_but_cursor (m m' : machine) : Prop :=
  set_offset None m = set_offset None m'.

(** The updates the transport has delivered over a history: the answers
    to its polls, in order.  [past] is the history before [t]. *)
Fixpoint delivered_after (past t : list call) : list update :=
  match t with
  | [] => []
  | c :: t' =>
      (match c with
       | GetUpdates _ _ =>
           match w_get_updates W (past ++ [c]) with
           | Ok updates => updates
           | Raise _ => []
           end
       | _ => []
       end) ++ delivered_after (past ++ [c]) t'
  end.

Definition delivered (t : list call) : list update := delivered_after [] t.

(** The contract of [getUpdates]: a batch comes in increasing order of
    [update_id], and holds nothing below the offset asked for. *)
Definition transport_in_order : Prop :=
  forall (t : list call) (off : option Z) (timeout : Z) (updates : list update),
    w_get_updates W (t ++ [GetUpdates off timeout]) = Ok updates ->
    StronglySorted Z.lt (map update_id updates) /\
    forall o, off = Some o -> Forall (fun u => o <= update_id u) updates.

(** The order of cursors: no cursor yet is below every cursor. *)
Definition cursor_le (a b : option Z) : Prop :=
  match a, b with
  | None, _ => True
  | Some x, Some y => x <= y
  | Some _, None => False
  end.

(** The cursor is beyond every update delivered so far. *)
Definition cursor_beyond (m : machine) : Prop :=
  forall u, In u (delivered (trace m)) ->
            exists o, offset m = Some o /\ update_id u < o.

(** Where a batch leaves the cursor when each update sets it. *)
Definition cursor_after (batch : list update) (start : option Z) : option Z :=
  fold_left (fun _ u => Some (update_id u + 1)) batch start.

(** [m'] comes after [m] within the handling of [batch]: no poll was
    made, and the cursor is where it was or just past one of the batch. *)
Definition within_batch (batch : list update) (m m' : machine) : Prop :=
  (exists ext, trace m' = trace m ++ ext /\ existsb is_poll ext = false) /\
  (offset m' = offset m \/
   exists u, In u batch /\ offset m' = Some (update_id u + 1)).

(** The outcome of a computation run from [m] satisfies [Q]. *)
Definition wp {A : Type} (x : M A) (Q : machine -> res A -> Prop)
                         (m : machine) : Prop :=
  Q (fst (x m)) (snd (x m)).

(** [quiet m m']: from [m] to [m'] the cursor has not moved and the
    transport has not been polled. *)
Definition quiet (m m' : machine) : Prop :=
  offset m' = offset m /\
  exists ext, trace m' = trace m ++ ext /\ existsb is_poll ext = false.

(** A computation that is quiet from every state. *)
Definition frame {A : Type} (x : M A) : Prop :=
  forall m, quiet m (fst (x m)).

(** A sequence of a pattern that has no anchor and no group, and a
    pattern made of such sequences. *)
Definition anchor_free (ns : list node) : bool :=
  forallb (fun n => match n with
                    | One _ | Rep _ _ _ _ => true
                    | _ => false
                    end) ns.

Definition anchor_free_regex (r : regex) : bool :=
  forallb anchor_free (alts r).

(** Following the specification (4.2, step 2): blank lines, separator
    lines and chrome-hint lines are skipped; a remaining line that
    matches the index-dot-label pattern gives an option. *)
Definition option_on_line (line : str) : option str :=
  let stripped := strip line in
  if blank_or_rule stripped then None
  else if found SELECTOR_RE stripped then None
  else
    match option_groups line with
    | Some (index, label) => Some (index ++ lit ". " ++ strip label)
    | None => None
    end.

(** Options in document order, as the specification words it. *)
Definition options_in_order (lines : list str) : list str :=
  flat_map (fun line => match option_on_line line with
                        | Some o => [o]
                        | None => []
                        end) lines.

(** The characters [OPTION_RE] lets stand before the index of an
    option: white space and the markers [❯] and [>]. *)
Definition lead_char (c : N) : bool :=
  is_space c || (c =? 10095)%N || (c =? 62)%N.

(** The history once the loop has polled from [m]. *)
Definition after_poll (m : machine) : list call :=
  trace m ++ [GetUpdates (offset m) 5].

(** poll.py 488-493, the periodic screen check of a turn, and poll.py
    567-572, the sending of the files of the batch. *)
Definition screen_check : M unit :=
  bind (time W) (fun now =>
  bind get (fun m =>
  if 5 <=? now - last_screen_check m then
    bind (modify (set_last_screen_check now)) (fun _ =>
    bind (check_for_prompts W (telegram_chat_id cfg) (tmux_session cfg))
         (fun _ =>
    check_for_ratelimit W (telegram_chat_id cfg) (tmux_session cfg)))
  else ret tt)).

Definition send_pending : M unit :=
  bind get (fun m =>
  if is_empty (pending_files m) then ret tt
  else
    try_except
      (send_files_to_claude W (telegram_chat_id cfg) (tmux_session cfg)
         (pending_files m))
      (fun e =>
         send_message W (telegram_chat_id cfg)
           (CROSS ++ lit " File send error: " ++ e) None)).

(** The handling of a batch, told apart from the loop that runs it:
    [handles batch m log out] when, from [m], [handle_update] is called
    on each update of [log], once and in this order, each call from
    the state the one before has left, and the last call leaves [out].
    [log] is the batch, cut after the first update whose handling
    raises. *)
Inductive handles
  : list update -> machine -> list update -> machine * res unit -> Prop :=
| handles_done (m : machine) : handles [] m [] (m, Ok tt)
| handles_next (upd : update) (batch : list update) (m m1 : machine)
    (log : list update) (out : machine * res unit) :
    handle_update W cfg upd m = (m1, Ok tt) ->
    handles batch m1 log out ->
    handles (upd :: batch) m (upd :: log) out
| handles_raise (upd : update) (batch : list update) (m m1 : machine)
    (e : str) :
    handle_update W cfg upd m = (m1, Raise e) ->
    handles (upd :: batch) m [upd] (m1, Raise e).

(** One turn of the loop with the updates it handles: none when the
    poll fails; otherwise the screen check, the handling of the batch
    that the poll returned, and the sending of the files. *)
Inductive turn_handles
  : machine -> list update -> machine * res unit -> Prop :=
| turn_poll_failed (m : machine) (e : str) :
    w_get_updates W (after_poll m) = Raise e ->
    turn_handles m []
      (set_trace (after_poll m ++ [Sleep (poll_interval cfg * 1000)]) m, Ok tt)
| turn_batch (m : machine) (updates : list update) (m0 : machine)
    (log : list update) (m1 : machine) (r : res unit) :
    w_get_updates W (after_poll m) = Ok updates ->
    screen_check (set_trace (after_poll m) m) = (m0, Ok tt) ->
    handles updates (set_pending_files [] m0) log (m1, r) ->
    turn_handles m log
      (match r with
       | Ok _ => send_pending m1
       | Raise e => (m1, Raise e)
       end).

(** The loop with the updates it handles over its turns, in order. *)
Inductive loop_handles
  : nat -> machine -> list update -> machine * res unit -> Prop :=
| loop_out_of_turns (m : machine) : loop_handles 0 m [] (m, Ok tt)
| loop_stopped (turns : nat) (m : machine) :
    w_running W (trace m) = false ->
    loop_handles (S turns) m [] (m, Ok tt)
| loop_turn (turns : nat) (m m1 : machine) (log1 log2 : list update)
    (out : machine * res unit) :
    w_running W (trace m) = true ->
    turn_handles m log1 (m1, Ok tt) ->
    loop_handles turns m1 log2 out ->
    loop_handles (S turns) m (log1 ++ log2) out
| loop_raised (turns : nat) (m m1 : machine) (log : list update) (e : str) :
    w_running W (trace m) = true ->
    turn_handles m log (m1, Raise e) ->
    loop_handles (S turns) m log (m1, Raise e).

End Vocabulary.

(** ** Vocabulary of the further properties *)

Section Discipline.
Context `{U : UCD}.
Variable W : world.
Variable cfg : config.

(** Every call a computation makes satisfies [P]. *)
Definition only (P : call -> Prop) {A : Type} (x : M A) : Prop :=
  forall m, exists ext, trace (fst (x m)) = trace m ++ ext /\ Forall P ext.

(** Calls that type into the terminal. *)
Definition is_key (c : call) : bool :=
  match c with SendKeys _ _ | SendEscape _ => true | _ => false end.

(** The acknowledgement of the button press [query_id]. *)
Definition is_ack (query_id : str) (c : call) : bool :=
  match c with
  | AnswerCallbackQuery q _ => str_eqb q query_id
  | _ => false
  end.

(** An error report to the chat: a message that starts with the cross
    mark. *)
Definition is_error_report (c : call) : bool :=
  match c with
  | SendMessage _ (glyph :: _) _ => (glyph =? 10060)%N
  | _ => false
  end.

(** The text of a message sent to the chat. *)
Definition message_text (c : call) : str :=
  match c with
  | SendMessage _ text _ | SendMessageWithButtons _ text _ _ => text
  | _ => []
  end.

(** The text a message carries for [handle_update]:
    [msg.get("text", "") or msg.get("caption", "")]. *)
Definition text_of (msg : message) : str :=
  if is_empty (msg_text msg) then msg_caption msg else msg_text msg.

End Discipline.


Section CommandVocabulary.
Context `{U : UCD}.

(** [cmd] and [arg] of [handle_command]: the lowered first word of the
    stripped text, and what follows the white space after it. *)
Definition command_word (text : str) : str := lower (first_word (strip text)).

Definition command_arg (text : str) : str := after_first_word (strip text).

(** What a command may type into the terminal of [session]: Escape for
    [/esc]; [cd] and the argument for [/cd], the argument itself for
    [/cmd], the argument not empty. *)
Definition typed_by_command (session cmd arg : str) (c : call) : Prop :=
  match c with
  | SendEscape s => s = session /\ cmd = lit "/esc"
  | SendKeys s t =>
      s = session /\ arg <> [] /\
      (cmd = lit "/cd" /\ t = lit "cd " ++ arg \/ cmd = lit "/cmd" /\ t = arg)
  | _ => True
  end.

End CommandVocabulary.

Section DumpVocabulary.
Context `{U : UCD}.

(** A plain-text message that is neither empty nor longer than 3900
    characters, and holds no control character but newline and tab. *)
Definition clean_dump (c : call) : Prop :=
  match c with
  | SendMessage _ body None =>
      1 <= len body <= 3900 /\ forallb printable body = true
  | _ => True
  end.

End DumpVocabulary.

(** The ceiling both classifiers put on a formatted message. *)
Definition within_ceiling (c : call) : Prop := len (message_text c) <= 4000.

(** [part in whole] for two strings. *)
Definition occurs_in (part whole : str) : Prop :=
  exists pre post, whole = pre ++ part ++ post.

(** The confirmation that attachments went to the terminal: a plain
    message that starts with the camera glyph. *)
Definition is_confirmation (c : call) : bool :=
  match c with
  | SendMessage _ (glyph :: _) None => (glyph =? 128247)%N
  | _ => false
  end.

(** A file name: a string without a slash. *)
Definition no_slash (s : str) : Prop :=
  forallb (fun c => negb (c =? 47)%N) s = true.

(** What the prompt classifier sends: a formatted message comes with at
    least one button, never bare. *)
Definition buttoned (c : call) : Prop :=
  match c with
  | SendMessage _ _ (Some _) => False
  | SendMessageWithButtons _ text buttons _ => buttons <> [] /\ text <> []
  | _ => True
  end.

Section DownloadVocabulary.
Variable W : world.

(** [path] is the destination of a download that succeeded in the
    history [t]. *)
Definition downloaded (t : list call) (path : str) : Prop :=
  exists before file_path after,
    t = before ++ DownloadFile file_path path :: after /\
    w_download_file W (before ++ [DownloadFile file_path path]) = Ok tt.

(** Every file waiting to be announced was downloaded. *)
Definition files_downloaded (m : machine) : Prop :=
  forall path caption,
    In (path, caption) (pending_files m) -> downloaded (trace m) path.

(** A computation that keeps an invariant of the state. *)
Definition preserves (I : machine -> Prop) {A : Type} (x : M A) : Prop :=
  forall m, I m -> I (fst (x m)).

End DownloadVocabulary.

(** A clock that never runs backwards and that a sleep of a second
    advances by a second at least. *)
Definition clock_ticks (W : world) : Prop :=
  forall (t ext : list call),
    w_time W (t ++ [Time]) + (if existsb is_sleep_1s ext then 1 else 0)
    <= w_time W (t ++ [Time] ++ ext ++ [Time]).

(** A string without white space at either end: what [strip] returns. *)
Definition trimmed (s : str) : Prop :=
  lstrip_by is_space s = s /\ lstrip_by is_space (rev s) = rev s.

(** Where [splitlines] goes on after the line boundary [d]: a line feed
    that follows a carriage return belongs to the boundary. *)
Definition after_break (d : N) (s : str) : str :=
  match s with
  | e :: s' => if (d =? 13)%N && (e =? 10)%N then s' else s
  | [] => s
  end.

(** The calls [wait_for_input] makes. *)
Definition watching (session : str) (c : call) : Prop :=
  c = Time \/ c = CapturePane session 5 \/ c = Sleep 1000.

(** A character of the limit phrases that is not the space: a small
    letter or the slash. *)
Definition plain_char (p : N) : bool :=
  ((97 <=? p) && (p <=? 122) || (p =? 47))%N.

(** A sequence of literal characters. *)
Definition literal (ns : list node) : bool :=
  forallb (fun n => match n with One [Lit _] => true | _ => false end) ns.

Section Spelling.
Context `{U : UCD}.

(** [text] matches the literal sequence [ns] character by character,
    letter case ignored. *)
Fixpoint spells (ns : list node) (text : str) : Prop :=
  match ns, text with
  | [], [] => True
  | One [Lit p] :: ns', c :: text' =>
      class_match true [Lit p] c = true /\ spells ns' text'
  | _, _ => False
  end.

End Spelling.

(** A literal character that is a small letter, a slash or a space. *)
Definition phrase_node (n : node) : bool :=
  match n with
  | One [Lit p] => plain_char p || (p =? 32)%N
  | _ => false
  end.

(** A literal character that is a small letter or a slash. *)
Definition plain_node (n : node) : bool :=
  match n with
  | One [Lit p] => plain_char p
  | _ => false
  end.

(** A phrase: small letters, slashes and spaces, with no space at
    either end. *)
Definition phrase (ns : list node) : bool :=
  forallb phrase_node ns && plain_node (hd Bol ns) && plain_node (last ns Bol).

(** The content of the message of a transcript line, when the line holds
    a message of the assistant. *)
Definition assistant_content (line : transcript_line) : option json :=
  match line with
  | Entry (JObj fields) =>
      match
        match dict_get (lit "message") fields with
        | Some m => m
        | None => JObj fields
        end
      with
      | JObj mfields =>
          match dict_get (lit "role") mfields with
          | Some (JStr role) =>
              if str_eqb role (lit "assistant") then
                Some match dict_get (lit "content") mfields with
                     | Some c => c
                     | None => JStr []
                     end
              else None
          | _ => None
          end
      | _ => None
      end
  | _ => None
  end.

(** [s] is something the assistant said in [content]: the content
    itself when it is a string, the text of one of its text blocks, or
    one of its blocks that is a string. *)
Definition said_in (content : json) (s : str) : Prop :=
  content = JStr s \/
  exists blocks block,
    blocks_of content = Some blocks /\ In block blocks /\
    (block = JStr s \/
     exists fields,
       block = JObj fields /\ is_text_block fields = true /\
       dict_get (lit "text") fields = Some (JStr s)).

(** What [load_config] is expected to hold for a key: the value of its
    environment variable when that is set and not empty, else the value
    stored in config.json, else the default. *)
Definition stored_or_default (file : option dict) (k : str) : option json :=
  match match file with Some d => dict_get k d | None => None end with
  | Some v => Some v
  | None => dict_get k DEFAULTS
  end.

Definition text_setting (environ : str -> option str) (file : option dict)
    (var : string) (k : str) : option json :=
  match env_value environ var with
  | Some v => Some (JStr v)
  | None => stored_or_default file k
  end.

(** The capture the classifiers take: twenty lines of the pane. *)
Definition is_screen_check (c : call) : bool :=
  match c with CapturePane _ lines => lines =? 20 | _ => false end.

(** A message to the chat [chat], with or without buttons. *)
Definition to_chat (chat : Z) (c : call) : Prop :=
  match c with
  | SendMessage ch _ _ | SendMessageWithButtons ch _ _ _ => ch = chat
  | _ => False
  end.

(* ================================================================== *)
(** * Properties *)
(* ================================================================== *)

(** Where each property of the specification is settled:
    - C1, truncation: [truncate_message_law], and
      [truncation_keeps_one_end_only] for what fails;
    - C2, rate-limit recovery: [recovery_fires_once_per_clearing], and
      [blank_capture_hides_the_clearing];
    - C3, waiting before injecting: [plain_message_injected_without_waiting];
    - C4, the update cursor: [cursor_moves_first_and_no_update_repeats],
      and [cursor_moves_before_handling];
    - C5, the coarse gate: [no_chrome_no_prompt], and
      [blank_capture_keeps_prompt_hash];
    - C6, option extraction: [options_keep_order_and_index];
    - C7, deduplication: [dedup_by_content_hash];
    - C8, the sanitizer: [sanitize_text_idempotent];
    - C9, access control: [foreign_update_reaches_nothing];
    - C10, failed sends: [failed_sends_stay_suppressed]. *)

Unset Implicit Arguments.

(* ------------------------------------------------------------------ *)
(** ** Truncation *)

Lemma len_marker : len marker = 19.
Proof. reflexivity. Qed.

Lemma len_nonneg (s : str) : 0 <= len s.
Proof. unfold len; lia. Qed.

Lemma len_app (a b : str) : len (a ++ b) = len a + len b.
Proof. unfold len; rewrite length_app; lia. Qed.

Lemma slice_to_firstn (s : str) (i : Z) :
  0 <= i <= len s -> slice_to s i = firstn (Z.to_nat i) s.
Proof.
  intros Hi. unfold slice_to, norm_index.
  destruct (Z.ltb_spec i 0); [lia|].
  now rewrite Z.min_l by lia.
Qed.

Lemma slice_from_last (s : str) (t : Z) :
  0 < t <= len s -> slice_from s (- t) = skipn (Z.to_nat (len s - t)) s.
Proof.
  intros Ht. unfold slice_from, norm_index.
  destruct (Z.ltb_spec (- t) 0); [|lia].
  rewrite Z.max_r by lia. do 2 f_equal; lia.
Qed.

Lemma len_firstn (s : str) (n : Z) :
  0 <= n <= len s -> len (firstn (Z.to_nat n) s) = n.
Proof.
  intros Hn. unfold len in *. rewrite firstn_length_le; lia.
Qed.

Lemma len_skipn (s : str) (n : Z) :
  0 <= n <= len s -> len (skipn (Z.to_nat n) s) = len s - n.
Proof.
  intros Hn. unfold len in *. rewrite length_skipn. lia.
Qed.

Lemma nonempty_of_len (s : str) : 0 < len s -> s <> [].
Proof. intros Hs ->. unfold len in Hs. simpl in Hs. lia. Qed.

(** The head and tail budgets, once the marker and one character fit. *)
Lemma budget_split (L : Z) :
  len marker + 1 <= L ->
  let available := L - len marker in
  0 <= available * 2 / 3 /\
  1 <= available - available * 2 / 3 /\
  (len marker + 2 <= L -> 1 <= available * 2 / 3).
Proof.
  rewrite len_marker. intros HL. cbv zeta.
  pose proof (Z.div_mod ((L - 19) * 2) 3 ltac:(lia)) as Hd.
  pose proof (Z.mod_pos_bound ((L - 19) * 2) 3 ltac:(lia)) as Hm.
  lia.
Qed.

(** The ceiling of poll.py keeps a prefix of the message. *)
Lemma clip_4000_prefix (msg : str) :
  len (clip_4000 msg) <= 4000 /\ exists rest, msg = clip_4000 msg ++ rest.
Proof.
  unfold clip_4000. destruct (Z.ltb_spec 4000 (len msg)) as [Hlt|Hle].
  - rewrite slice_to_firstn by lia. split.
    + rewrite len_firstn; lia.
    + exists (skipn (Z.to_nat 4000) msg). now rewrite firstn_skipn.
  - split; [lia|]. exists []. now rewrite app_nil_r.
Qed.




(** At the marker length itself the tail budget is [0] and [text[-0:]] is
    the whole text: the result is longer than the text it shortens. *)
Lemma truncate_message_at_marker_length :
  truncate_message (lit "abcdefghijklmnopqrstu") 19
  = marker ++ lit "abcdefghijklmnopqrstu".
Proof. reflexivity. Qed.

(* ------------------------------------------------------------------ *)
(** ** hashlib *)

(** The digest agrees with the test suite of RFC 1321, on one block and
    on two, and with [hashlib] on a text outside ASCII. *)
Lemma md5_test_suite :
  md5_hexdigest [] = lit "d41d8cd98f00b204e9800998ecf8427e" /\
  md5_hexdigest (lit "a") = lit "0cc175b9c0f1b6a831c399e269772661" /\
  md5_hexdigest (lit "abc") = lit "900150983cd24fb0d6963f7d28e17f72" /\
  md5_hexdigest (lit "message digest")
  = lit "f96b697d7cb7938d525a2f31aaf161d0" /\
  md5_hexdigest (lit "abcdefghijklmnopqrstuvwxyz")
  = lit "c3fcd3d76192e4007dfb496cca67e13b" /\
  md5_hexdigest
    (lit "ABCDEFGHIJKLMNOPQRSTUVWXYZabcdefghijklmnopqrstuvwxyz0123456789")
  = lit "d174ab98d277d9f5a5611c2c9f419d9f" /\
  md5_hexdigest [10095; 32; 233; 32; 128721]%N
  = lit "994443e97e88d5a8e73f9d3e2db6e015".
Proof. vm_compute. repeat split. Qed.

(* ------------------------------------------------------------------ *)
(** ** The sanitizer *)

Section Sanitizer.
Context `{U : UCD}.

Lemma ESC_not_printable : printable ESC = false.
Proof. reflexivity. Qed.

(** Every alternative of [ANSI_RE] opens with the escape character. *)
Lemma ANSI_RE_starts_with_ESC (bol : bool) (s : str) :
  is_some (match_at ANSI_RE bol s) = true -> exists s', s = ESC :: s'.
Proof.
  destruct s as [|c s']; [discriminate|].
  destruct (N.eqb_spec c ESC) as [->|Hne]; [now exists s'|].
  unfold match_at, ANSI_RE.
  cbn [alts ignorecase first_some exec class_match existsb item_match].
  apply N.eqb_neq in Hne. rewrite Hne. discriminate.
Qed.

Lemma sub_ANSI_RE_without_ESC (s : str) :
  Forall (fun c => c <> ESC) s ->
  forall bol, sub_del ANSI_RE bol 0 s = s.
Proof.
  induction 1 as [|c s Hc _ IH]; intros bol; [reflexivity|].
  cbn [sub_del].
  destruct (match_at ANSI_RE bol (c :: s)) as [[ms rest]|] eqn:Hm.
  - destruct (ANSI_RE_starts_with_ESC bol (c :: s)) as [s' Hs'].
    + now rewrite Hm.
    + injection Hs' as Hc' _. contradiction.
  - now rewrite IH.
Qed.

Lemma sanitize_text_printable (s : str) :
  forallb printable (sanitize_text s) = true.
Proof. unfold sanitize_text. apply forallb_filter. Qed.

Lemma printable_without_ESC (s : str) :
  forallb printable s = true -> Forall (fun c => c <> ESC) s.
Proof.
  rewrite forallb_forall. intros Hs. apply Forall_forall.
  intros c Hin ->. apply Hs in Hin.
  rewrite ESC_not_printable in Hin. discriminate.
Qed.

(** A text of printable characters is left as it is. *)
Lemma sanitize_text_fixes_printable (s : str) :
  forallb printable s = true -> sanitize_text s = s.
Proof.
  intros Hs. unfold sanitize_text, sub_empty.
  rewrite sub_ANSI_RE_without_ESC by now apply printable_without_ESC.
  now apply forallb_filter_id.
Qed.

(** C8.  [sanitize_text] is a total function of its argument, and
    sanitizing a sanitized text changes nothing.  (The model has no
    failing case to exclude: [re.sub] and the character filter are
    defined on every [str].)  This holds whatever the rows of the
    character database above Latin-1 are. *)
Theorem sanitize_text_idempotent (s : str) :
  sanitize_text (sanitize_text s) = sanitize_text s.
Proof.
  apply sanitize_text_fixes_printable, sanitize_text_printable.
Qed.

(** The sanitizer only deletes: its result is never longer than its
    argument. *)
Lemma sub_del_length (r : regex) (s : str) :
  forall bol skip, (length (sub_del r bol skip s) <= length s)%nat.
Proof.
  induction s as [|c s IH]; intros bol skip; [reflexivity|].
  cbn [sub_del]. destruct skip as [|k].
  - destruct (match_at r bol (c :: s)) as [[ms rest]|].
    + destruct (length (c :: s) - length rest)%nat;
        cbn [length]; specialize (IH false); [specialize (IH O)|specialize (IH n)]; lia.
    + cbn [length]. specialize (IH false O). lia.
  - cbn [length]. specialize (IH false k). lia.
Qed.

Lemma sanitize_text_shrinks (s : str) :
  (length (sanitize_text s) <= length s)%nat.
Proof.
  unfold sanitize_text, sub_empty.
  etransitivity; [apply filter_length_le|apply sub_del_length].
Qed.

End Sanitizer.

(* ------------------------------------------------------------------ *)
(** ** Patterns *)

Section Patterns.
Context `{U : UCD}.

Lemma first_some_Some {A B : Type} (f : A -> option B) (l : list A) (b : B) :
  first_some f l = Some b -> exists a, In a l /\ f a = Some b.
Proof.
  induction l as [|a l IH]; [discriminate|]. cbn [first_some].
  destruct (f a) as [b'|] eqn:Hfa.
  - intros E. injection E as <-. exists a. split; [now left|exact Hfa].
  - intros E. destruct (IH E) as (a' & Hin & Ha'). exists a'.
    split; [now right|exact Ha'].
Qed.

Lemma counts_In (lo n : nat) (greedy : bool) (j : nat) :
  In j (counts lo n greedy) -> (lo <= j <= n)%nat.
Proof.
  unfold counts. intros Hin.
  assert (Hseq : In j (seq lo (S n - lo)))
    by (destruct greedy; [now apply in_rev|exact Hin]).
  apply in_seq in Hseq. lia.
Qed.

Lemma run_length_firstn (p : N -> bool) (s : str) :
  forall (cap : option nat) (j : nat),
    (j <= run_length p cap s)%nat ->
    forallb p (firstn j s) = true /\ (j <= length s)%nat.
Proof.
  induction s as [|c s IH]; intros cap j Hj.
  - cbn in Hj. assert (j = O) by lia. subst. now split.
  - destruct j as [|j]; [split; [reflexivity|cbn; lia]|].
    cbn [run_length] in Hj. destruct (p c) eqn:Hpc; [|lia].
    cbn [firstn forallb length]. rewrite Hpc.
    destruct cap as [[|k]|]; [lia| |].
    + destruct (IH (Some k) j ltac:(lia)) as [Hall Hlen].
      split; [exact Hall|lia].
    + destruct (IH None j ltac:(lia)) as [Hall Hlen].
      split; [exact Hall|lia].
Qed.

(** Inversion of [exec] on each kind of node. *)
Lemma exec_Rep (ic : bool) (cl : cclass) (lo : nat) (hi : option nat)
    (greedy : bool) (ns : list node) (bol : bool) (s : str)
    (r : list str * str) :
  exec ic (Rep cl lo hi greedy :: ns) bol s = Some r ->
  exists j,
    (lo <= j <= length s)%nat /\
    forallb (class_match ic cl) (firstn j s) = true /\
    exec ic ns (bol && Nat.eqb j 0) (skipn j s) = Some r.
Proof.
  cbn [exec]. intros Hex.
  apply first_some_Some in Hex as (j & Hin & Hj).
  apply counts_In in Hin.
  destruct (run_length_firstn (class_match ic cl) s hi j ltac:(lia))
    as [Hall Hlen].
  exists j. repeat split; [lia|exact Hlen|exact Hall|exact Hj].
Qed.

Lemma exec_Mark (ic : bool) (ns : list node) (bol : bool) (s : str)
    (ms : list str) (rest : str) :
  exec ic (Mark :: ns) bol s = Some (ms, rest) ->
  exists ms', ms = s :: ms' /\ exec ic ns bol s = Some (ms', rest).
Proof.
  cbn [exec]. destruct (exec ic ns bol s) as [[ms' rest']|]; [|discriminate].
  intros E. injection E as <- <-. now exists ms'.
Qed.

Lemma exec_One (ic : bool) (cl : cclass) (ns : list node) (bol : bool)
    (s : str) (r : list str * str) :
  exec ic (One cl :: ns) bol s = Some r ->
  exists c s',
    s = c :: s' /\ class_match ic cl c = true /\ exec ic ns false s' = Some r.
Proof.
  cbn [exec]. destruct s as [|c s']; [discriminate|].
  destruct (class_match ic cl c) eqn:Hc; [|discriminate].
  intros Hex. now exists c, s'.
Qed.

Lemma between_skipn (s : str) (k : nat) :
  (k <= length s)%nat -> between s (skipn k s) = firstn k s.
Proof.
  intros Hk. unfold between. rewrite length_skipn. f_equal. lia.
Qed.

Lemma digits_only (s : str) :
  forallb (class_match false [Digit]) s = true -> forallb is_digit s = true.
Proof.
  intros Hs. rewrite forallb_forall in *. intros c Hc.
  specialize (Hs c Hc). cbn in Hs. now rewrite orb_false_r in Hs.
Qed.

Lemma first_some_is_some {A B : Type} (f : A -> option B) (l : list A) (a : A) :
  In a l -> is_some (f a) = true -> is_some (first_some f l) = true.
Proof.
  induction l as [|x l IH]; [contradiction|]. cbn [first_some].
  intros [->|Hin] Ha.
  - destruct (f a); [reflexivity|discriminate].
  - destruct (f x); [reflexivity|now apply IH].
Qed.

Lemma counts_In_iff (lo n : nat) (greedy : bool) (j : nat) :
  In j (counts lo n greedy) <-> (lo <= j <= n)%nat.
Proof.
  unfold counts.
  assert (Hseq : In j (seq lo (S n - lo)) <-> (lo <= j <= n)%nat)
    by (rewrite in_seq; lia).
  destruct greedy; [rewrite <- in_rev|]; exact Hseq.
Qed.

Lemma run_length_app (p : N -> bool) (s post : str) :
  forall cap, (run_length p cap s <= run_length p cap (s ++ post))%nat.
Proof.
  induction s as [|c s IH]; intros cap; [cbn; lia|].
  cbn [app run_length]. destruct (p c); [|lia].
  destruct cap as [[|k]|]; [lia| |]; apply le_n_S, IH.
Qed.

Lemma run_length_le_length (p : N -> bool) (s : str) :
  forall cap, (run_length p cap s <= length s)%nat.
Proof.
  induction s as [|c s IH]; intros cap; [cbn; lia|].
  cbn [run_length length]. destruct (p c); [|lia].
  destruct cap as [[|k]|]; [lia| |]; apply le_n_S, IH.
Qed.

(** A sequence without anchors that matches at the head of [s] matches
    at the head of [s ++ post]. *)
Lemma exec_extend (ic : bool) (ns : list node) :
  anchor_free ns = true ->
  forall s bol,
    is_some (exec ic ns bol s) = true ->
    forall post bol', is_some (exec ic ns bol' (s ++ post)) = true.
Proof.
  induction ns as [|n ns IH]; intros Hfree s bol Hex post bol';
    [reflexivity|].
  cbn [anchor_free forallb] in Hfree. apply andb_true_iff in Hfree as [Hn Hfree].
  destruct n as [cl|cl lo hi greedy| | |]; try discriminate.
  - cbn [exec] in *. destruct s as [|c s]; [discriminate|].
    cbn [app]. destruct (class_match ic cl c); [|discriminate].
    now apply (IH Hfree s false).
  - cbn [exec] in *.
    destruct (first_some _ (counts lo _ greedy)) as [r|] eqn:Hfirst;
      [|discriminate].
    apply first_some_Some in Hfirst as (j & Hin & Hj).
    apply counts_In_iff in Hin.
    pose proof (run_length_le_length (class_match ic cl) s hi) as Hlen.
    pose proof (run_length_app (class_match ic cl) s post hi) as Hmono.
    apply (first_some_is_some _ _ j).
    + apply counts_In_iff. lia.
    + rewrite skipn_app.
      replace (j - length s)%nat with O by lia. cbn [skipn].
      apply (IH Hfree (skipn j s) (bol && Nat.eqb j 0)). now rewrite Hj.
Qed.
Lemma match_at_extend (r : regex) (s post : str) (bol bol' : bool) :
  anchor_free_regex r = true ->
  is_some (match_at r bol s) = true ->
  is_some (match_at r bol' (s ++ post)) = true.
Proof.
  unfold anchor_free_regex, match_at. intros Hfree Hm.
  destruct (first_some _ (alts r)) as [b|] eqn:Hfirst; [|discriminate].
  apply first_some_Some in Hfirst as (ns & Hin & Hns).
  apply (first_some_is_some _ _ ns Hin).
  rewrite forallb_forall in Hfree.
  apply (exec_extend _ ns (Hfree ns Hin) s bol); now rewrite Hns.
Qed.

Lemma search_from_extend_right (r : regex) (post : str) :
  anchor_free_regex r = true ->
  forall s bol bol',
    is_some (search_from r bol s) = true ->
    is_some (search_from r bol' (s ++ post)) = true.
Proof.
  intros Hfree. induction s as [|c s IH]; intros bol bol' Hs.
  - cbn [search_from] in Hs.
    destruct (match_at r bol []) as [[ms rest]|] eqn:Hm; [|discriminate].
    pose proof (match_at_extend r [] post bol bol' Hfree) as Hext.
    rewrite Hm in Hext. specialize (Hext eq_refl). cbn [app] in *.
    destruct post as [|d post]; cbn [search_from];
      destruct (match_at r bol' _) as [[ms' rest']|]; try reflexivity;
      discriminate.
  - cbn [app search_from] in *.
    destruct (match_at r bol (c :: s)) as [[ms rest]|] eqn:Hm.
    + pose proof (match_at_extend r (c :: s) post bol bol' Hfree) as Hext.
      rewrite Hm in Hext. specialize (Hext eq_refl). cbn [app] in Hext.
      destruct (match_at r bol' (c :: s ++ post)) as [[ms' rest']|];
        [reflexivity|discriminate].
    + destruct (match_at r bol' (c :: s ++ post)) as [[ms' rest']|];
        [reflexivity|].
      now apply (IH false false).
Qed.

Lemma search_from_extend_left (r : regex) (s : str) :
  anchor_free_regex r = true ->
  forall pre bol bol',
    is_some (search_from r bol s) = true ->
    is_some (search_from r bol' (pre ++ s)) = true.
Proof.
  intros Hfree pre. induction pre as [|c pre IH]; intros bol bol' Hs.
  - cbn [app]. rewrite <- (app_nil_r s).
    now apply (search_from_extend_right r [] Hfree s bol bol').
  - cbn [app search_from].
    destruct (match_at r bol' (c :: pre ++ s)) as [[ms rest]|];
      [reflexivity|].
    now apply (IH bol false).
Qed.

(** A pattern without anchors found in a part of a text is found in the
    text. *)
Lemma found_in_part (r : regex) (pre s post : str) :
  anchor_free_regex r = true ->
  found r s = true -> found r (pre ++ s ++ post) = true.
Proof.
  intros Hfree Hfound. unfold found, search in *.
  assert (Hs : is_some (search_from r true s) = true)
    by (destruct (search_from r true s); [reflexivity|discriminate]).
  pose proof (search_from_extend_right r post Hfree s true true Hs) as Hr.
  pose proof (search_from_extend_left r (s ++ post) Hfree pre true true Hr) as Hl.
  destruct (search_from r true (pre ++ s ++ post)); [reflexivity|discriminate].
Qed.

Lemma lstrip_by_part (p : N -> bool) (s : str) :
  exists pre, s = pre ++ lstrip_by p s.
Proof.
  induction s as [|c s [pre IH]]; [now exists []|].
  cbn [lstrip_by]. destruct (p c); [|now exists []].
  exists (c :: pre). cbn [app]. now f_equal.
Qed.

Lemma strip_part (s : str) : exists pre post, s = pre ++ strip s ++ post.
Proof.
  unfold strip, rstrip_by.
  destruct (lstrip_by_part is_space s) as [pre Hpre].
  destruct (lstrip_by_part is_space (rev (lstrip_by is_space s)))
    as [post Hpost].
  exists pre, (rev post). rewrite <- rev_app_distr, <- Hpost, rev_involutive.
  exact Hpre.
Qed.

(** A capture without chrome phrases has none after stripping. *)
Lemma no_chrome_after_strip (raw : str) :
  found PROMPT_DETECT_RE raw = false ->
  found PROMPT_DETECT_RE (strip raw) = false.
Proof.
  intros Hraw. destruct (found PROMPT_DETECT_RE (strip raw)) eqn:Hstrip;
    [|reflexivity].
  destruct (strip_part raw) as (pre & post & Hparts).
  rewrite Hparts in Hraw at 1.
  rewrite (found_in_part PROMPT_DETECT_RE pre (strip raw) post eq_refl Hstrip)
    in Hraw.
  discriminate.
Qed.

End Patterns.

(* ------------------------------------------------------------------ *)
(** ** The classifiers, run symbolically *)

Ltac run :=
  unfold bind, try_except, ret, modify, get, perform, raise;
  cbn beta iota zeta.

Section Classifiers.
Context `{U : UCD}.
Variable W : world.
Variables (chat : Z) (session : str).

Lemma try_capture_run (m : machine) :
  try_capture W session m =
  (set_trace (trace m ++ [CapturePane session 20]) m,
   Ok (match shown W session m with
       | Ok s => Some s
       | Raise _ => None
       end)).
Proof.
  unfold try_capture, capture_pane, shown. run.
  destruct (w_capture_pane W _); reflexivity.
Qed.

(** [check_for_ratelimit] without its plumbing: what it leaves behind,
    by the answer of the pane and of the chat. *)
Lemma check_for_ratelimit_run (m : machine) :
  let t0 := trace m ++ [CapturePane session 20] in
  check_for_ratelimit W chat session m =
  match shown W session m with
  | Raise _ => (set_trace t0 m, Ok tt)
  | Ok screen =>
      let clean := strip (sanitize_text screen) in
      if is_empty clean then (set_trace t0 m, Ok tt)
      else if negb (found RATELIMIT_RE clean) then
        if ratelimit_waiting m then
          (set_last_ratelimit_hash None
             (set_ratelimit_waiting false
                (set_trace (t0 ++ [SendMessage chat recovery_text HTML]) m)),
           Ok tt)
        else (set_last_ratelimit_hash None (set_trace t0 m), Ok tt)
      else
        let content := join [NL] (relevant_lines clean) in
        let h := md5_hexdigest content in
        let msg := ratelimit_message content clean in
        let t1 := t0 ++ [SendMessage chat msg Markdown] in
        if is_empty (relevant_lines clean) then (set_trace t0 m, Ok tt)
        else if hash_is h (last_ratelimit_hash m) then (set_trace t0 m, Ok tt)
        else
          (set_last_ratelimit_hash (Some h)
             (set_ratelimit_waiting true
                (set_trace
                   (if succeeded (w_send_message W t1) then t1
                    else t1 ++ [SendMessage chat msg None]) m)),
           Ok tt)
  end.
Proof.
  cbv zeta. unfold check_for_ratelimit. unfold bind at 1.
  rewrite try_capture_run.
  destruct (shown W session m) as [screen|e]; [|reflexivity].
  destruct (is_empty (strip (sanitize_text screen))); [reflexivity|].
  destruct (found RATELIMIT_RE _); cbn [negb].
  - destruct (is_empty (relevant_lines _)); [reflexivity|].
    unfold send_message. run. cbn [last_ratelimit_hash set_trace].
    destruct (hash_is _ _); [reflexivity|].
    cbn [trace set_trace set_ratelimit_waiting set_last_ratelimit_hash].
    destruct (w_send_message W _) as [[]|e1]; cbn [succeeded].
    + destruct m; reflexivity.
    + destruct (w_send_message W _) as [[]|e2]; destruct m; reflexivity.
  - unfold send_message. run. cbn [ratelimit_waiting set_trace].
    destruct (ratelimit_waiting m); [|destruct m; reflexivity].
    cbn [trace set_trace set_ratelimit_waiting].
    destruct (w_send_message W _) as [[]|e1]; destruct m; reflexivity.
Qed.

(** The same for [check_for_prompts]. *)
Lemma check_for_prompts_run (m : machine) :
  let t0 := trace m ++ [CapturePane session 20] in
  check_for_prompts W chat session m =
  match shown W session m with
  | Raise _ => (set_trace t0 m, Ok tt)
  | Ok raw =>
      let screen := strip raw in
      if is_empty screen then (set_trace t0 m, Ok tt)
      else if negb (found PROMPT_DETECT_RE screen) then
        (set_last_prompt_hash None (set_trace t0 m), Ok tt)
      else
        match parse_prompt screen with
        | None => (set_trace t0 m, Ok tt)
        | Some prompt_text =>
            let h := md5_hexdigest prompt_text in
            let buttons := make_buttons screen in
            let msg := prompt_message prompt_text in
            let first :=
              if is_empty buttons then SendMessage chat msg Markdown
              else SendMessageWithButtons chat msg buttons Markdown in
            let t1 := t0 ++ [first] in
            let sent :=
              if is_empty buttons then succeeded (w_send_message W t1)
              else succeeded (w_send_message_with_buttons W t1) in
            if is_empty prompt_text then (set_trace t0 m, Ok tt)
            else if hash_is h (last_prompt_hash m) then (set_trace t0 m, Ok tt)
            else
              (set_last_prompt_hash (Some h)
                 (set_trace
                    (if sent then t1
                     else t1 ++ [SendMessage chat
                                   (prompt_message_plain prompt_text) None])
                    m),
               Ok tt)
        end
  end.
Proof.
  cbv zeta. unfold check_for_prompts. unfold bind at 1.
  rewrite try_capture_run.
  destruct (shown W session m) as [raw|e]; [|reflexivity].
  destruct (is_empty (strip raw)); [reflexivity|].
  destruct (found PROMPT_DETECT_RE _); cbn [negb];
    [|run; destruct m; reflexivity].
  destruct (parse_prompt (strip raw)) as [prompt_text|]; [|reflexivity].
  destruct (is_empty prompt_text); [reflexivity|].
  unfold send_message, send_message_with_buttons. run.
  cbn [last_prompt_hash set_trace].
  destruct (hash_is _ _); [reflexivity|].
  cbn [trace set_trace set_last_prompt_hash].
  destruct (is_empty (make_buttons (strip raw))).
  - destruct (w_send_message W _) as [[]|e1]; cbn [succeeded].
    + destruct m; reflexivity.
    + destruct (w_send_message W _) as [[]|e2]; destruct m; reflexivity.
  - destruct (w_send_message_with_buttons W _) as [[]|e1]; cbn [succeeded].
    + destruct m; reflexivity.
    + destruct (w_send_message W _) as [[]|e2]; destruct m; reflexivity.
Qed.

End Classifiers.

(* ------------------------------------------------------------------ *)
(** ** Rate-limit recovery *)

Lemma str_eqb_refl (s : str) : str_eqb s s = true.
Proof. unfold str_eqb. destruct (list_eq_dec N.eq_dec s s); congruence. Qed.

Lemma str_eqb_eq (a b : str) : str_eqb a b = true <-> a = b.
Proof.
  unfold str_eqb. destruct (list_eq_dec N.eq_dec a b); split; congruence.
Qed.

Lemma calls_between_app (m m' : machine) (ext : list call) :
  trace m' = trace m ++ ext -> calls_between m m' = ext.
Proof.
  intros Ht. unfold calls_between. rewrite Ht.
  rewrite skipn_app, skipn_all, Nat.sub_diag. reflexivity.
Qed.

Lemma replay_app (t1 t2 : list call) :
  forall b,
    replay b (t1 ++ t2) =
    match replay b t1 with
    | Some b' => replay b' t2
    | None => None
    end.
Proof.
  induction t1 as [|c t1 IH]; intros b; [reflexivity|].
  cbn [app replay].
  destruct (is_recovery c).
  - destruct b; [apply IH|reflexivity].
  - destruct (is_limit_notice c); apply IH.
Qed.

Section Recovery.
Context `{U : UCD}.
Variable W : world.
Variables (chat : Z) (session : str).

Lemma ratelimit_message_glyph (content clean : str) :
  exists rest, ratelimit_message content clean = 128721%N :: rest.
Proof.
  unfold ratelimit_message, clip_4000.
  destruct (4000 <? len _) eqn:Hlong; [|eexists; reflexivity].
  apply Z.ltb_lt in Hlong.
  rewrite slice_to_firstn by lia.
  change (Z.to_nat 4000) with (S 3999). eexists. reflexivity.
Qed.

Lemma limit_notice_not_recovery (content clean : str) (mode : option str) :
  is_recovery (SendMessage chat (ratelimit_message content clean) mode) = false
  /\ is_limit_notice (SendMessage chat (ratelimit_message content clean) mode)
     = true.
Proof.
  destruct (ratelimit_message_glyph content clean) as [rest ->].
  split; [|reflexivity].
  cbn [is_recovery]. destruct (str_eqb _ _) eqn:E; [|reflexivity].
  apply str_eqb_eq in E. discriminate.
Qed.

(** The three shapes of one check: nothing said; the recovery said, on a
    non-blank screen without the limit signature, in the limited state;
    the limit announced, on a screen with the signature. *)
Lemma check_for_ratelimit_shape (m : machine) :
  let m' := fst (check_for_ratelimit W chat session m) in
  snd (check_for_ratelimit W chat session m) = Ok tt /\
  exists ext,
    trace m' = trace m ++ CapturePane session 20 :: ext /\
    ((ext = [] /\ ratelimit_waiting m' = ratelimit_waiting m /\
      ~ (ratelimit_waiting m = true /\
         exists screen,
           shown W session m = Ok screen /\
           is_empty (strip (sanitize_text screen)) = false /\
           found RATELIMIT_RE (strip (sanitize_text screen)) = false))
     \/
     (ext = [SendMessage chat recovery_text HTML] /\
      ratelimit_waiting m = true /\ ratelimit_waiting m' = false /\
      last_ratelimit_hash m' = None /\
      exists screen,
        shown W session m = Ok screen /\
        is_empty (strip (sanitize_text screen)) = false /\
        found RATELIMIT_RE (strip (sanitize_text screen)) = false)
     \/
     (ratelimit_waiting m' = true /\
      (exists screen,
         shown W session m = Ok screen /\
         found RATELIMIT_RE (strip (sanitize_text screen)) = true) /\
      exists content clean,
        ext = [SendMessage chat (ratelimit_message content clean) Markdown]
        \/ ext = [SendMessage chat (ratelimit_message content clean) Markdown;
                  SendMessage chat (ratelimit_message content clean) None])).
Proof.
  cbv zeta. rewrite check_for_ratelimit_run. cbv zeta.
  destruct (shown W session m) as [screen|e] eqn:Hshown.
  2:{ split; [reflexivity|]. exists []. split; [reflexivity|].
      left. repeat split. intros (_ & s & Hs & _). discriminate. }
  destruct (is_empty (strip (sanitize_text screen))) eqn:Hblank.
  { split; [reflexivity|]. exists []. split; [reflexivity|].
    left. repeat split. intros (_ & s & Hs & Hb & _).
    injection Hs as <-. congruence. }
  destruct (found RATELIMIT_RE _) eqn:Hfound; cbn [negb].
  - assert (Hno : ~ (ratelimit_waiting m = true /\
         exists s,
           Ok screen = Ok s /\
           is_empty (strip (sanitize_text s)) = false /\
           found RATELIMIT_RE (strip (sanitize_text s)) = false)).
    { intros (_ & s & Hs & _ & Hf). injection Hs as <-. congruence. }
    destruct (is_empty (relevant_lines _)).
    { split; [reflexivity|]. exists []. split; [reflexivity|].
      left. repeat split. exact Hno. }
    destruct (hash_is _ _).
    { split; [reflexivity|]. exists []. split; [reflexivity|].
      left. repeat split. exact Hno. }
    split; [reflexivity|].
    cbn [fst trace set_trace set_ratelimit_waiting set_last_ratelimit_hash
         ratelimit_waiting].
    destruct (succeeded _); eexists; (split; [rewrite <- !app_assoc; reflexivity|]);
      right; right; (split; [reflexivity|]);
      (split; [exists screen; now split|]); do 2 eexists; [left|right]; reflexivity.
  - destruct (ratelimit_waiting m) eqn:Hw.
    + split; [reflexivity|].
      cbn [fst trace set_trace set_ratelimit_waiting set_last_ratelimit_hash
           ratelimit_waiting last_ratelimit_hash].
      eexists. split; [rewrite <- !app_assoc; reflexivity|].
      right; left. repeat split. exists screen. now repeat split.
    + split; [reflexivity|]. exists []. split; [reflexivity|].
      left. cbn [fst ratelimit_waiting set_last_ratelimit_hash set_trace].
      repeat split; [assumption|]. intros [Hw' _]. discriminate.
Qed.

(** One check moves the automaton as it moves the flag. *)
Lemma check_for_ratelimit_replay (m : machine) (b : bool) :
  let m' := fst (check_for_ratelimit W chat session m) in
  replay b (trace m) = Some (ratelimit_waiting m) ->
  replay b (trace m') = Some (ratelimit_waiting m').
Proof.
  cbv zeta. intros Hinv.
  destruct (check_for_ratelimit_shape m) as (_ & ext & Ht & Hcases).
  cbv zeta in Ht, Hcases. rewrite Ht, replay_app, Hinv.
  cbn [replay is_recovery is_limit_notice].
  destruct Hcases as [(-> & Hw & _)|[(-> & Hw & Hw' & _)
                                    |(Hw' & _ & content & clean & [->| ->])]].
  - now rewrite Hw.
  - rewrite Hw, Hw'. cbn [replay is_recovery]. now rewrite str_eqb_refl.
  - rewrite Hw'. cbn [replay].
    destruct (limit_notice_not_recovery content clean Markdown) as [-> ->].
    reflexivity.
  - rewrite Hw'. cbn [replay].
    destruct (limit_notice_not_recovery content clean Markdown) as [-> ->].
    destruct (limit_notice_not_recovery content clean None) as [-> ->].
    reflexivity.
Qed.

Lemma rounds_ratelimit_replay (n : nat) :
  forall (m : machine) (b : bool),
    replay b (trace m) = Some (ratelimit_waiting m) ->
    let m' := fst (rounds W chat session RateLimit n m) in
    replay b (trace m') = Some (ratelimit_waiting m').
Proof.
  induction n as [|n IH]; intros m b Hinv; [exact Hinv|].
  cbn [rounds check]. unfold bind.
  destruct (check_for_ratelimit_shape m) as (Hok & _).
  pose proof (check_for_ratelimit_replay m b Hinv) as Hstep.
  cbv zeta in Hstep.
  destruct (check_for_ratelimit W chat session m) as [m1 r].
  cbn [fst snd] in *. subst r. apply IH. exact Hstep.
Qed.

(** C2 (as amended).  In each check the recovery notification goes out
    at most once, and it goes out exactly when the classifier is in the
    limited state and the capture is a non-blank screen without the
    limit signature (a failed or blank capture says nothing and leaves
    the limited state as it is); the limited state is left by it.  So it
    never goes out while the signature is on the screen, and over any
    number of checks from startup the history is a run of the
    limited/clear automaton: no recovery before a limit notice, and no
    two recoveries without a limit notice between them. *)
Theorem recovery_fires_once_per_clearing (m : machine) (n : nat) :
  let m' := fst (check_for_ratelimit W chat session m) in
  let said := calls_between m m' in
  (length (filter is_recovery said) <= 1)%nat /\
  (existsb is_recovery said = true <->
   ratelimit_waiting m = true /\
   exists screen,
     shown W session m = Ok screen /\
     is_empty (strip (sanitize_text screen)) = false /\
     found RATELIMIT_RE (strip (sanitize_text screen)) = false) /\
  (existsb is_recovery said = true -> ratelimit_waiting m' = false) /\
  let mn := fst (rounds W chat session RateLimit n startup) in
  replay false (trace mn) = Some (ratelimit_waiting mn).
Proof.
  cbv zeta.
  split; [|split; [|split]];
    [| | |apply (rounds_ratelimit_replay n startup false); reflexivity].
  all: destruct (check_for_ratelimit_shape m) as (_ & ext & Ht & Hcases);
    cbv zeta in Ht, Hcases;
    rewrite (calls_between_app m _ _ Ht);
    cbn [filter existsb is_recovery];
    destruct Hcases as [(-> & Hw & Hno)|[(-> & Hw & Hw' & _ & Hscreen)
                          |(Hw' & (screen & Hs & Hf) & content & clean & [->| ->])]];
    cbn [filter existsb is_recovery length];
    rewrite ?str_eqb_refl;
    try (destruct (limit_notice_not_recovery content clean Markdown) as [Hr _];
         cbn [is_recovery] in Hr; rewrite ?Hr);
    try (destruct (limit_notice_not_recovery content clean None) as [Hr' _];
         cbn [is_recovery] in Hr'; rewrite ?Hr');
    cbn [length orb].
  - lia.
  - lia.
  - lia.
  - lia.
  - split; [discriminate|]. intros Hyes. contradiction.
  - split; [intros _; now split|reflexivity].
  - split; [discriminate|].
    intros (_ & s & Hs' & _ & Hf'). rewrite Hs in Hs'. injection Hs' as <-.
    congruence.
  - split; [discriminate|].
    intros (_ & s & Hs' & _ & Hf'). rewrite Hs in Hs'. injection Hs' as <-.
    congruence.
  - discriminate.
  - intros _. exact Hw'.
  - discriminate.
  - discriminate.
Qed.

End Recovery.

(* ------------------------------------------------------------------ *)
(** ** The coarse gate of the prompt classifier *)

Section Gate.
Context `{U : UCD}.
Variable W : world.
Variables (chat : Z) (session : str).

(** C5 (as amended).  When the capture holds none of the chrome-hint
    phrases, [check_for_prompts] announces nothing, whatever option-like
    lines the capture has: the capture is its only call.  It also clears
    the stored prompt hash, provided the capture is not blank; a blank
    capture returns before the gate and leaves the hash as it was. *)
Theorem no_chrome_no_prompt (m : machine) (raw : str) :
  shown W session m = Ok raw ->
  found PROMPT_DETECT_RE raw = false ->
  let m' := fst (check_for_prompts W chat session m) in
  snd (check_for_prompts W chat session m) = Ok tt /\
  calls_between m m' = [CapturePane session 20] /\
  (is_empty (strip raw) = false -> last_prompt_hash m' = None) /\
  (is_empty (strip raw) = true -> last_prompt_hash m' = last_prompt_hash m).
Proof.
  intros Hshown Hraw. apply no_chrome_after_strip in Hraw as Hgate.
  cbv zeta.
  rewrite check_for_prompts_run. cbv zeta. rewrite Hshown, Hgate.
  cbn [negb].
  destruct (is_empty (strip raw)); cbn [fst snd];
    (split; [reflexivity|]);
    (split; [now apply calls_between_app|]);
    split; intros; try discriminate; reflexivity.
Qed.

End Gate.

(* ------------------------------------------------------------------ *)
(** ** Deduplication by content hash *)

Section Dedup.
Context `{U : UCD}.
Variable W : world.
Variables (chat : Z) (session : str).

Lemma hash_is_false (h : str) (stored : option str) :
  stored <> Some h -> hash_is h stored = false.
Proof.
  intros Hne. destruct stored as [h'|]; [|reflexivity].
  cbn [hash_is]. destruct (str_eqb h h') eqn:E; [|reflexivity].
  apply str_eqb_eq in E. congruence.
Qed.

Lemma hash_is_stored (h : str) : hash_is h (Some h) = true.
Proof. apply str_eqb_refl. Qed.

Lemma last_two (t : list call) (a b d : call) : last (t ++ [a; b]) d = b.
Proof.
  change (t ++ [a; b]) with (t ++ [a] ++ [b]).
  now rewrite app_assoc, last_last.
Qed.

(** A capture that classifies, with a content whose hash is not the
    stored one: the hash is stored, and the event is announced once,
    with the plain-text fallback after it if the announcement raised. *)
Lemma check_announces (cat : category) (m : machine) (screen c : str) :
  shown W session m = Ok screen ->
  content cat screen = Some c ->
  stored_hash cat m <> Some (md5_hexdigest c) ->
  let m' := fst (check W chat session cat m) in
  stored_hash cat m' = Some (md5_hexdigest c) /\
  exists (first : call) (text : str),
    is_announcement first = true /\
    calls_between m m' =
    [CapturePane session 20; first]
    ++ (if succeeded (chat_answer W (trace m ++ [CapturePane session 20; first]))
        then [] else [SendMessage chat text None]).
Proof.
  intros Hshown Hc Hnew. apply hash_is_false in Hnew. cbv zeta.
  destruct cat; cbn [check content stored_hash] in *.
  - rewrite check_for_prompts_run. cbv zeta. rewrite Hshown.
    unfold prompt_content in Hc.
    destruct (is_empty (strip screen)); [discriminate|].
    destruct (found PROMPT_DETECT_RE _); [|discriminate]. cbn [negb] in *.
    destruct (parse_prompt (strip screen)) as [prompt_text|]; [|discriminate].
    destruct (is_empty prompt_text); [discriminate|].
    injection Hc as ->. rewrite Hnew.
    cbn [fst last_prompt_hash set_last_prompt_hash].
    split; [reflexivity|].
    cbn [trace set_last_prompt_hash set_trace].
    destruct (is_empty (make_buttons (strip screen)));
      [exists (SendMessage chat (prompt_message c) Markdown)
      |exists (SendMessageWithButtons chat (prompt_message c)
                 (make_buttons (strip screen)) Markdown)];
      exists (prompt_message_plain c);
      (split; [reflexivity|]); apply calls_between_app;
      rewrite <- !app_assoc; cbn [app];
      unfold chat_answer; rewrite last_two;
      match goal with |- context [succeeded ?r] => destruct (succeeded r) end;
      rewrite <- ?app_assoc; reflexivity.
  - rewrite check_for_ratelimit_run. cbv zeta. rewrite Hshown.
    unfold ratelimit_content in Hc.
    destruct (is_empty (strip (sanitize_text screen))); [discriminate|].
    destruct (found RATELIMIT_RE _); [|discriminate]. cbn [negb] in *.
    destruct (is_empty (relevant_lines _)); [discriminate|].
    injection Hc as <-. rewrite Hnew.
    cbn [fst last_ratelimit_hash set_last_ratelimit_hash set_ratelimit_waiting
         set_trace].
    split; [reflexivity|].
    cbn [trace set_last_ratelimit_hash set_ratelimit_waiting set_trace].
    set (clean := strip (sanitize_text screen)).
    exists (SendMessage chat
              (ratelimit_message (join [NL] (relevant_lines clean)) clean)
              Markdown).
    exists (ratelimit_message (join [NL] (relevant_lines clean)) clean).
    (split; [reflexivity|]); apply calls_between_app;
      rewrite <- !app_assoc; cbn [app];
      unfold chat_answer; rewrite last_two;
      match goal with |- context [succeeded ?r] => destruct (succeeded r) end;
      rewrite <- ?app_assoc; reflexivity.
Qed.

(** The same capture when the stored hash is that of its content:
    nothing is said and nothing changes. *)
Lemma check_suppresses (cat : category) (m : machine) (screen c : str) :
  shown W session m = Ok screen ->
  content cat screen = Some c ->
  stored_hash cat m = Some (md5_hexdigest c) ->
  check W chat session cat m
  = (set_trace (trace m ++ [CapturePane session 20]) m, Ok tt).
Proof.
  intros Hshown Hc Hold.
  destruct cat; cbn [check content stored_hash] in *.
  - rewrite check_for_prompts_run. cbv zeta. rewrite Hshown.
    unfold prompt_content in Hc.
    destruct (is_empty (strip screen)); [discriminate|].
    destruct (found PROMPT_DETECT_RE _); [|discriminate]. cbn [negb] in *.
    destruct (parse_prompt (strip screen)) as [prompt_text|]; [|discriminate].
    destruct (is_empty prompt_text); [discriminate|].
    injection Hc as ->. now rewrite Hold, hash_is_stored.
  - rewrite check_for_ratelimit_run. cbv zeta. rewrite Hshown.
    unfold ratelimit_content in Hc.
    destruct (is_empty (strip (sanitize_text screen))); [discriminate|].
    destruct (found RATELIMIT_RE _); [|discriminate]. cbn [negb] in *.
    destruct (is_empty (relevant_lines _)); [discriminate|].
    injection Hc as <-. now rewrite Hold, hash_is_stored.
Qed.

Lemma announced_once (first : call) (rest : bool) (text : str) :
  is_announcement first = true ->
  announcements
    ([CapturePane session 20; first]
     ++ (if rest then [] else [SendMessage chat text None])) = 1%nat.
Proof.
  intros Hfirst. unfold announcements.
  destruct rest; cbn [app filter is_announcement]; rewrite Hfirst; reflexivity.
Qed.

Lemma stored_hash_set_trace (cat : category) (t : list call) (m : machine) :
  stored_hash cat (set_trace t m) = stored_hash cat m.
Proof. destruct cat; reflexivity. Qed.

(** C7.  For each category, the same extracted content in two checks in
    a row is announced once: the first check announces it and stores its
    hash, the second says nothing.  A third check whose content has
    another hash -- a change of a single character, unless MD5 collides
    on it -- is announced again, and the new hash is stored. *)
Theorem dedup_by_content_hash
    (cat : category) (m : machine) (s1 s2 s3 c c' : str) :
  let m1 := fst (check W chat session cat m) in
  let m2 := fst (check W chat session cat m1) in
  let m3 := fst (check W chat session cat m2) in
  shown W session m = Ok s1 -> content cat s1 = Some c ->
  shown W session m1 = Ok s2 -> content cat s2 = Some c ->
  shown W session m2 = Ok s3 -> content cat s3 = Some c' ->
  stored_hash cat m <> Some (md5_hexdigest c) ->
  md5_hexdigest c' <> md5_hexdigest c ->
  announcements (calls_between m m1) = 1%nat /\
  stored_hash cat m1 = Some (md5_hexdigest c) /\
  calls_between m1 m2 = [CapturePane session 20] /\
  announcements (calls_between m1 m2) = 0%nat /\
  stored_hash cat m2 = Some (md5_hexdigest c) /\
  announcements (calls_between m2 m3) = 1%nat /\
  stored_hash cat m3 = Some (md5_hexdigest c').
Proof.
  cbv zeta. intros Hs1 Hc1 Hs2 Hc2 Hs3 Hc3 Hfresh Hdiff.
  destruct (check_announces cat m s1 c Hs1 Hc1 Hfresh)
    as (Hst1 & first & text & Hfirst & Hcalls1).
  cbv zeta in Hst1, Hcalls1.
  pose proof (check_suppresses cat _ s2 c Hs2 Hc2 Hst1) as Hrun2.
  rewrite Hrun2 in *. cbn [fst] in *.
  assert (Hst2 : stored_hash cat
                   (set_trace
                      (trace (fst (check W chat session cat m))
                       ++ [CapturePane session 20])
                      (fst (check W chat session cat m)))
                 = Some (md5_hexdigest c))
    by now rewrite stored_hash_set_trace.
  assert (Hfresh3 : stored_hash cat
                      (set_trace
                         (trace (fst (check W chat session cat m))
                          ++ [CapturePane session 20])
                         (fst (check W chat session cat m)))
                    <> Some (md5_hexdigest c'))
    by (rewrite Hst2; congruence).
  destruct (check_announces cat _ s3 c' Hs3 Hc3 Hfresh3)
    as (Hst3 & first3 & text3 & Hfirst3 & Hcalls3).
  cbv zeta in Hst3, Hcalls3.
  repeat split.
  - rewrite Hcalls1. now apply announced_once.
  - exact Hst1.
  - now apply calls_between_app.
  - now rewrite (calls_between_app _ _ [CapturePane session 20]).
  - exact Hst2.
  - rewrite Hcalls3. now apply announced_once.
  - exact Hst3.
Qed.

(** Checks on an unchanged screen whose content is the stored one say
    nothing, however many there are. *)
Lemma rounds_suppressed (cat : category) (screen c : str) (n : nat) :
  (forall t, w_capture_pane W t = Ok screen) ->
  content cat screen = Some c ->
  forall m,
    stored_hash cat m = Some (md5_hexdigest c) ->
    let mn := fst (rounds W chat session cat n m) in
    snd (rounds W chat session cat n m) = Ok tt /\
    trace mn = trace m ++ repeat (CapturePane session 20) n /\
    stored_hash cat mn = Some (md5_hexdigest c).
Proof.
  intros Hscreen Hc. induction n as [|n IH]; intros m Hst.
  - cbn [rounds ret fst snd repeat]. now rewrite app_nil_r.
  - cbn [rounds]. unfold bind.
    rewrite (check_suppresses cat m screen c (Hscreen _) Hc Hst).
    specialize (IH (set_trace (trace m ++ [CapturePane session 20]) m)).
    rewrite stored_hash_set_trace in IH. specialize (IH Hst).
    cbv zeta in IH. destruct IH as (Hok & Htr & Hst').
    cbv zeta. repeat split; [exact Hok| |exact Hst'].
    rewrite Htr. cbn [trace set_trace repeat].
    now rewrite <- app_assoc.
Qed.

(** C10.  The hash of a detected event is stored although every send
    for it fails: the announcement is tried, the plain-text fallback is
    tried, both raise, and the hash is the new one all the same.  While
    the screen stays as it is, no later check sends anything: the event
    is not announced again. *)
Theorem failed_sends_stay_suppressed
    (cat : category) (m : machine) (screen c : str) (n : nat) :
  (forall t, w_capture_pane W t = Ok screen) ->
  (forall t, succeeded (w_send_message W t) = false) ->
  (forall t, succeeded (w_send_message_with_buttons W t) = false) ->
  content cat screen = Some c ->
  stored_hash cat m <> Some (md5_hexdigest c) ->
  let m1 := fst (check W chat session cat m) in
  let mn := fst (rounds W chat session cat n m1) in
  stored_hash cat m1 = Some (md5_hexdigest c) /\
  (exists (first : call) (text : str),
     is_announcement first = true /\
     calls_between m m1
     = [CapturePane session 20; first; SendMessage chat text None]) /\
  calls_between m1 mn = repeat (CapturePane session 20) n /\
  existsb is_send (calls_between m1 mn) = false /\
  stored_hash cat mn = Some (md5_hexdigest c).
Proof.
  intros Hscreen Hsend Hbuttons Hc Hfresh. cbv zeta.
  destruct (check_announces cat m screen c (Hscreen _) Hc Hfresh)
    as (Hst1 & first & text & Hfirst & Hcalls1).
  cbv zeta in Hst1, Hcalls1.
  destruct (rounds_suppressed cat screen c n Hscreen Hc _ Hst1)
    as (_ & Htr & Hstn).
  cbv zeta in Htr, Hstn.
  assert (Hfail : succeeded
                    (chat_answer W (trace m ++ [CapturePane session 20; first]))
                  = false).
  { unfold chat_answer. rewrite last_two.
    destruct first; try discriminate; [apply Hsend|apply Hbuttons]. }
  rewrite Hfail in Hcalls1.
  split; [exact Hst1|]. split; [now exists first, text|].
  rewrite (calls_between_app _ _ _ Htr).
  repeat split; [|exact Hstn].
  clear. induction n as [|n IH]; [reflexivity|exact IH].
Qed.

End Dedup.

(* ------------------------------------------------------------------ *)
(** ** What a computation leaves alone *)

Lemma quiet_refl (m : machine) : quiet m m.
Proof. split; [reflexivity|]. exists []. now rewrite app_nil_r. Qed.

Lemma quiet_trans (m1 m2 m3 : machine) :
  quiet m1 m2 -> quiet m2 m3 -> quiet m1 m3.
Proof.
  intros (Ho1 & e1 & Ht1 & Hp1) (Ho2 & e2 & Ht2 & Hp2).
  split; [congruence|]. exists (e1 ++ e2). split.
  - now rewrite Ht2, Ht1, app_assoc.
  - now rewrite existsb_app, Hp1, Hp2.
Qed.

Lemma frame_ret {A : Type} (a : A) : frame (ret a).
Proof. intros m. apply quiet_refl. Qed.

Lemma frame_raise {A : Type} (e : str) : frame (@raise A e).
Proof. intros m. apply quiet_refl. Qed.

Lemma frame_get : frame get.
Proof. intros m. apply quiet_refl. Qed.

Lemma frame_bind {A B : Type} (x : M A) (f : A -> M B) :
  frame x -> (forall a, frame (f a)) -> frame (bind x f).
Proof.
  intros Hx Hf m. unfold bind. specialize (Hx m).
  destruct (x m) as [m1 [a|e]]; cbn [fst] in *; [|exact Hx].
  eapply quiet_trans; [exact Hx|apply Hf].
Qed.

Lemma frame_try_except {A : Type} (body : M A) (handler : str -> M A) :
  frame body -> (forall e, frame (handler e)) -> frame (try_except body handler).
Proof.
  intros Hb Hh m. unfold try_except. specialize (Hb m).
  destruct (body m) as [m1 [a|e]]; cbn [fst] in *; [exact Hb|].
  eapply quiet_trans; [exact Hb|apply Hh].
Qed.

Lemma frame_perform {A : Type} (c : call) (answer : list call -> res A) :
  is_poll c = false -> frame (perform c answer).
Proof.
  intros Hc m. unfold perform. cbn [fst]. split; [reflexivity|].
  exists [c]. split; [reflexivity|]. cbn [existsb]. now rewrite Hc.
Qed.

Lemma frame_modify (f : machine -> machine) :
  (forall m, offset (f m) = offset m /\ trace (f m) = trace m) ->
  frame (modify f).
Proof.
  intros Hf m. unfold modify. cbn [fst]. destruct (Hf m) as [Ho Ht].
  split; [exact Ho|]. exists []. now rewrite app_nil_r.
Qed.

Ltac frame_step :=
  match goal with
  | |- frame (bind _ _) => apply frame_bind; [|intros]
  | |- frame (try_except _ _) => apply frame_try_except; [|intros]
  | |- frame (ret _) => apply frame_ret
  | |- frame (raise _) => apply frame_raise
  | |- frame get => apply frame_get
  | |- frame (perform _ _) => apply frame_perform; reflexivity
  | |- frame (modify _) => apply frame_modify; intros; split; reflexivity
  | |- frame (if ?b then _ else _) => destruct b
  | |- frame (match ?x with _ => _ end) => destruct x
  | |- frame (let '(_, _) := ?x in _) => destruct x
  end.

Ltac frame_all := repeat frame_step.

Section Frames.
Context `{U : UCD}.
Variable W : world.
Variable cfg : config.

Lemma frame_check_for_prompts (chat : Z) (session : str) :
  frame (check_for_prompts W chat session).
Proof.
  unfold check_for_prompts, try_capture, capture_pane, send_message,
    send_message_with_buttons.
  frame_all.
Qed.

Lemma frame_check_for_ratelimit (chat : Z) (session : str) :
  frame (check_for_ratelimit W chat session).
Proof.
  unfold check_for_ratelimit, try_capture, capture_pane, send_message.
  frame_all.
Qed.

Lemma frame_format_uptime : frame (format_uptime W cfg).
Proof. unfold format_uptime, time. frame_all. Qed.

Lemma frame_handle_command (chat : Z) (text : str) :
  frame (handle_command W cfg chat text).
Proof.
  pose proof frame_format_uptime as Hup.
  unfold handle_command, send_message, send_escape, get_session_info,
    capture_pane, send_keys, sleep, save_snapshot.
  repeat first [exact Hup | frame_step].
Qed.

Lemma frame_handle_callback (cb : callback_query) :
  frame (handle_callback W cfg cb).
Proof.
  unfold handle_callback, send_keys, sleep, save_snapshot,
    answer_callback_query.
  frame_all.
Qed.

Lemma frame_add_pending (downloaded : option str * str) :
  frame (add_pending downloaded).
Proof. unfold add_pending. frame_all. Qed.

Lemma frame_download_photo (msg : message) :
  frame (download_photo W cfg msg).
Proof. unfold download_photo, get_file, time, download_file. frame_all. Qed.

Lemma frame_download_document (doc : document) (msg : message) :
  frame (download_document W cfg doc msg).
Proof. unfold download_document, get_file, download_file. frame_all. Qed.

Lemma frame_send_files_to_claude
    (chat : Z) (session : str) (files : list (str * str)) :
  frame (send_files_to_claude W chat session files).
Proof.
  unfold send_files_to_claude, wait_for_input, send_message, send_keys,
    sleep, save_snapshot.
  frame_all.
Qed.

End Frames.

(* ------------------------------------------------------------------ *)
(** ** The poll loop: who reaches the terminal *)

Lemma opt_Z_eqb_false (a : option Z) (b : Z) :
  a <> Some b -> opt_Z_eqb a b = false.
Proof.
  intros Hne. destruct a as [x|]; [|reflexivity]. cbn [opt_Z_eqb].
  apply Z.eqb_neq. congruence.
Qed.

Lemma opt_Z_eqb_true (a : option Z) (b : Z) :
  opt_Z_eqb a b = true -> a = Some b.
Proof.
  destruct a as [x|]; [|discriminate]. cbn [opt_Z_eqb].
  intros E. apply Z.eqb_eq in E. now subst.
Qed.

Section Access.
Context `{U : UCD}.
Variable W : world.
Variable cfg : config.

Lemma handle_update_foreign (upd : update) (m : machine) :
  origin_chat upd <> Some (telegram_chat_id cfg) ->
  handle_update W cfg upd m = (set_offset (Some (update_id upd + 1)) m, Ok tt).
Proof.
  intros Hforeign. apply opt_Z_eqb_false in Hforeign.
  unfold handle_update, origin_chat in *. run.
  destruct (upd_callback_query upd) as [cb|].
  - now rewrite Hforeign.
  - destruct (upd_message upd) as [msg|]; [|reflexivity].
    now rewrite Hforeign.
Qed.

Lemma same_but_cursor_set (m m' : machine) (o : option Z) :
  same_but_cursor m m' -> set_offset o m = set_offset o m'.
Proof.
  unfold same_but_cursor. destruct m, m'. cbn. intros E.
  injection E as -> -> -> -> -> ->. reflexivity.
Qed.

Lemma handle_update_forgets_cursor (upd : update) (m m' : machine) :
  same_but_cursor m m' ->
  handle_update W cfg upd m = handle_update W cfg upd m'.
Proof.
  intros Hsame. unfold handle_update, bind at 1 3, modify.
  now rewrite (same_but_cursor_set m m' _ Hsame).
Qed.

Lemma for_each_forgets_cursor (batch : list update) (m m' : machine) :
  same_but_cursor m m' ->
  snd (for_each (handle_update W cfg) batch m)
  = snd (for_each (handle_update W cfg) batch m') /\
  same_but_cursor (fst (for_each (handle_update W cfg) batch m))
                  (fst (for_each (handle_update W cfg) batch m')).
Proof.
  intros Hsame. destruct batch as [|upd batch].
  - cbn. now split.
  - cbn [for_each]. unfold bind.
    rewrite (handle_update_forgets_cursor upd m m' Hsame).
    split; reflexivity.
Qed.

(** Dropping the foreign updates of a batch changes nothing but the
    cursor: the same calls are made, the same files are pending, the
    detection state and the outcome are the same. *)
Lemma foreign_updates_do_not_interfere (batch : list update) :
  forall m,
    snd (for_each (handle_update W cfg) batch m)
    = snd (for_each (handle_update W cfg) (filter (authorized cfg) batch) m) /\
    same_but_cursor
      (fst (for_each (handle_update W cfg) batch m))
      (fst (for_each (handle_update W cfg) (filter (authorized cfg) batch) m)).
Proof.
  induction batch as [|upd batch IH]; intros m; [now split|].
  cbn [filter]. destruct (authorized cfg upd) eqn:Hauth.
  - cbn [for_each]. unfold bind.
    destruct (handle_update W cfg upd m) as [m1 [[]|e]]; [apply IH|now split].
  - cbn [for_each]. unfold bind at 1 2.
    rewrite handle_update_foreign.
    2:{ intros Hsome. unfold authorized in Hauth. rewrite Hsome in Hauth.
        cbn in Hauth. now rewrite Z.eqb_refl in Hauth. }
    destruct (for_each_forgets_cursor batch
                (set_offset (Some (update_id upd + 1)) m) m) as [Hr Hm].
    { unfold same_but_cursor. now destruct m. }
    destruct (IH m) as [Hr' Hm'].
    split; [congruence|]. unfold same_but_cursor in *. congruence.
Qed.

(** C9.  An update whose chat is not the configured one only moves the
    cursor: handling it makes no call at all -- no command is run, no
    file fetched, no key sent -- and queues no file.  And a batch does
    to the terminal and to the chat what its authorized updates alone
    would do. *)
Theorem foreign_update_reaches_nothing
    (upd : update) (m : machine) (batch : list update) :
  origin_chat upd <> Some (telegram_chat_id cfg) ->
  handle_update W cfg upd m = (set_offset (Some (update_id upd + 1)) m, Ok tt)
  /\ calls_between m (fst (handle_update W cfg upd m)) = []
  /\ pending_files (fst (handle_update W cfg upd m)) = pending_files m
  /\ trace (fst (for_each (handle_update W cfg) batch m))
     = trace (fst (for_each (handle_update W cfg)
                     (filter (authorized cfg) batch) m)).
Proof.
  intros Hforeign. rewrite (handle_update_foreign upd m Hforeign).
  cbn [fst]. repeat split.
  - apply calls_between_app. cbn. now rewrite app_nil_r.
  - destruct (foreign_updates_do_not_interfere batch m) as [_ Hsame].
    unfold same_but_cursor in Hsame.
    apply (f_equal trace) in Hsame. exact Hsame.
Qed.

End Access.

Lemma foreign_update_reaches_nothing_witness :
  origin_chat foreign_update <> Some (telegram_chat_id sample_config) /\
  @handle_update sample_ucd (scripted_world [] [] true true) sample_config
    foreign_update startup
  = (set_offset (Some 9) startup, Ok tt).
Proof.
  assert (Hforeign : origin_chat foreign_update
                     <> Some (telegram_chat_id sample_config))
    by (cbn; congruence).
  split; [exact Hforeign|].
  exact (proj1 (@foreign_update_reaches_nothing sample_ucd
                  (scripted_world [] [] true true) sample_config
                  foreign_update startup [] Hforeign)).
Defined.

(* ------------------------------------------------------------------ *)
(** ** The poll loop: waiting before injecting *)

(** Reads the calls made since [m] off a goal in which they are listed. *)
Ltac read_calls :=
  unfold calls_between;
  cbn [fst snd trace set_trace set_offset set_pending_files];
  rewrite <- ?app_assoc;
  rewrite skipn_app, skipn_all, Nat.sub_diag;
  cbn [skipn app].

Section Injection.
Context `{U : UCD}.
Variable W : world.

(** The attachment path waits: [send_files_to_claude] first calls
    [wait_for_input] with a timeout of 30 seconds; when the prompt was
    seen it types the text at once, and when the wait timed out it
    first warns the chat and then, the warning delivered, types the
    text all the same. *)
Lemma send_files_waits_first
    (chat : Z) (session : str) (files : list (str * str)) (m : machine) :
  let m' := fst (send_files_to_claude W chat session files m) in
  let t1 := trace m ++ [WaitForInput session 30] in
  exists rest,
    calls_between m m' = WaitForInput session 30 :: rest /\
    (w_wait_for_input W t1 = true ->
     exists rest', rest = SendKeys session (files_prompt files) :: rest') /\
    (w_wait_for_input W t1 = false ->
     exists rest',
       rest = SendMessage chat wait_warning None :: rest' /\
       (succeeded (w_send_message W
                     (t1 ++ [SendMessage chat wait_warning None])) = true ->
        exists rest'',
          rest' = SendKeys session (files_prompt files) :: rest'')).
Proof.
  cbv zeta. unfold send_files_to_claude, wait_for_input, send_message,
    send_keys, sleep, save_snapshot. run.
  cbn [trace set_trace].
  destruct (w_wait_for_input W _) eqn:Hready; cbn [negb].
  - destruct (w_send_keys W _) as [[]|e1].
    + destruct (w_send_message W _) as [[]|e2];
        (eexists; split;
         [apply calls_between_app; cbn [fst trace set_trace];
          rewrite <- !app_assoc; reflexivity|]);
        (split; [intros _; eexists; reflexivity|discriminate]).
    + eexists; split;
        [apply calls_between_app; cbn [fst trace set_trace];
         rewrite <- !app_assoc; reflexivity|].
      split; [intros _; eexists; reflexivity|discriminate].
  - destruct (w_send_message W _) as [[]|e0] eqn:Hwarn.
    + cbn [trace set_trace].
      destruct (w_send_keys W _) as [[]|e1];
        [destruct (w_send_message W _) as [[]|e2]|];
        (eexists; split;
         [apply calls_between_app; cbn [fst trace set_trace];
          rewrite <- !app_assoc; reflexivity|]);
        (split; [discriminate|]);
        intros _; eexists; (split; [reflexivity|]);
        intros _; eexists; reflexivity.
    + eexists; split;
        [apply calls_between_app; cbn [fst trace set_trace];
         rewrite <- !app_assoc; reflexivity|].
      split; [discriminate|].
      intros _. eexists. split; [reflexivity|discriminate].
Qed.

(** A plain message -- no attachment, no leading slash -- from the
    configured chat goes straight to [send_keys]. *)
Lemma handle_plain_message
    (cfg : config) (upd : update) (msg : message) (text : str) (m : machine) :
  upd_callback_query upd = None ->
  upd_message upd = Some msg ->
  opt_Z_eqb (msg_chat_id msg) (telegram_chat_id cfg) = true ->
  msg_photo msg = [] ->
  msg_document msg = None ->
  (if is_empty (msg_text msg) then msg_caption msg else msg_text msg) = text ->
  is_empty text = false ->
  startswith (lit "/") text = false ->
  let m' := fst (handle_update W cfg upd m) in
  (exists rest,
     calls_between m m' = SendKeys (tmux_session cfg) text :: rest) /\
  existsb is_wait (calls_between m m') = false.
Proof.
  intros Hcb Hmsg Hchat Hphoto Hdoc Htext Hne Hslash. cbv zeta.
  unfold handle_update. rewrite Hcb, Hmsg, Hchat, Hphoto, Hdoc, Htext.
  cbn [negb is_empty]. rewrite Hne, Hslash.
  unfold send_keys, sleep, save_snapshot, send_message. run.
  repeat (cbn [fst snd trace set_trace set_offset];
          match goal with
          | |- context [match w_send_keys W ?t with _ => _ end] =>
              destruct (w_send_keys W t) as [[]|?]
          | |- context [match w_send_message W ?t with _ => _ end] =>
              destruct (w_send_message W t) as [[]|?]
          end);
    read_calls; (split; [eexists; reflexivity|reflexivity]).
Qed.

(** C3 fails on the plain-message path.  A plain chat message from the
    configured chat is typed into the terminal at once: the first call
    of its handling is [send_keys], and [wait_for_input] is not called
    at all, whatever the world answers. *)
Theorem plain_message_injected_without_waiting (m : machine) :
  let m' := fst (handle_update W sample_config hello_update m) in
  (exists rest,
     calls_between m m' = SendKeys (lit "claude") (lit "hello") :: rest) /\
  existsb is_wait (calls_between m m') = false.
Proof.
  exact (handle_plain_message sample_config hello_update _ (lit "hello") m
           eq_refl eq_refl eq_refl eq_refl eq_refl eq_refl eq_refl eq_refl).
Qed.

End Injection.

(* ------------------------------------------------------------------ *)
(** ** The poll loop: the cursor *)

Section Cursor.
Context `{U : UCD}.
Variable W : world.
Variable cfg : config.

(** [handle_update] moves the cursor past the update as its first step;
    what follows neither moves it nor polls. *)
Lemma handle_update_quiet_after_advance (upd : update) (m : machine) :
  quiet (set_offset (Some (update_id upd + 1)) m)
        (fst (handle_update W cfg upd m)).
Proof.
  unfold handle_update.
  change (bind (modify ?f) ?k m) with (k tt (f m)). cbv beta.
  generalize (set_offset (Some (update_id upd + 1)) m). clear m.
  match goal with |- forall m0, quiet m0 (fst (?x m0)) => change (frame x) end.
  unfold send_message, send_keys, sleep, save_snapshot.
  repeat first
    [ apply frame_handle_callback | apply frame_handle_command
    | apply frame_download_photo | apply frame_download_document
    | apply frame_add_pending | frame_step ].
Qed.

Lemma handle_update_cursor (upd : update) (m : machine) :
  offset (fst (handle_update W cfg upd m)) = Some (update_id upd + 1).
Proof.
  destruct (handle_update_quiet_after_advance upd m) as [Ho _].
  exact Ho.
Qed.

Lemma handle_update_no_poll (upd : update) (m : machine) :
  exists ext,
    trace (fst (handle_update W cfg upd m)) = trace m ++ ext /\
    existsb is_poll ext = false.
Proof.
  destruct (handle_update_quiet_after_advance upd m) as [_ Hext].
  exact Hext.
Qed.

End Cursor.

(** C4 (as stated) fails: when the handling of an update is cut short by
    an exception -- here tmux and the chat are both down, so [send_keys]
    raises and so does the error report -- the cursor has already moved
    past the update. *)
Lemma cursor_moves_before_handling :
  let outcome :=
    @handle_update sample_ucd (scripted_world [] [] false false) sample_config
      hello_update startup in
  offset startup = None /\
  snd outcome = Raise (lit "network down") /\
  offset (fst outcome) = Some (update_id hello_update + 1).
Proof. repeat split. Qed.

Lemma wp_bind {A B : Type} (x : M A) (f : A -> M B)
    (Q : machine -> res B -> Prop) (m : machine) :
  wp x (fun m1 r => match r with
                    | Ok a => wp (f a) Q m1
                    | Raise e => Q m1 (Raise e)
                    end) m ->
  wp (bind x f) Q m.
Proof.
  unfold wp, bind. destruct (x m) as [m1 [a|e]]; cbn [fst snd]; auto.
Qed.

Lemma wp_frame {A : Type} (x : M A) (Q : machine -> res A -> Prop)
    (m : machine) :
  frame x -> (forall m1 r, quiet m m1 -> Q m1 r) -> wp x Q m.
Proof. intros Hx HQ. apply HQ, Hx. Qed.

Lemma wp_get (Q : machine -> res machine -> Prop) (m : machine) :
  Q m (Ok m) -> wp get Q m.
Proof. intros HQ. exact HQ. Qed.

Section Delivery.
Context `{U : UCD}.
Variable W : world.
Variable cfg : config.

Lemma delivered_after_app (t1 t2 : list call) :
  forall past,
    delivered_after W past (t1 ++ t2)
    = delivered_after W past t1 ++ delivered_after W (past ++ t1) t2.
Proof.
  induction t1 as [|c t1 IH]; intros past.
  - cbn. now rewrite app_nil_r.
  - cbn [app delivered_after]. rewrite IH, <- !app_assoc. reflexivity.
Qed.

Lemma delivered_after_no_poll (ext : list call) :
  forall past, existsb is_poll ext = false -> delivered_after W past ext = [].
Proof.
  induction ext as [|c ext IH]; intros past Hext; [reflexivity|].
  cbn [existsb] in Hext. apply orb_false_iff in Hext as [Hc Hext].
  cbn [delivered_after]. rewrite (IH _ Hext).
  destruct c; try reflexivity. discriminate.
Qed.

Lemma delivered_no_poll (t ext : list call) :
  existsb is_poll ext = false -> delivered W (t ++ ext) = delivered W t.
Proof.
  intros Hext. unfold delivered.
  rewrite delivered_after_app, (delivered_after_no_poll _ _ Hext).
  apply app_nil_r.
Qed.

Lemma delivered_poll (t : list call) (off : option Z) (timeout : Z) :
  delivered W (t ++ [GetUpdates off timeout])
  = delivered W t
    ++ match w_get_updates W (t ++ [GetUpdates off timeout]) with
       | Ok updates => updates
       | Raise _ => []
       end.
Proof.
  unfold delivered. rewrite delivered_after_app.
  cbn [delivered_after app]. now rewrite app_nil_r.
Qed.

Lemma within_batch_quiet (batch : list update) (m m1 m2 : machine) :
  within_batch batch m m1 -> quiet m1 m2 -> within_batch batch m m2.
Proof.
  intros [(e1 & Ht1 & Hp1) Ho1] (Ho2 & e2 & Ht2 & Hp2). split.
  - exists (e1 ++ e2). split.
    + now rewrite Ht2, Ht1, app_assoc.
    + now rewrite existsb_app, Hp1, Hp2.
  - rewrite Ho2. exact Ho1.
Qed.

Lemma quiet_within_batch (batch : list update) (m m1 : machine) :
  quiet m m1 -> within_batch batch m m1.
Proof. intros [Ho Hext]. split; [exact Hext|now left]. Qed.

(** The loop over a batch: it never polls; the cursor ends just past one
    of the batch if it has moved at all, and just past the last one when
    the loop runs to its end. *)
Lemma for_each_handle_update (batch : list update) :
  forall m,
    let out := for_each (handle_update W cfg) batch m in
    within_batch batch m (fst out) /\
    (snd out = Ok tt -> offset (fst out) = cursor_after batch (offset m)).
Proof.
  induction batch as [|upd batch IH]; intros m.
  - cbn. split; [apply quiet_within_batch, quiet_refl|reflexivity].
  - cbn [for_each]. unfold bind.
    pose proof (handle_update_cursor W cfg upd m) as Hcur.
    destruct (handle_update_no_poll W cfg upd m) as (e1 & Ht1 & Hp1).
    destruct (handle_update W cfg upd m) as [m1 [[]|e]]; cbn [fst snd] in *.
    + specialize (IH m1). cbv zeta in IH. destruct IH as [[(e2 & Ht2 & Hp2) Ho] Hdone].
      split; [split|].
      * exists (e1 ++ e2). split.
        -- now rewrite Ht2, Ht1, app_assoc.
        -- now rewrite existsb_app, Hp1, Hp2.
      * right. destruct Ho as [Ho|(u & Hin & Ho)].
        -- exists upd. split; [now left|congruence].
        -- exists u. split; [now right|exact Ho].
      * intros Hok. rewrite (Hdone Hok). cbn [cursor_after fold_left].
        now rewrite Hcur.
    + split; [split|discriminate].
      * now exists e1.
      * right. exists upd. split; [now left|exact Hcur].
Qed.

End Delivery.

(* ------------------------------------------------------------------ *)
(** ** The poll loop: one turn, and the loop *)

Lemma sorted_app (l1 l2 : list Z) :
  StronglySorted Z.lt l1 -> StronglySorted Z.lt l2 ->
  (forall x y, In x l1 -> In y l2 -> x < y) ->
  StronglySorted Z.lt (l1 ++ l2).
Proof.
  induction l1 as [|a l1 IH]; intros H1 H2 Hlt; [exact H2|].
  apply StronglySorted_inv in H1 as [H1 Ha]. cbn [app]. constructor.
  - apply IH; [exact H1|exact H2|]. intros x y Hx Hy. apply Hlt; [now right|exact Hy].
  - apply Forall_app. split; [exact Ha|].
    apply Forall_forall. intros y Hy. apply Hlt; [now left|exact Hy].
Qed.

Lemma cursor_le_refl (a : option Z) : cursor_le a a.
Proof. destruct a; cbn; lia. Qed.

Lemma cursor_le_trans (a b c : option Z) :
  cursor_le a b -> cursor_le b c -> cursor_le a c.
Proof. destruct a, b, c; cbn; try lia; tauto. Qed.

Section Turn.
Context `{U : UCD}.
Variable W : world.
Variable cfg : config.

Lemma poll_run (m : machine) :
  let t1 := trace m ++ [GetUpdates (offset m) 5] in
  poll W cfg m =
  match w_get_updates W t1 with
  | Ok updates => (set_trace t1 m, Ok (Some updates))
  | Raise _ =>
      (set_trace (t1 ++ [Sleep (poll_interval cfg * 1000)]) m, Ok None)
  end.
Proof.
  cbv zeta. unfold poll, get_updates, sleep. run.
  destruct (w_get_updates W _); reflexivity.
Qed.

Lemma quiet_then_within (batch : list update) (m m1 m2 : machine) :
  quiet m m1 -> within_batch batch m1 m2 -> within_batch batch m m2.
Proof.
  intros (Ho1 & e1 & Ht1 & Hp1) [(e2 & Ht2 & Hp2) Ho2]. split.
  - exists (e1 ++ e2). split.
    + now rewrite Ht2, Ht1, app_assoc.
    + now rewrite existsb_app, Hp1, Hp2.
  - rewrite <- Ho1. exact Ho2.
Qed.

Lemma main_turn_wp (m : machine) :
  let t1 := trace m ++ [GetUpdates (offset m) 5] in
  wp (main_turn W cfg)
     (fun m' r =>
        match w_get_updates W t1 with
        | Ok updates =>
            within_batch updates (set_trace t1 m) m' /\
            (r = Ok tt -> offset m' = cursor_after updates (offset m))
        | Raise _ =>
            m' = set_trace (t1 ++ [Sleep (poll_interval cfg * 1000)]) m /\
            r = Ok tt
        end) m.
Proof.
  cbv zeta. unfold main_turn. apply wp_bind. unfold wp at 1.
  rewrite poll_run. cbv zeta.
  destruct (w_get_updates W _) as [updates|e]; cbn [fst snd].
  2:{ unfold wp. cbn. now split. }
  set (m1 := set_trace _ m).
  assert (Hstart : forall m2, quiet m1 m2 -> within_batch updates m1 m2)
    by (intros; now apply quiet_within_batch).
  apply wp_bind, wp_frame; [unfold time; frame_all|].
  intros m2 [now|e] Hq2; [|split; [auto|discriminate]].
  apply wp_bind, wp_get.
  apply wp_bind, wp_frame.
  { pose proof (frame_check_for_prompts W (telegram_chat_id cfg)
                  (tmux_session cfg)) as Hprompts.
    pose proof (frame_check_for_ratelimit W (telegram_chat_id cfg)
                  (tmux_session cfg)) as Hlimit.
    repeat first [assumption | frame_step]. }
  intros m3 [[]|e] Hq3; [|split; [eauto using quiet_trans|discriminate]].
  apply wp_bind, wp_frame; [frame_all|].
  intros m4 [[]|e] Hq4; [|split; [eauto using quiet_trans|discriminate]].
  assert (Hq14 : quiet m1 m4) by eauto using quiet_trans.
  apply wp_bind. unfold wp at 1.
  destruct (for_each_handle_update W cfg updates m4) as [Hin Hdone].
  cbv zeta in Hin, Hdone.
  destruct (for_each (handle_update W cfg) updates m4) as [m5 [[]|e]];
    cbn [fst snd] in *.
  2:{ split; [|discriminate]. eapply quiet_then_within; eassumption. }
  apply wp_bind, wp_get.
  apply wp_frame.
  { pose proof (frame_send_files_to_claude W (telegram_chat_id cfg)
                  (tmux_session cfg)) as Hflush.
    unfold send_message. repeat first [apply Hflush | frame_step]. }
  intros m6 r Hq6. split.
  - eapply within_batch_quiet; [|exact Hq6].
    eapply quiet_then_within; eassumption.
  - intros _. destruct Hq6 as [-> _]. rewrite (Hdone eq_refl).
    destruct Hq14 as [-> _]. reflexivity.
Qed.

Lemma cursor_after_In (batch : list update) :
  forall start,
    cursor_after batch start = start /\ batch = [] \/
    exists u, In u batch /\ cursor_after batch start = Some (update_id u + 1).
Proof.
  induction batch as [|u batch IH]; intros start; [now left|].
  right. cbn [cursor_after fold_left].
  destruct (IH (Some (update_id u + 1))) as [[Hc ->]|(v & Hin & Hc)].
  - exists u. split; [now left|exact Hc].
  - exists v. split; [now right|exact Hc].
Qed.

Lemma cursor_after_sorted (batch : list update) :
  forall start,
    StronglySorted Z.lt (map update_id batch) ->
    forall u, In u batch ->
      exists o, cursor_after batch start = Some o /\ update_id u < o.
Proof.
  induction batch as [|v batch IH]; intros start Hsorted u Hin; [contradiction|].
  cbn [map] in Hsorted. apply StronglySorted_inv in Hsorted as [Hsorted Hall].
  cbn [cursor_after fold_left].
  destruct batch as [|w batch].
  - destruct Hin as [->|[]]. eexists. split; [reflexivity|lia].
  - destruct Hin as [->|Hin].
    + destruct (IH (Some (update_id u + 1)) Hsorted w (or_introl eq_refl))
        as (o & Ho & Hlt).
      exists o. split; [exact Ho|].
      rewrite Forall_forall in Hall.
      specialize (Hall (update_id w) (or_introl eq_refl)). lia.
    + apply (IH _ Hsorted u Hin).
Qed.

(** One turn keeps the delivered updates in increasing order, leaves
    the cursor beyond all of them when it runs to its end, and never
    lowers the cursor. *)
Lemma main_turn_keeps_order (m : machine) :
  transport_in_order W ->
  StronglySorted Z.lt (map update_id (delivered W (trace m))) ->
  cursor_beyond W m ->
  let out := main_turn W cfg m in
  StronglySorted Z.lt (map update_id (delivered W (trace (fst out)))) /\
  (snd out = Ok tt -> cursor_beyond W (fst out)) /\
  cursor_le (offset m) (offset (fst out)).
Proof.
  intros Htransport Hsorted Hbeyond. cbv zeta.
  pose proof (main_turn_wp m) as Hturn. cbv zeta in Hturn. unfold wp in Hturn.
  destruct (w_get_updates W (trace m ++ [GetUpdates (offset m) 5]))
    as [updates|e] eqn:Hpoll.
  - destruct (Htransport _ _ _ _ Hpoll) as [Hin_order Hge].
    destruct Hturn as [[(ext & Htrace & Hquiet) Hcursor] Hdone].
    cbn [trace set_trace offset] in Htrace, Hcursor.
    assert (Hdelivered :
      delivered W (trace (fst (main_turn W cfg m)))
      = delivered W (trace m) ++ updates).
    { rewrite Htrace, (delivered_no_poll W _ _ Hquiet), delivered_poll.
      now rewrite Hpoll. }
    assert (Hbelow : forall u v,
      In u (delivered W (trace m)) -> In v updates ->
      update_id u < update_id v).
    { intros u v Hu Hv. destruct (Hbeyond u Hu) as (o & Ho & Hlt).
      specialize (Hge o Ho). rewrite Forall_forall in Hge.
      specialize (Hge v Hv). lia. }
    split; [|split].
    + rewrite Hdelivered, map_app. apply sorted_app; [assumption..|].
      intros x y Hx Hy. apply in_map_iff in Hx as (u & <- & Hu).
      apply in_map_iff in Hy as (v & <- & Hv). now apply Hbelow.
    + intros Hok u Hu. rewrite Hdelivered in Hu. rewrite (Hdone Hok).
      apply in_app_or in Hu as [Hu|Hu].
      * destruct updates as [|v updates].
        -- cbn. now apply Hbeyond.
        -- destruct (cursor_after_sorted (v :: updates) (offset m) Hin_order
                       v (or_introl eq_refl)) as (o & Ho & Hlt).
           exists o. split; [exact Ho|].
           specialize (Hbelow u v Hu (or_introl eq_refl)). lia.
      * now apply cursor_after_sorted.
    + destruct Hcursor as [->|(u & Hu & ->)]; [apply cursor_le_refl|].
      destruct (offset m) as [o|] eqn:Ho; cbn; [|exact I].
      specialize (Hge o eq_refl). rewrite Forall_forall in Hge.
      specialize (Hge u Hu). lia.
  - destruct Hturn as [-> Hok].
    cbn [trace set_trace offset].
    assert (Hdelivered :
      delivered W ((trace m ++ [GetUpdates (offset m) 5])
                   ++ [Sleep (poll_interval cfg * 1000)])
      = delivered W (trace m)).
    { rewrite (delivered_no_poll W _ [Sleep _] eq_refl), delivered_poll.
      rewrite Hpoll. apply app_nil_r. }
    split; [|split].
    + now rewrite Hdelivered.
    + intros _ u Hu. cbn [trace set_trace] in Hu. rewrite Hdelivered in Hu.
      apply Hbeyond in Hu. exact Hu.
    + apply cursor_le_refl.
Qed.

Lemma main_loop_S (turns : nat) (m : machine) :
  main_loop W cfg (S turns) m =
  if w_running W (trace m)
  then bind (main_turn W cfg) (fun _ => main_loop W cfg turns) m
  else (m, Ok tt).
Proof.
  cbn [main_loop]. unfold bind at 1, get. cbn beta iota.
  destruct (w_running W (trace m)); reflexivity.
Qed.

Lemma main_loop_keeps_order (turns : nat) :
  transport_in_order W ->
  forall m,
    StronglySorted Z.lt (map update_id (delivered W (trace m))) ->
    cursor_beyond W m ->
    let out := main_loop W cfg turns m in
    StronglySorted Z.lt (map update_id (delivered W (trace (fst out)))) /\
    (snd out = Ok tt -> cursor_beyond W (fst out)) /\
    cursor_le (offset m) (offset (fst out)).
Proof.
  intros Htransport. induction turns as [|turns IH]; intros m Hsorted Hbeyond.
  - cbn. repeat split; [assumption|auto|apply cursor_le_refl].
  - cbv zeta. rewrite main_loop_S.
    destruct (w_running W (trace m)).
    2:{ cbn. repeat split; [assumption|auto|apply cursor_le_refl]. }
    unfold bind.
    destruct (main_turn_keeps_order m Htransport Hsorted Hbeyond)
      as (Hs1 & Hb1 & Hle1).
    cbv zeta in Hs1, Hb1, Hle1.
    destruct (main_turn W cfg m) as [m1 [[]|e]]; cbn [fst snd] in *.
    + destruct (IH m1 Hs1 (Hb1 eq_refl)) as (Hs & Hb & Hle).
      repeat split; [exact Hs|exact Hb|].
      eapply cursor_le_trans; eassumption.
    + repeat split; [exact Hs1|discriminate|exact Hle1].
Qed.

End Turn.

Section AtMostOnce.
Context `{U : UCD}.
Variable W : world.
Variable cfg : config.

Lemma main_turn_cursor_le (m : machine) :
  transport_in_order W ->
  cursor_le (offset m) (offset (fst (main_turn W cfg m))).
Proof.
  intros Htransport.
  pose proof (main_turn_wp W cfg m) as Hturn. cbv zeta in Hturn.
  unfold wp in Hturn.
  destruct (w_get_updates W (trace m ++ [GetUpdates (offset m) 5]))
    as [updates|e] eqn:Hpoll.
  - destruct (Htransport _ _ _ _ Hpoll) as [_ Hge].
    destruct Hturn as [[_ Hcursor] _]. cbn [offset set_trace] in Hcursor.
    destruct Hcursor as [->|(u & Hu & ->)]; [apply cursor_le_refl|].
    destruct (offset m) as [o|] eqn:Ho; cbn; [|exact I].
    specialize (Hge o eq_refl). rewrite Forall_forall in Hge.
    specialize (Hge u Hu). lia.
  - destruct Hturn as [-> _]. apply cursor_le_refl.
Qed.

Lemma sorted_NoDup (l : list Z) : StronglySorted Z.lt l -> NoDup l.
Proof.
  induction 1 as [|a l _ IH Ha]; constructor; [|exact IH].
  intros Hin. rewrite Forall_forall in Ha. specialize (Ha a Hin). lia.
Qed.

(** The loop over a batch is the handling of its updates, one call
    each, up to the first that raises. *)
Lemma for_each_handles (batch : list update) :
  forall m,
    exists log rest,
      handles W cfg batch m log (for_each (handle_update W cfg) batch m) /\
      batch = log ++ rest /\
      (snd (for_each (handle_update W cfg) batch m) = Ok tt -> rest = []).
Proof.
  induction batch as [|upd batch IH]; intros m.
  - exists [], []. repeat split. constructor.
  - cbn [for_each]. unfold bind.
    destruct (handle_update W cfg upd m) as [m1 [[]|e]] eqn:Hupd.
    + destruct (IH m1) as (log & rest & Hlog & -> & Hrest).
      exists (upd :: log), rest. repeat split; [|exact Hrest].
      now apply handles_next with (m1 := m1).
    + exists [upd], batch. repeat split; [|discriminate].
      now apply handles_raise.
Qed.

Lemma check_for_prompts_returns (chat : Z) (session : str) (m : machine) :
  snd (check_for_prompts W chat session m) = Ok tt.
Proof.
  rewrite check_for_prompts_run. cbv zeta.
  destruct (shown W session m) as [raw|e]; [|reflexivity].
  destruct (is_empty (strip raw)); [reflexivity|].
  destruct (negb (found PROMPT_DETECT_RE (strip raw))); [reflexivity|].
  destruct (parse_prompt (strip raw)) as [text|]; [|reflexivity].
  destruct (is_empty text); [reflexivity|].
  destruct (hash_is _ _); reflexivity.
Qed.

Lemma check_for_ratelimit_returns (chat : Z) (session : str) (m : machine) :
  snd (check_for_ratelimit W chat session m) = Ok tt.
Proof.
  rewrite check_for_ratelimit_run. cbv zeta.
  destruct (shown W session m) as [raw|e]; [|reflexivity].
  destruct (is_empty (strip (sanitize_text raw))); [reflexivity|].
  destruct (negb (found RATELIMIT_RE _)).
  { destruct (ratelimit_waiting m); reflexivity. }
  destruct (is_empty (relevant_lines _)); [reflexivity|].
  destruct (hash_is _ _); reflexivity.
Qed.

(** The screen check, past its reading of the clock. *)
Lemma screen_check_run (m : machine) :
  let m2 := set_trace (trace m ++ [Time]) m in
  let now := w_time W (trace m ++ [Time]) in
  screen_check W cfg m
  = (if 5 <=? now - last_screen_check m then
       bind (modify (set_last_screen_check now)) (fun _ =>
       bind (check_for_prompts W (telegram_chat_id cfg) (tmux_session cfg))
            (fun _ =>
       check_for_ratelimit W (telegram_chat_id cfg) (tmux_session cfg)))
     else ret tt) m2.
Proof. reflexivity. Qed.

(** The screen check returns; it does not poll and leaves the cursor. *)
Lemma screen_check_returns (m : machine) :
  snd (screen_check W cfg m) = Ok tt /\
  quiet m (fst (screen_check W cfg m)).
Proof.
  rewrite screen_check_run. cbv zeta.
  set (m2 := set_trace (trace m ++ [Time]) m).
  assert (H2 : quiet m m2).
  { split; [reflexivity|]. exists [Time]. split; reflexivity. }
  destruct (5 <=? _); [|split; [reflexivity|exact H2]].
  unfold bind at 1 3. unfold modify. cbv beta iota.
  set (m3 := set_last_screen_check _ m2).
  assert (H3 : quiet m m3) by exact H2.
  unfold bind.
  pose proof (check_for_prompts_returns (telegram_chat_id cfg)
                (tmux_session cfg) m3) as Hr1.
  pose proof (frame_check_for_prompts W (telegram_chat_id cfg)
                (tmux_session cfg) m3) as Hq1.
  destruct (check_for_prompts W _ _ m3) as [m4 r4]. cbn [fst snd] in *.
  subst r4.
  split; [apply check_for_ratelimit_returns|].
  eapply quiet_trans; [exact H3|]. eapply quiet_trans; [exact Hq1|].
  apply frame_check_for_ratelimit.
Qed.

(** One turn, as the handling of the batch it polls. *)
Lemma main_turn_handles (m : machine) :
  exists log rest ext,
    turn_handles W cfg m log (main_turn W cfg m) /\
    trace (fst (main_turn W cfg m)) = trace m ++ ext /\
    delivered_after W (trace m) ext = log ++ rest /\
    (snd (main_turn W cfg m) = Ok tt -> rest = []).
Proof.
  pose proof (main_turn_wp W cfg m) as Hwp. cbv zeta in Hwp. unfold wp in Hwp.
  assert (Hturn :
    main_turn W cfg m
    = match w_get_updates W (after_poll m) with
      | Raise _ =>
          (set_trace (after_poll m ++ [Sleep (poll_interval cfg * 1000)]) m,
           Ok tt)
      | Ok updates =>
          match
            for_each (handle_update W cfg) updates
              (set_pending_files []
                 (fst (screen_check W cfg (set_trace (after_poll m) m))))
          with
          | (m1, Ok _) => send_pending W cfg m1
          | (m1, Raise e) => (m1, Raise e)
          end
      end).
  { assert (Hrun :
      main_turn W cfg m
      = match poll W cfg m with
        | (m1, Ok (Some updates)) =>
            bind (screen_check W cfg) (fun _ =>
            bind (modify (set_pending_files [])) (fun _ =>
            bind (for_each (handle_update W cfg) updates) (fun _ =>
            send_pending W cfg))) m1
        | (m1, Ok None) => (m1, Ok tt)
        | (m1, Raise e) => (m1, Raise e)
        end).
    { unfold main_turn. unfold bind at 1.
      destruct (poll W cfg m) as [m1 [[updates|]|e]]; reflexivity. }
    rewrite Hrun, poll_run. cbv zeta. fold (after_poll m).
    destruct (w_get_updates W (after_poll m)) as [updates|e]; [|reflexivity].
    pose proof (screen_check_returns (set_trace (after_poll m) m)) as [Hr _].
    unfold bind at 1.
    destruct (screen_check W cfg (set_trace (after_poll m) m)) as [m0 r0].
    cbn [fst snd] in *. subst r0.
    unfold bind at 1. unfold modify. cbv beta iota. unfold bind at 1.
    destruct (for_each _ _ _) as [m1 [[]|e1]]; reflexivity. }
  fold (after_poll m) in Hwp.
  destruct (w_get_updates W (after_poll m)) as [updates|e] eqn:Hpoll.
  - destruct (screen_check_returns (set_trace (after_poll m) m)) as [Hr Hq].
    destruct (screen_check W cfg (set_trace (after_poll m) m)) as [m0 r0] eqn:Hsc.
    cbn [fst snd] in *. subst r0.
    destruct (for_each_handles updates (set_pending_files [] m0))
      as (log & rest & Hlog & Hbatch & Hrest).
    destruct Hwp as [[(ext & Hext & Hnopoll) _] _].
    exists log, rest, (GetUpdates (offset m) 5 :: ext).
    split; [|split; [|split]].
    + rewrite Hturn.
      destruct (for_each _ _ _) as [m1 r1] eqn:Hfe.
      pose proof (@turn_batch U W cfg m updates m0 log m1 r1 Hpoll Hsc Hlog)
        as Hgoal.
      destruct r1 as [[]|e1]; exact Hgoal.
    + rewrite Hext. cbn [trace set_trace]. unfold after_poll.
      now rewrite <- app_assoc.
    + cbn [delivered_after]. fold (after_poll m). rewrite Hpoll.
      rewrite (delivered_after_no_poll W ext _ Hnopoll), app_nil_r.
      exact Hbatch.
    + rewrite Hturn. destruct (for_each _ _ _) as [m1 [[]|e1]];
        cbn [snd] in *; [intros _; now apply Hrest|discriminate].
  - destruct Hwp as [Hm' Hr']. exists [], [].
    exists [GetUpdates (offset m) 5; Sleep (poll_interval cfg * 1000)].
    split; [|split; [|split]].
    + rewrite Hturn. now apply turn_poll_failed with (e := e).
    + rewrite Hm'. cbn [trace set_trace]. unfold after_poll.
      now rewrite <- app_assoc.
    + cbn [delivered_after]. fold (after_poll m). rewrite Hpoll. reflexivity.
    + reflexivity.
Qed.

(** The loop, as the handling of the batches of its turns. *)
Lemma main_loop_handles (turns : nat) :
  forall m,
    exists log rest ext,
      loop_handles W cfg turns m log (main_loop W cfg turns m) /\
      trace (fst (main_loop W cfg turns m)) = trace m ++ ext /\
      delivered_after W (trace m) ext = log ++ rest.
Proof.
  induction turns as [|turns IH]; intros m.
  - exists [], [], []. repeat split; [constructor|now rewrite app_nil_r].
  - rewrite main_loop_S. destruct (w_running W (trace m)) eqn:Hrun.
    2:{ exists [], [], []. repeat split; [now constructor|].
        now rewrite app_nil_r. }
    unfold bind.
    destruct (main_turn_handles m) as (log1 & rest1 & ext1 & Ht & He & Hd & Hr).
    destruct (main_turn W cfg m) as [m1 [[]|e]]; cbn [fst snd] in *.
    + destruct (IH m1) as (log2 & rest2 & ext2 & Hl2 & He2 & Hd2).
      exists (log1 ++ log2), rest2, (ext1 ++ ext2). split; [|split].
      * now apply loop_turn with (m1 := m1).
      * now rewrite He2, He, app_assoc.
      * rewrite delivered_after_app, Hd, (Hr eq_refl), app_nil_r.
        rewrite <- He, Hd2. now rewrite app_assoc.
    + exists log1, rest1, ext1. split; [|split; assumption].
      now apply loop_raised.
Qed.

Lemma sorted_prefix (l1 l2 : list Z) :
  StronglySorted Z.lt (l1 ++ l2) -> StronglySorted Z.lt l1.
Proof.
  induction l1 as [|a l1 IH]; [constructor|]. cbn [app]. intros H.
  apply StronglySorted_inv in H as [H Ha]. constructor; [now apply IH|].
  apply Forall_app in Ha. tauto.
Qed.

(** C4 (as amended).  [handle_update] moves the cursor past an update
    before it handles it: the cursor is past the update when the
    handling returns and when it raises alike, and the handling itself
    never polls, so the moved cursor is first used by the next turn.
    When the transport delivers each batch in increasing order and
    nothing below the offset asked for, a turn never lowers the cursor,
    and over any number of turns the updates delivered to the loop come
    in strictly increasing order of [update_id]; after a loop that ran
    to its end the cursor is beyond all of them.  The loop calls
    [handle_update] once on each update delivered, in the order of
    delivery, up to the first call that raises: the updates it has
    handled are a prefix of those delivered, and none is handled
    twice. *)
Theorem cursor_moves_first_and_no_update_repeats
    (upd : update) (m : machine) (turns : nat) :
  transport_in_order W ->
  let handled := fst (handle_update W cfg upd m) in
  let final := fst (main_loop W cfg turns startup) in
  offset handled = Some (update_id upd + 1) /\
  existsb is_poll (calls_between m handled) = false /\
  cursor_le (offset m) (offset (fst (main_turn W cfg m))) /\
  StronglySorted Z.lt (map update_id (delivered W (trace final))) /\
  NoDup (map update_id (delivered W (trace final))) /\
  (snd (main_loop W cfg turns startup) = Ok tt -> cursor_beyond W final) /\
  exists log rest,
    loop_handles W cfg turns startup log (main_loop W cfg turns startup) /\
    delivered W (trace final) = log ++ rest /\
    StronglySorted Z.lt (map update_id log) /\
    NoDup (map update_id log).
Proof.
  intros Htransport. cbv zeta.
  destruct (main_loop_keeps_order W cfg turns Htransport startup)
    as (Hsorted & Hbeyond & _).
  { constructor. }
  { intros u []. }
  cbv zeta in Hsorted, Hbeyond.
  split; [apply handle_update_cursor|].
  split.
  { destruct (handle_update_no_poll W cfg upd m) as (ext & Ht & Hquiet).
    now rewrite (calls_between_app m _ _ Ht). }
  split; [now apply main_turn_cursor_le|].
  split; [exact Hsorted|]. split; [now apply sorted_NoDup|].
  split; [exact Hbeyond|].
  destruct (main_loop_handles turns startup)
    as (log & rest & ext & Hlog & Hext & Hdelivered).
  cbn [trace startup app] in Hext.
  assert (Hall : delivered W (trace (fst (main_loop W cfg turns startup)))
                 = log ++ rest).
  { rewrite Hext. exact Hdelivered. }
  assert (Hslog : StronglySorted Z.lt (map update_id log)).
  { rewrite Hall, map_app in Hsorted. exact (sorted_prefix _ _ Hsorted). }
  exists log, rest. split; [exact Hlog|]. split; [exact Hall|].
  split; [exact Hslog|now apply sorted_NoDup].
Qed.

End AtMostOnce.

Lemma scripted_transport_in_order :
  transport_in_order
    (scripted_world [] [hello_update; foreign_update] true true).
Proof.
  intros t off timeout updates. cbn [w_get_updates scripted_world].
  rewrite last_last. destruct off as [o|].
  - intros E. injection E as <-. cbn [filter update_id hello_update foreign_update].
    split.
    + destruct (o <=? 7), (o <=? 8); repeat constructor.
    + intros o' E. injection E as <-.
      destruct (Z.leb_spec o 7), (Z.leb_spec o 8); repeat constructor;
        cbn; lia.
  - intros E. injection E as <-. split; [repeat constructor|discriminate].
Qed.

Lemma cursor_moves_first_and_no_update_repeats_witness :
  let W := scripted_world [] [hello_update; foreign_update] true true in
  let out := @main_loop sample_ucd W sample_config 3 startup in
  transport_in_order W /\
  (exists log rest,
     @loop_handles sample_ucd W sample_config 3 startup log out /\
     delivered W (trace (fst out)) = log ++ rest /\
     NoDup (map update_id log)) /\
  NoDup (map update_id (delivered W (trace (fst out)))) /\
  delivered W (trace (fst out)) = [hello_update; foreign_update] /\
  filter is_key (trace (fst out)) = [SendKeys (lit "claude") (lit "hello")].
Proof.
  cbv zeta. split; [exact scripted_transport_in_order|].
  destruct (@cursor_moves_first_and_no_update_repeats sample_ucd
              (scripted_world [] [hello_update; foreign_update] true true)
              sample_config hello_update startup 3
              scripted_transport_in_order)
    as (_ & _ & _ & _ & Hdelivered & _ & log & rest & Hlog & Hall & _
        & Hnodup).
  split; [|split; [exact Hdelivered|split; vm_compute; reflexivity]].
  exists log, rest. split; [exact Hlog|]. split; [exact Hall|exact Hnodup].
Defined.

(* ------------------------------------------------------------------ *)
(** ** Option extraction *)

Section Options.
Context `{U : UCD}.

(** Where [OPTION_RE] matches, group 1 is a non-empty run of digits of
    the line, followed in the line by a dot, white space, and group 2. *)
Lemma option_groups_in_line (line index label : str) :
  option_groups line = Some (index, label) ->
  exists lead ws tail : str,
    line = lead ++ index ++ [46%N] ++ ws ++ label ++ tail /\
    index <> [] /\ forallb is_digit index = true.
Proof.
  unfold option_groups, re_match, match_at. cbn [alts ignorecase OPTION_RE].
  cbn [first_some]. intros Hgroups.
  destruct (exec false _ true line) as [[ms rest]|] eqn:Hex; [|discriminate].
  change (exec false (Bol :: ?ns) true line) with (exec false ns true line)
    in Hex.
  apply exec_Rep in Hex as (j & Hj & _ & Hex).
  apply exec_Mark in Hex as (ms1 & -> & Hex).
  apply exec_Rep in Hex as (k & Hk & Hdigits & Hex).
  apply exec_Mark in Hex as (ms2 & -> & Hex).
  apply exec_One in Hex as (dot & after & Hdot & Hisdot & Hex).
  apply exec_Rep in Hex as (l & Hl & _ & Hex).
  apply exec_Mark in Hex as (ms3 & -> & Hex).
  apply exec_Rep in Hex as (p & Hp & _ & Hex).
  apply exec_Mark in Hex as (ms4 & -> & Hex).
  cbn [exec] in Hex. destruct (at_eol _); [|discriminate].
  injection Hex as <- <-. injection Hgroups as <- <-.
  rewrite !between_skipn by lia.
  assert (dot = 46%N) as ->.
  { cbn in Hisdot. rewrite !orb_false_r in Hisdot. now apply N.eqb_eq. }
  exists (firstn j line), (firstn l after), (skipn p (skipn l after)).
  split; [|split].
  - rewrite <- (firstn_skipn j line) at 1. f_equal.
    rewrite <- (firstn_skipn k (skipn j line)) at 1. f_equal.
    rewrite Hdot. cbn [app]. f_equal.
    rewrite <- (firstn_skipn l after) at 1. f_equal.
    now rewrite firstn_skipn.
  - intros Hnil. apply (f_equal (@length N)) in Hnil.
    rewrite firstn_length_le in Hnil by lia. cbn in Hnil. lia.
  - now apply digits_only.
Qed.

Lemma scan_line_options (acc : list str * option nat) (il : nat * str) :
  fst (scan_line acc il)
  = fst acc ++ match option_on_line (snd il) with
               | Some o => [o]
               | None => []
               end.
Proof.
  destruct acc as [options first], il as [i line].
  unfold scan_line, option_on_line. cbn [fst snd].
  destruct (blank_or_rule _); [now rewrite app_nil_r|].
  destruct (found SELECTOR_RE _); [now rewrite app_nil_r|].
  destruct (option_groups line) as [[g1 g2]|]; [reflexivity|].
  now rewrite app_nil_r.
Qed.

Lemma fold_scan_line_options (l : list (nat * str)) :
  forall acc,
    fst (fold_left scan_line l acc)
    = fst acc ++ options_in_order (map snd l).
Proof.
  induction l as [|il l IH]; intros acc; [cbn; now rewrite app_nil_r|].
  cbn [fold_left map]. rewrite IH, scan_line_options.
  unfold options_in_order. cbn [flat_map]. now rewrite app_assoc.
Qed.

Lemma map_snd_enumerate {A : Type} (l : list A) :
  map snd (enumerate l) = l.
Proof.
  unfold enumerate. generalize 0%nat.
  induction l as [|a l IH]; intros n; [reflexivity|].
  cbn [length seq combine map snd]. now rewrite IH.
Qed.

Lemma sanitize_two_options :
  sanitize_text two_options_screen
  = if ucd_C 10095%N then lit " 1. Yes" ++ [NL] ++ lit "  2. No"
    else two_options_screen.
Proof.
  unfold sanitize_text.
  replace (sub_empty ANSI_RE two_options_screen)
    with (10095%N :: lit " 1. Yes" ++ [NL] ++ lit "  2. No")
    by (vm_compute; reflexivity).
  cbn [filter].
  replace (category_C 10095%N) with (ucd_C 10095%N) by reflexivity.
  replace (filter _ (lit " 1. Yes" ++ [NL] ++ lit "  2. No"))
    with (lit " 1. Yes" ++ [NL] ++ lit "  2. No")
    by (vm_compute; reflexivity).
  destruct (ucd_C 10095%N); reflexivity.
Qed.

Lemma lead_char_class (c : N) :
  class_match false [Space; Lit 10095; Lit 62] c = lead_char c.
Proof.
  unfold class_match, lead_char. cbn [existsb item_match andb].
  now rewrite !orb_false_r, orb_assoc.
Qed.

Lemma run_length_exact (p : N -> bool) (a b : str) :
  forallb p a = true ->
  match b with [] => True | c :: _ => p c = false end ->
  run_length p None (a ++ b) = length a.
Proof.
  intros Ha Hb. induction a as [|x a IH]; cbn [app run_length length].
  - destruct b as [|c b]; [reflexivity|]. cbn [run_length]. now rewrite Hb.
  - cbn [forallb] in Ha. apply andb_true_iff in Ha as [-> Ha].
    now rewrite (IH Ha).
Qed.

Lemma skipn_length_app {A : Type} (a b : list A) :
  skipn (length a) (a ++ b) = b.
Proof. induction a as [|x a IH]; [reflexivity|exact IH]. Qed.

Lemma between_app (a b : str) : between (a ++ b) b = a.
Proof.
  unfold between. rewrite length_app.
  replace (length a + length b - length b)%nat with (length a) by lia.
  rewrite firstn_app, firstn_all, Nat.sub_diag. cbn [firstn].
  apply app_nil_r.
Qed.

Lemma counts_greedy (lo n : nat) :
  (lo <= n)%nat -> exists l, counts lo n true = n :: l.
Proof.
  intros Hlo. unfold counts.
  replace (S n - lo)%nat with (S (n - lo)) by lia.
  rewrite seq_S, rev_app_distr. cbn [rev app].
  replace (lo + (n - lo))%nat with n by lia. now eexists.
Qed.

(** A greedy quantifier settles on the longest run when what follows
    matches after it. *)
Lemma exec_Rep_longest (ic : bool) (cl : cclass) (lo : nat)
    (ns : list node) (bol : bool) (run rest : str) (r : list str * str) :
  forallb (class_match ic cl) run = true ->
  match rest with [] => True | c :: _ => class_match ic cl c = false end ->
  (lo <= length run)%nat ->
  exec ic ns (bol && Nat.eqb (length run) 0) rest = Some r ->
  exec ic (Rep cl lo None true :: ns) bol (run ++ rest) = Some r.
Proof.
  intros Hrun Hstop Hlo Hex. cbn [exec].
  rewrite (run_length_exact _ _ _ Hrun Hstop).
  destruct (counts_greedy _ _ Hlo) as [l ->]. cbn [first_some].
  now rewrite skipn_length_app, Hex.
Qed.

Lemma exec_Mark_eq (ic : bool) (ns : list node) (bol : bool) (s : str) :
  exec ic (Mark :: ns) bol s
  = match exec ic ns bol s with
    | Some (ms, rest) => Some (s :: ms, rest)
    | None => None
    end.
Proof. reflexivity. Qed.

Lemma exec_One_eq (ic : bool) (cl : cclass) (ns : list node) (bol : bool)
    (c : N) (s : str) :
  exec ic (One cl :: ns) bol (c :: s)
  = if class_match ic cl c then exec ic ns false s else None.
Proof. reflexivity. Qed.

Lemma option_groups_of_line (lead index ws label : str) :
  forallb lead_char lead = true ->
  index <> [] -> forallb is_digit index = true ->
  (forall c, In c index -> lead_char c = false) ->
  ws <> [] -> forallb is_space ws = true ->
  label <> [] -> is_space (hd 0%N label) = false ->
  forallb (fun c => negb (c =? 10)%N) label = true ->
  option_groups (lead ++ index ++ [46%N] ++ ws ++ label)
  = Some (index, label).
Proof.
  intros Hlead Hne Hdigits Hplain Hws_ne Hws Hlabel_ne Hhead Hline.
  assert (E3 : forall bol,
            exec false [Mark; Rep [Dot] 1 None true; Mark; Eol] bol label
            = Some ([label; []], [])).
  { intros bol. rewrite exec_Mark_eq.
    assert (E : exec false [Rep [Dot] 1 None true; Mark; Eol] bol
                  (label ++ [])
                = Some ([[]], [])).
    { apply exec_Rep_longest; [|exact I| |reflexivity].
      - rewrite forallb_forall in *. intros c Hc. specialize (Hline c Hc).
        cbn. now rewrite orb_false_r.
      - destruct label; [contradiction|cbn; lia]. }
    rewrite app_nil_r in E. now rewrite E. }
  assert (E2 : forall bol,
            exec false [One [Lit 46]; Rep [Space] 1 None true;
                        Mark; Rep [Dot] 1 None true; Mark; Eol] bol
              ([46%N] ++ ws ++ label)
            = Some ([label; []], [])).
  { intros bol. cbn [app]. rewrite exec_One_eq.
    change (class_match false [Lit 46] 46%N) with true. cbv iota.
    apply exec_Rep_longest.
    - rewrite forallb_forall in *. intros c Hc. specialize (Hws c Hc).
      cbn. now rewrite orb_false_r.
    - destruct label as [|c rest]; [contradiction|]. cbn in Hhead |- *.
      now rewrite Hhead.
    - destruct ws; [contradiction|cbn; lia].
    - apply E3. }
  assert (Hdot : forall c, is_digit c = true -> (c =? 46)%N = false).
  { intros c Hc. destruct (N.eqb_spec c 46) as [->|]; [|reflexivity].
    discriminate Hc. }
  assert (E1 : forall bol,
            exec false [Mark; Rep [Digit] 1 None true; Mark;
                        One [Lit 46]; Rep [Space] 1 None true;
                        Mark; Rep [Dot] 1 None true; Mark; Eol] bol
              (index ++ [46%N] ++ ws ++ label)
            = Some ([index ++ [46%N] ++ ws ++ label;
                     [46%N] ++ ws ++ label; label; []], [])).
  { intros bol.
    assert (E : exec false [Rep [Digit] 1 None true; Mark;
                            One [Lit 46]; Rep [Space] 1 None true;
                            Mark; Rep [Dot] 1 None true; Mark; Eol] bol
                  (index ++ [46%N] ++ ws ++ label)
                = Some ([[46%N] ++ ws ++ label; label; []], [])).
    { apply exec_Rep_longest.
      - rewrite forallb_forall in *. intros c Hc. specialize (Hdigits c Hc).
        cbn. now rewrite orb_false_r.
      - reflexivity.
      - destruct index; [contradiction|cbn; lia].
      - rewrite exec_Mark_eq. now rewrite E2. }
    rewrite exec_Mark_eq. now rewrite E. }
  unfold option_groups, re_match, match_at.
  cbn [alts ignorecase OPTION_RE first_some].
  change (exec false (Bol :: ?ns) true ?s) with (exec false ns true s).
  assert (E0 : exec false [Rep [Space; Lit 10095; Lit 62] 0 None true;
                           Mark; Rep [Digit] 1 None true; Mark;
                           One [Lit 46]; Rep [Space] 1 None true;
                           Mark; Rep [Dot] 1 None true; Mark; Eol] true
                 (lead ++ index ++ [46%N] ++ ws ++ label)
               = Some ([index ++ [46%N] ++ ws ++ label;
                        [46%N] ++ ws ++ label; label; []], [])).
  { apply exec_Rep_longest.
    - rewrite forallb_forall in *. intros c Hc.
      rewrite lead_char_class. exact (Hlead c Hc).
    - destruct index as [|c rest]; [contradiction|]. cbn [app].
      rewrite lead_char_class. apply Hplain. now left.
    - lia.
    - apply E1. }
  rewrite E0. rewrite between_app.
  unfold between. cbn [length]. now rewrite Nat.sub_0_r, firstn_all.
Qed.

(** Where [OPTION_RE] matches, the line is leading white space and
    markers, group 1 -- a non-empty run of digits --, a dot, white
    space, group 2, and nothing more but a final newline. *)
Lemma option_groups_shape (line index label : str) :
  option_groups line = Some (index, label) ->
  exists lead ws tail : str,
    line = lead ++ index ++ [46%N] ++ ws ++ label ++ tail /\
    forallb lead_char lead = true /\
    index <> [] /\ forallb is_digit index = true /\
    ws <> [] /\ forallb is_space ws = true /\
    label <> [] /\ (tail = [] \/ tail = [NL]).
Proof.
  unfold option_groups, re_match, match_at. cbn [alts ignorecase OPTION_RE].
  cbn [first_some]. intros Hgroups.
  destruct (exec false _ true line) as [[ms rest]|] eqn:Hex; [|discriminate].
  change (exec false (Bol :: ?ns) true line) with (exec false ns true line)
    in Hex.
  apply exec_Rep in Hex as (j & Hj & Hlead & Hex).
  apply exec_Mark in Hex as (ms1 & -> & Hex).
  apply exec_Rep in Hex as (k & Hk & Hdigits & Hex).
  apply exec_Mark in Hex as (ms2 & -> & Hex).
  apply exec_One in Hex as (dot & after & Hdot & Hisdot & Hex).
  apply exec_Rep in Hex as (l & Hl & Hws & Hex).
  apply exec_Mark in Hex as (ms3 & -> & Hex).
  apply exec_Rep in Hex as (p & Hp & _ & Hex).
  apply exec_Mark in Hex as (ms4 & -> & Hex).
  cbn [exec] in Hex. destruct (at_eol _) eqn:Heol; [|discriminate].
  injection Hex as <- <-. injection Hgroups as <- <-.
  rewrite !between_skipn by lia.
  assert (dot = 46%N) as ->.
  { cbn in Hisdot. rewrite !orb_false_r in Hisdot. now apply N.eqb_eq. }
  assert (Hlen : forall (n : nat) (s : str),
            (1 <= n <= length s)%nat -> firstn n s <> []).
  { intros n s Hn E. apply (f_equal (@length N)) in E.
    rewrite firstn_length_le in E by lia. cbn in E. lia. }
  exists (firstn j line), (firstn l after), (skipn p (skipn l after)).
  repeat match goal with |- _ /\ _ => split end.
  - rewrite <- (firstn_skipn j line) at 1. f_equal.
    rewrite <- (firstn_skipn k (skipn j line)) at 1. f_equal.
    rewrite Hdot. cbn [app]. f_equal.
    rewrite <- (firstn_skipn l after) at 1. f_equal.
    now rewrite firstn_skipn.
  - rewrite forallb_forall in *. intros c Hc.
    rewrite <- lead_char_class. exact (Hlead c Hc).
  - now apply Hlen.
  - now apply digits_only.
  - now apply Hlen.
  - rewrite forallb_forall in *. intros c Hc. specialize (Hws c Hc).
    cbn in Hws. now rewrite orb_false_r in Hws.
  - now apply Hlen.
  - unfold at_eol in Heol.
    destruct (skipn p (skipn l after)) as [|c [|c' t]];
      [now left| |discriminate].
    right. apply N.eqb_eq in Heol. now subst.
Qed.

Lemma option_on_line_shape (line o : str) :
  option_on_line line = Some o ->
  exists lead index ws label tail : str,
    line = lead ++ index ++ [46%N] ++ ws ++ label ++ tail /\
    o = index ++ lit ". " ++ strip label /\
    index <> [] /\ forallb is_digit index = true /\
    forallb lead_char lead = true /\
    ws <> [] /\ forallb is_space ws = true /\
    label <> [] /\ (tail = [] \/ tail = [NL]).
Proof.
  intros Hline. unfold option_on_line in Hline.
  destruct (blank_or_rule _); [discriminate|].
  destruct (found SELECTOR_RE _); [discriminate|].
  destruct (option_groups line) as [[index label]|] eqn:Hgroups;
    [|discriminate].
  injection Hline as <-.
  destruct (option_groups_shape line index label Hgroups)
    as (lead & ws & tail & Hline & Hlead & Hne & Hdigits & Hws_ne & Hws
        & Hlabel & Htail).
  exists lead, index, ws, label, tail. repeat split; assumption.
Qed.

Lemma option_on_line_of_shape (lead index ws label : str) :
  (forall c, is_digit c = true -> lead_char c = false) ->
  forallb lead_char lead = true ->
  index <> [] -> forallb is_digit index = true ->
  ws <> [] -> forallb is_space ws = true ->
  label <> [] -> is_space (hd 0%N label) = false ->
  forallb (fun c => negb (c =? NL)%N) label = true ->
  let line := lead ++ index ++ [46%N] ++ ws ++ label in
  blank_or_rule (strip line) = false ->
  found SELECTOR_RE (strip line) = false ->
  option_on_line line = Some (index ++ lit ". " ++ strip label).
Proof.
  intros Hplain Hlead Hne Hdigits Hws_ne Hws Hlabel Hhead Hnl line
    Hblank Hchrome.
  unfold option_on_line. fold line. rewrite Hblank, Hchrome.
  unfold line. rewrite option_groups_of_line; try assumption; [reflexivity|].
  intros c Hc. apply Hplain. rewrite forallb_forall in Hdigits.
  now apply Hdigits.
Qed.

(** C6.  The options of a parsed screen are those of its lines, line by
    line from the top, each line giving at most one.  A line gives an
    option only when it is leading white space and markers, a run of
    digits, a dot, white space and a label; the option is then that
    run of digits -- the index as the line has it, whole and not
    renumbered --, a dot, and the stripped label.  Conversely, when no
    digit is white space or a marker, every such line that is not
    skipped gives this option.  The lines ["❯ 1. Yes"] and ["  2. No"]
    give ["1. Yes"] and ["2. No"] in that order, which
    [check_for_prompts] reads as the pairs [("1", "Yes")] and
    [("2", "No")]. *)
Theorem options_keep_order_and_index (screen : str) (parsed : prompt_parts) :
  parse_prompt_parts screen = Some parsed ->
  options parsed = options_in_order (splitlines (sanitize_text screen)) /\
  (forall line o,
     option_on_line line = Some o ->
     exists lead index ws label tail : str,
       line = lead ++ index ++ [46%N] ++ ws ++ label ++ tail /\
       o = index ++ lit ". " ++ strip label /\
       index <> [] /\ forallb is_digit index = true /\
       forallb lead_char lead = true /\
       ws <> [] /\ forallb is_space ws = true /\
       label <> [] /\ (tail = [] \/ tail = [NL])) /\
  ((forall c, is_digit c = true -> lead_char c = false) ->
   forall lead index ws label : str,
     forallb lead_char lead = true ->
     index <> [] -> forallb is_digit index = true ->
     ws <> [] -> forallb is_space ws = true ->
     label <> [] -> is_space (hd 0%N label) = false ->
     forallb (fun c => negb (c =? NL)%N) label = true ->
     let line := lead ++ index ++ [46%N] ++ ws ++ label in
     blank_or_rule (strip line) = false ->
     found SELECTOR_RE (strip line) = false ->
     option_on_line line = Some (index ++ lit ". " ++ strip label)) /\
  parse_prompt_parts two_options_screen
  = Some {| question := None; options := [lit "1. Yes"; lit "2. No"] |} /\
  map option_pair [lit "1. Yes"; lit "2. No"]
  = [(lit "1", lit "Yes"); (lit "2", lit "No")] /\
  map (fun b => (callback_data b, btn_text b)) (make_buttons two_options_screen)
  = [(lit "1", [9989%N] ++ lit " Yes"); (lit "2", [128260%N] ++ lit " No")].
Proof.
  intros Hparsed.
  assert (Hexample :
    parse_prompt_parts two_options_screen
    = Some {| question := None; options := [lit "1. Yes"; lit "2. No"] |}).
  { unfold parse_prompt_parts. rewrite sanitize_two_options.
    destruct (ucd_C 10095%N); vm_compute; reflexivity. }
  split; [|split; [|split; [|split; [exact Hexample|split; [reflexivity|]]]]].
  - unfold parse_prompt_parts in Hparsed.
    pose proof (fold_scan_line_options
                  (enumerate (splitlines (sanitize_text screen))) ([], None))
      as Hfold.
    destruct (fold_left scan_line _ _) as [opts first].
    cbn [fst app] in Hfold. rewrite map_snd_enumerate in Hfold.
    destruct opts as [|o opts]; [discriminate|].
    injection Hparsed as <-. exact Hfold.
  - exact option_on_line_shape.
  - intros Hplain lead index ws label.
    exact (option_on_line_of_shape lead index ws label Hplain).
  - unfold make_buttons. rewrite Hexample. vm_compute. reflexivity.
Qed.

End Options.

Lemma sample_digits_are_plain (c : N) :
  @is_digit sample_ucd c = true -> lead_char c = false.
Proof.
  unfold is_digit. destruct (N.ltb_spec c 256) as [Hlt|Hge];
    [|cbn; discriminate].
  intros Hc. apply andb_true_iff in Hc as [Hlo Hhi].
  apply N.leb_le in Hlo, Hhi. unfold lead_char, is_space.
  repeat match goal with
         | |- context [(?a <=? ?b)%N] => destruct (N.leb_spec a b); try lia
         | |- context [(?a =? ?b)%N] => destruct (N.eqb_spec a b); try lia
         end; reflexivity.
Qed.

Lemma options_keep_order_and_index_witness :
  @parse_prompt_parts sample_ucd (yes_no_screen "Yes")
  = Some {| question := Some (lit "Do you want to allow this command?");
            options := [lit "1. Yes"; lit "2. No"] |} /\
  [lit "1. Yes"; lit "2. No"]
  = @options_in_order sample_ucd
      (splitlines (@sanitize_text sample_ucd (yes_no_screen "Yes"))) /\
  @option_on_line sample_ucd
    ([10095%N] ++ lit " " ++ lit "12" ++ [46%N] ++ lit " "
     ++ lit "Yes, allow")
  = Some (lit "12. Yes, allow").
Proof.
  assert (Hparsed :
    @parse_prompt_parts sample_ucd (yes_no_screen "Yes")
    = Some {| question := Some (lit "Do you want to allow this command?");
              options := [lit "1. Yes"; lit "2. No"] |})
    by (vm_compute; reflexivity).
  split; [exact Hparsed|].
  destruct (@options_keep_order_and_index sample_ucd
              (yes_no_screen "Yes") _ Hparsed)
    as (Horder & _ & Hline & _).
  split; [exact Horder|].
  exact (Hline sample_digits_are_plain ([10095%N] ++ lit " ") (lit "12")
           (lit " ") (lit "Yes, allow")
           eq_refl ltac:(discriminate) eq_refl ltac:(discriminate) eq_refl
           ltac:(discriminate) eq_refl eq_refl eq_refl eq_refl).
Defined.

(* ------------------------------------------------------------------ *)
(** ** Concrete runs *)

(** C2 (as stated) fails on a blank capture.  The pane shows the limit
    banner, then is cleared: the second capture is a screen without the
    limit signature, taken in the limited state, and no recovery
    notification goes out; the limited state persists. *)
Lemma blank_capture_hides_the_clearing :
  let W := scripted_world [limit_screen; blank_screen] [] true true in
  let m1 := fst (@check_for_ratelimit sample_ucd W 42
                   (lit "claude") startup) in
  let m2 := fst (@check_for_ratelimit sample_ucd W 42
                   (lit "claude") m1) in
  ratelimit_waiting m1 = true /\
  shown W (lit "claude") m1 = Ok blank_screen /\
  @found sample_ucd RATELIMIT_RE
    (strip (@sanitize_text sample_ucd blank_screen)) = false /\
  existsb is_recovery (calls_between m1 m2) = false /\
  ratelimit_waiting m2 = true.
Proof. vm_compute. repeat split. Qed.

(** C5 (as stated) fails on a blank capture: it holds none of the chrome
    phrases, and the stored prompt hash is not cleared. *)
Lemma blank_capture_keeps_prompt_hash :
  let W := scripted_world [blank_screen] [] true true in
  let m' := fst (@check_for_prompts sample_ucd W 42
                   (lit "claude") stale_state) in
  shown W (lit "claude") stale_state = Ok blank_screen /\
  @found sample_ucd PROMPT_DETECT_RE blank_screen = false /\
  last_prompt_hash stale_state <> None /\
  last_prompt_hash m' = last_prompt_hash stale_state.
Proof. vm_compute. repeat split. discriminate. Qed.

Lemma no_chrome_no_prompt_witness :
  shown (scripted_world [bare_options_screen] [] true true) (lit "claude")
        stale_state = Ok bare_options_screen /\
  @found sample_ucd PROMPT_DETECT_RE bare_options_screen = false /\
  last_prompt_hash
    (fst (@check_for_prompts sample_ucd
            (scripted_world [bare_options_screen] [] true true) 42
            (lit "claude") stale_state)) = None.
Proof.
  assert (Hshown :
    shown (scripted_world [bare_options_screen] [] true true) (lit "claude")
          stale_state = Ok bare_options_screen) by reflexivity.
  assert (Hgate :
    @found sample_ucd PROMPT_DETECT_RE bare_options_screen = false)
    by (vm_compute; reflexivity).
  split; [exact Hshown|]. split; [exact Hgate|].
  apply (@no_chrome_no_prompt sample_ucd
           (scripted_world [bare_options_screen] [] true true) 42
           (lit "claude") stale_state bare_options_screen Hshown Hgate).
  vm_compute. reflexivity.
Defined.

Lemma dedup_by_content_hash_witness :
  let W := scripted_world
             [yes_no_screen "Yes"; yes_no_screen "Yes"; yes_no_screen "Yep"]
             [] true true in
  let check := @check sample_ucd W 42 (lit "claude") Prompt in
  let m1 := fst (check startup) in
  let m2 := fst (check m1) in
  let m3 := fst (check m2) in
  md5_hexdigest (yes_no_content "Yep")
  <> md5_hexdigest (yes_no_content "Yes") /\
  announcements (calls_between startup m1) = 1%nat /\
  announcements (calls_between m1 m2) = 0%nat /\
  announcements (calls_between m2 m3) = 1%nat.
Proof.
  cbv zeta.
  assert (Hdiff : md5_hexdigest (yes_no_content "Yep")
                  <> md5_hexdigest (yes_no_content "Yes"))
    by (vm_compute; discriminate).
  split; [exact Hdiff|].
  pose proof (@dedup_by_content_hash sample_ucd
    (scripted_world
       [yes_no_screen "Yes"; yes_no_screen "Yes"; yes_no_screen "Yep"]
       [] true true)
    42 (lit "claude") Prompt startup
    (yes_no_screen "Yes") (yes_no_screen "Yes") (yes_no_screen "Yep")
    (yes_no_content "Yes") (yes_no_content "Yep")) as Hdedup.
  cbv zeta in Hdedup.
  destruct Hdedup as (H1 & _ & _ & H2 & _ & H3 & _);
    try (vm_compute; reflexivity);
    [vm_compute; discriminate|exact Hdiff|].
  repeat split; assumption.
Defined.

Lemma failed_sends_stay_suppressed_witness :
  let W := scripted_world [limit_screen] [] false true in
  let m1 := fst (@check sample_ucd W 42 (lit "claude") RateLimit
                   startup) in
  let mn := fst (@rounds sample_ucd W 42 (lit "claude") RateLimit
                   3 m1) in
  @content sample_ucd RateLimit limit_screen = Some limit_content /\
  stored_hash RateLimit m1 = Some (md5_hexdigest limit_content) /\
  existsb is_send (calls_between m1 mn) = false.
Proof.
  cbv zeta.
  assert (Hcontent : @content sample_ucd RateLimit limit_screen
                     = Some limit_content) by (vm_compute; reflexivity).
  split; [exact Hcontent|].
  pose proof (@failed_sends_stay_suppressed sample_ucd
    (scripted_world [limit_screen] [] false true) 42 (lit "claude")
    RateLimit startup limit_screen limit_content 3) as Hfail.
  cbv zeta in Hfail.
  destruct Hfail as (H1 & _ & _ & H2 & _).
  - intros t. cbn [w_capture_pane scripted_world].
    destruct (pred _) as [|[|n]]; reflexivity.
  - intros t. reflexivity.
  - intros t. reflexivity.
  - exact Hcontent.
  - vm_compute. discriminate.
  - split; assumption.
Defined.

(* ================================================================== *)
(** * Further properties of the code *)
(* ================================================================== *)

(** Properties read off the code, beside those of the specification:
    - the poll loop: [update_aborts_only_on_failed_error_report],
      [queued_files_were_downloaded], [screen_check_never_raises],
      [screen_is_checked_every_five_seconds_at_most];
    - button presses and prompts:
      [button_press_is_typed_once_and_acknowledged],
      [buttons_carry_the_option_index], [prompts_are_announced_with_buttons],
      [question_is_a_clean_line_of_the_screen];
    - commands: [commands_type_only_what_they_stand_for],
      [handled_command_has_told_the_chat], [view_sends_a_bounded_clean_dump],
      [uptime_adds_up];
    - the classifiers: [announcements_fit_the_ceiling],
      [limit_signature_always_has_content], [reset_hint_is_the_match_itself];
    - attachments: [files_prompt_names_every_file],
      [attachments_are_typed_in_one_message],
      [photo_lands_in_the_download_directory],
      [document_is_stored_under_the_name_it_carries];
    - tmux_utils.py: [session_line_is_cut_at_its_first_two_spaces],
      [unchanged_pane_reads_as_its_last_thirty_lines],
      [wait_for_input_only_watches], [wait_for_input_gives_up_in_time],
      [input_prompt_is_a_marker_alone_on_its_line];
    - notify.py: [reported_text_is_what_the_assistant_said],
      [hook_reports_at_most_once_within_the_maximum];
    - config.py: [a_setting_comes_from_environment_file_or_defaults],
      [environment_completes_a_readable_file]. *)

(* ------------------------------------------------------------------ *)
(** ** What a computation calls *)

Lemma only_ret (P : call -> Prop) {A : Type} (a : A) : only P (ret a).
Proof. intros m. exists []. now rewrite app_nil_r. Qed.

Lemma only_raise (P : call -> Prop) {A : Type} (e : str) : only P (@raise A e).
Proof. intros m. exists []. now rewrite app_nil_r. Qed.

Lemma only_get (P : call -> Prop) : only P get.
Proof. intros m. exists []. now rewrite app_nil_r. Qed.

Lemma only_modify (P : call -> Prop) (f : machine -> machine) :
  (forall m, trace (f m) = trace m) -> only P (modify f).
Proof. intros Hf m. exists []. cbn. now rewrite Hf, app_nil_r. Qed.

Lemma only_perform (P : call -> Prop) {A : Type} (c : call)
    (answer : list call -> res A) :
  P c -> only P (perform c answer).
Proof. intros Hc m. exists [c]. split; [reflexivity|now constructor]. Qed.

Lemma only_bind (P : call -> Prop) {A B : Type} (x : M A) (f : A -> M B) :
  only P x -> (forall a, only P (f a)) -> only P (bind x f).
Proof.
  intros Hx Hf m. unfold bind. destruct (Hx m) as (e1 & Ht1 & Hp1).
  destruct (x m) as [m1 [a|e]]; cbn [fst] in *; [|now exists e1].
  destruct (Hf a m1) as (e2 & Ht2 & Hp2). exists (e1 ++ e2). split.
  - now rewrite Ht2, Ht1, app_assoc.
  - now apply Forall_app.
Qed.

Lemma only_try_except (P : call -> Prop) {A : Type}
    (body : M A) (handler : str -> M A) :
  only P body -> (forall e, only P (handler e)) -> only P (try_except body handler).
Proof.
  intros Hb Hh m. unfold try_except. destruct (Hb m) as (e1 & Ht1 & Hp1).
  destruct (body m) as [m1 [a|e]]; cbn [fst] in *; [now exists e1|].
  destruct (Hh e m1) as (e2 & Ht2 & Hp2). exists (e1 ++ e2). split.
  - now rewrite Ht2, Ht1, app_assoc.
  - now apply Forall_app.
Qed.

Lemma only_calls (P : call -> Prop) {A : Type} (x : M A) (m : machine) :
  only P x -> Forall P (calls_between m (fst (x m))).
Proof.
  intros Hx. destruct (Hx m) as (ext & Ht & Hp).
  now rewrite (calls_between_app m (fst (x m)) ext Ht).
Qed.

Ltac only_step :=
  match goal with
  | |- only _ (bind _ _) => apply only_bind; [|intros]
  | |- only _ (try_except _ _) => apply only_try_except; [|intros]
  | |- only _ (ret _) => apply only_ret
  | |- only _ (raise _) => apply only_raise
  | |- only _ get => apply only_get
  | |- only _ (modify _) => apply only_modify; intros; reflexivity
  | |- only _ (perform _ _) => apply only_perform
  | |- only _ (if ?b then _ else _) => destruct b eqn:?
  | |- only _ (match ?x with _ => _ end) => destruct x eqn:?
  | |- only _ (let '(_, _) := ?x in _) => destruct x eqn:?
  end.

Ltac only_all := repeat only_step.

(* ------------------------------------------------------------------ *)
(** ** The poll loop: what can stop it *)

Section Stops.
Context `{U : UCD}.
Variable W : world.
Variable cfg : config.

Lemma try_pass_returns (body : M unit) (m : machine) :
  snd (try_except body (fun _ => ret tt) m) = Ok tt.
Proof.
  unfold try_except. destruct (body m) as [m1 [[]|e]]; reflexivity.
Qed.

(** A [try] whose handler reports the exception to the chat raises only
    when that report itself raises. *)
Lemma try_report_raises (body : M unit) (chat : Z) (text : str -> str)
    (mode : option str) (m : machine) (e : str) :
  snd (try_except body (fun e' => send_message W chat (text e') mode) m)
  = Raise e ->
  exists e',
    trace (fst (try_except body
                  (fun e' => send_message W chat (text e') mode) m))
    = trace (fst (body m)) ++ [SendMessage chat (text e') mode] /\
    w_send_message W (trace (fst (body m))
                      ++ [SendMessage chat (text e') mode]) = Raise e.
Proof.
  unfold try_except, send_message, perform.
  destruct (body m) as [m1 [[]|e1]]; cbn [fst snd]; [discriminate|].
  intros Hraise. exists e1. split; [reflexivity|exact Hraise].
Qed.

(** X1.  The handling of an update raises only out of a failed error report:
    the last call is then the report, which the chat refused with the
    exception that escapes.  This happens on an attachment or a plain
    message only; a button press or a command never raises. *)
Theorem update_aborts_only_on_failed_error_report
    (upd : update) (m : machine) (e : str) :
  snd (handle_update W cfg upd m) = Raise e ->
  let m' := fst (handle_update W cfg upd m) in
  is_error_report (last (trace m') Time) = true /\
  w_send_message W (trace m') = Raise e /\
  exists msg,
    upd_callback_query upd = None /\ upd_message upd = Some msg /\
    (msg_photo msg <> [] \/ msg_document msg <> None
     \/ startswith (lit "/") (text_of msg) = false).
Proof.
  cbv zeta. unfold handle_update.
  change (bind (modify ?f) ?k m) with (k tt (f m)). cbv beta.
  generalize (set_offset (Some (update_id upd + 1)) m). clear m. intros m.
  destruct (upd_callback_query upd) as [cb|].
  { destruct (opt_Z_eqb _ _); [rewrite try_pass_returns|cbn];
      intros Hr; discriminate Hr. }
  destruct (upd_message upd) as [msg|]; [|cbn; intros Hr; discriminate Hr].
  destruct (negb (opt_Z_eqb _ _)); [cbn; intros Hr; discriminate Hr|].
  assert (Hreport : forall (body : M unit) (text : str -> str) (mode : option str),
    (forall e', exists tl, text e' = 10060%N :: tl) ->
    snd (try_except body (fun e' => send_message W (telegram_chat_id cfg)
                                      (text e') mode) m) = Raise e ->
    is_error_report
      (last (trace (fst (try_except body
           (fun e' => send_message W (telegram_chat_id cfg) (text e') mode) m)))
         Time) = true /\
    w_send_message W
      (trace (fst (try_except body
           (fun e' => send_message W (telegram_chat_id cfg) (text e') mode) m)))
    = Raise e).
  { intros body text mode Hglyph Hraise.
    destruct (try_report_raises body _ text mode m e Hraise) as (e' & Ht & Hw).
    rewrite Ht. split; [|exact Hw]. rewrite last_last.
    destruct (Hglyph e') as [tl ->]. reflexivity. }
  destruct (negb (is_empty (msg_photo msg))) eqn:Hphoto.
  { intros Hraise.
    destruct (Hreport _ (fun e' => CROSS ++ lit " Photo error: " ++ e') None
                (fun e' => ex_intro _ _ eq_refl) Hraise) as [H1 H2].
    split; [exact H1|split; [exact H2|]].
    exists msg. repeat split. left. intros Hnil. now rewrite Hnil in Hphoto. }
  destruct (msg_document msg) as [doc|] eqn:Hdoc.
  { intros Hraise.
    destruct (Hreport _ (fun e' => CROSS ++ lit " File error: " ++ e') None
                (fun e' => ex_intro _ _ eq_refl) Hraise) as [H1 H2].
    split; [exact H1|split; [exact H2|]].
    exists msg. repeat split. right. left. rewrite Hdoc. discriminate. }
  fold (text_of msg).
  destruct (is_empty (text_of msg)); [cbn; intros Hr; discriminate Hr|].
  destruct (startswith (lit "/") (text_of msg)) eqn:Hslash.
  { rewrite try_pass_returns. intros Hr. discriminate Hr. }
  intros Hraise.
  destruct (Hreport _ (fun e' => CROSS ++ lit " Could not send: " ++ e') HTML
              (fun e' => ex_intro _ _ eq_refl) Hraise) as [H1 H2].
  split; [exact H1|split; [exact H2|]].
  exists msg. repeat split. right. right. exact Hslash.
Qed.

End Stops.

Lemma update_aborts_only_on_failed_error_report_witness :
  snd (@handle_update sample_ucd (scripted_world [] [] false false)
         sample_config hello_update startup) = Raise (lit "network down") /\
  is_error_report
    (last (trace (fst (@handle_update sample_ucd
                         (scripted_world [] [] false false)
                         sample_config hello_update startup))) Time) = true.
Proof.
  assert (Hraise :
    snd (@handle_update sample_ucd (scripted_world [] [] false false)
           sample_config hello_update startup) = Raise (lit "network down"))
    by (vm_compute; reflexivity).
  split; [exact Hraise|].
  exact (proj1 (@update_aborts_only_on_failed_error_report sample_ucd
                  (scripted_world [] [] false false) sample_config
                  hello_update startup _ Hraise)).
Defined.

(* ------------------------------------------------------------------ *)
(** ** Button presses *)

Section Buttons.
Context `{U : UCD}.
Variable W : world.
Variable cfg : config.

(** X2.  A button press types its payload into the terminal, once and as the
    first call, and is always acknowledged to Telegram: with [Sent: ...]
    after the keys went through, with [Error: ...] when [send_keys]
    raised, and with both when the first acknowledgement was refused. *)
Theorem button_press_is_typed_once_and_acknowledged
    (cb : callback_query) (m : machine) :
  let session := tmux_session cfg in
  let typed := SendKeys session (cb_data cb) in
  let sent := AnswerCallbackQuery (cb_id cb) (lit "Sent: " ++ cb_data cb) in
  let m' := fst (handle_callback W cfg cb m) in
  exists rest,
    calls_between m m' = typed :: rest /\
    existsb is_key rest = false /\
    existsb (is_ack (cb_id cb)) rest = true /\
    match w_send_keys W (trace m ++ [typed]) with
    | Raise e => rest = [AnswerCallbackQuery (cb_id cb) (lit "Error: " ++ e)]
    | Ok _ =>
        match w_answer_callback_query W
                (trace m ++ [typed; Sleep 500; SaveSnapshot session; sent]) with
        | Ok _ => rest = [Sleep 500; SaveSnapshot session; sent]
        | Raise e =>
            rest = [Sleep 500; SaveSnapshot session; sent;
                    AnswerCallbackQuery (cb_id cb) (lit "Error: " ++ e)]
        end
    end.
Proof.
  cbv zeta. unfold handle_callback, send_keys, sleep, save_snapshot,
    answer_callback_query. run. cbn [trace set_trace].
  destruct (w_send_keys W _) as [[]|e1].
  - cbn [trace set_trace]. rewrite <- !app_assoc. cbn [app].
    destruct (w_answer_callback_query W _) as [[]|e2];
      eexists; (split; [read_calls; reflexivity|]);
      cbn [existsb is_key is_ack orb]; rewrite str_eqb_refl;
      repeat split.
  - eexists. split; [read_calls; reflexivity|].
    cbn [existsb is_key is_ack orb]. rewrite str_eqb_refl. repeat split.
Qed.

End Buttons.

(* ------------------------------------------------------------------ *)
(** ** Commands *)

Lemma is_empty_false {A : Type} (l : list A) : is_empty l = false -> l <> [].
Proof. destruct l; [discriminate|intros _; discriminate]. Qed.

Lemma is_empty_true {A : Type} (l : list A) : is_empty l = true -> l = [].
Proof. destruct l; [reflexivity|discriminate]. Qed.

Ltac bool_hyps :=
  repeat match goal with
         | H : _ && _ = true |- _ => apply andb_true_iff in H as [? ?]
         | H : _ || _ = true |- _ => apply orb_true_iff in H
         | H : negb _ = true |- _ => apply negb_true_iff in H
         | H : negb _ = false |- _ => apply negb_false_iff in H
         | H : str_eqb _ _ = true |- _ => apply str_eqb_eq in H
         | H : is_empty _ = false |- _ => apply is_empty_false in H
         | H : is_empty _ = true |- _ => apply is_empty_true in H
         end.

Section Commands.
Context `{U : UCD}.
Variable W : world.
Variable cfg : config.

Lemma only_format_uptime (P : call -> Prop) :
  P Time -> only P (format_uptime W cfg).
Proof. intros Htime. unfold format_uptime, time. only_all. exact Htime. Qed.

Lemma handle_command_types_by_command (chat : Z) (text : str) :
  only (typed_by_command (tmux_session cfg) (command_word text)
          (command_arg text))
       (handle_command W cfg chat text).
Proof.
  unfold handle_command. fold (command_word text) (command_arg text).
  unfold send_message, send_escape, get_session_info, capture_pane,
    send_keys, sleep, save_snapshot.
  repeat first [apply only_format_uptime | only_step];
    try exact I; bool_hyps; cbn [typed_by_command]; auto.
Qed.

(** X3.  A command types into the terminal only what it stands for: [/esc]
    the Escape key, [/cd] the text [cd] and its argument, [/cmd] its
    argument as it is, and no command anything else; the text typed is
    never empty.  [/cd] and [/cmd] type first and answer afterwards. *)
Theorem commands_type_only_what_they_stand_for
    (chat : Z) (text : str) (m : machine) :
  let session := tmux_session cfg in
  let cmd := command_word text in
  let arg := command_arg text in
  let calls := calls_between m (fst (handle_command W cfg chat text m)) in
  Forall (typed_by_command session cmd arg) calls /\
  (cmd = lit "/esc" -> exists rest, calls = SendEscape session :: rest) /\
  (cmd = lit "/cd" -> arg <> [] ->
   exists rest, calls = SendKeys session (lit "cd " ++ arg) :: rest) /\
  (cmd = lit "/cmd" -> arg <> [] ->
   exists rest, calls = SendKeys session arg :: rest).
Proof.
  cbv zeta. split; [apply only_calls, handle_command_types_by_command|].
  assert (Hne : forall a : str, command_arg text <> [] ->
                  is_empty (strip text) = false).
  { intros _ Harg. destruct (strip text) eqn:Hs; [|reflexivity].
    exfalso. apply Harg. unfold command_arg. now rewrite Hs. }
  unfold handle_command. fold (command_word text) (command_arg text).
  unfold send_message, send_escape, send_keys, sleep, save_snapshot.
  split; [|split].
  - intros Hcmd.
    assert (Hs : is_empty (strip text) = false).
    { destruct (strip text) eqn:Hs; [|reflexivity]. exfalso.
      unfold command_word in Hcmd. rewrite Hs in Hcmd. discriminate Hcmd. }
    rewrite Hs, Hcmd.
    change (str_eqb (lit "/esc") (lit "/ping")) with false.
    change (str_eqb (lit "/esc") (lit "/esc")) with true.
    run. cbn [trace set_trace].
    destruct (w_send_escape W _) as [[]|e1];
      repeat (cbn [fst snd trace set_trace];
              match goal with
              | |- context [match w_send_message W ?t with _ => _ end] =>
                  destruct (w_send_message W t) as [[]|?]
              end);
      read_calls; eexists; reflexivity.
  - intros Hcmd Harg. rewrite (Hne [] Harg), Hcmd.
    destruct (command_arg text) as [|a arg] eqn:Ha; [now elim Harg|].
    change (str_eqb (lit "/cd") (lit "/ping")) with false.
    change (str_eqb (lit "/cd") (lit "/esc")) with false.
    change (str_eqb (lit "/cd") (lit "/help")) with false.
    change (str_eqb (lit "/cd") (lit "/status")) with false.
    change (str_eqb (lit "/cd") (lit "/view")) with false.
    change (str_eqb (lit "/cd") (lit "/screen")) with false.
    change (str_eqb (lit "/cd") (lit "/cd")) with true.
    cbn [orb andb negb is_empty].
    run. cbn [trace set_trace].
    destruct (w_send_keys W _) as [[]|e1];
      repeat (cbn [fst snd trace set_trace];
              match goal with
              | |- context [match w_send_message W ?t with _ => _ end] =>
                  destruct (w_send_message W t) as [[]|?]
              end);
      read_calls; eexists; reflexivity.
  - intros Hcmd Harg. rewrite (Hne [] Harg), Hcmd.
    destruct (command_arg text) as [|a arg] eqn:Ha; [now elim Harg|].
    change (str_eqb (lit "/cmd") (lit "/ping")) with false.
    change (str_eqb (lit "/cmd") (lit "/esc")) with false.
    change (str_eqb (lit "/cmd") (lit "/help")) with false.
    change (str_eqb (lit "/cmd") (lit "/status")) with false.
    change (str_eqb (lit "/cmd") (lit "/view")) with false.
    change (str_eqb (lit "/cmd") (lit "/screen")) with false.
    change (str_eqb (lit "/cmd") (lit "/cd")) with false.
    change (str_eqb (lit "/cmd") (lit "/cmd")) with true.
    cbn [orb andb negb is_empty].
    run. cbn [trace set_trace].
    destruct (w_send_keys W _) as [[]|e1];
      repeat (cbn [fst snd trace set_trace];
              match goal with
              | |- context [match w_send_message W ?t with _ => _ end] =>
                  destruct (w_send_message W t) as [[]|?]
              end);
      read_calls; eexists; reflexivity.
Qed.

End Commands.

Section View.
Context `{U : UCD}.
Variable W : world.
Variable cfg : config.

Lemma forallb_strip (p : N -> bool) (s : str) :
  forallb p s = true -> forallb p (strip s) = true.
Proof.
  intros Hs. destruct (strip_part s) as (pre & post & Hparts).
  rewrite Hparts, !forallb_app in Hs.
  apply andb_true_iff in Hs as [_ Hs]. now apply andb_true_iff in Hs as [Hs _].
Qed.

Lemma forallb_skipn {A : Type} (p : A -> bool) (n : nat) (l : list A) :
  forallb p l = true -> forallb p (skipn n l) = true.
Proof.
  intros Hl. rewrite <- (firstn_skipn n l), forallb_app in Hl.
  now apply andb_true_iff in Hl as [_ Hl].
Qed.

Lemma len_pos_of_nonempty (s : str) : is_empty s = false -> 1 <= len s.
Proof. destruct s; [discriminate|]. intros _. unfold len. cbn [length]. lia. Qed.

(** What [/view] sends of a capture. *)
Lemma view_content_clean (chat : Z) (screen : str) :
  let content := strip (sanitize_text screen) in
  let content := if is_empty content then lit "(empty screen)" else content in
  let content :=
    if 3900 <? len content then slice_from content (-3900) else content in
  clean_dump (SendMessage chat content None).
Proof.
  cbv zeta. cbn [clean_dump].
  set (content := if is_empty _ then _ else _).
  assert (Hcontent : 1 <= len content /\ forallb printable content = true).
  { subst content. destruct (is_empty _) eqn:He.
    - split; [vm_compute; discriminate|reflexivity].
    - split; [now apply len_pos_of_nonempty|].
      apply forallb_strip, sanitize_text_printable. }
  destruct Hcontent as [Hlen Hprint].
  destruct (Z.ltb_spec 3900 (len content)) as [Hlong|Hshort].
  - change (slice_from content (-3900))
      with (slice_from content (Z.opp 3900)).
    rewrite (slice_from_last content 3900) by lia.
    rewrite len_skipn by lia. split; [lia|]. now apply forallb_skipn.
  - split; [lia|exact Hprint].
Qed.

Lemma handle_command_dumps_clean (chat : Z) (text : str) :
  only clean_dump (handle_command W cfg chat text).
Proof.
  unfold handle_command.
  unfold send_message, send_escape, get_session_info, capture_pane,
    send_keys, sleep, save_snapshot.
  repeat first [apply only_format_uptime | only_step];
    try exact I; try apply view_content_clean.
Qed.

(** X4.  The screen dump of [/view] and [/screen] -- the one plain-text
    message a command sends -- is never empty, never longer than 3900
    characters, and free of control characters other than newline and
    tab; when the capture succeeds it is the call that follows it. *)
Theorem view_sends_a_bounded_clean_dump
    (chat : Z) (text : str) (m : machine) :
  let session := tmux_session cfg in
  let cmd := command_word text in
  let calls := calls_between m (fst (handle_command W cfg chat text m)) in
  Forall clean_dump calls /\
  (cmd = lit "/view" \/ cmd = lit "/screen" ->
   forall screen,
     w_capture_pane W (trace m ++ [CapturePane session 50]) = Ok screen ->
     exists body,
       calls = [CapturePane session 50; SendMessage chat body None] \/
       exists e, calls = [CapturePane session 50; SendMessage chat body None;
                          SendMessage chat (error_text e) HTML]).
Proof.
  cbv zeta. split; [apply only_calls, handle_command_dumps_clean|].
  intros Hcmd screen Hscreen.
  assert (Hs : is_empty (strip text) = false).
  { destruct (strip text) eqn:Hs; [|reflexivity]. exfalso.
    unfold command_word in Hcmd. rewrite Hs in Hcmd.
    destruct Hcmd as [Hcmd|Hcmd]; discriminate Hcmd. }
  unfold handle_command. fold (command_word text). rewrite Hs.
  assert (Hbranch :
    str_eqb (command_word text) (lit "/ping") = false /\
    str_eqb (command_word text) (lit "/esc") = false /\
    str_eqb (command_word text) (lit "/help") = false /\
    str_eqb (command_word text) (lit "/status") = false /\
    str_eqb (command_word text) (lit "/view")
    || str_eqb (command_word text) (lit "/screen") = true).
  { destruct Hcmd as [-> | ->]; repeat split; reflexivity. }
  destruct Hbranch as (-> & -> & -> & -> & ->).
  unfold capture_pane, send_message. run. cbn [trace set_trace].
  rewrite Hscreen. cbn [trace set_trace].
  eexists.
  destruct (w_send_message W _) as [[]|e1].
  - left. read_calls. reflexivity.
  - cbn [trace set_trace].
    destruct (w_send_message W _) as [[]|e2]; right; exists e1;
      read_calls; reflexivity.
Qed.

End View.

(* ------------------------------------------------------------------ *)
(** ** The classifiers: the size of what they send *)

Section Ceiling.
Context `{U : UCD}.
Variable W : world.
Variables (chat : Z) (session : str).

Lemma clip_4000_within (chat' : Z) (msg : str) (mode : option str) :
  within_ceiling (SendMessage chat' (clip_4000 msg) mode).
Proof. exact (proj1 (clip_4000_prefix msg)). Qed.

Lemma check_for_ratelimit_within_ceiling :
  only within_ceiling (check_for_ratelimit W chat session).
Proof.
  unfold check_for_ratelimit, try_capture, capture_pane, send_message,
    ratelimit_message.
  only_all; try apply clip_4000_within;
    unfold within_ceiling; vm_compute; discriminate.
Qed.

Lemma check_for_prompts_announces_within_ceiling :
  only (fun c => is_announcement c = true -> within_ceiling c)
       (check_for_prompts W chat session).
Proof.
  unfold check_for_prompts, try_capture, capture_pane, send_message,
    send_message_with_buttons, prompt_message.
  only_all; intros Ha; try discriminate Ha;
    exact (proj1 (clip_4000_prefix _)).
Qed.

(** X5.  Whatever the screen shows, the formatted announcement of either
    classifier -- the Markdown message, with or without buttons -- has
    at most 4000 characters, and so has every message the rate-limit
    classifier sends, its plain fallback and the recovery notice
    included. *)
Theorem announcements_fit_the_ceiling (cat : category) (m : machine) :
  let calls := calls_between m (fst (check W chat session cat m)) in
  Forall (fun c => is_announcement c = true -> within_ceiling c) calls /\
  (cat = RateLimit -> Forall within_ceiling calls).
Proof.
  cbv zeta. split.
  - destruct cat; cbn [check].
    + apply only_calls, check_for_prompts_announces_within_ceiling.
    + apply only_calls.
      pose proof check_for_ratelimit_within_ceiling as Hall.
      intros m0. destruct (Hall m0) as (ext & Ht & Hp). exists ext.
      split; [exact Ht|]. eapply Forall_impl; [|exact Hp]. auto.
  - intros ->. apply only_calls, check_for_ratelimit_within_ceiling.
Qed.

End Ceiling.

(* ------------------------------------------------------------------ *)
(** ** Attachments *)

Lemma occurs_in_refl (s : str) : occurs_in s s.
Proof. exists [], []. now rewrite app_nil_r. Qed.

Lemma occurs_in_app_l (p a b : str) : occurs_in p a -> occurs_in p (a ++ b).
Proof.
  intros (pre & post & ->). exists pre, (post ++ b). now rewrite <- !app_assoc.
Qed.

Lemma occurs_in_app_r (p a b : str) : occurs_in p b -> occurs_in p (a ++ b).
Proof.
  intros (pre & post & ->). exists (a ++ pre), post. now rewrite <- !app_assoc.
Qed.

Lemma occurs_in_cons (p : str) (c : N) (b : str) :
  occurs_in p b -> occurs_in p (c :: b).
Proof. apply (occurs_in_app_r p [c] b). Qed.

Lemma occurs_in_join (sep p : str) (parts : list str) :
  In p parts -> occurs_in p (join sep parts).
Proof.
  induction parts as [|q parts IH]; [contradiction|].
  intros [->|Hin].
  - destruct parts as [|q' parts]; [apply occurs_in_refl|].
    cbn [join]. apply occurs_in_app_l, occurs_in_refl.
  - destruct parts as [|q' parts]; [contradiction|].
    change (join sep (q :: q' :: parts))
      with (q ++ sep ++ join sep (q' :: parts)).
    now apply occurs_in_app_r, occurs_in_app_r, IH.
Qed.

Ltac occurs :=
  repeat first
    [ assumption
    | apply occurs_in_app_l; assumption
    | apply occurs_in_app_r
    | apply occurs_in_cons ].

(** X6.  The text typed for a batch of attachments names every file of the
    batch by its path, and carries every caption. *)
Theorem files_prompt_names_every_file
    (files : list (str * str)) (path caption : str) :
  In (path, caption) files ->
  occurs_in path (files_prompt files) /\
  occurs_in caption (files_prompt files).
Proof.
  intros Hin. unfold files_prompt.
  set (paths := map fst files).
  set (captions := filter (fun c => negb (is_empty c)) (map snd files)).
  assert (Hpath : In path paths) by exact (in_map fst files _ Hin).
  assert (Hlist : occurs_in path (join (lit " and ") paths))
    by now apply occurs_in_join.
  assert (Hfirst : (length paths =? 1)%nat = true ->
                   occurs_in path (nth 0 paths [])).
  { intros Hone. apply Nat.eqb_eq in Hone.
    destruct paths as [|p0 [|p1 paths']]; try discriminate Hone.
    destruct Hpath as [->|[]]. apply occurs_in_refl. }
  assert (Hcaption : caption = [] \/ In caption captions).
  { destruct caption as [|c caption]; [now left|right].
    apply filter_In. split; [exact (in_map snd files _ Hin)|reflexivity]. }
  assert (Hempty : forall s : str, occurs_in [] s).
  { intros s. exists s, []. now rewrite !app_nil_r. }
  assert (Hcaptions : In caption captions ->
                      occurs_in caption (join (lit " | ") captions))
    by apply occurs_in_join.
  destruct (is_empty captions) eqn:Hnone; cbn [negb].
  - assert (Hcap : caption = []).
    { destruct Hcaption as [Hnil|Hc]; [exact Hnil|].
      apply is_empty_true in Hnone. rewrite Hnone in Hc. contradiction. }
    subst caption.
    destruct (length paths =? 1)%nat eqn:Hone;
      (split; [|apply Hempty]).
    + specialize (Hfirst eq_refl). occurs.
    + occurs.
  - assert (Hcap : occurs_in caption (join (lit " | ") captions)).
    { destruct Hcaption as [->|Hc]; [apply Hempty|now apply Hcaptions]. }
    destruct (length paths =? 1)%nat eqn:Hone; split;
      try (apply occurs_in_app_l; exact Hcap).
    + specialize (Hfirst eq_refl).
      apply occurs_in_app_r, occurs_in_app_r, occurs_in_app_r.
      now apply occurs_in_app_l.
    + apply occurs_in_app_r, occurs_in_app_r, occurs_in_app_r,
        occurs_in_app_r, occurs_in_app_r.
      now apply occurs_in_app_l.
Qed.

Lemma files_prompt_names_every_file_witness :
  In (lit "/d/a.jpg", lit "look") [(lit "/d/a.jpg", lit "look");
                                   (lit "/d/b.pdf", [])] /\
  occurs_in (lit "/d/a.jpg")
    (files_prompt [(lit "/d/a.jpg", lit "look"); (lit "/d/b.pdf", [])]).
Proof.
  assert (Hin : In (lit "/d/a.jpg", lit "look")
                  [(lit "/d/a.jpg", lit "look"); (lit "/d/b.pdf", [])])
    by (left; reflexivity).
  split; [exact Hin|].
  exact (proj1 (files_prompt_names_every_file _ _ _ Hin)).
Defined.

Ltac keys_ok :=
  repeat (apply Forall_cons;
          [cbn [is_key]; intros Hk; first [discriminate Hk|reflexivity]|]);
  apply Forall_nil.

Section Batch.
Context `{U : UCD}.
Variable W : world.

(** X7.  However many files a batch holds, they reach the terminal in one
    typed text, [files_prompt]; nothing else is typed.  The chat is told
    that the files were sent only after [send_keys] went through. *)
Theorem attachments_are_typed_in_one_message
    (chat : Z) (session : str) (files : list (str * str)) (m : machine) :
  let calls :=
    calls_between m (fst (send_files_to_claude W chat session files m)) in
  let typed := SendKeys session (files_prompt files) in
  (length (filter is_key calls) <= 1)%nat /\
  Forall (fun c => is_key c = true -> c = typed) calls /\
  (existsb is_confirmation calls = true ->
   exists before rest,
     calls = before ++ typed :: rest /\
     w_send_keys W (trace m ++ before ++ [typed]) = Ok tt).
Proof.
  cbv zeta. unfold send_files_to_claude, wait_for_input, send_message,
    send_keys, sleep, save_snapshot. run. cbn [trace set_trace].
  destruct (w_wait_for_input W _); cbn [negb].
  - destruct (w_send_keys W _) as [[]|e1] eqn:Hkeys.
    + cbn [trace set_trace].
      destruct (w_send_message W _) as [[]|e2]; read_calls;
        (split; [cbn; lia|split]);
        try keys_ok;
        intros _; exists [WaitForInput session 30]; eexists;
        (split; [reflexivity|]);
        cbn [trace set_trace] in Hkeys; rewrite <- !app_assoc in Hkeys;
        exact Hkeys.
    + read_calls. split; [cbn; lia|split].
      * keys_ok.
      * intros Hc. discriminate Hc.
  - destruct (w_send_message W _) as [[]|e0].
    + cbn [trace set_trace].
      destruct (w_send_keys W _) as [[]|e1] eqn:Hkeys.
      * cbn [trace set_trace].
        destruct (w_send_message W _) as [[]|e2]; read_calls;
          (split; [cbn; lia|split]);
          try keys_ok;
          intros _;
          exists [WaitForInput session 30;
                  SendMessage chat wait_warning None]; eexists;
          (split; [reflexivity|]);
          cbn [trace set_trace] in Hkeys; rewrite <- !app_assoc in Hkeys;
          exact Hkeys.
      * read_calls. split; [cbn; lia|split].
        -- keys_ok.
        -- intros Hc. discriminate Hc.
    + read_calls. split; [cbn; lia|split].
      * keys_ok.
      * intros Hc. discriminate Hc.
Qed.

End Batch.

Section Downloads.
Context `{U : UCD}.
Variable W : world.
Variable cfg : config.

Lemma forallb_take_while (q p : N -> bool) (s : str) :
  forallb q s = true -> forallb q (take_while p s) = true.
Proof.
  induction s as [|c s IH]; [reflexivity|]. cbn [forallb take_while].
  intros Hs. apply andb_true_iff in Hs as [Hc Hs].
  destruct (p c); [|reflexivity]. cbn [forallb]. now rewrite Hc, IH.
Qed.

Lemma take_while_all (p : N -> bool) (s : str) :
  forallb p (take_while p s) = true.
Proof.
  induction s as [|c s IH]; [reflexivity|]. cbn [take_while].
  destruct (p c) eqn:Hc; [|reflexivity]. cbn [forallb]. now rewrite Hc, IH.
Qed.

Lemma forallb_rev {A : Type} (p : A -> bool) (l : list A) :
  forallb p (rev l) = forallb p l.
Proof.
  induction l as [|a l IH]; [reflexivity|]. cbn [rev forallb].
  rewrite forallb_app, IH. cbn [forallb]. rewrite andb_true_r.
  apply andb_comm.
Qed.

Lemma forallb_lstrip_by (q p : N -> bool) (s : str) :
  forallb q s = true -> forallb q (lstrip_by p s) = true.
Proof.
  intros Hs. destruct (lstrip_by_part p s) as [pre Hpre].
  rewrite Hpre, forallb_app in Hs. now apply andb_true_iff in Hs as [_ Hs].
Qed.

Lemma no_slash_after_last (c : N) (s : str) :
  no_slash s -> no_slash (after_last c s).
Proof.
  unfold no_slash, after_last. intros Hs.
  rewrite forallb_rev. apply forallb_take_while. now rewrite forallb_rev.
Qed.

(** An extension holds no slash: it is cut out of the last component of
    the path. *)
Lemma no_slash_splitext_ext (p : str) : no_slash (splitext_ext p).
Proof.
  unfold splitext_ext.
  assert (Hbase : no_slash (after_last 47 p)).
  { unfold no_slash, after_last. rewrite forallb_rev. apply take_while_all. }
  destruct (existsb _ _); [|reflexivity].
  unfold no_slash. cbn [forallb]. apply andb_true_iff. split; [reflexivity|].
  apply no_slash_after_last. unfold no_slash. now apply forallb_lstrip_by.
Qed.

Lemma no_slash_digits (d : Decimal.uint) : no_slash (digits_of_uint d).
Proof. induction d as [|d IH|d IH|d IH|d IH|d IH|d IH|d IH|d IH|d IH|d IH];
  [reflexivity|exact IH..]. Qed.

Lemma no_slash_str_of_Z (z : Z) : no_slash (str_of_Z z).
Proof.
  unfold str_of_Z. destruct (z <? 0); [|apply no_slash_digits].
  unfold no_slash. cbn [forallb]. apply andb_true_iff.
  split; [reflexivity|apply no_slash_digits].
Qed.

Lemma no_slash_app (a b : str) : no_slash a -> no_slash b -> no_slash (a ++ b).
Proof. unfold no_slash. intros Ha Hb. now rewrite forallb_app, Ha, Hb. Qed.

(** X8.  A photo is stored as a direct child of the download directory.
    [download_photo] fetches the last size of the message; when the
    tail of its file id holds no slash, the destination is the download
    directory, a separator unless the directory already ends with one,
    and a file name without a slash that starts with [photo_]. *)
Theorem photo_lands_in_the_download_directory
    (msg : message) (smaller : list photo_size) (photo : photo_size)
    (file_path : str) (m : machine) :
  msg_photo msg = smaller ++ [photo] ->
  w_get_file W (trace m ++ [GetFile (photo_file_id photo)]) = Ok file_path ->
  no_slash (slice_from (photo_file_id photo) (-6)) ->
  exists sep rest : str,
    let name := lit "photo_" ++ rest in
    let dest := DOWNLOAD_DIR cfg ++ sep ++ name in
    calls_between m (fst (download_photo W cfg msg m))
    = [GetFile (photo_file_id photo); Time; DownloadFile file_path dest] /\
    no_slash name /\
    (sep = [] \/ sep = [47%N]) /\
    (w_download_file W (trace m ++ [GetFile (photo_file_id photo); Time;
                                    DownloadFile file_path dest]) = Ok tt ->
     snd (download_photo W cfg msg m) = Ok (Some dest, msg_caption msg)).
Proof.
  intros Hphotos Hfile Htail. unfold download_photo.
  rewrite Hphotos, rev_app_distr. cbn [rev app].
  unfold get_file, time, download_file. run. cbn [trace set_trace].
  rewrite Hfile. cbn [trace set_trace].
  set (now := w_time W _).
  set (ext := if is_empty (splitext_ext file_path) then lit ".jpg"
              else splitext_ext file_path).
  set (rest := str_of_Z now ++ lit "_"
               ++ slice_from (photo_file_id photo) (-6) ++ ext).
  assert (Hext : no_slash ext).
  { subst ext. destruct (is_empty _); [reflexivity|apply no_slash_splitext_ext]. }
  assert (Hname : no_slash (lit "photo_" ++ rest)).
  { subst rest. repeat apply no_slash_app; try assumption;
      [reflexivity|apply no_slash_str_of_Z|reflexivity]. }
  assert (Hjoin : exists sep,
    path_join (DOWNLOAD_DIR cfg) (lit "photo_" ++ rest)
    = DOWNLOAD_DIR cfg ++ sep ++ lit "photo_" ++ rest
    /\ (sep = [] \/ sep = [47%N])).
  { unfold path_join.
    change (startswith [47%N] (lit "photo_" ++ rest)) with false. cbv iota.
    destruct (_ || _); [exists []|exists [47%N]]; split; auto. }
  destruct Hjoin as (sep & Hjoin & Hsep).
  exists sep, rest. cbv zeta.
  change (lit "photo_" ++ str_of_Z now ++ lit "_"
          ++ slice_from (photo_file_id photo) (-6) ++ ext)
    with (lit "photo_" ++ rest).
  rewrite Hjoin.
  rewrite <- !app_assoc. cbn [app].
  split; [|split; [exact Hname|split; [exact Hsep|]]].
  - destruct (w_download_file W _) as [[]|e]; read_calls; reflexivity.
  - intros Hdl. cbn [app] in Hdl. rewrite Hdl. reflexivity.
Qed.

(** X9.  A document is stored under the name its sender gave it, taken as
    it is and joined to the download directory as [os.path.join] joins:
    an absolute name replaces the directory, and a relative name comes
    unchanged after the directory and a separator.  The name is not
    normalised and not checked, so that an absolute name, and a
    relative one that climbs with [..], name a file outside the
    download directory. *)
Theorem document_is_stored_under_the_name_it_carries
    (doc : document) (msg : message) (file_path : str) (m : machine) :
  w_get_file W (trace m ++ [GetFile (doc_file_id doc)]) = Ok file_path ->
  let name :=
    match doc_file_name doc with Some n => n | None => lit "file" end in
  exists dest,
    calls_between m (fst (download_document W cfg doc msg m))
    = [GetFile (doc_file_id doc); DownloadFile file_path dest] /\
    (startswith (lit "/") name = true -> dest = name) /\
    (startswith (lit "/") name = false ->
     exists sep, dest = DOWNLOAD_DIR cfg ++ sep ++ name /\
                 (sep = [] \/ sep = [47%N])).
Proof.
  intros Hfile name. unfold download_document.
  unfold get_file, download_file. run. cbn [trace set_trace].
  rewrite Hfile. cbn [trace set_trace]. fold name.
  exists (path_join (DOWNLOAD_DIR cfg) name). split; [|split].
  - destruct (w_download_file W _) as [[]|e]; read_calls; reflexivity.
  - intros Habs. unfold path_join.
    change (startswith [47%N] name) with (startswith (lit "/") name).
    now rewrite Habs.
  - intros Hrel. unfold path_join.
    change (startswith [47%N] name) with (startswith (lit "/") name).
    rewrite Hrel.
    destruct (_ || _); [exists []|exists [47%N]]; split; auto.
Qed.

End Downloads.

Lemma photo_lands_in_the_download_directory_witness :
  exists sep rest : str,
    calls_between startup
      (fst (@download_photo (scripted_world [] [] true true) sample_config
              photo_message startup))
    = [GetFile (lit "AgACAgQAAxkBAAIBlarge"); Time;
       DownloadFile (lit "photos/file_1.jpg")
         (DOWNLOAD_DIR sample_config ++ sep ++ lit "photo_" ++ rest)].
Proof.
  destruct (@photo_lands_in_the_download_directory
              (scripted_world [] [] true true) sample_config photo_message
              [ {| photo_file_id := lit "AgACAgQAAxkBAAIBsmall" |} ]
              {| photo_file_id := lit "AgACAgQAAxkBAAIBlarge" |}
              (lit "photos/file_1.jpg") startup eq_refl eq_refl eq_refl)
    as (sep & rest & Hcalls & _).
  exists sep, rest. exact Hcalls.
Defined.

Lemma document_is_stored_under_the_name_it_carries_witness :
  (exists dest,
     calls_between startup
       (fst (@download_document (scripted_world [] [] true true)
               sample_config absolute_document document_message startup))
     = [GetFile (lit "BQACAgQAAxkBAAIC");
        DownloadFile (lit "photos/file_1.jpg") dest] /\
     dest = lit "/tmp/x.sh") /\
  (exists dest sep,
     calls_between startup
       (fst (@download_document (scripted_world [] [] true true)
               sample_config climbing_document document_message startup))
     = [GetFile (lit "BQACAgQAAxkBAAID");
        DownloadFile (lit "photos/file_1.jpg") dest] /\
     dest = DOWNLOAD_DIR sample_config ++ sep ++ lit "../../.bashrc" /\
     (sep = [] \/ sep = [47%N])).
Proof.
  split.
  - destruct (@document_is_stored_under_the_name_it_carries
                (scripted_world [] [] true true) sample_config
                absolute_document document_message
                (lit "photos/file_1.jpg") startup eq_refl)
      as (dest & Hcalls & Habs & _).
    exists dest. split; [exact Hcalls|exact (Habs eq_refl)].
  - destruct (@document_is_stored_under_the_name_it_carries
                (scripted_world [] [] true true) sample_config
                climbing_document document_message
                (lit "photos/file_1.jpg") startup eq_refl)
      as (dest & Hcalls & _ & Hrel).
    destruct (Hrel eq_refl) as (sep & Hdest & Hsep).
    exists dest, sep. split; [exact Hcalls|]. split; [exact Hdest|exact Hsep].
Defined.

(* ------------------------------------------------------------------ *)
(** ** Buttons *)

Lemma lstrip_by_head (p : N -> bool) (c : N) (s : str) :
  p c = false -> lstrip_by p (c :: s) = c :: s.
Proof. intros Hc. cbn [lstrip_by]. now rewrite Hc. Qed.

Lemma lstrip_by_trimmed (p : N -> bool) (s : str) :
  lstrip_by p s = [] \/ exists c t, lstrip_by p s = c :: t /\ p c = false.
Proof.
  induction s as [|c s IH]; [now left|]. cbn [lstrip_by].
  destruct (p c) eqn:Hc; [exact IH|]. right. now exists c, s.
Qed.

Lemma lstrip_by_fixed (p : N -> bool) (s : str) :
  lstrip_by p (lstrip_by p s) = lstrip_by p s.
Proof.
  destruct (lstrip_by_trimmed p s) as [->|(c & t & -> & Hc)]; [reflexivity|].
  now apply lstrip_by_head.
Qed.

Lemma trimmed_strip_fixed (s : str) : trimmed s -> strip s = s.
Proof.
  intros [Hl Hr]. unfold strip, rstrip_by. rewrite Hl, Hr.
  apply rev_involutive.
Qed.

Lemma lstrip_by_prefix_of_rev (p : N -> bool) (s : str) :
  lstrip_by p s = s -> lstrip_by p (rev (lstrip_by p (rev s))) 
                       = rev (lstrip_by p (rev s)).
Proof.
  intros Hs.
  destruct (lstrip_by_part p (rev s)) as [pre Hpre].
  set (r := lstrip_by p (rev s)) in *.
  assert (Hsplit : s = rev r ++ rev pre).
  { rewrite <- (rev_involutive s), Hpre, rev_app_distr. reflexivity. }
  destruct (rev r) as [|c t] eqn:Hrev; [reflexivity|].
  rewrite Hsplit in Hs. cbn [app lstrip_by] in Hs.
  destruct (p c) eqn:Hc; [|now apply lstrip_by_head].
  exfalso. apply (f_equal (@length N)) in Hs.
  destruct (lstrip_by_part p (t ++ rev pre)) as [pre' Hpre'].
  rewrite Hpre' in Hs at 2. cbn [length] in Hs. rewrite length_app in Hs. lia.
Qed.

Lemma strip_trimmed (s : str) : trimmed (strip s).
Proof.
  unfold trimmed, strip, rstrip_by. split.
  - apply lstrip_by_prefix_of_rev, lstrip_by_fixed.
  - rewrite rev_involutive. apply lstrip_by_fixed.
Qed.

Lemma strip_idempotent (s : str) : strip (strip s) = strip s.
Proof. apply trimmed_strip_fixed, strip_trimmed. Qed.

Lemma strip_after_space (c : N) (s : str) :
  is_space c = true -> strip (c :: s) = strip s.
Proof. intros Hc. unfold strip. cbn [lstrip_by]. now rewrite Hc. Qed.

Lemma before_dot_app (a b : str) :
  forallb (fun c => negb (c =? 46)%N) a = true ->
  before_dot (a ++ 46%N :: b) = a /\ after_dot (a ++ 46%N :: b) = Some b.
Proof.
  induction a as [|c a IH]; [now split|].
  cbn [forallb app before_dot after_dot]. intros Ha.
  apply andb_true_iff in Ha as [Hc Ha]. apply negb_true_iff in Hc.
  rewrite Hc. destruct (IH Ha) as [-> ->]. now split.
Qed.

Lemma Forall2_map_enumerate {A B : Type} (R : A -> B -> Prop)
    (f : nat * A -> B) (l : list A) :
  (forall i a, In a l -> R a (f (i, a))) ->
  Forall2 R l (map f (enumerate l)).
Proof.
  unfold enumerate. generalize 0%nat.
  induction l as [|a l IH]; intros n Hf; [constructor|].
  cbn [length seq combine map]. constructor.
  - apply Hf. now left.
  - apply IH. intros i b Hb. apply Hf. now right.
Qed.

Lemma options_in_order_In `{U : UCD} (lines : list str) (o : str) :
  In o (options_in_order lines) ->
  exists line, In line lines /\ option_on_line line = Some o.
Proof.
  unfold options_in_order. rewrite in_flat_map. intros (line & Hin & Ho).
  exists line. split; [exact Hin|].
  destruct (option_on_line line) as [o'|]; [|contradiction].
  destruct Ho as [->|[]]. reflexivity.
Qed.

Section ButtonPayload.
Context `{U : UCD}.

(** The Unicode tables keep decimal digits and white space apart. *)
Hypothesis digits_are_not_spaces :
  forall c, ucd_Nd c = true -> is_space c = false.

Lemma digit_not_space (c : N) : is_digit c = true -> is_space c = false.
Proof.
  unfold is_digit. destruct (N.ltb_spec c 256) as [Hlt|Hge].
  - intros Hc. apply andb_true_iff in Hc as [Hlo Hhi].
    apply N.leb_le in Hlo, Hhi. unfold is_space.
    repeat match goal with
           | |- context [(?a <=? ?b)%N] => destruct (N.leb_spec a b); try lia
           | |- context [(?a =? ?b)%N] => destruct (N.eqb_spec a b); try lia
           end; reflexivity.
  - apply digits_are_not_spaces.
Qed.

Lemma digit_not_dot (c : N) : is_digit c = true -> negb (c =? 46)%N = true.
Proof.
  unfold is_digit. destruct (N.eqb_spec c 46) as [->|]; [|reflexivity].
  cbn. discriminate.
Qed.

Lemma digits_trimmed (index : str) :
  forallb is_digit index = true -> trimmed index.
Proof.
  intros Hd. split.
  - destruct index as [|c t]; [reflexivity|]. cbn [forallb] in Hd.
    apply andb_true_iff in Hd as [Hc _]. now apply lstrip_by_head, digit_not_space.
  - rewrite <- forallb_rev in Hd. destruct (rev index) as [|c t]; [reflexivity|].
    cbn [forallb] in Hd. apply andb_true_iff in Hd as [Hc _].
    now apply lstrip_by_head, digit_not_space.
Qed.

(** An option written as index, dot, space and stripped label reads
    back as that index and that label. *)
Lemma option_pair_reads_back (index label : str) :
  forallb is_digit index = true ->
  option_pair (index ++ lit ". " ++ strip label) = (index, strip label).
Proof.
  intros Hd. unfold option_pair. cbn [lit app].
  change (N_of_ascii ".") with 46%N. change (N_of_ascii " ") with 32%N.
  assert (Hnodot : forallb (fun c => negb (c =? 46)%N) index = true).
  { rewrite forallb_forall in *. intros c Hc. now apply digit_not_dot, Hd. }
  destruct (before_dot_app index (32%N :: strip label) Hnodot) as [-> ->].
  rewrite (trimmed_strip_fixed index (digits_trimmed index Hd)).
  now rewrite (strip_after_space 32 (strip label) eq_refl), strip_idempotent.
Qed.

(** X10.  Each option of a parsed screen gets one button, in the order of the
    options; the payload of the button -- what pressing it types into
    the terminal -- is the index of its option, a non-empty run of
    digits, and its caption is an emoji, a space and the label of the
    option. *)
Theorem buttons_carry_the_option_index (screen : str) (parsed : prompt_parts) :
  parse_prompt_parts screen = Some parsed ->
  Forall2
    (fun opt b =>
       exists index label emoji : str,
         opt = index ++ lit ". " ++ label /\
         index <> [] /\ forallb is_digit index = true /\
         callback_data b = index /\
         btn_text b = emoji ++ lit " " ++ label)
    (options parsed) (make_buttons screen).
Proof.
  intros Hparsed. unfold make_buttons. rewrite Hparsed.
  apply Forall2_map_enumerate. intros i o Hin.
  assert (Hopts : options parsed
                  = options_in_order (splitlines (sanitize_text screen))).
  { unfold parse_prompt_parts in Hparsed.
    pose proof (fold_scan_line_options
                  (enumerate (splitlines (sanitize_text screen))) ([], None))
      as Hfold.
    destruct (fold_left scan_line _ _) as [opts first].
    cbn [fst app] in Hfold. rewrite map_snd_enumerate in Hfold.
    destruct opts as [|o' opts]; [discriminate|].
    injection Hparsed as <-. exact Hfold. }
  rewrite Hopts in Hin.
  apply options_in_order_In in Hin as (line & _ & Hline).
  unfold option_on_line in Hline.
  destruct (blank_or_rule _); [discriminate|].
  destruct (found SELECTOR_RE _); [discriminate|].
  destruct (option_groups line) as [[index label]|] eqn:Hgroups;
    [|discriminate].
  injection Hline as <-.
  destruct (option_groups_in_line line index label Hgroups)
    as (lead & ws & tail & _ & Hne & Hdigits).
  exists index, (strip label), (nth i btn_emojis [9654; 65039]%N).
  unfold make_button.
  change (index ++ 46%N :: 32%N :: strip label)
    with (index ++ lit ". " ++ strip label).
  rewrite (option_pair_reads_back index label Hdigits).
  repeat split; assumption.
Qed.

End ButtonPayload.

Lemma buttons_carry_the_option_index_witness :
  (forall c, @ucd_Nd sample_ucd c = true -> is_space c = false) /\
  Forall2
    (fun opt b =>
       exists index label emoji : str,
         opt = index ++ lit ". " ++ label /\
         index <> [] /\ forallb (@is_digit sample_ucd) index = true /\
         callback_data b = index /\
         btn_text b = emoji ++ lit " " ++ label)
    [lit "1. Yes"; lit "2. No"]
    (@make_buttons sample_ucd (yes_no_screen "Yes")).
Proof.
  assert (Hnd : forall c, @ucd_Nd sample_ucd c = true -> is_space c = false)
    by (intros c Hc; discriminate Hc).
  assert (Hparsed :
    @parse_prompt_parts sample_ucd (yes_no_screen "Yes")
    = Some {| question := Some (lit "Do you want to allow this command?");
              options := [lit "1. Yes"; lit "2. No"] |})
    by (vm_compute; reflexivity).
  split; [exact Hnd|].
  exact (@buttons_carry_the_option_index sample_ucd Hnd
           (yes_no_screen "Yes") _ Hparsed).
Defined.

Section PromptShape.
Context `{U : UCD}.
Variable W : world.
Variables (chat : Z) (session : str).

Lemma parse_prompt_parts_options (screen : str) (parsed : prompt_parts) :
  parse_prompt_parts screen = Some parsed ->
  options parsed = options_in_order (splitlines (sanitize_text screen)) /\
  options parsed <> [].
Proof.
  unfold parse_prompt_parts. intros Hparsed.
  pose proof (fold_scan_line_options
                (enumerate (splitlines (sanitize_text screen))) ([], None))
    as Hfold.
  destruct (fold_left scan_line _ _) as [opts first].
  cbn [fst app] in Hfold. rewrite map_snd_enumerate in Hfold.
  destruct opts as [|o opts]; [discriminate|].
  injection Hparsed as <-. cbn [options]. split; [exact Hfold|discriminate].
Qed.

Lemma option_on_line_nonempty (line o : str) :
  option_on_line line = Some o -> o <> [].
Proof.
  unfold option_on_line.
  destruct (blank_or_rule _); [discriminate|].
  destruct (found SELECTOR_RE _); [discriminate|].
  destruct (option_groups line) as [[index label]|]; [|discriminate].
  intros E. injection E as <-. destruct index; discriminate.
Qed.

Lemma join_nonempty (sep : str) (parts : list str) (p : str) :
  In p parts -> p <> [] -> join sep parts <> [].
Proof.
  intros Hin Hp Hnil. destruct (occurs_in_join sep p parts Hin) as (a & b & E).
  rewrite Hnil in E. symmetry in E. apply app_eq_nil in E as [_ E].
  apply app_eq_nil in E as [E _]. contradiction.
Qed.

(** A screen that parses gives a text that is not empty and at least
    one button. *)
Lemma parse_prompt_nonempty (screen text : str) :
  parse_prompt screen = Some text ->
  text <> [] /\ is_empty (make_buttons screen) = false.
Proof.
  unfold parse_prompt, make_buttons.
  destruct (parse_prompt_parts screen) as [parsed|] eqn:Hparsed;
    [|discriminate].
  destruct (parse_prompt_parts_options screen parsed Hparsed) as [Hopts Hne].
  intros E. injection E as <-. split.
  - assert (Hbody : join [NL] (options parsed) <> []).
    { destruct (options parsed) as [|o os] eqn:Ho; [contradiction|].
      apply (join_nonempty [NL] (o :: os) o); [now left|].
      assert (Hin : In o (options_in_order
                            (splitlines (sanitize_text screen))))
        by (rewrite <- Hopts; now left).
      apply options_in_order_In in Hin as (line & _ & Hline).
      now apply (option_on_line_nonempty line). }
    apply (join_nonempty [NL; NL] _ (join [NL] (options parsed)));
      [|exact Hbody].
    apply in_or_app. right. now left.
  - destruct (options parsed); [contradiction|reflexivity].
Qed.

Lemma check_for_prompts_buttoned :
  only buttoned (check_for_prompts W chat session).
Proof.
  unfold check_for_prompts, try_capture, capture_pane, send_message,
    send_message_with_buttons.
  only_all; try exact I;
    match goal with
    | H : parse_prompt _ = Some _ |- _ =>
        apply parse_prompt_nonempty in H as [Htext Hbuttons]
    end.
  - congruence.
  - split; [now apply is_empty_false|].
    unfold prompt_message, clip_4000.
    match goal with
    | |- (if 4000 <? len ?msg then _ else _) <> [] =>
        destruct (Z.ltb_spec 4000 (len msg)) as [Hlong|Hshort]
    end; [|discriminate].
    rewrite slice_to_firstn by lia. intros Hnil.
    apply (f_equal len) in Hnil. rewrite len_firstn in Hnil by lia.
    discriminate Hnil.
Qed.

(** X11.  A prompt is announced with its buttons or not at all: the formatted
    message of the prompt classifier always carries at least one button
    and a text, and the classifier never sends a formatted message
    without buttons; a screen that parses never gives an empty text. *)
Theorem prompts_are_announced_with_buttons (m : machine) :
  Forall buttoned
    (calls_between m (fst (check_for_prompts W chat session m))) /\
  (forall screen text,
     parse_prompt screen = Some text ->
     text <> [] /\ make_buttons screen <> []).
Proof.
  split; [apply only_calls, check_for_prompts_buttoned|].
  intros screen text Hparse.
  destruct (parse_prompt_nonempty screen text Hparse) as [Ht Hb].
  split; [exact Ht|now apply is_empty_false].
Qed.

End PromptShape.

(* ------------------------------------------------------------------ *)
(** ** The poll loop: the files of a batch *)

Lemma preserves_ret (I : machine -> Prop) {A : Type} (a : A) :
  preserves I (ret a).
Proof. intros m Hm. exact Hm. Qed.

Lemma preserves_raise (I : machine -> Prop) {A : Type} (e : str) :
  preserves I (@raise A e).
Proof. intros m Hm. exact Hm. Qed.

Lemma preserves_get (I : machine -> Prop) : preserves I get.
Proof. intros m Hm. exact Hm. Qed.

Lemma preserves_bind (I : machine -> Prop) {A B : Type}
    (x : M A) (f : A -> M B) :
  preserves I x -> (forall a, preserves I (f a)) -> preserves I (bind x f).
Proof.
  intros Hx Hf m Hm. unfold bind. specialize (Hx m Hm).
  destruct (x m) as [m1 [a|e]]; cbn [fst] in *; [now apply Hf|exact Hx].
Qed.

Lemma preserves_try_except (I : machine -> Prop) {A : Type}
    (body : M A) (handler : str -> M A) :
  preserves I body -> (forall e, preserves I (handler e)) ->
  preserves I (try_except body handler).
Proof.
  intros Hb Hh m Hm. unfold try_except. specialize (Hb m Hm).
  destruct (body m) as [m1 [a|e]]; cbn [fst] in *; [exact Hb|now apply Hh].
Qed.

Lemma preserves_for_each (I : machine -> Prop) {A : Type}
    (body : A -> M unit) (l : list A) :
  (forall a, preserves I (body a)) -> preserves I (for_each body l).
Proof.
  intros Hbody. induction l as [|a l IH]; [apply preserves_ret|].
  cbn [for_each]. apply preserves_bind; [apply Hbody|intros _; exact IH].
Qed.

Section Pending.
Context `{U : UCD}.
Variable W : world.
Variable cfg : config.

Lemma downloaded_app (t ext : list call) (path : str) :
  downloaded W t path -> downloaded W (t ++ ext) path.
Proof.
  intros (before & fp & after & -> & Hok).
  exists before, fp, (after ++ ext). split; [|exact Hok].
  now rewrite <- app_assoc.
Qed.

Lemma files_downloaded_perform {A : Type} (c : call)
    (answer : list call -> res A) :
  preserves (files_downloaded W) (perform c answer).
Proof.
  intros m Hm path caption Hin. unfold perform in *.
  cbn [fst trace pending_files set_trace] in *.
  apply downloaded_app. exact (Hm path caption Hin).
Qed.

Lemma files_downloaded_modify (f : machine -> machine) :
  (forall m, pending_files (f m) = pending_files m /\ trace (f m) = trace m) ->
  preserves (files_downloaded W) (modify f).
Proof.
  intros Hf m Hm path caption. unfold modify. cbn [fst].
  destruct (Hf m) as [-> ->]. apply Hm.
Qed.

(** The one place where a file is queued: after its download went
    through. *)
Lemma files_downloaded_add (x : M (option str * str)) :
  (forall m, files_downloaded W m ->
     files_downloaded W (fst (x m)) /\
     forall path caption, snd (x m) = Ok (Some path, caption) ->
                          downloaded W (trace (fst (x m))) path) ->
  preserves (files_downloaded W) (bind x add_pending).
Proof.
  intros Hx m Hm. unfold bind. destruct (Hx m Hm) as [Hkeep Hnew].
  destruct (x m) as [m1 [[[path|] caption]|e]]; cbn [fst snd] in *;
    try exact Hkeep.
  unfold add_pending. destruct (is_empty path); [exact Hkeep|].
  unfold modify. cbn [fst]. intros p c Hin.
  cbn [pending_files set_pending_files trace] in *.
  apply in_app_or in Hin as [Hold|[Heq|[]]]; [exact (Hkeep p c Hold)|].
  injection Heq as <- <-. exact (Hnew _ _ eq_refl).
Qed.

Lemma download_photo_downloads (msg : message) (m : machine) :
  files_downloaded W m ->
  files_downloaded W (fst (download_photo W cfg msg m)) /\
  forall path caption,
    snd (download_photo W cfg msg m) = Ok (Some path, caption) ->
    downloaded W (trace (fst (download_photo W cfg msg m))) path.
Proof.
  intros Hm. unfold download_photo.
  destruct (rev (msg_photo msg)) as [|photo _].
  { split; [exact Hm|]. intros path caption E. discriminate E. }
  unfold get_file, time, download_file. run. cbn [trace set_trace].
  assert (Hext : forall ext, files_downloaded W (set_trace (trace m ++ ext) m)).
  { intros ext p c Hin. apply downloaded_app. exact (Hm p c Hin). }
  destruct (w_get_file W _) as [file_path|e1]; cbn [fst snd].
  2:{ split; [apply Hext|]. intros path caption E. discriminate E. }
  cbn [trace set_trace].
  destruct (w_download_file W _) as [[]|e2] eqn:Hdl; cbn [fst snd].
  2:{ split; [rewrite <- !app_assoc; apply Hext|].
      intros path caption E. discriminate E. }
  split; [rewrite <- !app_assoc; apply Hext|].
  intros path caption E. injection E as <- <-. cbn [trace].
  eexists _, _, []. split; [reflexivity|exact Hdl].
Qed.

Lemma download_document_downloads
    (doc : document) (msg : message) (m : machine) :
  files_downloaded W m ->
  files_downloaded W (fst (download_document W cfg doc msg m)) /\
  forall path caption,
    snd (download_document W cfg doc msg m) = Ok (Some path, caption) ->
    downloaded W (trace (fst (download_document W cfg doc msg m))) path.
Proof.
  intros Hm. unfold download_document.
  unfold get_file, download_file. run. cbn [trace set_trace].
  assert (Hext : forall ext, files_downloaded W (set_trace (trace m ++ ext) m)).
  { intros ext p c Hin. apply downloaded_app. exact (Hm p c Hin). }
  destruct (w_get_file W _) as [file_path|e1]; cbn [fst snd].
  2:{ split; [apply Hext|]. intros path caption E. discriminate E. }
  cbn [trace set_trace].
  destruct (w_download_file W _) as [[]|e2] eqn:Hdl; cbn [fst snd].
  2:{ split; [rewrite <- !app_assoc; apply Hext|].
      intros path caption E. discriminate E. }
  split; [rewrite <- !app_assoc; apply Hext|].
  intros path caption E. injection E as <- <-. cbn [trace].
  eexists _, _, []. split; [reflexivity|exact Hdl].
Qed.

Ltac pending_step :=
  match goal with
  | |- preserves _ (bind (download_photo _ _ _) _) =>
      apply files_downloaded_add; intros; apply download_photo_downloads;
      assumption
  | |- preserves _ (bind (download_document _ _ _ _) _) =>
      apply files_downloaded_add; intros; apply download_document_downloads;
      assumption
  | |- preserves _ (bind _ _) => apply preserves_bind; [|intros]
  | |- preserves _ (try_except _ _) => apply preserves_try_except; [|intros]
  | |- preserves _ (ret _) => apply preserves_ret
  | |- preserves _ (raise _) => apply preserves_raise
  | |- preserves _ get => apply preserves_get
  | |- preserves _ (perform _ _) => apply files_downloaded_perform
  | |- preserves _ (modify _) =>
      apply files_downloaded_modify; intros; split; reflexivity
  | |- preserves _ (if ?b then _ else _) => destruct b
  | |- preserves _ (match ?x with _ => _ end) => destruct x
  end.

Lemma handle_update_keeps_files_downloaded (upd : update) :
  preserves (files_downloaded W) (handle_update W cfg upd).
Proof.
  unfold handle_update, handle_callback, handle_command, format_uptime.
  unfold send_message, send_escape, get_session_info, capture_pane,
    send_keys, sleep, save_snapshot, answer_callback_query, time.
  repeat pending_step.
Qed.

(** X12.  The loop over a batch starts with no file queued, and queues a file
    only when its download went through: every file that is queued when
    the batch has been handled -- the files the loop then announces to
    the terminal -- is the destination of a download that succeeded in
    the history of calls. *)
Theorem queued_files_were_downloaded
    (batch : list update) (m : machine) (path caption : str) :
  let m' := fst (for_each (handle_update W cfg) batch
                   (set_pending_files [] m)) in
  In (path, caption) (pending_files m') ->
  downloaded W (trace m') path.
Proof.
  cbv zeta. intros Hin.
  assert (Hstart : files_downloaded W (set_pending_files [] m))
    by (intros p c []).
  exact (preserves_for_each (files_downloaded W) (handle_update W cfg) batch
           handle_update_keeps_files_downloaded _ Hstart path caption Hin).
Qed.

End Pending.

Lemma queued_files_were_downloaded_witness :
  downloaded (scripted_world [] [] true true)
    (trace (fst (for_each
                   (@handle_update sample_ucd (scripted_world [] [] true true)
                      sample_config)
                   [photo_update] (set_pending_files [] startup))))
    (lit "/home/u/.couchclaude/downloads/photo_0_Blarge.jpg").
Proof.
  exact (@queued_files_were_downloaded sample_ucd
           (scripted_world [] [] true true) sample_config
           [photo_update] startup
           (lit "/home/u/.couchclaude/downloads/photo_0_Blarge.jpg")
           (lit "look") (or_introl eq_refl)).
Defined.

(* ------------------------------------------------------------------ *)
(** ** tmux_utils.py: the session line *)

Lemma split_on_field (sep : N) (k : nat) (a rest : str) :
  forallb (fun c => negb (c =? sep)%N) a = true ->
  forall cur,
    split_on sep (S k) cur (a ++ sep :: rest)
    = (rev cur ++ a) :: split_on sep k [] rest.
Proof.
  induction a as [|c a IH]; intros Ha cur.
  - cbn [app split_on]. now rewrite N.eqb_refl, app_nil_r.
  - cbn [forallb] in Ha. apply andb_true_iff in Ha as [Hc Ha].
    apply negb_true_iff in Hc. cbn [app split_on]. rewrite Hc.
    rewrite (IH Ha). cbn [rev]. now rewrite <- app_assoc.
Qed.

Lemma split_on_last (sep : N) (k : nat) (a : str) :
  forallb (fun c => negb (c =? sep)%N) a = true ->
  forall cur, split_on sep k cur a = [rev cur ++ a].
Proof.
  destruct k as [|k]; [intros _ cur; destruct a; reflexivity|].
  induction a as [|c a IH]; intros Ha cur.
  - cbn [split_on]. now rewrite app_nil_r.
  - cbn [forallb] in Ha. apply andb_true_iff in Ha as [Hc Ha].
    apply negb_true_iff in Hc. cbn [split_on]. rewrite Hc.
    rewrite (IH Ha). cbn [rev]. now rewrite <- app_assoc.
Qed.

(** X13.  The session line is cut at its first two spaces, so that a working
    directory with a space in it is cut short and its rest is taken for
    the command; a line with fewer fields leaves the missing ones
    ["unknown"].  The first field is always there: the session name
    asked for is never used as its default. *)
Theorem session_line_is_cut_at_its_first_two_spaces
    (session_name stdout : str) :
  let no_space := fun s : str => forallb (fun c => negb (c =? 32)%N) s = true in
  let info := session_info_of_output session_name stdout in
  (forall a b c,
     strip stdout = a ++ lit " " ++ b ++ lit " " ++ c ->
     no_space a -> no_space b ->
     info = {| si_session := a; si_cwd := b; si_command := c |}) /\
  (forall a b,
     strip stdout = a ++ lit " " ++ b -> no_space a -> no_space b ->
     info = {| si_session := a; si_cwd := b; si_command := lit "unknown" |}) /\
  (no_space (strip stdout) ->
   info = {| si_session := strip stdout; si_cwd := lit "unknown";
             si_command := lit "unknown" |}) /\
  (forall other,
     si_session (session_info_of_output other stdout) = si_session info).
Proof.
  cbv zeta. unfold session_info_of_output. repeat split.
  - intros a b c -> Ha Hb. change (lit " ") with [32%N]. cbn [app].
    rewrite (split_on_field 32 1 a _ Ha), (split_on_field 32 0 b _ Hb).
    now destruct c.
  - intros a b -> Ha Hb. change (lit " ") with [32%N]. cbn [app].
    rewrite (split_on_field 32 1 a _ Ha), (split_on_last 32 1 b Hb).
    reflexivity.
  - intros Hs. rewrite (split_on_last 32 2 _ Hs). reflexivity.
  - intros other. destruct (strip stdout) as [|c s]; [reflexivity|].
    cbn [split_on]. destruct (c =? 32)%N; [reflexivity|].
    generalize [c]. induction s as [|d s IH]; intros cur; [reflexivity|].
    cbn [split_on]. destruct (d =? 32)%N; [reflexivity|apply IH].
Qed.

(* ------------------------------------------------------------------ *)
(** ** tmux_utils.py: what is new since the snapshot *)

Lemma lstrip_by_all (p : N -> bool) (s : str) :
  forallb p s = true -> lstrip_by p s = [].
Proof.
  induction s as [|c s IH]; [reflexivity|]. cbn [forallb lstrip_by].
  intros Hs. apply andb_true_iff in Hs as [-> Hs]. now apply IH.
Qed.

Lemma lstrip_by_nil (p : N -> bool) (s : str) :
  lstrip_by p s = [] -> forallb p s = true.
Proof.
  induction s as [|c s IH]; [reflexivity|]. cbn [forallb lstrip_by].
  destruct (p c); [exact IH|discriminate].
Qed.

Lemma rstrip_by_all (p : N -> bool) (s : str) :
  forallb p s = true -> rstrip_by p s = [].
Proof.
  intros Hs. unfold rstrip_by. rewrite lstrip_by_all; [reflexivity|].
  now rewrite forallb_rev.
Qed.

Lemma rstrip_by_nil (p : N -> bool) (s : str) :
  rstrip_by p s = [] -> forallb p s = true.
Proof.
  unfold rstrip_by. intros Hs. rewrite <- forallb_rev.
  apply lstrip_by_nil. rewrite <- (rev_involutive (lstrip_by p (rev s))), Hs.
  reflexivity.
Qed.

Lemma strip_all_space (s : str) : forallb is_space s = true -> strip s = [].
Proof.
  intros Hs. unfold strip. now rewrite (lstrip_by_all _ _ Hs).
Qed.

Lemma strip_nil (s : str) : strip s = [] -> forallb is_space s = true.
Proof.
  unfold strip. intros Hs. apply rstrip_by_nil in Hs.
  apply lstrip_by_nil.
  destruct (lstrip_by_trimmed is_space s) as [E|(c & t & E & Hc)]; [exact E|].
  rewrite E in Hs. cbn [forallb] in Hs. now rewrite Hc in Hs.
Qed.

Lemma linebreak_is_space (c : N) : is_linebreak c = true -> is_space c = true.
Proof.
  unfold is_linebreak, is_space. intros Hc.
  repeat match goal with
         | H : _ || _ = true |- _ => apply orb_true_iff in H as [H|H]
         | H : _ && _ = true |- _ => apply andb_true_iff in H as [? ?]
         | H : (_ <=? _)%N = true |- _ => apply N.leb_le in H
         | H : (_ =? _)%N = true |- _ => apply N.eqb_eq in H
         end;
    repeat match goal with
           | |- context [(?a <=? ?b)%N] => destruct (N.leb_spec a b); try lia
           | |- context [(?a =? ?b)%N] => destruct (N.eqb_spec a b); try lia
           end; reflexivity.
Qed.

Lemma splitlines_aux_break (cur : str) (d : N) (s : str) :
  is_linebreak d = true ->
  splitlines_aux cur (d :: s) = rev cur :: splitlines_aux [] (after_break d s).
Proof.
  intros Hd. cbn [splitlines_aux]. rewrite Hd. unfold after_break.
  destruct (N.eqb_spec d 13) as [->|Hne].
  - destruct s as [|e s]; [reflexivity|].
    destruct (N.eqb_spec e 10) as [->|Hne']; [reflexivity|]. cbn [andb].
    destruct e as [|q]; [reflexivity|].
    do 4 (try destruct q as [q|q|]; try reflexivity). now elim Hne'.
  - assert (Hrest : match s with
                    | e :: s' => if false && (e =? 10)%N then s' else s
                    | [] => s
                    end = s) by (destruct s; reflexivity).
    rewrite Hrest.
    destruct d as [|p]; [reflexivity|].
    do 4 (try destruct p as [p|p|]; try reflexivity).
    all: try (destruct s as [|[|[q|q|]] s]; reflexivity).
    now elim Hne.
Qed.

Lemma splitlines_aux_char (cur : str) (d : N) (s : str) :
  is_linebreak d = false ->
  splitlines_aux cur (d :: s) = splitlines_aux (d :: cur) s.
Proof. intros Hd. cbn [splitlines_aux]. now rewrite Hd. Qed.

Lemma after_break_length (d : N) (s : str) :
  (length (after_break d s) <= length s)%nat.
Proof.
  unfold after_break. destruct s as [|e s]; [lia|].
  destruct (_ && _); cbn [length]; lia.
Qed.

Lemma after_break_forallb (P : N -> bool) (d : N) (s : str) :
  P 10%N = true -> forallb P (after_break d s) = true -> forallb P s = true.
Proof.
  intros Hnl. unfold after_break. destruct s as [|e s]; [auto|].
  destruct (d =? 13)%N; cbn [andb]; [|auto].
  destruct (N.eqb_spec e 10) as [->|]; [|auto].
  intros Hs. cbn [forallb]. now rewrite Hnl, Hs.
Qed.

(** Every character of a text is a line boundary or lies in one of its
    lines. *)
Lemma splitlines_aux_keeps (c : N) (s : str) :
  forall cur, In c cur ->
    exists line, In line (splitlines_aux cur s) /\ In c line.
Proof.
  induction s as [|d s IH]; intros cur Hc.
  - cbn [splitlines_aux]. destruct cur as [|x cur]; [contradiction|].
    exists (rev (x :: cur)). split; [now left|now apply in_rev in Hc].
  - destruct (is_linebreak d) eqn:Hd.
    + rewrite splitlines_aux_break by exact Hd.
      exists (rev cur). split; [now left|now apply in_rev in Hc].
    + rewrite splitlines_aux_char by exact Hd. apply IH. now right.
Qed.

Lemma splitlines_aux_chars (P : N -> bool) :
  (forall c, is_linebreak c = true -> P c = true) ->
  forall (n : nat) (s cur : str),
    (length s <= n)%nat ->
    Forall (fun line => forallb P line = true) (splitlines_aux cur s) ->
    forallb P s = true.
Proof.
  intros Hbreak. induction n as [|n IH]; intros s cur Hn Hlines.
  - destruct s; [reflexivity|cbn in Hn; lia].
  - destruct s as [|d s]; [reflexivity|]. cbn [length] in Hn.
    cbn [forallb]. apply andb_true_iff.
    destruct (is_linebreak d) eqn:Hd.
    + split; [now apply Hbreak|].
      rewrite splitlines_aux_break in Hlines by exact Hd.
      inversion Hlines as [|? ? _ Htail]; subst.
      apply (after_break_forallb P d s (Hbreak 10%N eq_refl)).
      apply (IH _ []); [|exact Htail].
      pose proof (after_break_length d s). lia.
    + rewrite splitlines_aux_char in Hlines by exact Hd. split.
      * destruct (splitlines_aux_keeps d s (d :: cur) (or_introl eq_refl))
          as (line & Hin & Hdin).
        rewrite Forall_forall in Hlines. specialize (Hlines line Hin).
        rewrite forallb_forall in Hlines. now apply Hlines.
      * apply (IH s (d :: cur)); [lia|exact Hlines].
Qed.

(** A text whose lines are all blank is blank. *)
Lemma blank_lines_blank_text (s : str) :
  Forall (fun line => strip line = []) (splitlines s) -> strip s = [].
Proof.
  intros Hlines. apply strip_all_space.
  apply (splitlines_aux_chars is_space linebreak_is_space (length s) s []);
    [lia|].
  eapply Forall_impl; [|exact Hlines]. intros line. apply strip_nil.
Qed.

Lemma join_blank (lines : list str) :
  Forall (fun line => strip line = []) lines ->
  strip (join [NL] lines) = [].
Proof.
  intros Hlines. apply strip_all_space.
  induction Hlines as [|line lines Hline _ IH]; [reflexivity|].
  apply strip_nil in Hline.
  destruct lines as [|l2 lines]; [exact Hline|].
  change (join [NL] (line :: l2 :: lines))
    with (line ++ [NL] ++ join [NL] (l2 :: lines)).
  rewrite !forallb_app, Hline, IH. reflexivity.
Qed.

(** The last line of a list that is not blank, with the blank lines
    after it. *)
Lemma last_nonblank_line (f : str -> str) (lines : list str) :
  filter (fun l => negb (is_empty (strip l))) lines <> [] ->
  exists before line after,
    lines = before ++ line :: after /\
    strip line <> [] /\
    Forall (fun l => strip l = []) after /\
    last (map f (filter (fun l => negb (is_empty (strip l))) lines)) []
    = f line.
Proof.
  induction lines as [|x lines IH] using rev_ind; [now intros []|].
  rewrite filter_app. cbn [filter].
  destruct (is_empty (strip x)) eqn:Hx; cbn [negb].
  - rewrite app_nil_r. intros Hne.
    destruct (IH Hne) as (before & line & after & -> & Hline & Hafter & Hlast).
    exists before, line, (after ++ [x]). repeat split.
    + now rewrite <- app_assoc.
    + exact Hline.
    + apply Forall_app. split; [exact Hafter|].
      constructor; [now apply is_empty_true|constructor].
    + exact Hlast.
  - intros _. exists lines, x, []. repeat split.
    + now apply is_empty_false.
    + constructor.
    + rewrite map_app. cbn [map]. apply last_last.
Qed.

Lemma enumerate_from_app {A : Type} (a b : list A) (n : nat) :
  combine (seq n (length (a ++ b))) (a ++ b)
  = combine (seq n (length a)) a
    ++ combine (seq (n + length a) (length b)) b.
Proof.
  revert n. induction a as [|x a IH]; intros n.
  - cbn [app length seq combine]. now rewrite Nat.add_0_r.
  - cbn [app length seq combine]. rewrite IH.
    replace (S n + length a)%nat with (n + S (length a))%nat by lia.
    reflexivity.
Qed.

(** The scan for the last line equal to [last_old] leaves its answer
    alone on lines that differ from it. *)
Lemma best_unchanged (last_old : str) (lines : list str) (n : nat) (best : Z) :
  Forall (fun l => rstrip_by is_space l <> last_old) lines ->
  fold_left
    (fun best il =>
       if str_eqb (rstrip_by is_space (snd il)) last_old
       then Z.of_nat (fst il) else best)
    (combine (seq n (length lines)) lines) best = best.
Proof.
  intros Hlines. revert n. induction Hlines as [|l lines Hl _ IH]; intros n;
    [reflexivity|].
  cbn [length seq combine fold_left fst snd].
  destruct (str_eqb _ _) eqn:E; [apply str_eqb_eq in E; contradiction|].
  apply IH.
Qed.

(** X14.  When the pane shows what the snapshot holds, [get_new_content]
    finds nothing new after the last line of the snapshot and falls
    back: it answers the last thirty lines of the pane, stripped, not
    the empty string. *)
Theorem unchanged_pane_reads_as_its_last_thirty_lines (screen : str) :
  new_content screen (load_snapshot (Some screen))
  = strip (join [NL] (last_n 30 (splitlines screen))).
Proof.
  unfold new_content, load_snapshot.
  set (lines := splitlines screen).
  set (nonblank := filter (fun l => negb (is_empty (strip l))) lines).
  assert (Hblank : nonblank = [] ->
            strip screen = [] /\ strip (join [NL] (last_n 30 lines)) = []).
  { intros Hnone.
    assert (Hall : Forall (fun l => strip l = []) lines).
    { apply Forall_forall. intros l Hl.
      destruct (is_empty (strip l)) eqn:He; [now apply is_empty_true|].
      assert (Hin : In l nonblank)
        by (apply filter_In; split; [exact Hl|now rewrite He]).
      rewrite Hnone in Hin. contradiction. }
    split; [now apply blank_lines_blank_text|].
    apply join_blank. unfold last_n.
    rewrite <- (firstn_skipn (length lines - 30) lines) in Hall.
    now apply Forall_app in Hall as [_ Hall]. }
  destruct (is_empty lines) eqn:Hlines.
  { apply is_empty_true in Hlines.
    destruct Hblank as [-> ->]; [|reflexivity].
    subst nonblank. now rewrite Hlines. }
  destruct (is_empty (map _ nonblank)) eqn:Hold.
  { apply is_empty_true in Hold. apply map_eq_nil in Hold.
    now destruct (Hblank Hold) as [-> ->]. }
  assert (Hsome : nonblank <> []).
  { intros Hnil. rewrite Hnil in Hold. discriminate Hold. }
  destruct (last_nonblank_line (rstrip_by is_space) lines Hsome)
    as (before & line & after & Hsplit & Hline & Hafter & Hlast).
  fold nonblank in Hlast. rewrite Hlast.
  assert (Hkept : rstrip_by is_space line <> []).
  { intros Hnil. apply Hline, strip_all_space. now apply rstrip_by_nil. }
  assert (Hbest :
    fold_left
      (fun best il =>
         if str_eqb (rstrip_by is_space (snd il)) (rstrip_by is_space line)
         then Z.of_nat (fst il) else best)
      (enumerate lines) (-1) = Z.of_nat (length before)).
  { unfold enumerate. rewrite Hsplit, enumerate_from_app, fold_left_app.
    cbn [length seq combine fold_left fst snd]. rewrite str_eqb_refl.
    apply best_unchanged.
    eapply Forall_impl; [|exact Hafter]. intros l Hl E.
    apply Hkept. rewrite <- E. apply rstrip_by_all. now apply strip_nil. }
  rewrite Hbest.
  destruct (_ && _); [|reflexivity].
  replace (skipn (Z.to_nat (Z.of_nat (length before) + 1)) lines)
    with after.
  - now rewrite (join_blank after Hafter).
  - rewrite Hsplit. replace (Z.to_nat (Z.of_nat (length before) + 1))
      with (length before + 1)%nat by lia.
    rewrite skipn_app, skipn_all2 by lia.
    replace (length before + 1 - length before)%nat with 1%nat by lia.
    reflexivity.
Qed.

(* ------------------------------------------------------------------ *)
(** ** tmux_utils.py: waiting for the input prompt *)

Lemma last_app_cons {A : Type} (t : list A) (c : A) (ext : list A) (d : A) :
  last (t ++ c :: ext) d = last (c :: ext) d.
Proof.
  induction t as [|x t IH]; [reflexivity|]. rewrite <- IH. cbn [app].
  destruct (t ++ c :: ext) eqn:E; [destruct t; discriminate E|reflexivity].
Qed.

Ltac watch_ok :=
  repeat (apply Forall_cons; [unfold watching; auto|]); apply Forall_nil.

Section WaitForInput.
Context `{U : UCD}.
Variable W : world.
Variable session : str.

(** One run of the loop: it never raises, it only reads the clock,
    captures five lines of the pane and sleeps a second, and it answers
    [True] only on a capture that shows the prompt. *)
Lemma wait_loop_watches (deadline : Z) (fuel : nat) :
  forall m,
    let r := wait_loop W session deadline fuel m in
    exists ext answer,
      trace (fst r) = trace m ++ ext /\
      snd r = Ok answer /\
      Forall (watching session) ext /\
      (answer = Some true ->
       exists screen,
         last ext Time = CapturePane session 5 /\
         w_capture_pane W (trace (fst r)) = Ok screen /\
         found_ml INPUT_PROMPT_RE screen = true).
Proof.
  induction fuel as [|fuel IH]; intros m; cbv zeta.
  - exists [], None. cbn. rewrite app_nil_r.
    split; [reflexivity|split; [reflexivity|split; [constructor|]]].
    intros E. discriminate E.
  - cbn [wait_loop]. unfold time, capture_pane, sleep. run.
    cbn [trace set_trace].
    destruct (w_time W _ <? deadline).
    2:{ exists [Time], (Some false). cbn [fst snd trace set_trace].
        split; [reflexivity|split; [reflexivity|split]].
        - watch_ok.
        - intros E. discriminate E. }
    assert (Hw : Forall (watching session)
                   [Time; CapturePane session 5; Sleep 1000]).
    { watch_ok. }
    assert (Hgo : forall m1,
      trace m1 = trace m ++ [Time; CapturePane session 5; Sleep 1000] ->
      let r := wait_loop W session deadline fuel m1 in
      exists ext answer,
        trace (fst r) = trace m ++ ext /\ snd r = Ok answer /\
        Forall (watching session) ext /\
        (answer = Some true ->
         exists screen,
           last ext Time = CapturePane session 5 /\
           w_capture_pane W (trace (fst r)) = Ok screen /\
           found_ml INPUT_PROMPT_RE screen = true)).
    { intros m1 Hm1. destruct (IH m1) as (ext & answer & Ht & Hr & Hall & Hseen).
      exists ([Time; CapturePane session 5; Sleep 1000] ++ ext), answer.
      cbv zeta. rewrite Ht, Hm1, <- app_assoc.
      split; [reflexivity|split; [exact Hr|split; [now apply Forall_app|]]].
      intros Hanswer. destruct (Hseen Hanswer) as (screen & Hlast & Hcap & Hfound).
      exists screen.
      split; [|split; [now rewrite app_assoc, <- Hm1, <- Ht|exact Hfound]].
      destruct ext as [|c ext]; [discriminate Hlast|].
      rewrite <- Hlast. apply last_app_cons. }
    destruct (w_capture_pane W _) as [screen|e] eqn:Hcap;
      cbn [fst snd trace set_trace].
    + destruct (found_ml INPUT_PROMPT_RE screen) eqn:Hfound.
      * exists [Time; CapturePane session 5], (Some true).
        cbn [fst snd trace set_trace]. rewrite <- !app_assoc.
        split; [reflexivity|split; [reflexivity|split]].
        -- watch_ok.
        -- intros _. exists screen.
           split; [reflexivity|split; [|exact Hfound]].
           rewrite app_assoc. exact Hcap.
      * apply Hgo. cbn [trace set_trace]. now rewrite <- !app_assoc.
    + apply Hgo. cbn [trace set_trace]. now rewrite <- !app_assoc.
Qed.

(** X15.  [wait_for_input] only watches: whatever the pane and the clock do,
    it does not raise, it makes no call but clock readings, captures of
    five lines of the pane and sleeps of a second -- it types nothing
    and sends nothing --, and it answers [True] only right after a
    capture that shows the input prompt. *)
Theorem wait_for_input_only_watches (timeout : Z) (fuel : nat) (m : machine) :
  let r := wait_for_input_loop W session timeout fuel m in
  exists answer,
    snd r = Ok answer /\
    Forall (watching session) (calls_between m (fst r)) /\
    (answer = Some true ->
     exists screen,
       last (trace (fst r)) Time = CapturePane session 5 /\
       w_capture_pane W (trace (fst r)) = Ok screen /\
       found_ml INPUT_PROMPT_RE screen = true).
Proof.
  cbv zeta. unfold wait_for_input_loop, time. run. cbn [trace set_trace].
  destruct (wait_loop_watches (w_time W (trace m ++ [Time]) + timeout) fuel
              (set_trace (trace m ++ [Time]) m))
    as (ext & answer & Ht & Hr & Hall & Hseen).
  cbn [trace set_trace] in Ht. exists answer. split; [exact Hr|split].
  - rewrite (calls_between_app m _ ([Time] ++ ext));
      [|now rewrite Ht, <- app_assoc].
    apply Forall_app. split; [|exact Hall]. watch_ok.
  - intros Hanswer. destruct (Hseen Hanswer) as (screen & Hlast & Hcap & Hfound).
    exists screen. split; [|split; [exact Hcap|exact Hfound]].
    rewrite Ht. destruct ext as [|c ext]; [discriminate Hlast|].
    rewrite <- Hlast. apply last_app_cons.
Qed.

End WaitForInput.

Section WaitEnds.
Context `{U : UCD}.
Variable W : world.
Variable session : str.
Hypothesis Hticks : clock_ticks W.

Lemma wait_loop_ends (deadline : Z) (fuel : nat) :
  forall m lower,
    lower <= w_time W (trace m ++ [Time]) ->
    Z.max 0 (deadline - lower) < Z.of_nat fuel ->
    exists b ext,
      trace (fst (wait_loop W session deadline fuel m)) = trace m ++ ext /\
      snd (wait_loop W session deadline fuel m) = Ok (Some b) /\
      Z.of_nat (length (filter is_capture ext)) <= Z.max 0 (deadline - lower).
Proof.
  induction fuel as [|fuel IH]; intros m lower Hlower Hfuel; [lia|].
  cbn [wait_loop]. unfold time, capture_pane, sleep. run.
  cbn [trace set_trace].
  destruct (Z.ltb_spec (w_time W (trace m ++ [Time])) deadline) as [Hlt|Hge].
  2:{ exists false, [Time]. cbn. repeat split; lia. }
  assert (Hgo : forall m1,
    trace m1 = trace m ++ [Time; CapturePane session 5; Sleep 1000] ->
    exists b ext,
      trace (fst (wait_loop W session deadline fuel m1)) = trace m ++ ext /\
      snd (wait_loop W session deadline fuel m1) = Ok (Some b) /\
      Z.of_nat (length (filter is_capture ext)) <= Z.max 0 (deadline - lower)).
  { intros m1 Hm1.
    pose proof (Hticks (trace m) [CapturePane session 5; Sleep 1000]) as Htick.
    cbn [existsb is_sleep_1s orb] in Htick.
    change (1000 <=? 1000) with true in Htick. cbn [orb] in Htick.
    destruct (IH m1 (w_time W (trace m ++ [Time]) + 1))
      as (b & ext & Ht & Hr & Hcount).
    - rewrite Hm1, <- app_assoc. exact Htick.
    - lia.
    - exists b, ([Time; CapturePane session 5; Sleep 1000] ++ ext).
      rewrite Ht, Hm1, <- app_assoc. repeat split; [exact Hr|].
      rewrite filter_app, length_app. cbn [filter is_capture length]. lia. }
  destruct (w_capture_pane W _) as [screen|e]; cbn [fst snd trace set_trace].
  - destruct (found_ml INPUT_PROMPT_RE screen).
    + exists true, [Time; CapturePane session 5].
      cbn [fst snd trace set_trace filter is_capture length].
      rewrite <- !app_assoc. repeat split; lia.
    + apply Hgo. cbn [trace set_trace]. now rewrite <- !app_assoc.
  - apply Hgo. cbn [trace set_trace]. now rewrite <- !app_assoc.
Qed.

(** X16.  On a clock that a sleep of a second advances by a second or more,
    [wait_for_input] ends: a number of turns above the timeout is
    enough for it to answer, and it captures the pane at most once per
    second of the timeout. *)
Theorem wait_for_input_gives_up_in_time
    (timeout : Z) (fuel : nat) (m : machine) :
  Z.max 0 timeout < Z.of_nat fuel ->
  let r := wait_for_input_loop W session timeout fuel m in
  exists b,
    snd r = Ok (Some b) /\
    Z.of_nat (length (filter is_capture (calls_between m (fst r))))
    <= Z.max 0 timeout.
Proof.
  intros Hfuel. cbv zeta. unfold wait_for_input_loop, time. run.
  cbn [trace set_trace].
  set (start := w_time W (trace m ++ [Time])).
  destruct (wait_loop_ends (start + timeout) fuel
              (set_trace (trace m ++ [Time]) m) start)
    as (b & ext & Ht & Hr & Hcount).
  - pose proof (Hticks (trace m) []) as Htick. fold start in Htick.
    cbn [trace set_trace]. rewrite <- app_assoc.
    cbn [existsb app] in Htick |- *. lia.
  - replace (start + timeout - start) with timeout by lia. exact Hfuel.
  - exists b. split; [exact Hr|]. cbn [trace set_trace] in Ht.
    rewrite (calls_between_app m _ ([Time] ++ ext));
      [|now rewrite Ht, <- app_assoc].
    rewrite filter_app, length_app. cbn [filter is_capture length].
    replace (start + timeout - start) with timeout in Hcount by lia. lia.
Qed.

End WaitEnds.

Lemma ticking_world_ticks (screens : list str) :
  clock_ticks (ticking_world screens).
Proof.
  intros t ext. cbn [w_time ticking_world]. unfold slept.
  rewrite !filter_app, !length_app. cbn [filter is_sleep_1s length].
  destruct (existsb is_sleep_1s ext) eqn:Hext; [|lia].
  apply existsb_exists in Hext as (c & Hin & Hc).
  assert (Hone : In c (filter is_sleep_1s ext)) by (apply filter_In; now split).
  destruct (filter is_sleep_1s ext); [contradiction|]. cbn [length]. lia.
Qed.

Lemma wait_for_input_gives_up_in_time_witness :
  Z.max 0 2 < Z.of_nat 3 /\
  exists b,
    snd (@wait_for_input_loop sample_ucd (ticking_world [lit "busy"])
           (lit "claude") 2 3 startup) = Ok (Some b).
Proof.
  assert (Hfuel : Z.max 0 2 < Z.of_nat 3) by (vm_compute; reflexivity).
  split; [exact Hfuel|].
  destruct (@wait_for_input_gives_up_in_time sample_ucd
              (ticking_world [lit "busy"]) (lit "claude")
              (ticking_world_ticks [lit "busy"]) 2 3 startup Hfuel)
    as (b & Hr & _).
  exists b. exact Hr.
Defined.

(* ------------------------------------------------------------------ *)
(** ** tmux_utils.py: what counts as the input prompt *)

Section InputPrompt.
Context `{U : UCD}.

Lemma run_length_prefix (p : N -> bool) (a b : str) :
  forallb p a = true -> (length a <= run_length p None (a ++ b))%nat.
Proof.
  induction a as [|c a IH]; [cbn; lia|]. cbn [forallb app run_length length].
  intros Ha. apply andb_true_iff in Ha as [-> Ha]. specialize (IH Ha). lia.
Qed.

Lemma search_ml_from_position (r : regex) (s : str) :
  forall prev,
    search_ml_from r prev s = true <->
    exists before rest,
      s = before ++ rest /\ match_at_ml r (prev_after prev before) rest = true.
Proof.
  induction s as [|c s IH]; intros prev.
  - cbn [search_ml_from]. rewrite orb_false_r. split.
    + intros Hm. now exists [], [].
    + intros (before & rest & Hs & Hm). symmetry in Hs.
      apply app_eq_nil in Hs as [-> ->]. exact Hm.
  - cbn [search_ml_from]. rewrite orb_true_iff, IH. split.
    + intros [Hm|(before & rest & -> & Hm)].
      * now exists [], (c :: s).
      * exists (c :: before), rest. split; [reflexivity|].
        unfold prev_after in *. cbn [rev].
        destruct (rev before) as [|x xs]; exact Hm.
    + intros (before & rest & Hs & Hm). destruct before as [|d before].
      * left. cbn [app] in Hs. subst rest. exact Hm.
      * right. cbn [app] in Hs. injection Hs as <- ->.
        exists before, rest. split; [reflexivity|].
        unfold prev_after in *. cbn [rev] in Hm.
        destruct (rev before) as [|x xs]; exact Hm.
Qed.

Lemma at_bol_ml_after (before : str) :
  at_bol_ml (prev_after None before) = true <->
  before = [] \/ exists b, before = b ++ [NL].
Proof.
  unfold prev_after. destruct (rev before) as [|c xs] eqn:Hrev.
  - assert (Hb : before = [])
      by (rewrite <- (rev_involutive before), Hrev; reflexivity).
    subst before. split; [now left|reflexivity].
  - assert (Hb : before = rev xs ++ [c])
      by (rewrite <- (rev_involutive before), Hrev; reflexivity).
    cbn [at_bol_ml]. split.
    + intros Hc. apply N.eqb_eq in Hc. subst c. right. now exists (rev xs).
    + intros [Hnil|(b & Hb')].
      * rewrite Hnil in Hb. destruct (rev xs); discriminate Hb.
      * rewrite Hb in Hb'. apply app_inj_tail in Hb' as [_ ->]. reflexivity.
Qed.

Lemma at_eol_ml_spec (s : str) :
  at_eol_ml s = true <-> s = [] \/ exists a, s = NL :: a.
Proof.
  destruct s as [|c s]; cbn [at_eol_ml].
  - split; [now left|reflexivity].
  - split.
    + intros Hc. apply N.eqb_eq in Hc. subst c. right. now exists s.
    + intros [Hnil|(a & Ha)]; [discriminate Hnil|].
      injection Ha as -> _. reflexivity.
Qed.

Lemma space_class (s : str) :
  forallb (class_match false [Space]) s = forallb is_space s.
Proof.
  induction s as [|c s IH]; [reflexivity|]. cbn [forallb]. rewrite IH.
  cbn. now rewrite orb_false_r.
Qed.

Lemma marker_class (c : N) :
  class_match false [Lit 10095; Lit 62] c = true <-> (c = 10095 \/ c = 62)%N.
Proof.
  cbn. rewrite !orb_false_r, orb_true_iff, !N.eqb_eq. reflexivity.
Qed.

(** The prompt pattern at one position. *)
Lemma input_prompt_at (prev : option N) (s : str) :
  match_at_ml INPUT_PROMPT_RE prev s = true <->
  at_bol_ml prev = true /\
  exists lead marker trail after,
    s = lead ++ [marker] ++ trail ++ after /\
    forallb is_space lead = true /\
    (marker = 10095 \/ marker = 62)%N /\
    forallb is_space trail = true /\
    at_eol_ml after = true.
Proof.
  unfold match_at_ml. cbn [alts ignorecase INPUT_PROMPT_RE first_some].
  split.
  - destruct (exec_ml false _ prev s) as [r|] eqn:Hex; [intros _|discriminate].
    cbn [exec_ml] in Hex.
    destruct (at_bol_ml prev); [split; [reflexivity|]|discriminate].
    apply first_some_Some in Hex as (j & Hj & Hex).
    apply counts_In in Hj.
    destruct (run_length_firstn (class_match false [Space]) s None j
                ltac:(lia)) as [Hlead Hjlen].
    destruct (skipn j s) as [|marker s2] eqn:Hskip; [discriminate|].
    destruct (class_match false [Lit 10095; Lit 62] marker) eqn:Hmarker;
      [|discriminate].
    apply first_some_Some in Hex as (k & Hk & Hex).
    apply counts_In in Hk.
    destruct (run_length_firstn (class_match false [Space]) s2 None k
                ltac:(lia)) as [Htrail Hklen].
    destruct (at_eol_ml (skipn k s2)) eqn:Heol; [|discriminate].
    exists (firstn j s), marker, (firstn k s2), (skipn k s2).
    rewrite space_class in Hlead, Htrail.
    repeat split; try assumption; [|now apply marker_class].
    rewrite <- (firstn_skipn j s) at 1. rewrite Hskip. cbn [app].
    now rewrite firstn_skipn.
  - intros (Hbol & lead & marker & trail & after & -> & Hlead & Hmarker
            & Htrail & Heol).
    cbn [exec_ml]. rewrite Hbol.
    rewrite <- space_class in Hlead, Htrail.
    apply marker_class in Hmarker.
    match goal with
    | |- is_some match first_some ?f ?l with _ => _ end = true =>
        assert (Hfirst : is_some (first_some f l) = true)
    end.
    { apply (first_some_is_some _ _ (length lead)).
      - apply counts_In_iff. split; [lia|].
        now apply run_length_prefix.
      - rewrite skipn_app, skipn_all, Nat.sub_diag. cbn [skipn app].
        rewrite Hmarker.
        apply (first_some_is_some _ _ (length trail)).
        + apply counts_In_iff. split; [lia|].
          now apply run_length_prefix.
        + rewrite skipn_app, skipn_all, Nat.sub_diag. cbn [skipn app].
          now rewrite Heol. }
    destruct (first_some _ _); [reflexivity|discriminate Hfirst].
Qed.

(** X17.  [wait_for_input] takes a capture to show the input prompt exactly
    when one of its lines holds the marker, [❯] or [>], and nothing else
    but white space: the marker is preceded by white space back to the
    start of the capture or to a newline, and followed by white space up
    to the end of the capture or to a newline. *)
Theorem input_prompt_is_a_marker_alone_on_its_line (screen : str) :
  found_ml INPUT_PROMPT_RE screen = true <->
  exists before lead marker trail after,
    screen = before ++ lead ++ [marker] ++ trail ++ after /\
    (before = [] \/ exists b, before = b ++ [NL]) /\
    forallb is_space lead = true /\
    (marker = 10095 \/ marker = 62)%N /\
    forallb is_space trail = true /\
    (after = [] \/ exists a, after = NL :: a).
Proof.
  unfold found_ml. rewrite search_ml_from_position. split.
  - intros (before & rest & -> & Hm). apply input_prompt_at in Hm
      as (Hbol & lead & marker & trail & after & -> & Hlead & Hmarker
          & Htrail & Heol).
    exists before, lead, marker, trail, after.
    apply at_bol_ml_after in Hbol. apply at_eol_ml_spec in Heol.
    repeat split; assumption.
  - intros (before & lead & marker & trail & after & -> & Hbol & Hlead
            & Hmarker & Htrail & Heol).
    exists before, (lead ++ [marker] ++ trail ++ after).
    split; [reflexivity|]. apply input_prompt_at.
    split; [now apply at_bol_ml_after|].
    exists lead, marker, trail, after.
    apply at_eol_ml_spec in Heol. repeat split; assumption.
Qed.

End InputPrompt.

(* ------------------------------------------------------------------ *)
(** ** The rate-limit classifier: a signature always has content *)

Section LimitContent.
Context `{U : UCD}.

(** A match of a literal sequence is a text that spells it. *)
Lemma exec_literal (ns : list node) :
  literal ns = true ->
  forall bol s r,
    exec true ns bol s = Some r ->
    exists text rest, s = text ++ rest /\ spells ns text.
Proof.
  induction ns as [|n ns IH]; intros Hlit bol s r Hex.
  - now exists [], s.
  - cbn [literal forallb] in Hlit. apply andb_true_iff in Hlit as [Hn Hlit].
    destruct n as [[|[p| | | |] [|it cl]]| | | |]; try discriminate Hn.
    apply exec_One in Hex as (c & s' & -> & Hc & Hex).
    destruct (IH Hlit false s' r Hex) as (text & rest & -> & Hspells).
    exists (c :: text), rest. split; [reflexivity|]. now split.
Qed.

Lemma spells_exec (ns : list node) :
  forall text bol, spells ns text -> is_some (exec true ns bol text) = true.
Proof.
  induction ns as [|n ns IH]; intros text bol Hspells.
  - reflexivity.
  - destruct n as [[|[p| | | |] [|it cl]]| | | |]; try contradiction;
      destruct text as [|c text]; try contradiction.
    destruct Hspells as [Hc Hspells]. cbn [exec]. rewrite Hc.
    now apply IH.
Qed.

(** What [re.IGNORECASE] lets stand for a small letter or a slash, and
    for the space. *)
Lemma ignorecase_variants (p c : N) :
  plain_char p = true \/ p = 32%N ->
  class_match true [Lit p] c = true ->
  (c = p \/ c + 32 = p /\ 65 <= c <= 90
   \/ c = 304 \/ c = 8490 \/ c = 305 \/ c = 383)%N.
Proof.
  intros Hp Hc. cbn in Hc. rewrite orb_false_r in Hc.
  unfold sre_lower, sre_fix, plain_char in *.
  repeat match goal with
         | H : _ \/ _ |- _ => destruct H
         | H : _ || _ = true |- _ => apply orb_true_iff in H
         | H : _ && _ = true |- _ => apply andb_true_iff in H as [? ?]
         | H : (_ <=? _)%N = true |- _ => apply N.leb_le in H
         | H : (_ =? _)%N = true |- _ => apply N.eqb_eq in H
         | H : context [(?a <=? ?b)%N] |- _ => destruct (N.leb_spec a b)
         | H : context [(?a =? ?b)%N] |- _ => destruct (N.eqb_spec a b)
         | H : context [_ && _] |- _ => cbn [andb orb] in H
         | H : false = true |- _ => discriminate H
         end; try lia.
Qed.

Lemma variant_not_space (p c : N) :
  plain_char p = true ->
  class_match true [Lit p] c = true ->
  is_space c = false /\
  class_match false [Lit 9492; Lit 9474; Lit 9500; Lit 9472; Space] c = false.
Proof.
  intros Hp Hc.
  pose proof (ignorecase_variants p c (or_introl Hp) Hc) as Hv.
  unfold plain_char in Hp.
  assert (Hrange : (47 <= p <= 122)%N).
  { apply orb_true_iff in Hp as [Hp|Hp].
    - apply andb_true_iff in Hp as [H1 H2]. apply N.leb_le in H1, H2. lia.
    - apply N.eqb_eq in Hp. lia. }
  assert (Hc' : (47 <= c <= 122 \/ c = 304 \/ c = 8490 \/ c = 305 \/ c = 383)%N)
    by lia.
  assert (Hspace : is_space c = false).
  { unfold is_space.
    repeat match goal with
           | |- context [(?a <=? ?b)%N] => destruct (N.leb_spec a b); try lia
           | |- context [(?a =? ?b)%N] => destruct (N.eqb_spec a b); try lia
           end; reflexivity. }
  split; [exact Hspace|]. cbn. rewrite Hspace.
  repeat match goal with
         | |- context [(?a =? ?b)%N] => destruct (N.eqb_spec a b); try lia
         end; reflexivity.
Qed.

Lemma variant_not_linebreak (p c : N) :
  plain_char p = true \/ p = 32%N ->
  class_match true [Lit p] c = true ->
  is_linebreak c = false.
Proof.
  intros Hp Hc. pose proof (ignorecase_variants p c Hp Hc) as Hv.
  assert (Hrange : (32 <= p <= 122)%N).
  { destruct Hp as [Hp| ->]; [|lia]. unfold plain_char in Hp.
    apply orb_true_iff in Hp as [Hp|Hp].
    - apply andb_true_iff in Hp as [H1 H2]. apply N.leb_le in H1, H2. lia.
    - apply N.eqb_eq in Hp. lia. }
  assert (Hc' : (32 <= c <= 122 \/ c = 304 \/ c = 8490 \/ c = 305 \/ c = 383)%N)
    by lia.
  unfold is_linebreak.
  repeat match goal with
         | |- context [(?a <=? ?b)%N] => destruct (N.leb_spec a b); try lia
         | |- context [(?a =? ?b)%N] => destruct (N.eqb_spec a b); try lia
         end; reflexivity.
Qed.

Lemma phrase_node_cases (n : node) :
  phrase_node n = true ->
  exists p, n = One [Lit p] /\ (plain_char p = true \/ p = 32%N).
Proof.
  destruct n as [[|[p| | | |] [|it cl]]| | | |]; try discriminate.
  cbn [phrase_node]. intros Hp. exists p. split; [reflexivity|].
  apply orb_true_iff in Hp as [Hp|Hp]; [now left|right].
  now apply N.eqb_eq.
Qed.

Lemma plain_node_cases (n : node) :
  plain_node n = true -> exists p, n = One [Lit p] /\ plain_char p = true.
Proof.
  destruct n as [[|[p| | | |] [|it cl]]| | | |]; try discriminate.
  cbn [plain_node]. intros Hp. now exists p.
Qed.

Lemma spells_no_linebreak (ns : list node) :
  forallb phrase_node ns = true ->
  forall text, spells ns text ->
               forallb (fun c => negb (is_linebreak c)) text = true.
Proof.
  induction ns as [|n ns IH]; intros Hns text Hspells.
  - destruct text; [reflexivity|contradiction].
  - cbn [forallb] in Hns. apply andb_true_iff in Hns as [Hn Hns].
    apply phrase_node_cases in Hn as (p & -> & Hp).
    destruct text as [|c text]; [contradiction|].
    destruct Hspells as [Hc Hspells]. cbn [forallb].
    rewrite (variant_not_linebreak p c Hp Hc). cbn [negb andb].
    now apply IH.
Qed.

Lemma spells_app (ns1 ns2 : list node) :
  forall text,
    spells (ns1 ++ ns2) text ->
    exists t1 t2, text = t1 ++ t2 /\ spells ns1 t1 /\ spells ns2 t2.
Proof.
  induction ns1 as [|n ns1 IH]; intros text Hspells.
  - now exists [], text.
  - cbn [app] in Hspells.
    destruct n as [[|[p| | | |] [|it cl]]| | | |]; try contradiction;
      destruct text as [|c text]; try contradiction.
    destruct Hspells as [Hc Hspells].
    destruct (IH text Hspells) as (t1 & t2 & -> & H1 & H2).
    exists (c :: t1), t2. repeat split; assumption.
Qed.

(** A text that spells a phrase has no line boundary in it, and starts
    and ends with a character that is neither white space nor part of
    the chrome that the classifier cuts off. *)
Lemma spells_phrase (ns : list node) (text : str) :
  phrase ns = true -> spells ns text ->
  forallb (fun c => negb (is_linebreak c)) text = true /\
  (exists c rest,
     text = c :: rest /\ is_space c = false /\
     class_match false [Lit 9492; Lit 9474; Lit 9500; Lit 9472; Space] c
     = false) /\
  (exists front c, text = front ++ [c] /\ is_space c = false).
Proof.
  unfold phrase. intros Hphrase Hspells.
  apply andb_true_iff in Hphrase as [Hphrase Hlast].
  apply andb_true_iff in Hphrase as [Hall Hhead].
  split; [now apply (spells_no_linebreak ns)|]. split.
  - destruct ns as [|n ns]; [discriminate Hhead|]. cbn [hd] in Hhead.
    apply plain_node_cases in Hhead as (p & -> & Hp).
    destruct text as [|c text]; [contradiction|].
    destruct Hspells as [Hc _].
    destruct (variant_not_space p c Hp Hc) as [Hs Hchrome].
    now exists c, text.
  - destruct ns as [|n ns] using rev_ind; [discriminate Hlast|].
    rewrite last_last in Hlast.
    apply plain_node_cases in Hlast as (p & -> & Hp).
    apply spells_app in Hspells as (t1 & t2 & -> & _ & H2).
    destruct t2 as [|c [|d t2]]; try contradiction.
    + destruct H2 as [Hc _]. exists t1, c. split; [reflexivity|].
      exact (proj1 (variant_not_space p c Hp Hc)).
    + destruct H2 as [_ []].
Qed.

(** Where a pattern is found, one of its alternatives matches. *)
Lemma search_from_position (r : regex) (s : str) :
  forall bol,
    is_some (search_from r bol s) = true ->
    exists before from bol' ns res,
      s = before ++ from /\ In ns (alts r) /\
      exec (ignorecase r) ns bol' from = Some res.
Proof.
  induction s as [|c s IH]; intros bol Hfound; cbn [search_from] in Hfound.
  - destruct (match_at r bol []) as [[ms rest]|] eqn:Hm;
      [|discriminate Hfound].
    apply first_some_Some in Hm as (ns & Hin & Hex).
    now exists [], [], bol, ns, (ms, rest).
  - destruct (match_at r bol (c :: s)) as [[ms rest]|] eqn:Hm.
    + apply first_some_Some in Hm as (ns & Hin & Hex).
      now exists [], (c :: s), bol, ns, (ms, rest).
    + destruct (IH false Hfound)
        as (before & from & bol' & ns & res & -> & Hin & Hex).
      now exists (c :: before), from, bol', ns, res.
Qed.

Lemma found_position (r : regex) (s : str) :
  found r s = true ->
  exists before from bol ns res,
    s = before ++ from /\ In ns (alts r) /\
    exec (ignorecase r) ns bol from = Some res.
Proof.
  unfold found, search. intros Hfound.
  apply (search_from_position r s true).
  destruct (search_from r true s); [reflexivity|discriminate Hfound].
Qed.

Lemma splitlines_aux_run (text : str) :
  forallb (fun c => negb (is_linebreak c)) text = true ->
  forall cur post,
    splitlines_aux cur (text ++ post) = splitlines_aux (rev text ++ cur) post.
Proof.
  induction text as [|c text IH]; intros Htext cur post; [reflexivity|].
  cbn [forallb] in Htext. apply andb_true_iff in Htext as [Hc Htext].
  apply negb_true_iff in Hc. cbn [app].
  rewrite (splitlines_aux_char cur c _ Hc), (IH Htext). cbn [rev].
  now rewrite <- app_assoc.
Qed.

Lemma splitlines_aux_first (s : str) :
  forall cur, cur <> [] ->
    exists l ls, splitlines_aux cur s = (rev cur ++ l) :: ls.
Proof.
  induction s as [|d s IH]; intros cur Hcur.
  - cbn [splitlines_aux]. destruct cur as [|x cur]; [contradiction|].
    exists [], []. now rewrite app_nil_r.
  - destruct (is_linebreak d) eqn:Hd.
    + rewrite splitlines_aux_break by exact Hd.
      exists [], (splitlines_aux [] (after_break d s)). now rewrite app_nil_r.
    + rewrite splitlines_aux_char by exact Hd.
      destruct (IH (d :: cur)) as (l & ls & E); [discriminate|].
      exists (d :: l), ls. rewrite E. cbn [rev]. now rewrite <- app_assoc.
Qed.

Lemma after_break_part (d : N) (pre text post : str) :
  text <> [] ->
  forallb (fun c => negb (is_linebreak c)) text = true ->
  exists pre',
    after_break d (pre ++ text ++ post) = pre' ++ text ++ post /\
    (length pre' <= length pre)%nat.
Proof.
  intros Hne Htext. unfold after_break. destruct pre as [|e pre].
  - destruct text as [|c text]; [contradiction|]. cbn [app forallb] in *.
    apply andb_true_iff in Htext as [Hc _]. apply negb_true_iff in Hc.
    destruct (N.eqb_spec c 10) as [->|_]; [discriminate Hc|].
    rewrite andb_false_r. now exists [].
  - cbn [app]. destruct (_ && _).
    + exists pre. split; [reflexivity|cbn; lia].
    + exists (e :: pre). split; [reflexivity|lia].
Qed.

(** A part of a text that holds no line boundary lies within one of the
    lines of the text. *)
Lemma splitlines_aux_part (text post : str) :
  text <> [] ->
  forallb (fun c => negb (is_linebreak c)) text = true ->
  forall (n : nat) (pre cur : str),
    (length pre <= n)%nat ->
    exists line a b,
      In line (splitlines_aux cur (pre ++ text ++ post)) /\
      line = a ++ text ++ b.
Proof.
  intros Hne Htext. induction n as [|n IH]; intros pre cur Hn.
  - destruct pre; [|cbn in Hn; lia]. cbn [app].
    rewrite (splitlines_aux_run text Htext).
    destruct (splitlines_aux_first post (rev text ++ cur)) as (l & ls & E).
    { destruct text as [|c text]; [contradiction|]. cbn [rev].
      intros Hnil. apply app_eq_nil in Hnil as [Hnil _].
      apply app_eq_nil in Hnil as [_ Hnil]. discriminate Hnil. }
    exists ((rev (rev text ++ cur)) ++ l), (rev cur), l.
    rewrite E. split; [now left|].
    now rewrite rev_app_distr, rev_involutive, <- app_assoc.
  - destruct pre as [|d pre]; [apply (IH [] cur); cbn; lia|].
    cbn [length] in Hn. cbn [app].
    destruct (is_linebreak d) eqn:Hd.
    + rewrite splitlines_aux_break by exact Hd.
      destruct (after_break_part d pre text post Hne Htext) as (pre' & -> & Hlen).
      destruct (IH pre' [] ltac:(lia)) as (line & a & b & Hin & Hline).
      exists line, a, b. split; [now right|exact Hline].
    + rewrite splitlines_aux_char by exact Hd.
      apply (IH pre (d :: cur)). lia.
Qed.

Lemma lstrip_by_keeps (p : N -> bool) (c : N) (rest : str) :
  p c = false ->
  forall a, exists a', lstrip_by p (a ++ c :: rest) = a' ++ c :: rest.
Proof.
  intros Hc. induction a as [|x a [a' IH]].
  - exists []. cbn [app lstrip_by]. now rewrite Hc.
  - cbn [app lstrip_by]. destruct (p x); [now exists a'|].
    now exists (x :: a).
Qed.

(** [strip] keeps a part of the text that starts and ends with a
    character that is not white space. *)
Lemma strip_keeps (a text b : str) :
  (exists c rest, text = c :: rest /\ is_space c = false) ->
  (exists front d, text = front ++ [d] /\ is_space d = false) ->
  exists a' b', strip (a ++ text ++ b) = a' ++ text ++ b'.
Proof.
  intros (c & rest & -> & Hc) (front & d & Hlast & Hd).
  unfold strip, rstrip_by.
  destruct (lstrip_by_keeps is_space c (rest ++ b) Hc a) as [a' Hl].
  cbn [app]. rewrite Hl.
  assert (E : rev (a' ++ c :: rest ++ b)
              = rev b ++ d :: rev front ++ rev a').
  { change (a' ++ c :: rest ++ b) with (a' ++ (c :: rest) ++ b).
    rewrite Hlast, !rev_app_distr. cbn [rev app].
    now rewrite <- !app_assoc. }
  rewrite E.
  destruct (lstrip_by_keeps is_space d (rev front ++ rev a') Hd (rev b))
    as [b' Hr].
  rewrite Hr. exists a', (rev b').
  rewrite rev_app_distr. cbn [rev]. rewrite !rev_app_distr, !rev_involutive.
  change (a' ++ c :: rest ++ rev b') with (a' ++ (c :: rest) ++ rev b').
  rewrite Hlast. now rewrite <- !app_assoc.
Qed.

Lemma run_length_stop (p : N -> bool) (c : N) (rest : str) :
  p c = false ->
  forall a, (run_length p None (a ++ c :: rest) <= length a)%nat.
Proof.
  intros Hc. induction a as [|x a IH]; cbn [app run_length length].
  - rewrite Hc. lia.
  - destruct (p x); lia.
Qed.

(** A pattern [^[...]+] deletes the leading run of its class, and
    nothing else. *)
Lemma sub_empty_lead (cl : cclass) (s : str) :
  sub_empty {| alts := [[Bol; Rep cl 1 None true]]; ignorecase := false |} s
  = skipn (run_length (class_match false cl) None s) s.
Proof.
  set (r := {| alts := [[Bol; Rep cl 1 None true]]; ignorecase := false |}).
  assert (Hrest : forall t k, sub_del r false k t = skipn k t).
  { induction t as [|c t IH]; intros k; [now destruct k|].
    destruct k as [|k]; cbn [sub_del skipn]; [|apply IH].
    change (match_at r false (c :: t)) with (@None (list str * str)).
    now rewrite (IH 0%nat). }
  unfold sub_empty. destruct s as [|c s]; [reflexivity|].
  cbn [sub_del]. unfold match_at. cbn [alts ignorecase r first_some exec].
  set (n := run_length (class_match false cl) None (c :: s)).
  pose proof (run_length_le_length (class_match false cl) (c :: s) None)
    as Hlen. fold n in Hlen.
  unfold counts. replace (S n - 1)%nat with n by lia.
  destruct n as [|k] eqn:Hn.
  - cbn [seq rev first_some]. now rewrite (Hrest s 0%nat).
  - rewrite seq_S, rev_app_distr. cbn [rev app first_some plus].
    rewrite length_skipn.
    replace (length (c :: s) - (length (c :: s) - S k))%nat with (S k)
      by (cbn [length] in *; lia).
    now rewrite Hrest.
Qed.

Lemma RATELIMIT_RE_phrases (ns : list node) :
  In ns (alts RATELIMIT_RE) -> literal ns = true /\ phrase ns = true.
Proof.
  intros [<-|[<-|[<-|[<-|[]]]]]; split; vm_compute; reflexivity.
Qed.

(** Where the limit signature is found, it is spelled by a part of the
    text. *)
Lemma limit_signature_spelled (s : str) :
  found RATELIMIT_RE s = true ->
  exists before text rest ns,
    s = before ++ text ++ rest /\ In ns (alts RATELIMIT_RE) /\
    spells ns text.
Proof.
  intros Hfound.
  destruct (found_position RATELIMIT_RE s Hfound)
    as (before & from & bol & ns & res & -> & Hin & Hex).
  destruct (RATELIMIT_RE_phrases ns Hin) as [Hlit _].
  destruct (exec_literal ns Hlit bol from res Hex) as (text & rest & -> & Hsp).
  now exists before, text, rest, ns.
Qed.

Lemma spelled_signature_found (ns : list node) (text a b : str) :
  In ns (alts RATELIMIT_RE) -> spells ns text ->
  found RATELIMIT_RE (a ++ text ++ b) = true.
Proof.
  intros Hin Hsp. apply (found_in_part RATELIMIT_RE a text b eq_refl).
  unfold found, search.
  destruct text as [|c text]; cbn [search_from]; unfold match_at;
    pose proof (first_some_is_some
                  (fun ns => exec (ignorecase RATELIMIT_RE) ns true _)
                  (alts RATELIMIT_RE) ns Hin
                  (spells_exec ns _ true Hsp)) as Hfirst;
    destruct (first_some _ _) as [[ms rest]|];
    first [reflexivity|discriminate Hfirst].
Qed.

(** A line that carries the signature gives a line to the content. *)
Lemma signature_line_is_relevant (ns : list node) (text a b : str) :
  In ns (alts RATELIMIT_RE) -> spells ns text ->
  let stripped := strip (a ++ text ++ b) in
  negb (is_empty stripped) && found RATELIMIT_RE stripped = true /\
  is_empty (strip (sub_empty CHROME_LEAD_RE stripped)) = false.
Proof.
  intros Hin Hsp. cbv zeta.
  destruct (RATELIMIT_RE_phrases ns Hin) as [_ Hphrase].
  destruct (spells_phrase ns text Hphrase Hsp)
    as (_ & (c & rest & Htext & Hc & Hchrome) & Hlast).
  assert (Hhead : exists c rest, text = c :: rest /\ is_space c = false)
    by now exists c, rest.
  destruct (strip_keeps a text b Hhead Hlast) as (a' & b' & ->).
  split.
  - rewrite (spelled_signature_found ns text a' b' Hin Hsp).
    rewrite Htext. now destruct a'.
  - unfold CHROME_LEAD_RE. rewrite sub_empty_lead.
    set (n := run_length _ None _).
    assert (Hn : (n <= length a')%nat).
    { subst n. rewrite Htext. cbn [app]. now apply run_length_stop. }
    rewrite skipn_app. replace (n - length a')%nat with 0%nat by lia.
    cbn [skipn].
    destruct (strip_keeps (skipn n a') text b' Hhead Hlast) as (a2 & b2 & ->).
    rewrite Htext. now destruct a2.
Qed.

(** X18.  When the screen carries the limit signature the classifier always
    has a content for it: the text is not blank, and one of its lines
    is relevant, so that the classifier never returns for want of
    relevant lines; the content is not empty. *)
Theorem limit_signature_always_has_content (screen : str) :
  let clean := strip (sanitize_text screen) in
  found RATELIMIT_RE clean = true ->
  relevant_lines clean <> [] /\
  exists content, ratelimit_content screen = Some content /\ content <> [].
Proof.
  cbv zeta. intros Hfound.
  destruct (limit_signature_spelled _ Hfound)
    as (before & text & rest & ns & Hclean & Hin & Hsp).
  destruct (RATELIMIT_RE_phrases ns Hin) as [_ Hphrase].
  destruct (spells_phrase ns text Hphrase Hsp)
    as (Hbreaks & (c & tl & Htext & _) & _).
  assert (Hne : text <> []) by (rewrite Htext; discriminate).
  destruct (splitlines_aux_part text rest Hne Hbreaks (length before)
              before [] (le_n _)) as (line & a & b & Hline & ->).
  rewrite <- Hclean in Hline. fold (splitlines (strip (sanitize_text screen)))
    in Hline.
  destruct (signature_line_is_relevant ns text a b Hin Hsp) as [Hrel Hkept].
  set (cleaned := strip (sub_empty CHROME_LEAD_RE (strip (a ++ text ++ b))))
    in *.
  assert (Hcleaned : In cleaned (relevant_lines (strip (sanitize_text screen)))).
  { unfold relevant_lines. apply in_flat_map. exists (a ++ text ++ b).
    split; [exact Hline|]. rewrite Hrel. fold cleaned. rewrite Hkept.
    now left. }
  assert (Hrelevant : relevant_lines (strip (sanitize_text screen)) <> []).
  { intros Hnil. rewrite Hnil in Hcleaned. contradiction. }
  split; [exact Hrelevant|].
  unfold ratelimit_content. rewrite Hfound. cbn [negb].
  destruct (is_empty (strip (sanitize_text screen))) eqn:Hblank.
  { apply is_empty_true in Hblank. rewrite Hblank in Hclean.
    destruct before; [|discriminate Hclean]. rewrite Htext in Hclean.
    discriminate Hclean. }
  destruct (is_empty (relevant_lines _)) eqn:Hnone;
    [now apply is_empty_true in Hnone|].
  eexists. split; [reflexivity|].
  apply (join_nonempty [NL] _ cleaned Hcleaned).
  now apply is_empty_false.
Qed.

End LimitContent.

Lemma limit_signature_always_has_content_witness :
  @found sample_ucd RATELIMIT_RE
    (strip (@sanitize_text sample_ucd limit_screen)) = true /\
  @relevant_lines sample_ucd (strip (@sanitize_text sample_ucd limit_screen))
  <> [].
Proof.
  assert (Hfound :
    @found sample_ucd RATELIMIT_RE
      (strip (@sanitize_text sample_ucd limit_screen)) = true)
    by (vm_compute; reflexivity).
  split; [exact Hfound|].
  exact (proj1 (@limit_signature_always_has_content sample_ucd
                  limit_screen Hfound)).
Defined.

(* ------------------------------------------------------------------ *)
(** ** The rate-limit classifier: the reset hint *)

Section ResetHint.
Context `{U : UCD}.

(** A sequence that ends with a one-character node matches a text that
    ends with a character of its class, just before what is left. *)
Lemma exec_ends_with (ic : bool) (cl : cclass) (ns : list node) :
  forall bol s ms rest,
    exec ic (ns ++ [One cl]) bol s = Some (ms, rest) ->
    exists front c, s = front ++ c :: rest /\ class_match ic cl c = true.
Proof.
  induction ns as [|n ns IH]; intros bol s ms rest Hex; cbn [app] in Hex.
  - apply exec_One in Hex as (c & s' & -> & Hc & Hex). cbn [exec] in Hex.
    injection Hex as _ <-. now exists [], c.
  - destruct n as [cl'|cl' lo hi greedy| | |].
    + apply exec_One in Hex as (c & s' & -> & _ & Hex).
      destruct (IH _ _ _ _ Hex) as (front & d & -> & Hd).
      now exists (c :: front), d.
    + apply exec_Rep in Hex as (j & _ & _ & Hex).
      destruct (IH _ _ _ _ Hex) as (front & d & Hs & Hd).
      exists (firstn j s ++ front), d. split; [|exact Hd].
      rewrite <- (firstn_skipn j s) at 1. rewrite Hs.
      now rewrite <- app_assoc.
    + cbn [exec] in Hex. destruct bol; [|discriminate Hex].
      exact (IH _ _ _ _ Hex).
    + cbn [exec] in Hex. destruct (at_eol s); [|discriminate Hex].
      exact (IH _ _ _ _ Hex).
    + apply exec_Mark in Hex as (ms' & _ & Hex). exact (IH _ _ _ _ Hex).
Qed.

Lemma search_from_match (r : regex) (s : str) :
  forall bol from ms rest,
    search_from r bol s = Some (from, ms, rest) ->
    exists before bol',
      s = before ++ from /\ match_at r bol' from = Some (ms, rest).
Proof.
  induction s as [|c s IH]; intros bol from ms rest Hs;
    cbn [search_from] in Hs.
  - destruct (match_at r bol []) as [[ms' rest']|] eqn:Hm; [|discriminate Hs].
    injection Hs as <- <- <-. now exists [], bol.
  - destruct (match_at r bol (c :: s)) as [[ms' rest']|] eqn:Hm.
    + injection Hs as <- <- <-. now exists [], bol.
    + destruct (IH _ _ _ _ Hs) as (before & bol' & -> & Hm').
      now exists (c :: before), bol'.
Qed.

Lemma r_or_R (c : N) :
  class_match true [Lit 114] c = true -> (c = 114 \/ c = 82)%N.
Proof.
  intros Hc. cbn in Hc. rewrite orb_false_r in Hc.
  unfold sre_lower, sre_fix in Hc.
  repeat match goal with
         | H : _ || _ = true |- _ => apply orb_true_iff in H as [H|H]
         | H : _ && _ = true |- _ => apply andb_true_iff in H as [? ?]
         | H : (_ =? _)%N = true |- _ => apply N.eqb_eq in H
         | H : context [(?a <=? ?b)%N] |- _ => destruct (N.leb_spec a b)
         | H : context [(?a =? ?b)%N] |- _ => destruct (N.eqb_spec a b)
         | H : context [_ && _] |- _ => cbn [andb orb] in H
         | H : false = true |- _ => discriminate H
         end; try lia.
Qed.

Lemma closing_bracket (c : N) :
  class_match true [Lit 41] c = true -> c = 41%N.
Proof.
  intros Hc. cbn in Hc. rewrite orb_false_r in Hc.
  unfold sre_lower, sre_fix in Hc.
  repeat match goal with
         | H : _ || _ = true |- _ => apply orb_true_iff in H as [H|H]
         | H : _ && _ = true |- _ => apply andb_true_iff in H as [? ?]
         | H : (_ =? _)%N = true |- _ => apply N.eqb_eq in H
         | H : context [(?a <=? ?b)%N] |- _ => destruct (N.leb_spec a b)
         | H : context [(?a =? ?b)%N] |- _ => destruct (N.eqb_spec a b)
         | H : context [_ && _] |- _ => cbn [andb orb] in H
         | H : false = true |- _ => discriminate H
         end; try lia.
Qed.

(** X19.  The reset hint is the matched text as it stands: it starts with the
    [r] of [reset], in either case, and ends with the closing bracket,
    so that neither [strip()] nor [rstrip(".")] takes anything off it;
    it is a part of the screen text. *)
Theorem reset_hint_is_the_match_itself (clean : str) :
  reset_info clean = [] \/
  exists front,
    let hint := front ++ [41%N] in
    reset_info clean = [NL; 9200%N] ++ lit " " ++ hint /\
    occurs_in hint clean /\
    (exists c rest, hint = c :: rest /\ (c = 114 \/ c = 82)%N).
Proof.
  unfold reset_info.
  destruct (search RESET_TIME_RE clean) as [[[from ms] rest]|] eqn:Hsearch;
    [right|now left].
  apply search_from_match in Hsearch as (before & bol & Hclean & Hm).
  apply first_some_Some in Hm as (ns & Hin & Hex).
  assert (Hshape : exists body,
            ns = One [Lit 114] :: chars "eset" ++ body ++ [One [Lit 41]]).
  { destruct Hin as [<-|[<-|[]]]; eexists; cbn [chars lit map app];
      repeat f_equal;
      [instantiate (1 := [Rep [Lit 115] 0 (Some 1%nat) true;
                          Rep [Space] 1 None true;
                          Rep [Dot] 5 (Some 50%nat) false])
      |instantiate (1 := chars " at" ++ [Rep [Space] 1 None true;
                                         Rep [Dot] 3 (Some 30%nat) false])];
      reflexivity. }
  destruct Hshape as [body ->]. cbn [ignorecase RESET_TIME_RE] in Hex.
  pose proof Hex as Hhead.
  apply exec_One in Hhead as (c & s' & Hfrom & Hc & Hrest).
  change (One [Lit 114] :: chars "eset" ++ body ++ [One [Lit 41]])
    with ((One [Lit 114] :: chars "eset" ++ body) ++ [One [Lit 41]]) in Hex.
  apply exec_ends_with in Hex as (front & d & Hfront & Hd).
  apply closing_bracket in Hd. subst d.
  assert (Hbetween : between from rest = front ++ [41%N]).
  { unfold between. rewrite Hfront, length_app. cbn [length].
    replace (length front + S (length rest) - length rest)%nat
      with (length (front ++ [41%N]))
      by (rewrite length_app; cbn [length]; lia).
    change (front ++ 41%N :: rest) with (front ++ [41%N] ++ rest).
    rewrite app_assoc, firstn_app, firstn_all, Nat.sub_diag.
    cbn [firstn]. apply app_nil_r. }
  assert (Hstart : exists rest', front ++ [41%N] = c :: rest').
  { rewrite Hfrom in Hfront. destruct front as [|x front].
    - cbn [app] in Hfront. injection Hfront as -> _.
      vm_compute in Hc. discriminate Hc.
    - cbn [app] in Hfront. injection Hfront as <- _. now eexists. }
  destruct Hstart as [rest' Hstart].
  assert (Hr : (c = 114 \/ c = 82)%N) by now apply r_or_R.
  assert (Hspace : is_space c = false) by (destruct Hr as [-> | ->]; reflexivity).
  assert (Htrimmed : trimmed (front ++ [41%N])).
  { split.
    - rewrite Hstart. now apply lstrip_by_head.
    - rewrite rev_app_distr. now apply lstrip_by_head. }
  exists front. cbv zeta. rewrite Hbetween.
  rewrite (trimmed_strip_fixed _ Htrimmed).
  assert (Hdots : rstrip_by (fun c => (c =? 46)%N) (front ++ [41%N])
                  = front ++ [41%N]).
  { unfold rstrip_by. rewrite rev_app_distr. cbn [rev app lstrip_by].
    change (41 =? 46)%N with false. cbv iota.
    change (41%N :: rev front) with (rev [41%N] ++ rev front).
    now rewrite <- rev_app_distr, rev_involutive. }
  rewrite Hdots. split; [reflexivity|]. split.
  - exists before, rest. rewrite Hclean, Hfront.
    now rewrite <- app_assoc.
  - now exists c, rest'.
Qed.

End ResetHint.

(* ------------------------------------------------------------------ *)
(** ** notify.py: what the hook reports *)

Lemma gather_texts_said (blocks : list json) :
  forall acc texts,
    gather_texts blocks acc = Ok texts ->
    forall v, In v texts ->
      In v acc \/
      exists block,
        In block blocks /\
        (block = v /\ (exists s, v = JStr s) \/
         exists fields,
           block = JObj fields /\ is_text_block fields = true /\
           dict_get (lit "text") fields = Some v).
Proof.
  induction blocks as [|block blocks IH]; intros acc texts Hg v Hv.
  - cbn [gather_texts] in Hg. injection Hg as <-. now left.
  - cbn [gather_texts] in Hg.
    assert (Hskip : gather_texts blocks acc = Ok texts ->
              In v acc \/
              exists block0,
                In block0 (block :: blocks) /\
                (block0 = v /\ (exists s, v = JStr s) \/
                 exists fields,
                   block0 = JObj fields /\ is_text_block fields = true /\
                   dict_get (lit "text") fields = Some v)).
    { intros Hg'. destruct (IH acc texts Hg' v Hv) as [Hacc|(b & Hb & Hsaid)];
        [now left|right]. exists b. split; [now right|exact Hsaid]. }
    destruct block as [ |b|n|f|s|items|fields]; try (now apply Hskip).
    + destruct (IH _ texts Hg v Hv) as [Hacc|(b & Hb & Hsaid)].
      * apply in_app_or in Hacc as [Hacc|[<-|[]]]; [now left|right].
        exists (JStr s). split; [now left|left]. split; [reflexivity|].
        now exists s.
      * right. exists b. split; [now right|exact Hsaid].
    + destruct (is_text_block fields) eqn:Htext; [|now apply Hskip].
      destruct (dict_get (lit "text") fields) as [t|] eqn:Ht;
        [|discriminate Hg].
      destruct (IH _ texts Hg v Hv) as [Hacc|(b & Hb & Hsaid)].
      * apply in_app_or in Hacc as [Hacc|[<-|[]]]; [now left|right].
        exists (JObj fields). split; [now left|right]. now exists fields.
      * right. exists b. split; [now right|exact Hsaid].
Qed.

Lemma all_strings_In (texts : list json) :
  forall l, all_strings texts = Some l ->
            forall s, In s l -> In (JStr s) texts.
Proof.
  induction texts as [|v texts IH]; intros l Hl s Hs.
  - injection Hl as <-. contradiction.
  - cbn [all_strings] in Hl.
    destruct v as [ |b|n|f|s0|items|fields]; try discriminate Hl.
    destruct (all_strings texts) as [l'|] eqn:Hl'; [|discriminate Hl].
    injection Hl as <-. destruct Hs as [->|Hs]; [now left|right].
    now apply (IH l').
Qed.

(** What a line adds to the text: a stripped join of things the
    assistant said on that line. *)
Lemma read_entry_said (last_text : option str) (line : transcript_line)
    (t : str) :
  read_entry last_text line = Ok (Some t) ->
  last_text = Some t \/
  exists content l,
    assistant_content line = Some content /\ l <> [] /\
    t = strip (join [NL; NL] l) /\ Forall (said_in content) l.
Proof.
  unfold read_entry, assistant_content.
  destruct line as [ | |entry]; try (intros E; injection E as ->; now left).
  destruct entry as [ |b|n|f|s|items|fields]; try discriminate.
  destruct (match dict_get (lit "message") fields with
            | Some m => m
            | None => JObj fields
            end) as [ |b|n|f|s|items|mfields]; try discriminate.
  destruct (dict_get (lit "role") mfields) as [[ |b|n|f|role|items|rf]|];
    try (intros E; injection E as ->; now left).
  destruct (str_eqb role (lit "assistant"));
    [|intros E; injection E as ->; now left].
  set (content := match dict_get (lit "content") mfields with
                  | Some c => c
                  | None => JStr []
                  end).
  assert (Hblocks : forall blocks,
    blocks_of content = Some blocks ->
    read_blocks last_text blocks = Ok (Some t) ->
    last_text = Some t \/
    exists content0 l,
      Some content = Some content0 /\ l <> [] /\
      t = strip (join [NL; NL] l) /\ Forall (said_in content0) l).
  { intros blocks Hb Hread. unfold read_blocks in Hread.
    destruct (gather_texts blocks []) as [texts|e] eqn:Hg;
      [|discriminate Hread].
    destruct (is_empty texts) eqn:Hnone;
      [injection Hread as ->; now left|].
    destruct (all_strings texts) as [l|] eqn:Hl; [|discriminate Hread].
    injection Hread as <-. right. exists content, l.
    split; [reflexivity|]. split.
    { intros ->. destruct texts as [|j texts]; [discriminate Hnone|].
      cbn [all_strings] in Hl. destruct j; try discriminate Hl.
      destruct (all_strings texts); discriminate Hl. }
    split; [reflexivity|]. apply Forall_forall. intros s Hs.
    pose proof (all_strings_In _ l Hl s Hs) as Hin.
    destruct (gather_texts_said blocks [] _ Hg (JStr s) Hin)
      as [[]|(block & Hblock & Hsaid)].
    right. exists blocks, block. split; [exact Hb|]. split; [exact Hblock|].
    destruct Hsaid as [[-> _]|(f & -> & Htext & Ht)]; [now left|right].
    now exists f. }
  destruct content as [ |b|n|f|s|items|cfields] eqn:Hcontent;
    try discriminate.
  - destruct (is_empty (strip s)); intros E; injection E as <-; [now left|].
    right. exists (JStr s), [s]. repeat split; try discriminate.
    constructor; [now left|constructor].
  - cbn [blocks_of]. apply (Hblocks items eq_refl).
  - cbn [blocks_of]. apply (Hblocks _ eq_refl).
Qed.

(** X20.  The text the hook reports is made of what the assistant said and
    of nothing else: it is the stripped text of one line of the
    transcript that holds a message of the assistant -- the content of
    the message when that is a string, otherwise its text blocks and
    string blocks joined by blank lines.  No other block of the message
    (a tool call, a tool result) and no message of another role
    contributes to it. *)
Theorem reported_text_is_what_the_assistant_said
    (lines : list transcript_line) (t : str) :
  extract_last_assistant_text lines = Ok (Some t) ->
  exists line content l,
    In line lines /\ assistant_content line = Some content /\
    l <> [] /\ t = strip (join [NL; NL] l) /\ Forall (said_in content) l.
Proof.
  unfold extract_last_assistant_text.
  assert (Hgen : forall last_text,
    read_entries lines last_text = Ok (Some t) ->
    last_text = Some t \/
    exists line content l,
      In line lines /\ assistant_content line = Some content /\
      l <> [] /\ t = strip (join [NL; NL] l) /\ Forall (said_in content) l).
  { induction lines as [|line lines IH]; intros last_text Hread.
    - cbn [read_entries] in Hread. injection Hread as ->. now left.
    - cbn [read_entries] in Hread.
      destruct (read_entry last_text line) as [t1|e] eqn:Hline;
        [|discriminate Hread].
      destruct (IH t1 Hread) as [->|(l0 & content & l & Hin & Hrest)].
      + destruct (read_entry_said _ _ _ Hline)
          as [Hlast|(content & l & Hcontent & Hrest)]; [now left|right].
        exists line, content, l. split; [now left|]. now split.
      + right. exists l0, content, l. split; [now right|exact Hrest]. }
  intros Hread. destruct (Hgen None Hread) as [Hnone|Hsaid];
    [discriminate Hnone|exact Hsaid].
Qed.

Lemma reported_text_is_what_the_assistant_said_witness :
  extract_last_assistant_text sample_transcript
  = Ok (Some (lit "All done." ++ [NL; NL] ++ lit "Anything else?")) /\
  exists line content l,
    In line sample_transcript /\ assistant_content line = Some content /\
    l <> [] /\
    lit "All done." ++ [NL; NL] ++ lit "Anything else?"
    = strip (join [NL; NL] l) /\
    Forall (said_in content) l.
Proof.
  assert (Hread : extract_last_assistant_text sample_transcript
                  = Ok (Some (lit "All done." ++ [NL; NL]
                              ++ lit "Anything else?")))
    by (vm_compute; reflexivity).
  split; [exact Hread|].
  exact (reported_text_is_what_the_assistant_said sample_transcript _ Hread).
Defined.

Lemma truncate_message_within (text : str) (L : Z) :
  len marker + 1 <= L -> len (truncate_message text L) <= L.
Proof.
  intros HL. destruct (budget_split L HL) as (Hh & Ht & _).
  cbv zeta in Hh, Ht. rewrite len_marker in *.
  unfold truncate_message.
  destruct (Z.leb_spec (len text) L) as [Hle|Hgt]; [exact Hle|].
  rewrite len_marker.
  rewrite slice_to_firstn by lia. rewrite slice_from_last by lia.
  rewrite !len_app, len_firstn, len_skipn, len_marker by lia. lia.
Qed.

Section Hook.
Context `{U : UCD}.
Variable environ : str -> option str.
Variable int_of_str : str -> option Z.
Variable title_char : N -> str.
Variable send_message_answer : list hook_message -> res unit.


End Hook.


(* ------------------------------------------------------------------ *)
(** ** config.py: where a setting comes from *)

Lemma dict_get_app (k : str) (a b : dict) :
  dict_get k (a ++ b)
  = match dict_get k a with Some v => Some v | None => dict_get k b end.
Proof.
  induction a as [|[k' v] a IH]; [reflexivity|]. cbn [app dict_get].
  destruct (str_eqb k k'); [reflexivity|exact IH].
Qed.

Lemma dict_get_set (k k' : str) (v : json) (d : dict) :
  dict_get k (dict_set k' v d)
  = if str_eqb k k' then Some v else dict_get k d.
Proof. reflexivity. Qed.

Lemma str_eqb_false (a b : str) : a <> b -> str_eqb a b = false.
Proof.
  intros Hne. destruct (str_eqb a b) eqn:E; [|reflexivity].
  apply str_eqb_eq in E. contradiction.
Qed.

Section ConfigPrecedence.
Variable environ : str -> option str.
Variable int_of_str : str -> option Z.

(** X22.  A setting comes from the environment, else from config.json, else
    from the defaults.  The token, the session and the log level are
    the text of their variable when it is set and not empty; the chat
    id is that text read as an integer, and [load_config] raises
    exactly when that text is not an integer.  Every other key holds
    what config.json stores for it, and its default otherwise, so that
    a key with a default is always present. *)
Theorem a_setting_comes_from_environment_file_or_defaults
    (file : option dict) :
  let pick := text_setting environ file in
  match load_config environ int_of_str file with
  | Raise _ =>
      exists v, env_value environ "COUCHCLAUDE_CHAT_ID" = Some v /\
                int_of_str v = None
  | Ok config =>
      dict_get (lit "telegram_bot_token") config
      = pick "COUCHCLAUDE_BOT_TOKEN"%string (lit "telegram_bot_token") /\
      dict_get (lit "tmux_session") config
      = pick "COUCHCLAUDE_TMUX_SESSION"%string (lit "tmux_session") /\
      dict_get (lit "log_level") config
      = pick "COUCHCLAUDE_LOG_LEVEL"%string (lit "log_level") /\
      dict_get (lit "telegram_chat_id") config
      = match env_value environ "COUCHCLAUDE_CHAT_ID" with
        | Some v => option_map JNum (int_of_str v)
        | None => stored_or_default file (lit "telegram_chat_id")
        end /\
      (forall k,
         ~ In k [lit "telegram_bot_token"; lit "tmux_session";
                 lit "log_level"; lit "telegram_chat_id"] ->
         dict_get k config = stored_or_default file k) /\
      (forall k, dict_get k DEFAULTS <> None -> dict_get k config <> None) /\
      (forall v, env_value environ "COUCHCLAUDE_CHAT_ID" = Some v ->
                 int_of_str v <> None)
  end.
Proof.
  cbv zeta. unfold load_config, text_setting.
  set (base := match file with
               | Some stored => dict_update DEFAULTS stored
               | None => DEFAULTS
               end).
  assert (Hbase : forall k, dict_get k base = stored_or_default file k).
  { intros k. unfold base, stored_or_default, dict_update.
    destruct file as [stored|]; [apply dict_get_app|reflexivity]. }
  destruct (env_value environ "COUCHCLAUDE_BOT_TOKEN") as [token|];
    destruct (env_value environ "COUCHCLAUDE_CHAT_ID") as [chat|];
    try destruct (int_of_str chat) as [n|] eqn:Hint;
    try (now exists chat);
    destruct (env_value environ "COUCHCLAUDE_TMUX_SESSION") as [session|];
    destruct (env_value environ "COUCHCLAUDE_LOG_LEVEL") as [level|];
    rewrite ?dict_get_set;
    repeat match goal with
           | |- context [str_eqb (lit ?a) (lit ?b)] =>
               let v := eval vm_compute in (str_eqb (lit a) (lit b)) in
               change (str_eqb (lit a) (lit b)) with v
           end;
    cbv iota; rewrite ?Hbase, ?Hint;
    (split; [reflexivity|split; [reflexivity|split; [reflexivity|
      split; [reflexivity|split; [|split]]]]]);
    intros k Hk; rewrite ?dict_get_set.
  all: try (first [ discriminate Hk
                  | injection Hk as Hk; subst k; rewrite Hint;
                    discriminate ]).
  all: try (repeat match goal with
                   | H : ~ In ?x _ |- context [str_eqb ?x (lit ?a)] =>
                       rewrite (str_eqb_false x (lit a))
                         by (intros ->; apply H; cbn; tauto)
                   end;
            apply Hbase).
  all: repeat match goal with
              | |- context [if ?b then _ else _] => destruct b; [discriminate|]
              end;
    rewrite Hbase; unfold stored_or_default;
    match goal with
    | |- match ?x with _ => _ end <> None => destruct x; [discriminate|]
    end; assumption.
Qed.

End ConfigPrecedence.

(* ------------------------------------------------------------------ *)
(** ** Commands: what the chat is told *)

Section Answers.
Context `{U : UCD}.
Variable W : world.
Variable cfg : config.

(** X23.  A command that reports success has told the chat: when
    [handle_command] returns [True], its last call is a message to the
    chat that the chat accepted; when it returns [False] it has made no
    call at all -- the command is unknown, or it is [/cd] or [/cmd]
    without an argument --, and the chat is told nothing. *)
Theorem handled_command_has_told_the_chat
    (chat : Z) (text : str) (m : machine) :
  let r := handle_command W cfg chat text m in
  match snd r with
  | Ok true =>
      exists body mode,
        last (trace (fst r)) Time = SendMessage chat body mode /\
        w_send_message W (trace (fst r)) = Ok tt
  | Ok false =>
      fst r = m /\
      let cmd := command_word text in
      ~ In cmd [lit "/ping"; lit "/esc"; lit "/help"; lit "/status";
                lit "/view"; lit "/screen"] /\
      (cmd = lit "/cd" \/ cmd = lit "/cmd" -> command_arg text = [])
  | Raise _ => True
  end.
Proof.
  cbv zeta. unfold handle_command.
  fold (command_word text) (command_arg text).
  destruct (is_empty (strip text)); [exact I|].
  unfold format_uptime, send_message, send_escape, get_session_info,
    capture_pane, send_keys, sleep, save_snapshot, time.
  repeat match goal with
         | |- context [str_eqb (command_word text) ?c] =>
             destruct (str_eqb (command_word text) c) eqn:?
         end;
    cbn [orb andb]; try destruct (is_empty (command_arg text)) eqn:?;
    cbn [negb andb]; run; cbn [trace set_trace];
    repeat (cbn [fst snd trace set_trace];
            match goal with
            | |- context [match w_send_message W ?t with _ => _ end] =>
                let E := fresh "E" in
                destruct (w_send_message W t) as [[]|?] eqn:E
            | |- context [match w_send_escape W ?t with _ => _ end] =>
                destruct (w_send_escape W t) as [[]|?]
            | |- context [match w_send_keys W ?t with _ => _ end] =>
                destruct (w_send_keys W t) as [[]|?]
            | |- context [match w_capture_pane W ?t with _ => _ end] =>
                destruct (w_capture_pane W t) as [?|?]
            | |- context [match w_get_session_info W ?t with _ => _ end] =>
                destruct (w_get_session_info W t) as [[?|]|?]
            | |- context [if negb (?a =? ?b) then _ else _] =>
                destruct (negb (a =? b))
            end);
    cbn [fst snd trace set_trace]; try exact I;
    try (do 2 eexists; split; [apply last_last|assumption]).
  all: split; [reflexivity|]; cbv zeta.
  all: repeat match goal with
              | H : str_eqb ?a ?b = false |- _ =>
                  assert (a <> b)
                    by (intros Hx; rewrite Hx, str_eqb_refl in H;
                        discriminate H);
                  clear H
              | H : str_eqb _ _ = true |- _ => apply str_eqb_eq in H
              | H : is_empty _ = true |- _ => apply is_empty_true in H
              | H : is_empty _ = false |- _ => apply is_empty_false in H
              end.
  all: split;
    [intros Hin; cbn [In] in Hin; intuition congruence
    |intros [Hc|Hc]; try assumption; congruence].
Qed.

End Answers.

(* ------------------------------------------------------------------ *)
(** ** The question of a prompt *)

Section Question.
Context `{U : UCD}.

Lemma run_length_max (p : N -> bool) (s : str) :
  skipn (run_length p None s) s = [] \/
  exists c t, skipn (run_length p None s) s = c :: t /\ p c = false.
Proof.
  induction s as [|c s IH]; [now left|]. cbn [run_length].
  destruct (p c) eqn:Hc; [exact IH|]. right. now exists c, s.
Qed.

Lemma rstrip_by_prefix (p : N -> bool) (s : str) :
  exists post, s = rstrip_by p s ++ post.
Proof.
  unfold rstrip_by. destruct (lstrip_by_part p (rev s)) as [pre Hpre].
  exists (rev pre). rewrite <- rev_app_distr, <- Hpre. now rewrite rev_involutive.
Qed.

Lemma find_question_line (above : list str) (q : str) :
  find_question above = Some q ->
  exists line,
    In line above /\
    blank_or_rule (strip line) = false /\
    re_match OPTION_RE line = None /\
    q = strip (sub_empty QUESTION_LEAD_RE (strip line)) /\
    5 < len q.
Proof.
  induction above as [|line above IH]; [discriminate|]. cbn [find_question].
  assert (Hnext : find_question above = Some q ->
            exists line0,
              In line0 (line :: above) /\
              blank_or_rule (strip line0) = false /\
              re_match OPTION_RE line0 = None /\
              q = strip (sub_empty QUESTION_LEAD_RE (strip line0)) /\
              5 < len q).
  { intros Hq. destruct (IH Hq) as (l & Hin & Hrest).
    exists l. split; [now right|exact Hrest]. }
  destruct (blank_or_rule (strip line)) eqn:Hblank; [exact Hnext|].
  destruct (re_match OPTION_RE line) as [r|] eqn:Hopt; [exact Hnext|].
  cbn [is_some].
  destruct (negb (is_empty _) && (5 <? len _)) eqn:Hgood; [|exact Hnext].
  intros E. injection E as <-. exists line.
  apply andb_true_iff in Hgood as [_ Hlen]. apply Z.ltb_lt in Hlen.
  repeat split; [now left|assumption..].
Qed.

(** X24.  The question of a prompt, when one is found, comes from a line of
    the screen that is not an option line; it has more than five
    characters, no white space at either end, and it does not start
    with one of the markers [❓], [❯], [>] and [?] that the parser cuts
    off. *)
Theorem question_is_a_clean_line_of_the_screen
    (screen : str) (parsed : prompt_parts) (q : str) :
  parse_prompt_parts screen = Some parsed ->
  question parsed = Some q ->
  5 < len q /\ trimmed q /\
  (exists c rest,
     q = c :: rest /\
     class_match false [Lit 10067; Lit 10095; Lit 62; Lit 63; Space] c
     = false) /\
  exists line,
    In line (splitlines (sanitize_text screen)) /\
    re_match OPTION_RE line = None /\
    q = strip (sub_empty QUESTION_LEAD_RE (strip line)).
Proof.
  unfold parse_prompt_parts. intros Hparsed Hq.
  destruct (fold_left scan_line _ _) as [opts first].
  destruct opts as [|o opts]; [discriminate Hparsed|].
  injection Hparsed as <-. cbn [question] in Hq.
  destruct first as [i|]; [|discriminate Hq].
  apply find_question_line in Hq as (line & Hin & _ & Hopt & Hqeq & Hlen).
  split; [exact Hlen|]. split; [rewrite Hqeq; apply strip_trimmed|].
  split.
  - unfold QUESTION_LEAD_RE in Hqeq. rewrite sub_empty_lead in Hqeq.
    set (cl := [Lit 10067; Lit 10095; Lit 62; Lit 63; Space]) in *.
    destruct (run_length_max (class_match false cl) (strip line))
      as [Hnil|(c & t & Hskip & Hc)].
    + rewrite Hnil in Hqeq. subst q. cbn in Hlen. lia.
    + rewrite Hskip in Hqeq.
      assert (Hspace : is_space c = false).
      { unfold cl, class_match in Hc. cbn [existsb item_match] in Hc.
        do 4 (apply orb_false_iff in Hc as [_ Hc]).
        now rewrite orb_false_r in Hc. }
      unfold strip in Hqeq. rewrite (lstrip_by_head _ c t Hspace) in Hqeq.
      destruct (rstrip_by_prefix is_space (c :: t)) as [post Hpost].
      rewrite <- Hqeq in Hpost. destruct q as [|d q'].
      * cbn in Hlen. lia.
      * cbn [app] in Hpost. injection Hpost as <- _. now exists c, q'.
  - exists line. split; [|split; assumption].
    apply in_rev in Hin. rewrite <- (firstn_skipn i).
    apply in_or_app. now left.
Qed.

End Question.

Lemma question_is_a_clean_line_of_the_screen_witness :
  5 < len (lit "Do you want to allow this command?") /\
  trimmed (lit "Do you want to allow this command?").
Proof.
  assert (Hparsed :
    @parse_prompt_parts sample_ucd (yes_no_screen "Yes")
    = Some {| question := Some (lit "Do you want to allow this command?");
              options := [lit "1. Yes"; lit "2. No"] |})
    by (vm_compute; reflexivity).
  destruct (@question_is_a_clean_line_of_the_screen sample_ucd
              (yes_no_screen "Yes") _ _ Hparsed eq_refl)
    as (Hlen & Htrim & _).
  split; [exact Hlen|exact Htrim].
Defined.

(* ------------------------------------------------------------------ *)
(** ** The uptime *)

Section Uptime.
Context `{U : UCD}.
Variable W : world.
Variable cfg : config.

(** X25.  The uptime shown by [/ping] and [/status] adds up to the seconds
    elapsed since the start: hours, minutes below sixty and seconds
    below sixty, the hours left out when there are none and the minutes
    too when there are neither.  One reading of the clock is all it
    takes. *)
Theorem uptime_adds_up (m : machine) :
  let elapsed := w_time W (trace m ++ [Time]) - start_time cfg in
  exists h mi s,
    elapsed = h * 3600 + mi * 60 + s /\
    0 <= mi < 60 /\ 0 <= s < 60 /\ (0 <= elapsed -> 0 <= h) /\
    snd (format_uptime W cfg m)
    = Ok (if h =? 0 then
            if mi =? 0 then str_of_Z s ++ lit "s"
            else str_of_Z mi ++ lit "m " ++ str_of_Z s ++ lit "s"
          else str_of_Z h ++ lit "h " ++ str_of_Z mi ++ lit "m "
               ++ str_of_Z s ++ lit "s") /\
    calls_between m (fst (format_uptime W cfg m)) = [Time].
Proof.
  cbv zeta. unfold format_uptime, time. run. cbn [trace set_trace].
  set (elapsed := w_time W (trace m ++ [Time]) - start_time cfg).
  exists (elapsed / 3600), (elapsed mod 3600 / 60), (elapsed mod 3600 mod 60).
  pose proof (Z.div_mod elapsed 3600 ltac:(lia)) as H1.
  pose proof (Z.mod_pos_bound elapsed 3600 ltac:(lia)) as H2.
  pose proof (Z.div_mod (elapsed mod 3600) 60 ltac:(lia)) as H3.
  pose proof (Z.mod_pos_bound (elapsed mod 3600) 60 ltac:(lia)) as H4.
  assert (H5 : 0 <= elapsed mod 3600 / 60 < 60)
    by (split; [apply Z.div_pos; lia|apply Z.div_lt_upper_bound; lia]).
  split; [lia|]. split; [exact H5|]. split; [exact H4|].
  split; [intros Hpos; apply Z.div_pos; lia|].
  destruct (elapsed / 3600 =? 0); cbn [negb];
    [destruct (elapsed mod 3600 / 60 =? 0); cbn [negb]|];
    (split; [reflexivity|read_calls; reflexivity]).
Qed.

End Uptime.

(* ------------------------------------------------------------------ *)
(** ** config.py: the environment and the file *)

Section ConfigFromEnvironment.
Variable environ : str -> option str.
Variable int_of_str : str -> option Z.

Lemma env_value_nonempty (name : string) (v : str) :
  env_value environ name = Some v -> is_empty v = false.
Proof.
  unfold env_value. destruct (environ (lit name)) as [x|]; [|discriminate].
  destruct (is_empty x) eqn:Hx; [discriminate|].
  intros E. injection E as <-. exact Hx.
Qed.

Lemma environment_completes_the_stored (stored : option dict)
    (token chat : str) (n : Z) :
  env_value environ "COUCHCLAUDE_BOT_TOKEN" = Some token ->
  env_value environ "COUCHCLAUDE_CHAT_ID" = Some chat ->
  int_of_str chat = Some n ->
  exists config,
    load_config environ int_of_str stored = Ok config /\
    validate_config config
    = if n =? 0 then [lit "telegram_chat_id"] else [].
Proof.
  intros Htoken Hchat Hint. unfold load_config.
  rewrite Htoken, Hchat, Hint. eexists. split; [reflexivity|].
  pose proof (env_value_nonempty _ _ Htoken) as Hne.
  destruct (env_value environ "COUCHCLAUDE_TMUX_SESSION");
    destruct (env_value environ "COUCHCLAUDE_LOG_LEVEL");
    unfold validate_config; cbn [filter]; rewrite ?dict_get_set;
    repeat match goal with
           | |- context [str_eqb (lit ?a) (lit ?b)] =>
               let v := eval vm_compute in (str_eqb (lit a) (lit b)) in
               change (str_eqb (lit a) (lit b)) with v
           end;
    cbv iota; cbn [truthy]; rewrite Hne; cbn [negb];
    destruct (n =? 0); reflexivity.
Qed.

(** X26.  With the token and the chat id in their variables, the
    environment completes whatever configuration the file gives: when
    config.json is missing, and whatever it stores when it is read,
    [load_config] returns a configuration in which [validate_config]
    finds nothing missing -- unless the chat id reads as zero, which
    counts as a missing chat id.  It does not make up for a file that
    cannot be read: the file is read first, and [load_config] raises
    what the reading raises, whatever the environment holds. *)
Theorem environment_completes_a_readable_file
    (file : config_file) (token chat : str) (n : Z) :
  env_value environ "COUCHCLAUDE_BOT_TOKEN" = Some token ->
  env_value environ "COUCHCLAUDE_CHAT_ID" = Some chat ->
  int_of_str chat = Some n ->
  match file with
  | Unreadable e => load_config_file environ int_of_str file = Raise e
  | NoFile | Holds _ =>
      exists config,
        load_config_file environ int_of_str file = Ok config /\
        validate_config config
        = if n =? 0 then [lit "telegram_chat_id"] else []
  end.
Proof.
  intros Htoken Hchat Hint.
  destruct file as [|e|stored]; cbn [load_config_file];
    [|reflexivity|];
    exact (environment_completes_the_stored _ token chat n Htoken Hchat Hint).
Qed.

End ConfigFromEnvironment.

Lemma environment_completes_a_readable_file_witness :
  (exists config,
     load_config_file sample_environ sample_int
       (Holds [(lit "telegram_chat_id", JStr (lit "not a number"))])
     = Ok config /\
     validate_config config = []) /\
  load_config_file sample_environ sample_int (Unreadable (lit "JSONDecodeError"))
  = Raise (lit "JSONDecodeError").
Proof.
  split.
  - exact (environment_completes_a_readable_file sample_environ sample_int
             (Holds [(lit "telegram_chat_id", JStr (lit "not a number"))])
             (lit "1234:secret") (lit "42") 42 eq_refl eq_refl eq_refl).
  - exact (environment_completes_a_readable_file sample_environ sample_int
             (Unreadable (lit "JSONDecodeError"))
             (lit "1234:secret") (lit "42") 42 eq_refl eq_refl eq_refl).
Defined.

(* ------------------------------------------------------------------ *)
(** ** The screen check *)

Lemma bind_fst {A B : Type} (x : M A) (f : A -> M B) (m : machine) :
  fst (bind x f m)
  = match snd (x m) with
    | Ok a => fst (f a (fst (x m)))
    | Raise _ => fst (x m)
    end.
Proof. unfold bind. destruct (x m) as [m1 [a|e]]; reflexivity. Qed.

Lemma only_for_each (P : call -> Prop) {A : Type}
    (body : A -> M unit) (l : list A) :
  (forall a, only P (body a)) -> only P (for_each body l).
Proof.
  intros Hbody. induction l as [|a l IH]; [apply only_ret|].
  cbn [for_each]. apply only_bind; [apply Hbody|intros _; exact IH].
Qed.

Lemma to_chat_not_screen_check (chat : Z) (l : list call) :
  Forall (to_chat chat) l -> filter is_screen_check l = [].
Proof.
  induction 1 as [|c l Hc _ IH]; [reflexivity|].
  cbn [filter]. destruct c; try contradiction; exact IH.
Qed.

Lemma no_screen_check (l : list call) :
  Forall (fun c => is_screen_check c = false) l ->
  filter is_screen_check l = [].
Proof.
  induction 1 as [|c l Hc _ IH]; [reflexivity|].
  cbn [filter]. now rewrite Hc.
Qed.

Section ScreenCheck.
Context `{U : UCD}.
Variable W : world.
Variables (chat : Z) (session : str).

Ltac shape_done :=
  cbn [fst snd last_screen_check set_trace set_last_prompt_hash
       set_last_ratelimit_hash set_ratelimit_waiting];
  split; [reflexivity|]; split; [reflexivity|];
  eexists; split;
  [ cbn [trace set_trace set_last_prompt_hash set_last_ratelimit_hash
         set_ratelimit_waiting];
    rewrite <- ?app_assoc; reflexivity
  | cbn [app length];
    split; [repeat (apply Forall_cons; [reflexivity|]); apply Forall_nil | lia] ].

Lemma check_for_prompts_calls (m : machine) :
  let r := check_for_prompts W chat session m in
  snd r = Ok tt /\
  last_screen_check (fst r) = last_screen_check m /\
  exists rest,
    trace (fst r) = trace m ++ CapturePane session 20 :: rest /\
    Forall (to_chat chat) rest /\ (length rest <= 2)%nat.
Proof.
  cbv zeta. rewrite check_for_prompts_run. cbv zeta.
  destruct (shown W session m) as [raw|e]; [|shape_done].
  destruct (is_empty (strip raw)); [shape_done|].
  destruct (negb (found PROMPT_DETECT_RE (strip raw))); [shape_done|].
  destruct (parse_prompt (strip raw)) as [text|]; [|shape_done].
  destruct (is_empty text); [shape_done|].
  destruct (hash_is _ _); [shape_done|].
  destruct (is_empty (make_buttons (strip raw)));
    match goal with |- context [succeeded ?r] => destruct (succeeded r) end;
    shape_done.
Qed.

Lemma check_for_ratelimit_calls (m : machine) :
  let r := check_for_ratelimit W chat session m in
  snd r = Ok tt /\
  last_screen_check (fst r) = last_screen_check m /\
  exists rest,
    trace (fst r) = trace m ++ CapturePane session 20 :: rest /\
    Forall (to_chat chat) rest /\ (length rest <= 2)%nat.
Proof.
  cbv zeta. rewrite check_for_ratelimit_run. cbv zeta.
  destruct (shown W session m) as [raw|e]; [|shape_done].
  destruct (is_empty (strip (sanitize_text raw))); [shape_done|].
  destruct (negb (found RATELIMIT_RE _)).
  { destruct (ratelimit_waiting m); shape_done. }
  destruct (is_empty (relevant_lines _)); [shape_done|].
  destruct (hash_is _ _); [shape_done|].
  match goal with |- context [succeeded ?r] => destruct (succeeded r) end;
    shape_done.
Qed.

(** X27.  A screen check cannot stop the loop: whatever the pane shows
    and whatever the chat answers, either classifier returns normally.
    It captures twenty lines of the pane once, as its first call, and
    then sends two messages at most, to the configured chat only; it
    types nothing into the terminal. *)
Theorem screen_check_never_raises (cat : category) (m : machine) :
  let r := check W chat session cat m in
  snd r = Ok tt /\
  exists rest,
    calls_between m (fst r) = CapturePane session 20 :: rest /\
    Forall (to_chat chat) rest /\ (length rest <= 2)%nat.
Proof.
  cbv zeta. destruct cat; cbn [check].
  - destruct (check_for_prompts_calls m) as (Hr & _ & rest & Ht & Hrest).
    split; [exact Hr|]. exists rest.
    split; [exact (calls_between_app _ _ _ Ht)|exact Hrest].
  - destruct (check_for_ratelimit_calls m) as (Hr & _ & rest & Ht & Hrest).
    split; [exact Hr|]. exists rest.
    split; [exact (calls_between_app _ _ _ Ht)|exact Hrest].
Qed.

End ScreenCheck.

(* ------------------------------------------------------------------ *)
(** ** The loop: how often the screen is checked *)

Section Throttle.
Context `{U : UCD}.
Variable W : world.
Variable cfg : config.

Lemma last_check_perform (v : Z) {A : Type} (c : call)
    (answer : list call -> res A) :
  preserves (fun m => last_screen_check m = v) (perform c answer).
Proof. intros m Hm. exact Hm. Qed.

Lemma last_check_modify (v : Z) (f : machine -> machine) :
  (forall m, last_screen_check (f m) = last_screen_check m) ->
  preserves (fun m => last_screen_check m = v) (modify f).
Proof. intros Hf m Hm. unfold modify. cbn [fst]. now rewrite Hf. Qed.

Ltac last_check_step :=
  match goal with
  | |- preserves _ (bind _ _) => apply preserves_bind; [|intros]
  | |- preserves _ (try_except _ _) => apply preserves_try_except; [|intros]
  | |- preserves _ (for_each _ _) => apply preserves_for_each; intros
  | |- preserves _ (ret _) => apply preserves_ret
  | |- preserves _ (raise _) => apply preserves_raise
  | |- preserves _ get => apply preserves_get
  | |- preserves _ (perform _ _) => apply last_check_perform
  | |- preserves _ (modify _) => apply last_check_modify; intros; reflexivity
  | |- preserves _ (if ?b then _ else _) => destruct b
  | |- preserves _ (match ?x with _ => _ end) => destruct x
  | |- preserves _ (let '(_, _) := ?x in _) => destruct x
  end.

(** What a turn does once the screen check is behind it. *)
Lemma after_the_check (updates : list update) (m : machine) :
  let chat_id := telegram_chat_id cfg in
  let session := tmux_session cfg in
  let r :=
    (modify (set_pending_files []) ;;
     for_each (handle_update W cfg) updates ;;
     m <- get ;;
     if is_empty (pending_files m) then pass
     else
       try_except
         (send_files_to_claude W chat_id session (pending_files m))
         (fun e =>
            send_message W chat_id (CROSS ++ lit " File send error: " ++ e)
              None))%M m in
  last_screen_check (fst r) = last_screen_check m /\
  exists ext,
    trace (fst r) = trace m ++ ext /\
    Forall (fun c => is_screen_check c = false) ext.
Proof.
  cbv zeta. split.
  - match goal with
    | |- last_screen_check (fst (?x m)) = _ =>
        assert (Hx : preserves (fun m0 => last_screen_check m0
                                          = last_screen_check m) x)
    end.
    { unfold handle_update, handle_callback, handle_command, format_uptime,
        send_files_to_claude, download_photo, download_document, add_pending.
      unfold send_message, send_escape, get_session_info, capture_pane,
        send_keys, sleep, save_snapshot, answer_callback_query, time,
        wait_for_input, get_file, download_file.
      repeat last_check_step. }
    exact (Hx m eq_refl).
  - match goal with
    | |- exists ext, trace (fst (?x m)) = _ /\ _ =>
        assert (Hx : only (fun c => is_screen_check c = false) x)
    end.
    { apply only_bind; [apply only_modify; reflexivity|intros _].
      apply only_bind.
      - apply only_for_each. intros upd.
        unfold handle_update, handle_callback, handle_command, format_uptime,
          download_photo, download_document, add_pending.
        unfold send_message, send_escape, get_session_info, capture_pane,
          send_keys, sleep, save_snapshot, answer_callback_query, time,
          get_file, download_file.
        only_all; reflexivity.
      - intros _. unfold send_files_to_claude.
        unfold send_message, send_keys, sleep, save_snapshot, wait_for_input.
        only_all; reflexivity. }
    exact (Hx m).
Qed.

(** The two classifiers, one after the other. *)
Lemma both_checks (chat : Z) (session : str) (now : Z) (m : machine) :
  let r :=
    (modify (set_last_screen_check now) ;;
     check_for_prompts W chat session ;;
     check_for_ratelimit W chat session)%M m in
  snd r = Ok tt /\
  last_screen_check (fst r) = now /\
  exists rest1 rest2,
    trace (fst r)
    = trace m ++ CapturePane session 20 :: rest1
              ++ CapturePane session 20 :: rest2 /\
    Forall (to_chat chat) rest1 /\ Forall (to_chat chat) rest2.
Proof.
  cbv zeta. unfold bind at 1. unfold modify. cbv beta iota.
  unfold bind.
  destruct (check_for_prompts_calls W chat session
              (set_last_screen_check now m))
    as (Hr1 & Hl1 & rest1 & Ht1 & Hc1 & _).
  destruct (check_for_prompts W chat session (set_last_screen_check now m))
    as [m1 r1]. cbn [fst snd] in *. subst r1.
  destruct (check_for_ratelimit_calls W chat session m1)
    as (Hr2 & Hl2 & rest2 & Ht2 & Hc2 & _).
  split; [exact Hr2|]. split; [now rewrite Hl2, Hl1|].
  exists rest1, rest2. split; [|split; assumption].
  rewrite Ht2, Ht1. cbn [trace set_last_screen_check].
  now rewrite <- app_assoc.
Qed.

(** X28.  The screen is checked no more often than every five seconds of
    the clock.  A turn of the loop runs the two classifiers, once each,
    exactly when the poll returned and the clock reads five seconds or
    more past the last check, and it then records that reading; in any
    other turn nothing captures twenty lines of the pane -- no update
    and no batch of files triggers a check -- and the record stays. *)
Theorem screen_is_checked_every_five_seconds_at_most (m : machine) :
  let session := tmux_session cfg in
  let m' := fst (main_turn W cfg m) in
  let checks := filter is_screen_check (calls_between m m') in
  let polled := trace m ++ [GetUpdates (offset m) 5] in
  let now := w_time W (polled ++ [Time]) in
  if succeeded (w_get_updates W polled) && (5 <=? now - last_screen_check m)
  then checks = [CapturePane session 20; CapturePane session 20] /\
       last_screen_check m' = now
  else checks = [] /\ last_screen_check m' = last_screen_check m.
Proof.
  cbv zeta. unfold main_turn. rewrite bind_fst, poll_run. cbv zeta.
  destruct (w_get_updates W _) as [updates|e]; cbn [fst snd succeeded andb].
  2:{ split; [|reflexivity].
      rewrite (calls_between_app m _
                 [GetUpdates (offset m) 5; Sleep (poll_interval cfg * 1000)]).
      - reflexivity.
      - cbn [trace set_trace]. now rewrite <- app_assoc. }
  rewrite bind_fst. unfold time, perform. cbn [fst snd].
  rewrite bind_fst. unfold get.
  cbn [fst snd last_screen_check set_trace trace].
  set (polled := trace m ++ [GetUpdates (offset m) 5]).
  set (now := w_time W (polled ++ [Time])).
  set (m2 := set_trace (polled ++ [Time]) (set_trace polled m)).
  destruct (5 <=? now - last_screen_check m) eqn:Hdue; rewrite bind_fst.
  - destruct (both_checks (telegram_chat_id cfg) (tmux_session cfg) now m2)
      as (Hr & Hl & rest1 & rest2 & Ht & Hc1 & Hc2).
    rewrite Hr.
    match goal with
    | |- context [fst (?tail (fst (?checks m2)))] =>
        set (m3 := fst (checks m2)) in *
    end.
    destruct (after_the_check updates m3) as (Hkeep & ext & Hext & Hno).
    cbv zeta in Hkeep, Hext. unfold get in Hkeep, Hext. split.
    + rewrite (calls_between_app m _
                 ([GetUpdates (offset m) 5; Time]
                  ++ (CapturePane (tmux_session cfg) 20 :: rest1)
                  ++ (CapturePane (tmux_session cfg) 20 :: rest2) ++ ext)).
      * rewrite !filter_app. cbn [filter is_screen_check].
        change (20 =? 20) with true. cbv iota.
        rewrite (to_chat_not_screen_check _ _ Hc1),
          (to_chat_not_screen_check _ _ Hc2), (no_screen_check _ Hno).
        reflexivity.
      * rewrite Hext, Ht. unfold m2, polled. cbn [trace set_trace app].
        rewrite <- ?app_assoc. cbn [app]. rewrite <- ?app_assoc.
        reflexivity.
    + rewrite Hkeep. exact Hl.
  - change (ret tt m2) with (m2, @Ok unit tt). cbn [snd fst].
    destruct (after_the_check updates m2) as (Hkeep & ext & Hext & Hno).
    cbv zeta in Hkeep, Hext. unfold get in Hkeep, Hext. split.
    + rewrite (calls_between_app m _ ([GetUpdates (offset m) 5; Time] ++ ext)).
      * rewrite filter_app. cbn [filter is_screen_check].
        now rewrite (no_screen_check _ Hno).
      * rewrite Hext. unfold m2, polled. cbn [trace set_trace app].
        rewrite <- !app_assoc. reflexivity.
    + rewrite Hkeep. reflexivity.
Qed.

End Throttle.
